(** * NanOS storage core: ramdisk, ext2 driver and VFS facade

    A shallow embedding of [src/src/ramdisk.c], [src/src/blockdev.c],
    [src/src/ext2.c] and [src/src/vfs.c], followed by the properties of the
    specification that were checked against it.

    Conventions of the embedding.
    - C integers are [Z]; every place where the C code computes in
      [uint8_t], [uint16_t] or [uint32_t] wraps explicitly ([u8], [u16],
      [u32]); [int] values obtained from unsigned ones go through [to_int].
    - Memory objects (the ramdisk array, heap buffers, packed structs) are
      [list Z], one element per byte.  Packed little-endian structs are read
      and written at their byte offsets ([get_u16], [set_u32], ...), which is
      what the casts of the C code do on the i386 target.
    - A pointer into a buffer is the buffer together with an offset.  C
      leaves accesses outside an object undefined; here a read outside a
      list yields 0 and a write outside is dropped.  Theorems that depend on
      an access being in bounds say so.
    - A C string is the list of bytes the pointer designates; the first 0
      byte, or the end of the list, terminates it.
    - Pointer arguments are taken to be non-NULL; the mounted file system
      ([global_fs]) is an [option].  [kmalloc] fails for a request of 0
      bytes, as in [heap.c], and otherwise succeeds with a zero-filled
      buffer (the heap is not modelled, its contents are indeterminate in C).
    - Loops run on a fuel that the loop variant bounds. *)

From Stdlib Require Import ZArith Lia List Bool.
From stdpp Require Import base list.
Import ListNotations.
Local Open Scope Z_scope.

(** ** Machine integers and byte buffers *)

Definition u8 (x : Z) : Z := x mod 256.
Definition u16 (x : Z) : Z := x mod 65536.
Definition u32 (x : Z) : Z := x mod 4294967296.

(** Conversion of a 32-bit value to [int]. *)
Definition to_int (x : Z) : Z :=
  if u32 x <? 2147483648 then u32 x else u32 x - 4294967296.

(** A byte seen as a (signed) [char]. *)
Definition schar (x : Z) : Z :=
  if u8 x <? 128 then u8 x else u8 x - 256.

Definition byte_at (m : list Z) (i : Z) : Z := default 0 (m !! Z.to_nat i).

Definition get_u8 (m : list Z) (off : Z) : Z := byte_at m off.

Definition get_u16 (m : list Z) (off : Z) : Z :=
  byte_at m off + 256 * byte_at m (off + 1).

Definition get_u32 (m : list Z) (off : Z) : Z :=
  byte_at m off + 256 * byte_at m (off + 1)
  + 65536 * byte_at m (off + 2) + 16777216 * byte_at m (off + 3).

Definition set_u8 (m : list Z) (off v : Z) : list Z :=
  <[Z.to_nat off := u8 v]> m.

Definition set_u16 (m : list Z) (off v : Z) : list Z :=
  set_u8 (set_u8 m off v) (off + 1) (v / 256).

Definition set_u32 (m : list Z) (off v : Z) : list Z :=
  set_u8 (set_u8 (set_u8 (set_u8 m off v) (off + 1) (v / 256))
            (off + 2) (v / 65536)) (off + 3) (v / 16777216).

(** [memcpy_local (dest + doff, src + soff, n)] of ramdisk.c and ext2.c. *)
Definition memcpy_local (dest : list Z) (doff : Z) (src : list Z) (soff n : Z)
  : list Z :=
  list_inserts (Z.to_nat doff) (take (Z.to_nat n) (drop (Z.to_nat soff) src)) dest.

(** [memset_local (dest + doff, c, n)]. *)
Definition memset_local (dest : list Z) (doff c n : Z) : list Z :=
  list_inserts (Z.to_nat doff) (replicate (Z.to_nat n) (u8 c)) dest.

(** [kmalloc] of heap.c: NULL for a request of 0 bytes. *)
Definition kmalloc (size : Z) : option (list Z) :=
  if size =? 0 then None else Some (replicate (Z.to_nat size) 0).

(** ** String helpers (the static copies in vfs.c and ext2.c are identical) *)

Fixpoint strlen_local (s : list Z) : Z :=
  match s with
  | [] => 0
  | c :: s' => if c =? 0 then 0 else 1 + strlen_local s'
  end.

Fixpoint strcmp_local (a b : list Z) : Z :=
  match a, b with
  | x :: a', y :: b' =>
      if negb (x =? 0) && negb (y =? 0) && (x =? y) then strcmp_local a' b'
      else schar x - schar y
  | x :: _, [] => schar x - 0
  | [], y :: _ => 0 - schar y
  | [], [] => 0
  end.

(** The bytes [strcpy_local] stores before the terminator. *)
Fixpoint strcpy_local (src : list Z) : list Z :=
  match src with
  | [] => []
  | c :: src' => if c =? 0 then [] else c :: strcpy_local src'
  end.

Definition slash : Z := 47.

(** ** The RAM-backed block device (ramdisk.c, blockdev.c) *)

Definition RAMDISK_BLOCK_SIZE : Z := 512.

Record ramdisk_data_t := mk_ramdisk {
  rd_data : list Z;
  rd_size : Z;
  rd_block_count : Z
}.

Definition ramdisk_read (ramdisk : ramdisk_data_t) (block count : Z)
    (buffer : list Z) : Z * list Z :=
  if rd_block_count ramdisk <=? block then (-1, buffer)
  else if rd_block_count ramdisk <? u32 (block + count) then (-1, buffer)
  else
    let offset := u32 (block * RAMDISK_BLOCK_SIZE) in
    let bytes := u32 (count * RAMDISK_BLOCK_SIZE) in
    (0, memcpy_local buffer 0 (rd_data ramdisk) offset bytes).

Definition ramdisk_write (ramdisk : ramdisk_data_t) (block count : Z)
    (buffer : list Z) : Z * ramdisk_data_t :=
  if rd_block_count ramdisk <=? block then (-1, ramdisk)
  else if rd_block_count ramdisk <? u32 (block + count) then (-1, ramdisk)
  else
    let offset := u32 (block * RAMDISK_BLOCK_SIZE) in
    let bytes := u32 (count * RAMDISK_BLOCK_SIZE) in
    (0, mk_ramdisk (memcpy_local (rd_data ramdisk) offset buffer 0 bytes)
                   (rd_size ramdisk) (rd_block_count ramdisk)).

Definition ramdisk_get_block_size (ramdisk : ramdisk_data_t) : Z :=
  RAMDISK_BLOCK_SIZE.

(** The [ramdisk_data_t] that [ramdisk_create] fills in: the size is
    rounded up to a whole number of blocks and the storage is zeroed.  The
    three allocations of the call and its [return NULL] paths are in
    [ramdisk_device], on the heap of heap.c. *)
Definition ramdisk_create (size : Z) : ramdisk_data_t :=
  let size := if size =? 0 then 256 * 1024 else size in
  let size := Z.land (u32 (size + RAMDISK_BLOCK_SIZE - 1))
                     (u32 (Z.lnot (RAMDISK_BLOCK_SIZE - 1))) in
  mk_ramdisk (replicate (Z.to_nat size) 0) size (size / RAMDISK_BLOCK_SIZE).

(** A block device whose operations table is [ramdisk_ops]. *)
Record blockdev_t := mk_blockdev {
  device_data : ramdisk_data_t;
  dev_block_count : Z;
  dev_block_size : Z
}.

Definition blockdev_read (dev : blockdev_t) (block count : Z) (buffer : list Z)
  : Z * list Z :=
  ramdisk_read (device_data dev) block count buffer.

Definition blockdev_write (dev : blockdev_t) (block count : Z) (buffer : list Z)
  : Z * blockdev_t :=
  let '(res, rd) := ramdisk_write (device_data dev) block count buffer in
  (res, mk_blockdev rd (dev_block_count dev) (dev_block_size dev)).

Definition blockdev_get_block_size (dev : blockdev_t) : Z :=
  ramdisk_get_block_size (device_data dev).

(** ** ext2 on-disk layout (ext2.h) *)

Definition EXT2_MAGIC : Z := 61267.            (* 0xEF53 *)
Definition EXT2_SUPERBLOCK_OFFSET : Z := 1024.
Definition EXT2_S_IFLNK : Z := 40960.          (* 0xA000 *)
Definition EXT2_S_IFREG : Z := 32768.          (* 0x8000 *)
Definition EXT2_S_IFDIR : Z := 16384.          (* 0x4000 *)
Definition EXT2_FT_REG_FILE : Z := 1.
Definition EXT2_FT_DIR : Z := 2.
Definition EXT2_FT_SYMLINK : Z := 7.
Definition EXT2_ROOT_INO : Z := 2.

Definition VFS_TYPE_FILE : Z := 1.
Definition VFS_TYPE_DIR : Z := 2.
Definition VFS_TYPE_SYMLINK : Z := 3.
Definition MAX_SYMLINK_DEPTH : Z := 8.

(** Field accessors of [ext2_superblock_t] (packed, 1024 bytes). *)
Definition s_blocks_count (sb : list Z) : Z := get_u32 sb 4.
Definition s_free_blocks_count (sb : list Z) : Z := get_u32 sb 12.
Definition s_free_inodes_count (sb : list Z) : Z := get_u32 sb 16.
Definition s_first_data_block (sb : list Z) : Z := get_u32 sb 20.
Definition s_log_block_size (sb : list Z) : Z := get_u32 sb 24.
Definition s_blocks_per_group (sb : list Z) : Z := get_u32 sb 32.
Definition s_inodes_per_group (sb : list Z) : Z := get_u32 sb 40.
Definition s_magic (sb : list Z) : Z := get_u16 sb 56.

(** [EXT2_BLOCK_SIZE(s)], stored in a [uint32_t]. *)
Definition EXT2_BLOCK_SIZE (sb : list Z) : Z :=
  u32 (Z.shiftl 1024 (s_log_block_size sb)).

(** Field accessors of [ext2_block_group_desc_t] (packed, 32 bytes), in the
    descriptor array [bgs]. *)
Definition BGD_SIZE : Z := 32.
Definition bg_block_bitmap (bgs : list Z) (group : Z) : Z :=
  get_u32 bgs (group * BGD_SIZE).
Definition bg_inode_bitmap (bgs : list Z) (group : Z) : Z :=
  get_u32 bgs (group * BGD_SIZE + 4).
Definition bg_inode_table (bgs : list Z) (group : Z) : Z :=
  get_u32 bgs (group * BGD_SIZE + 8).
Definition bg_free_blocks_count (bgs : list Z) (group : Z) : Z :=
  get_u16 bgs (group * BGD_SIZE + 12).
Definition bg_free_inodes_count (bgs : list Z) (group : Z) : Z :=
  get_u16 bgs (group * BGD_SIZE + 14).

(** Field accessors of [ext2_inode_t] (packed, 128 bytes). *)
Definition INODE_SIZE : Z := 128.
Definition i_mode (ino : list Z) : Z := get_u16 ino 0.
Definition i_uid (ino : list Z) : Z := get_u16 ino 2.
Definition i_size (ino : list Z) : Z := get_u32 ino 4.
Definition i_atime (ino : list Z) : Z := get_u32 ino 8.
Definition i_ctime (ino : list Z) : Z := get_u32 ino 12.
Definition i_mtime (ino : list Z) : Z := get_u32 ino 16.
Definition i_gid (ino : list Z) : Z := get_u16 ino 24.
Definition i_links_count (ino : list Z) : Z := get_u16 ino 26.
Definition i_blocks (ino : list Z) : Z := get_u32 ino 28.
Definition I_BLOCK_OFF : Z := 40.
Definition i_block (ino : list Z) (k : Z) : Z := get_u32 ino (I_BLOCK_OFF + 4 * k).

Definition set_i_mode (ino : list Z) (v : Z) : list Z := set_u16 ino 0 v.
Definition set_i_uid (ino : list Z) (v : Z) : list Z := set_u16 ino 2 v.
Definition set_i_size (ino : list Z) (v : Z) : list Z := set_u32 ino 4 v.
Definition set_i_atime (ino : list Z) (v : Z) : list Z := set_u32 ino 8 v.
Definition set_i_ctime (ino : list Z) (v : Z) : list Z := set_u32 ino 12 v.
Definition set_i_mtime (ino : list Z) (v : Z) : list Z := set_u32 ino 16 v.
Definition set_i_gid (ino : list Z) (v : Z) : list Z := set_u16 ino 24 v.
Definition set_i_links_count (ino : list Z) (v : Z) : list Z := set_u16 ino 26 v.
Definition set_i_blocks (ino : list Z) (v : Z) : list Z := set_u32 ino 28 v.
Definition set_i_block (ino : list Z) (k v : Z) : list Z :=
  set_u32 ino (I_BLOCK_OFF + 4 * k) v.

(** Field accessors of [ext2_dir_entry_t] at byte [off] of a buffer. *)
Definition de_inode (buf : list Z) (off : Z) : Z := get_u32 buf off.
Definition de_rec_len (buf : list Z) (off : Z) : Z := get_u16 buf (off + 4).
Definition de_name_len (buf : list Z) (off : Z) : Z := get_u8 buf (off + 6).
Definition de_file_type (buf : list Z) (off : Z) : Z := get_u8 buf (off + 7).
Definition DE_NAME_OFF : Z := 8.

(** ** The mounted file system ([ext2_fs_t]) *)

Record ext2_fs_t := mk_fs {
  device : blockdev_t;
  superblock : list Z;
  block_groups : list Z;
  block_size : Z;
  blocks_per_group : Z;
  inodes_per_group : Z;
  num_block_groups : Z
}.

Definition set_device (fs : ext2_fs_t) (dev : blockdev_t) : ext2_fs_t :=
  mk_fs dev (superblock fs) (block_groups fs) (block_size fs)
        (blocks_per_group fs) (inodes_per_group fs) (num_block_groups fs).

Definition set_superblock (fs : ext2_fs_t) (sb : list Z) : ext2_fs_t :=
  mk_fs (device fs) sb (block_groups fs) (block_size fs)
        (blocks_per_group fs) (inodes_per_group fs) (num_block_groups fs).

Definition set_block_groups (fs : ext2_fs_t) (bgs : list Z) : ext2_fs_t :=
  mk_fs (device fs) (superblock fs) bgs (block_size fs)
        (blocks_per_group fs) (inodes_per_group fs) (num_block_groups fs).

(** ** ext2.c: reading *)

Definition ext2_read_blocks (fs : ext2_fs_t) (block count : Z) (buffer : list Z)
  : Z * list Z :=
  let blocks_per_fs_block :=
    block_size fs / blockdev_get_block_size (device fs) in
  let device_block := u32 (block * blocks_per_fs_block) in
  let device_count := u32 (count * blocks_per_fs_block) in
  blockdev_read (device fs) device_block device_count buffer.

Definition ext2_init (dev : blockdev_t) : option ext2_fs_t :=
  match kmalloc 1024 with
  | None => None
  | Some sb0 =>
    let superblock_block := EXT2_SUPERBLOCK_OFFSET / blockdev_get_block_size dev in
    let '(r, sb) := blockdev_read dev superblock_block 2 sb0 in
    if negb (r =? 0) then None
    else if negb (s_magic sb =? EXT2_MAGIC) then None
    else
      let bs := EXT2_BLOCK_SIZE sb in
      let bpg := s_blocks_per_group sb in
      let ipg := s_inodes_per_group sb in
      let ngroups := u32 (s_blocks_count sb + bpg - 1) / bpg in
      let bgd_blocks := u32 (u32 (ngroups * BGD_SIZE) + bs - 1) / bs in
      match kmalloc (u32 (bgd_blocks * bs)) with
      | None => None
      | Some bg0 =>
        let fs := mk_fs dev sb bg0 bs bpg ipg ngroups in
        let bgd_block := u32 (s_first_data_block sb + 1) in
        let '(r2, bgs) := ext2_read_blocks fs bgd_block bgd_blocks bg0 in
        if negb (r2 =? 0) then None
        else Some (set_block_groups fs bgs)
      end
  end.

Definition ext2_read_inode (fs : ext2_fs_t) (inode_num : Z) : option (list Z) :=
  if inode_num =? 0 then None
  else
    let group := u32 (inode_num - 1) / inodes_per_group fs in
    let offset := u32 (inode_num - 1) mod inodes_per_group fs in
    if num_block_groups fs <=? group then None
    else
      let inode_table_block := bg_inode_table (block_groups fs) group in
      let inodes_per_block := block_size fs / INODE_SIZE in
      let block_offset := offset / inodes_per_block in
      let inode_offset := offset mod inodes_per_block in
      match kmalloc (block_size fs) with
      | None => None
      | Some buf0 =>
        let '(r, block_buffer) :=
          ext2_read_blocks fs (u32 (inode_table_block + block_offset)) 1 buf0 in
        if negb (r =? 0) then None
        else Some (memcpy_local (replicate (Z.to_nat INODE_SIZE) 0) 0
                                block_buffer (inode_offset * INODE_SIZE) INODE_SIZE)
      end.

Definition ext2_read_data_block (fs : ext2_fs_t) (inode : list Z)
    (block_index : Z) (buffer : list Z) : Z * list Z :=
  if block_index <? 12 then
    let block_num := i_block inode block_index in
    if block_num =? 0 then (-1, buffer)
    else ext2_read_blocks fs block_num 1 buffer
  else if block_index <? u32 (12 + block_size fs / 4) then
    let indirect_block := i_block inode 12 in
    if indirect_block =? 0 then (-1, buffer)
    else
      match kmalloc (block_size fs) with
      | None => (-1, buffer)
      | Some ib0 =>
        let '(r, indirect_buffer) := ext2_read_blocks fs indirect_block 1 ib0 in
        if negb (r =? 0) then (-1, buffer)
        else
          let block_num := get_u32 indirect_buffer (4 * (block_index - 12)) in
          if block_num =? 0 then (-1, buffer)
          else ext2_read_blocks fs block_num 1 buffer
      end
  else (-1, buffer).

(** The body of the [while (bytes_read < size)] loop of [ext2_read_file];
    every turn copies at least one byte, so [size] turns are enough. *)
Fixpoint read_file_loop (fuel : nat) (fs : ext2_fs_t) (inode : list Z)
    (offset size bytes_read : Z) (out_buffer : list Z) : Z * list Z :=
  match fuel with
  | O => (to_int bytes_read, out_buffer)
  | S fuel' =>
    if bytes_read <? size then
      let block_index := u32 (offset + bytes_read) / block_size fs in
      let block_offset := u32 (offset + bytes_read) mod block_size fs in
      let bytes_to_read :=
        if size - bytes_read <? block_size fs - block_offset
        then size - bytes_read else block_size fs - block_offset in
      match kmalloc (block_size fs) with
      | None => (-1, out_buffer)
      | Some buf0 =>
        let '(r, block_buffer) := ext2_read_data_block fs inode block_index buf0 in
        if negb (r =? 0) then (-1, out_buffer)
        else
          read_file_loop fuel' fs inode offset size (bytes_read + bytes_to_read)
            (memcpy_local out_buffer bytes_read block_buffer block_offset bytes_to_read)
      end
    else (to_int bytes_read, out_buffer)
  end.

Definition ext2_read_file (fs : ext2_fs_t) (inode : list Z) (offset size : Z)
    (buffer : list Z) : Z * list Z :=
  if i_size inode <=? offset then (0, buffer)
  else
    let file_size := i_size inode in
    let size := if file_size <? u32 (offset + size) then file_size - offset else size in
    read_file_loop (Z.to_nat size) fs inode offset size 0 buffer.

(** The directory walk of [ext2_find_dir_entry]; [rec_len] is at least 1
    on every turn, so [dir_size] turns are enough. *)
Fixpoint find_dir_loop (fuel : nat) (dir_buffer : list Z) (dir_size : Z)
    (name : list Z) (offset : Z) : option Z :=
  match fuel with
  | O => None
  | S fuel' =>
    if offset <? dir_size then
      if de_rec_len dir_buffer offset =? 0 then None
      else
        let next := u32 (offset + de_rec_len dir_buffer offset) in
        if negb (de_inode dir_buffer offset =? 0)
           && (de_name_len dir_buffer offset =? strlen_local name)
        then
          let entry_name :=
            memcpy_local (replicate (Z.to_nat (de_name_len dir_buffer offset)) 0) 0
              dir_buffer (offset + DE_NAME_OFF) (de_name_len dir_buffer offset) in
          if strcmp_local entry_name name =? 0
          then Some (de_inode dir_buffer offset)
          else find_dir_loop fuel' dir_buffer dir_size name next
        else find_dir_loop fuel' dir_buffer dir_size name next
    else None
  end.

(** [ext2_find_dir_entry]: [Some inode] for 0 with [*out_inode], [None] for -1. *)
Definition ext2_find_dir_entry (fs : ext2_fs_t) (dir_inode : list Z)
    (name : list Z) : option Z :=
  if Z.land (i_mode dir_inode) EXT2_S_IFDIR =? 0 then None
  else
    let dir_size := i_size dir_inode in
    match kmalloc dir_size with
    | None => None
    | Some buf0 =>
      let '(r, dir_buffer) := ext2_read_file fs dir_inode 0 dir_size buf0 in
      if negb (r =? to_int dir_size) then None
      else find_dir_loop (Z.to_nat dir_size) dir_buffer dir_size name 0
    end.

Definition ext2_read_symlink (fs : ext2_fs_t) (inode : list Z) (max_len : Z)
  : option (list Z) :=
  if max_len =? 0 then None
  else if negb (Z.land (i_mode inode) EXT2_S_IFLNK =? EXT2_S_IFLNK) then None
  else
    let link_len := if max_len <=? i_size inode then max_len - 1 else i_size inode in
    if link_len <=? 60 then
      Some (memcpy_local (replicate (Z.to_nat link_len) 0) 0 inode I_BLOCK_OFF link_len)
    else
      let '(r, buffer) :=
        ext2_read_file fs inode 0 link_len (replicate (Z.to_nat link_len) 0) in
      if negb (r =? to_int link_len) then None else Some buffer.

Fixpoint is_dir_empty_loop (fuel : nat) (dir_buffer : list Z) (dir_size : Z)
    (offset entry_count : Z) : Z :=
  match fuel with
  | O => entry_count
  | S fuel' =>
    if offset <? dir_size then
      if de_rec_len dir_buffer offset =? 0 then entry_count
      else
        let next := u32 (offset + de_rec_len dir_buffer offset) in
        if negb (de_inode dir_buffer offset =? 0) then
          let entry_name :=
            memcpy_local (replicate (Z.to_nat (de_name_len dir_buffer offset)) 0) 0
              dir_buffer (offset + DE_NAME_OFF) (de_name_len dir_buffer offset) in
          if negb (strcmp_local entry_name [46] =? 0)
             && negb (strcmp_local entry_name [46; 46] =? 0)
          then is_dir_empty_loop fuel' dir_buffer dir_size next (entry_count + 1)
          else is_dir_empty_loop fuel' dir_buffer dir_size next entry_count
        else is_dir_empty_loop fuel' dir_buffer dir_size next entry_count
    else entry_count
  end.

Definition ext2_is_dir_empty (fs : ext2_fs_t) (dir_inode : list Z) : Z :=
  if Z.land (i_mode dir_inode) EXT2_S_IFDIR =? 0 then -1
  else
    let dir_size := i_size dir_inode in
    match kmalloc dir_size with
    | None => -1
    | Some buf0 =>
      let '(r, dir_buffer) := ext2_read_file fs dir_inode 0 dir_size buf0 in
      if negb (r =? to_int dir_size) then -1
      else if is_dir_empty_loop (Z.to_nat dir_size) dir_buffer dir_size 0 0 =? 0
           then 1 else 0
    end.

(** One directory lookup of the path walk: read the current inode, find the
    component in it.  [None] is the [return 0] of the walk. *)
Definition path_step (fs : ext2_fs_t) (current_inode : Z) (component : list Z)
  : option Z :=
  match ext2_read_inode fs current_inode with
  | None => None
  | Some dir_inode => ext2_find_dir_entry fs dir_inode component
  end.

(** The character loop of [ext2_path_to_inode] together with the
    handling of the final component; [component] holds the [comp_idx]
    bytes gathered so far. *)
Fixpoint path_loop (fs : ext2_fs_t) (path : list Z) (component : list Z)
    (current_inode : Z) : Z :=
  let finish :=
    if 0 <? Z.of_nat (length component) then
      match path_step fs current_inode component with
      | None => 0
      | Some ino => ino
      end
    else current_inode in
  match path with
  | [] => finish
  | c :: path' =>
    if c =? 0 then finish
    else if c =? slash then
      if 0 <? Z.of_nat (length component) then
        match path_step fs current_inode component with
        | None => 0
        | Some ino => path_loop fs path' [] ino
        end
      else path_loop fs path' component current_inode
    else
      if Z.of_nat (length component) <? 255
      then path_loop fs path' (component ++ [c]) current_inode
      else path_loop fs path' component current_inode
  end.

Definition ext2_path_to_inode (fs : ext2_fs_t) (path : list Z) : Z :=
  if strcmp_local path [slash] =? 0 then EXT2_ROOT_INO
  else
    let path := if byte_at path 0 =? slash then drop 1 path else path in
    path_loop fs path [] EXT2_ROOT_INO.

(** ** ext2.c: writing *)

Definition ext2_write_blocks (fs : ext2_fs_t) (block count : Z) (buffer : list Z)
  : Z * ext2_fs_t :=
  let blocks_per_fs_block :=
    block_size fs / blockdev_get_block_size (device fs) in
  let device_block := u32 (block * blocks_per_fs_block) in
  let device_count := u32 (count * blocks_per_fs_block) in
  let '(res, dev) := blockdev_write (device fs) device_block device_count buffer in
  (res, set_device fs dev).

(** [bitmap[byte] & (1 << bit)] *)
Definition bitmap_test (bitmap : list Z) (i : Z) : Z :=
  Z.land (byte_at bitmap (i / 8)) (Z.shiftl 1 (i mod 8)).

(** [bitmap[byte] |= (1 << bit)] *)
Definition bitmap_set (bitmap : list Z) (i : Z) : list Z :=
  set_u8 bitmap (i / 8) (Z.lor (byte_at bitmap (i / 8)) (Z.shiftl 1 (i mod 8))).

(** [bitmap[byte] &= ~(1 << bit)] *)
Definition bitmap_clear (bitmap : list Z) (i : Z) : list Z :=
  set_u8 bitmap (i / 8)
    (Z.land (byte_at bitmap (i / 8)) (Z.lnot (Z.shiftl 1 (i mod 8)))).

Definition dec_free_blocks (fs : ext2_fs_t) (group : Z) : ext2_fs_t :=
  let fs1 := set_block_groups fs
    (set_u16 (block_groups fs) (group * BGD_SIZE + 12)
             (bg_free_blocks_count (block_groups fs) group - 1)) in
  set_superblock fs1
    (set_u32 (superblock fs1) 12 (s_free_blocks_count (superblock fs1) - 1)).

Definition inc_free_blocks (fs : ext2_fs_t) (group : Z) : ext2_fs_t :=
  let fs1 := set_block_groups fs
    (set_u16 (block_groups fs) (group * BGD_SIZE + 12)
             (bg_free_blocks_count (block_groups fs) group + 1)) in
  set_superblock fs1
    (set_u32 (superblock fs1) 12 (s_free_blocks_count (superblock fs1) + 1)).

Definition dec_free_inodes (fs : ext2_fs_t) (group : Z) : ext2_fs_t :=
  let fs1 := set_block_groups fs
    (set_u16 (block_groups fs) (group * BGD_SIZE + 14)
             (bg_free_inodes_count (block_groups fs) group - 1)) in
  set_superblock fs1
    (set_u32 (superblock fs1) 16 (s_free_inodes_count (superblock fs1) - 1)).

Definition inc_free_inodes (fs : ext2_fs_t) (group : Z) : ext2_fs_t :=
  let fs1 := set_block_groups fs
    (set_u16 (block_groups fs) (group * BGD_SIZE + 14)
             (bg_free_inodes_count (block_groups fs) group + 1)) in
  set_superblock fs1
    (set_u32 (superblock fs1) 16 (s_free_inodes_count (superblock fs1) + 1)).

(** The inner [for (i = 0; i < blocks_per_group; ++i)] loop of
    [ext2_alloc_block].  A failed write-back [continue]s this loop with the
    bit still set in the buffer. *)
Fixpoint alloc_block_bits (fuel : nat) (fs : ext2_fs_t) (group : Z)
    (bitmap : list Z) (i : Z) : option Z * ext2_fs_t :=
  match fuel with
  | O => (None, fs)
  | S fuel' =>
    if i <? blocks_per_group fs then
      if bitmap_test bitmap i =? 0 then
        let bitmap' := bitmap_set bitmap i in
        let '(r, fs1) :=
          ext2_write_blocks fs (bg_block_bitmap (block_groups fs) group) 1 bitmap' in
        if negb (r =? 0) then alloc_block_bits fuel' fs1 group bitmap' (i + 1)
        else
          (Some (u32 (group * blocks_per_group fs1 + i
                      + s_first_data_block (superblock fs1))),
           dec_free_blocks fs1 group)
      else alloc_block_bits fuel' fs group bitmap (i + 1)
    else (None, fs)
  end.

Fixpoint alloc_block_groups (fuel : nat) (fs : ext2_fs_t) (group : Z)
  : Z * ext2_fs_t :=
  match fuel with
  | O => (0, fs)
  | S fuel' =>
    if group <? num_block_groups fs then
      match kmalloc (block_size fs) with
      | None => alloc_block_groups fuel' fs (group + 1)
      | Some bm0 =>
        let '(r, bitmap) :=
          ext2_read_blocks fs (bg_block_bitmap (block_groups fs) group) 1 bm0 in
        if negb (r =? 0) then alloc_block_groups fuel' fs (group + 1)
        else
          match alloc_block_bits (Z.to_nat (blocks_per_group fs)) fs group bitmap 0 with
          | (Some b, fs') => (b, fs')
          | (None, fs') => alloc_block_groups fuel' fs' (group + 1)
          end
      end
    else (0, fs)
  end.

Definition ext2_alloc_block (fs : ext2_fs_t) : Z * ext2_fs_t :=
  alloc_block_groups (Z.to_nat (num_block_groups fs)) fs 0.

Definition ext2_free_block (fs : ext2_fs_t) (block_num : Z) : Z * ext2_fs_t :=
  if block_num <? s_first_data_block (superblock fs) then (-1, fs)
  else
    let rel := block_num - s_first_data_block (superblock fs) in
    let group := rel / blocks_per_group fs in
    let index := rel mod blocks_per_group fs in
    match kmalloc (block_size fs) with
    | None => (-1, fs)
    | Some bm0 =>
      let '(r, bitmap) :=
        ext2_read_blocks fs (bg_block_bitmap (block_groups fs) group) 1 bm0 in
      if negb (r =? 0) then (-1, fs)
      else
        let '(res, fs1) :=
          ext2_write_blocks fs (bg_block_bitmap (block_groups fs) group) 1
                            (bitmap_clear bitmap index) in
        if res =? 0 then (res, inc_free_blocks fs1 group) else (res, fs1)
    end.

Fixpoint alloc_inode_bits (fuel : nat) (fs : ext2_fs_t) (group : Z)
    (bitmap : list Z) (i : Z) : option Z * ext2_fs_t :=
  match fuel with
  | O => (None, fs)
  | S fuel' =>
    if i <? inodes_per_group fs then
      if bitmap_test bitmap i =? 0 then
        let bitmap' := bitmap_set bitmap i in
        let '(r, fs1) :=
          ext2_write_blocks fs (bg_inode_bitmap (block_groups fs) group) 1 bitmap' in
        if negb (r =? 0) then alloc_inode_bits fuel' fs1 group bitmap' (i + 1)
        else
          (Some (u32 (group * inodes_per_group fs1 + i + 1)),
           dec_free_inodes fs1 group)
      else alloc_inode_bits fuel' fs group bitmap (i + 1)
    else (None, fs)
  end.

Fixpoint alloc_inode_groups (fuel : nat) (fs : ext2_fs_t) (group : Z)
  : Z * ext2_fs_t :=
  match fuel with
  | O => (0, fs)
  | S fuel' =>
    if group <? num_block_groups fs then
      match kmalloc (block_size fs) with
      | None => alloc_inode_groups fuel' fs (group + 1)
      | Some bm0 =>
        let '(r, bitmap) :=
          ext2_read_blocks fs (bg_inode_bitmap (block_groups fs) group) 1 bm0 in
        if negb (r =? 0) then alloc_inode_groups fuel' fs (group + 1)
        else
          match alloc_inode_bits (Z.to_nat (inodes_per_group fs)) fs group bitmap 0 with
          | (Some n, fs') => (n, fs')
          | (None, fs') => alloc_inode_groups fuel' fs' (group + 1)
          end
      end
    else (0, fs)
  end.

Definition ext2_alloc_inode (fs : ext2_fs_t) : Z * ext2_fs_t :=
  alloc_inode_groups (Z.to_nat (num_block_groups fs)) fs 0.

Definition ext2_free_inode (fs : ext2_fs_t) (inode_num : Z) : Z * ext2_fs_t :=
  if inode_num =? 0 then (-1, fs)
  else
    let group := u32 (inode_num - 1) / inodes_per_group fs in
    let index := u32 (inode_num - 1) mod inodes_per_group fs in
    match kmalloc (block_size fs) with
    | None => (-1, fs)
    | Some bm0 =>
      let '(r, bitmap) :=
        ext2_read_blocks fs (bg_inode_bitmap (block_groups fs) group) 1 bm0 in
      if negb (r =? 0) then (-1, fs)
      else
        let '(res, fs1) :=
          ext2_write_blocks fs (bg_inode_bitmap (block_groups fs) group) 1
                            (bitmap_clear bitmap index) in
        if res =? 0 then (res, inc_free_inodes fs1 group) else (res, fs1)
    end.

Definition ext2_write_inode (fs : ext2_fs_t) (inode_num : Z) (inode : list Z)
  : Z * ext2_fs_t :=
  if inode_num =? 0 then (-1, fs)
  else
    let group := u32 (inode_num - 1) / inodes_per_group fs in
    let offset := u32 (inode_num - 1) mod inodes_per_group fs in
    if num_block_groups fs <=? group then (-1, fs)
    else
      let inode_table_block := bg_inode_table (block_groups fs) group in
      let inodes_per_block := block_size fs / INODE_SIZE in
      let block_offset := offset / inodes_per_block in
      let inode_offset := offset mod inodes_per_block in
      match kmalloc (block_size fs) with
      | None => (-1, fs)
      | Some buf0 =>
        let '(r, block_buffer) :=
          ext2_read_blocks fs (u32 (inode_table_block + block_offset)) 1 buf0 in
        if negb (r =? 0) then (-1, fs)
        else
          ext2_write_blocks fs (u32 (inode_table_block + block_offset)) 1
            (memcpy_local block_buffer (inode_offset * INODE_SIZE) inode 0 INODE_SIZE)
      end.

(** [8 + ((name_len + 3) & ~3)] *)
Definition dir_actual_len (name_len : Z) : Z :=
  8 + Z.land (name_len + 3) (Z.lnot 3).

(** The entry scan of one block in [ext2_add_dir_entry]: [Some block'] when
    an entry with [rec_len > actual_len] was split, [None] when the scan
    runs off the block. *)
Fixpoint add_dir_scan (fuel : nat) (fs : ext2_fs_t) (block : list Z)
    (offset new_inode_num : Z) (name : list Z) (name_len type : Z)
  : option (list Z) :=
  match fuel with
  | O => None
  | S fuel' =>
    if offset <? block_size fs then
      if de_rec_len block offset =? 0 then None
      else
        let actual_len := dir_actual_len (de_name_len block offset) in
        if actual_len <? de_rec_len block offset then
          let new_rec_len := u16 (de_rec_len block offset - actual_len) in
          let block := set_u16 block (offset + 4) actual_len in
          let new_entry := offset + actual_len in
          let block := set_u32 block new_entry new_inode_num in
          let block := set_u16 block (new_entry + 4) new_rec_len in
          let block := set_u8 block (new_entry + 6) name_len in
          let block := set_u8 block (new_entry + 7) type in
          Some (memcpy_local block (new_entry + DE_NAME_OFF) name 0 name_len)
        else
          add_dir_scan fuel' fs block (u32 (offset + de_rec_len block offset))
                       new_inode_num name name_len type
    else None
  end.

(** The [for (b = 0; b < block_count; ++b)] loop of [ext2_add_dir_entry]:
    [Some (res, fs')] when the function returned from inside the loop. *)
Fixpoint add_dir_blocks (fuel : nat) (fs : ext2_fs_t) (dir_inode : list Z)
    (b block_count : Z) (block : list Z) (new_inode_num : Z) (name : list Z)
    (name_len type : Z) : option (Z * ext2_fs_t) :=
  match fuel with
  | O => None
  | S fuel' =>
    if b <? block_count then
      let '(r, block1) := ext2_read_data_block fs dir_inode b block in
      if negb (r =? 0) then
        add_dir_blocks fuel' fs dir_inode (b + 1) block_count block1
                       new_inode_num name name_len type
      else
        match add_dir_scan (Z.to_nat (block_size fs)) fs block1 0
                           new_inode_num name name_len type with
        | Some block2 => Some (ext2_write_blocks fs (i_block dir_inode b) 1 block2)
        | None =>
          add_dir_blocks fuel' fs dir_inode (b + 1) block_count block1
                         new_inode_num name name_len type
        end
    else None
  end.

(** The [for (i = 0; i < 12; ++i)] loop that attaches the new block to the
    first empty direct slot. *)
Fixpoint attach_block (fuel : nat) (dir_inode : list Z) (i new_block : Z)
  : list Z :=
  match fuel with
  | O => dir_inode
  | S fuel' =>
    if i <? 12 then
      if i_block dir_inode i =? 0 then set_i_block dir_inode i new_block
      else attach_block fuel' dir_inode (i + 1) new_block
    else dir_inode
  end.

(** [ext2_add_dir_entry]: result, file system, and the caller's [dir_inode]. *)
Definition ext2_add_dir_entry (fs : ext2_fs_t) (dir_inode : list Z)
    (dir_inode_num new_inode_num : Z) (name : list Z) (type : Z)
  : Z * ext2_fs_t * list Z :=
  if new_inode_num =? 0 then (-1, fs, dir_inode)
  else
    let name_len := strlen_local name in
    if (name_len =? 0) || (255 <? name_len) then (-1, fs, dir_inode)
    else
      let dir_size := i_size dir_inode in
      let block_count := u32 (dir_size + block_size fs - 1) / block_size fs in
      match kmalloc (block_size fs) with
      | None => (-1, fs, dir_inode)
      | Some block0 =>
        match add_dir_blocks (Z.to_nat block_count) fs dir_inode 0 block_count
                             block0 new_inode_num name name_len type with
        | Some (res, fs') => (res, fs', dir_inode)
        | None =>
          let '(new_block, fs1) := ext2_alloc_block fs in
          if new_block =? 0 then (-1, fs1, dir_inode)
          else
            let block := memset_local block0 0 0 (block_size fs1) in
            let block := set_u32 block 0 new_inode_num in
            let block := set_u16 block 4 (block_size fs1) in
            let block := set_u8 block 6 name_len in
            let block := set_u8 block 7 type in
            let block := memcpy_local block DE_NAME_OFF name 0 name_len in
            let dir_inode := attach_block 12 dir_inode 0 new_block in
            let dir_inode :=
              set_i_size dir_inode (i_size dir_inode + block_size fs1) in
            let '(res, fs2) := ext2_write_blocks fs1 new_block 1 block in
            let '(_, fs3) := ext2_write_inode fs2 dir_inode_num dir_inode in
            (res, fs3, dir_inode)
        end
      end.

(** The entry scan of one block in [ext2_remove_dir_entry].  [prev] is
    [prev_entry] ([None] for NULL).  The name is compared with
    [strcmp_local] on the entry's bytes in place, which are not
    NUL-terminated on disk. *)
Fixpoint remove_dir_scan (fuel : nat) (fs : ext2_fs_t) (block : list Z)
    (offset : Z) (prev : option Z) (name : list Z) (name_len : Z)
  : option (list Z) :=
  match fuel with
  | O => None
  | S fuel' =>
    if offset <? block_size fs then
      if de_rec_len block offset =? 0 then None
      else if negb (de_inode block offset =? 0)
              && (de_name_len block offset =? name_len)
              && (strcmp_local (drop (Z.to_nat (offset + DE_NAME_OFF)) block) name =? 0)
      then
        match prev with
        | Some p =>
          Some (set_u16 block (p + 4) (de_rec_len block p + de_rec_len block offset))
        | None => Some (set_u32 block offset 0)
        end
      else
        remove_dir_scan fuel' fs block (u32 (offset + de_rec_len block offset))
                        (Some offset) name name_len
    else None
  end.

Fixpoint remove_dir_blocks (fuel : nat) (fs : ext2_fs_t) (dir_inode : list Z)
    (b block_count : Z) (block : list Z) (name : list Z) (name_len : Z)
  : Z * ext2_fs_t :=
  match fuel with
  | O => (-1, fs)
  | S fuel' =>
    if b <? block_count then
      let '(r, block1) := ext2_read_data_block fs dir_inode b block in
      if negb (r =? 0) then
        remove_dir_blocks fuel' fs dir_inode (b + 1) block_count block1 name name_len
      else
        match remove_dir_scan (Z.to_nat (block_size fs)) fs block1 0 None
                              name name_len with
        | Some block2 => ext2_write_blocks fs (i_block dir_inode b) 1 block2
        | None =>
          remove_dir_blocks fuel' fs dir_inode (b + 1) block_count block1 name name_len
        end
    else (-1, fs)
  end.

Definition ext2_remove_dir_entry (fs : ext2_fs_t) (dir_inode : list Z)
    (dir_inode_num : Z) (name : list Z) : Z * ext2_fs_t :=
  let name_len := strlen_local name in
  if (name_len =? 0) || (255 <? name_len) then (-1, fs)
  else
    let dir_size := i_size dir_inode in
    let block_count := u32 (dir_size + block_size fs - 1) / block_size fs in
    match kmalloc (block_size fs) with
    | None => (-1, fs)
    | Some block0 =>
      remove_dir_blocks (Z.to_nat block_count) fs dir_inode 0 block_count
                        block0 name name_len
    end.

(** [ext2_mount]: fails when a file system is already mounted. *)
Definition ext2_mount (global_fs : option ext2_fs_t) (dev : blockdev_t)
  : Z * option ext2_fs_t :=
  match global_fs with
  | Some _ => (-1, global_fs)
  | None =>
    match ext2_init dev with
    | None => (-1, None)
    | Some fs => (0, Some fs)
    end
  end.

(** ** vfs.c *)

Record vfs_file_t := mk_file {
  f_inode : Z;
  f_size : Z;
  f_type : Z;
  f_position : Z;
  f_is_open : Z
}.

Record vfs_dirent_t := mk_dirent {
  d_inode : Z;
  d_name : list Z;
  d_type : Z;
  d_size : Z
}.

Definition vfs_get_type_from_mode (mode : Z) : Z :=
  if Z.land mode EXT2_S_IFDIR =? EXT2_S_IFDIR then VFS_TYPE_DIR
  else if Z.land mode EXT2_S_IFLNK =? EXT2_S_IFLNK then VFS_TYPE_SYMLINK
  else VFS_TYPE_FILE.

(** [vfs_resolve_symlink]: the bound on [depth] of the helper next to
    [vfs_open]. *)
Definition vfs_resolve_symlink (fs : ext2_fs_t) (inode_num max_len depth : Z)
  : option (list Z) :=
  if MAX_SYMLINK_DEPTH <? depth then None
  else
    match ext2_read_inode fs inode_num with
    | None => None
    | Some inode =>
      if negb (Z.land (i_mode inode) EXT2_S_IFLNK =? EXT2_S_IFLNK) then None
      else
        match ext2_read_symlink fs inode 256 with
        | None => None
        | Some target =>
          if max_len <=? strlen_local target then None
          else Some (strcpy_local target)
        end
    end.

(** The walk of [vfs_resolve_path]; the same loop as [path_loop], with
    [None] for the [return -1]. *)
Fixpoint resolve_loop (fs : ext2_fs_t) (path : list Z) (component : list Z)
    (current_inode : Z) : option Z :=
  let finish :=
    if 0 <? Z.of_nat (length component)
    then path_step fs current_inode component
    else Some current_inode in
  match path with
  | [] => finish
  | c :: path' =>
    if c =? 0 then finish
    else if c =? slash then
      if 0 <? Z.of_nat (length component) then
        match path_step fs current_inode component with
        | None => None
        | Some ino => resolve_loop fs path' [] ino
        end
      else resolve_loop fs path' component current_inode
    else
      if Z.of_nat (length component) <? 255
      then resolve_loop fs path' (component ++ [c]) current_inode
      else resolve_loop fs path' component current_inode
  end.

Definition vfs_resolve_path (global_fs : option ext2_fs_t) (path : list Z)
  : option Z :=
  match global_fs with
  | None => None
  | Some fs =>
    if strcmp_local path [slash] =? 0 then Some EXT2_ROOT_INO
    else
      let path := if byte_at path 0 =? slash then drop 1 path else path in
      resolve_loop fs path [] EXT2_ROOT_INO
  end.

(** The symlink-following loop of [vfs_open]; [depth] grows by one on
    every turn and the loop stops at [MAX_SYMLINK_DEPTH]. *)
Fixpoint open_follow (fuel : nat) (fs : ext2_fs_t) (inode_num : Z)
    (inode : list Z) (depth : Z) : option (Z * list Z * Z) :=
  match fuel with
  | O => Some (inode_num, inode, depth)
  | S fuel' =>
    if (Z.land (i_mode inode) EXT2_S_IFLNK =? EXT2_S_IFLNK)
       && (depth <? MAX_SYMLINK_DEPTH)
    then
      match ext2_read_symlink fs inode 256 with
      | None => None
      | Some target =>
        let inode_num' := ext2_path_to_inode fs target in
        if inode_num' =? 0 then None
        else
          match ext2_read_inode fs inode_num' with
          | None => None
          | Some inode' => open_follow fuel' fs inode_num' inode' (depth + 1)
          end
      end
    else Some (inode_num, inode, depth)
  end.

Definition vfs_open (global_fs : option ext2_fs_t) (path : list Z)
  : option vfs_file_t :=
  match global_fs with
  | None => None
  | Some fs =>
    let inode_num := ext2_path_to_inode fs path in
    if inode_num =? 0 then None
    else
      match ext2_read_inode fs inode_num with
      | None => None
      | Some inode =>
        match open_follow (S (Z.to_nat MAX_SYMLINK_DEPTH)) fs inode_num inode 0 with
        | None => None
        | Some (inode_num, inode, depth) =>
          if MAX_SYMLINK_DEPTH <=? depth then None
          else if Z.land (i_mode inode) EXT2_S_IFDIR =? EXT2_S_IFDIR then None
          else Some (mk_file inode_num (i_size inode) VFS_TYPE_FILE 0 1)
        end
      end
  end.

Definition vfs_close (file : vfs_file_t) : Z * vfs_file_t :=
  if f_is_open file =? 0 then (-1, file)
  else (0, mk_file (f_inode file) (f_size file) (f_type file) (f_position file) 0).

(** [vfs_read]: result, the caller's buffer, the file system, the handle. *)
Definition vfs_read (global_fs : option ext2_fs_t) (file : vfs_file_t)
    (buffer : list Z) (size : Z) (system_ticks : Z)
  : Z * list Z * option ext2_fs_t * vfs_file_t :=
  if f_is_open file =? 0 then (-1, buffer, global_fs, file)
  else
    match global_fs with
    | None => (-1, buffer, global_fs, file)
    | Some fs =>
      match ext2_read_inode fs (f_inode file) with
      | None => (-1, buffer, global_fs, file)
      | Some inode =>
        let '(bytes_read, buffer') :=
          ext2_read_file fs inode (f_position file) size buffer in
        if 0 <? bytes_read then
          let file' := mk_file (f_inode file) (f_size file) (f_type file)
                         (u32 (f_position file + bytes_read)) (f_is_open file) in
          let inode' := set_i_atime inode (system_ticks / 100) in
          let '(_, fs') := ext2_write_inode fs (f_inode file) inode' in
          (bytes_read, buffer', Some fs', file')
        else (bytes_read, buffer', Some fs, file)
      end
    end.

Definition vfs_seek (file : vfs_file_t) (offset : Z) : Z * vfs_file_t :=
  if f_is_open file =? 0 then (-1, file)
  else if f_size file <? offset
  then (0, mk_file (f_inode file) (f_size file) (f_type file)
                   (f_size file) (f_is_open file))
  else (0, mk_file (f_inode file) (f_size file) (f_type file)
                   offset (f_is_open file)).

(** The loop of [vfs_stat] that looks for the name to report: the text
    after the last ['/'] that is followed by a character. *)
Fixpoint stat_name_loop (p : list Z) (name : list Z) : list Z :=
  match p with
  | [] => name
  | c :: p' =>
    if c =? 0 then name
    else if (c =? slash) && negb (byte_at p' 0 =? 0) then stat_name_loop p' p'
    else stat_name_loop p' name
  end.

(** [vfs_stat] as a function of its results: [None] is the return value
    -1, [Some] the return value 0 with the four values that the call
    stores.  [d_name] is the string that [strcpy_local] is given; the
    copy is not bounded by the field [char name[256]], so [d_name] is what
    the caller finds in the field only when it is shorter than 256 bytes.
    What the stores do to the caller's memory, whatever the length, is
    [vfs_stat_store] below. *)
Definition vfs_stat (global_fs : option ext2_fs_t) (path : list Z)
  : option vfs_dirent_t :=
  match global_fs with
  | None => None
  | Some fs =>
    let inode_num := ext2_path_to_inode fs path in
    if inode_num =? 0 then None
    else
      match ext2_read_inode fs inode_num with
      | None => None
      | Some inode =>
        let name := stat_name_loop path path in
        Some (mk_dirent inode_num (strcpy_local name)
                        (vfs_get_type_from_mode (i_mode inode)) (i_size inode))
      end
  end.

(** [vfs_stat] on the caller's memory.  [stat] is the memory from the
    address of the [vfs_dirent_t] on: the struct is its first 268 bytes
    ([inode] at 0, [name[256]] at 4, [type] at 260, [size] at 264), what
    follows is whatever the caller has behind the struct.  The stores are
    made in the order of the source.  [strcpy_local] copies the name and
    its terminator without looking at the size of the field: a name of 256
    bytes or more runs over [type] and [size], which are stored afterwards
    and cut the string, and one of 264 bytes or more over the memory
    behind the struct.  ([list_inserts] drops what would land behind the
    end of [stat]: [stat] is to hold all the memory that matters.) *)
Definition vfs_stat_store (global_fs : option ext2_fs_t) (path stat : list Z)
  : Z * list Z :=
  match global_fs with
  | None => (-1, stat)
  | Some fs =>
    let inode_num := ext2_path_to_inode fs path in
    if inode_num =? 0 then (-1, stat)
    else
      match ext2_read_inode fs inode_num with
      | None => (-1, stat)
      | Some inode =>
        let name := stat_name_loop path path in
        let stat := set_u32 stat 0 inode_num in
        let stat := list_inserts 4 (strcpy_local name ++ [0]) stat in
        let stat := set_u32 stat 260 (vfs_get_type_from_mode (i_mode inode)) in
        let stat := set_u32 stat 264 (i_size inode) in
        (0, stat)
      end
  end.

Definition vfs_exists (global_fs : option ext2_fs_t) (path : list Z) : Z :=
  match vfs_resolve_path global_fs path with
  | Some _ => 1
  | None => 0
  end.

(** [for (i = 0; i < len; ++i) if (path[i] == '/') last_slash = i;] *)
Fixpoint last_slash_loop (fuel : nat) (path : list Z) (i len last_slash : Z) : Z :=
  match fuel with
  | O => last_slash
  | S fuel' =>
    if i <? len then
      last_slash_loop fuel' path (i + 1) len
        (if byte_at path i =? slash then i else last_slash)
    else last_slash
  end.

(** The splitting of a path into [parent_path] and [name] that opens
    [vfs_create], [vfs_unlink] and [vfs_create_symlink] (the three copies
    are identical); [None] is their [return -1]. *)
Definition split_path (path : list Z) : option (list Z * list Z) :=
  let len := to_int (strlen_local path) in
  if (len =? 0) || (255 <? len) then None
  else
    let last_slash := last_slash_loop (Z.to_nat len) path 0 len (-1) in
    if last_slash <? 0 then None
    else
      let parent_path :=
        if last_slash =? 0 then [slash]
        else memcpy_local (replicate (Z.to_nat last_slash) 0) 0 path 0 last_slash in
      let name := strcpy_local (drop (Z.to_nat (last_slash + 1)) path) in
      if strlen_local name =? 0 then None
      else Some (parent_path, name).

(** The two [ext2_add_dir_entry] calls that populate a new directory. *)
Definition populate_new_dir (fs : ext2_fs_t) (new_inode_num parent_inode_num : Z)
  : ext2_fs_t :=
  match ext2_read_inode fs new_inode_num with
  | None => fs
  | Some dir_inode =>
    let '(_, fs1, dir_inode1) :=
      ext2_add_dir_entry fs dir_inode new_inode_num new_inode_num [46] EXT2_FT_DIR in
    let '(_, fs2, dir_inode2) :=
      ext2_add_dir_entry fs1 dir_inode1 new_inode_num parent_inode_num
                         [46; 46] EXT2_FT_DIR in
    let '(_, fs3) := ext2_write_inode fs2 new_inode_num dir_inode2 in
    fs3
  end.

Definition vfs_create (global_fs : option ext2_fs_t) (path : list Z) (type : Z)
    (system_ticks : Z) : Z * option ext2_fs_t :=
  match global_fs with
  | None => (-1, global_fs)
  | Some fs =>
    match split_path path with
    | None => (-1, global_fs)
    | Some (parent_path, name) =>
      match vfs_resolve_path global_fs parent_path with
      | None => (-1, global_fs)
      | Some parent_inode_num =>
        match ext2_read_inode fs parent_inode_num with
        | None => (-1, global_fs)
        | Some parent_inode =>
          let '(new_inode_num, fs1) := ext2_alloc_inode fs in
          if new_inode_num =? 0 then (-1, Some fs1)
          else
            let new_inode := memset_local (replicate (Z.to_nat INODE_SIZE) 0) 0 0 INODE_SIZE in
            if negb (type =? VFS_TYPE_FILE) && negb (type =? VFS_TYPE_DIR)
            then (-1, Some fs1)
            else
              let new_inode :=
                if type =? VFS_TYPE_FILE
                then set_i_links_count (set_i_mode new_inode (Z.lor EXT2_S_IFREG 420)) 1
                else set_i_links_count (set_i_mode new_inode (Z.lor EXT2_S_IFDIR 493)) 2 in
              let new_inode := set_i_blocks (set_i_size new_inode 0) 0 in
              let current_time := system_ticks / 100 in
              let new_inode :=
                set_i_mtime (set_i_ctime (set_i_atime new_inode current_time)
                                         current_time) current_time in
              let '(r, fs2) := ext2_write_inode fs1 new_inode_num new_inode in
              if negb (r =? 0) then (-1, Some fs2)
              else
                let ext2_type :=
                  if type =? VFS_TYPE_FILE then EXT2_FT_REG_FILE else EXT2_FT_DIR in
                let '(r2, fs3, parent_inode) :=
                  ext2_add_dir_entry fs2 parent_inode parent_inode_num
                                     new_inode_num name ext2_type in
                if negb (r2 =? 0) then (-1, Some fs3)
                else
                  let parent_inode :=
                    if type =? VFS_TYPE_DIR
                    then set_i_links_count parent_inode (i_links_count parent_inode + 1)
                    else parent_inode in
                  let '(r3, fs4) := ext2_write_inode fs3 parent_inode_num parent_inode in
                  if negb (r3 =? 0) then (-1, Some fs4)
                  else if type =? VFS_TYPE_DIR
                  then (0, Some (populate_new_dir fs4 new_inode_num parent_inode_num))
                  else (0, Some fs4)
        end
      end
    end
  end.

(** [for (i = 0; i < 12; ++i) if (inode.i_block[i]) ext2_free_block(...)] *)
Fixpoint free_direct_blocks (fuel : nat) (fs : ext2_fs_t) (inode : list Z) (i : Z)
  : ext2_fs_t :=
  match fuel with
  | O => fs
  | S fuel' =>
    if i <? 12 then
      if negb (i_block inode i =? 0)
      then free_direct_blocks fuel' (snd (ext2_free_block fs (i_block inode i)))
                              inode (i + 1)
      else free_direct_blocks fuel' fs inode (i + 1)
    else fs
  end.

Definition vfs_unlink (global_fs : option ext2_fs_t) (path : list Z)
  : Z * option ext2_fs_t :=
  match global_fs with
  | None => (-1, global_fs)
  | Some fs =>
    match split_path path with
    | None => (-1, global_fs)
    | Some (parent_path, name) =>
      match vfs_resolve_path global_fs parent_path with
      | None => (-1, global_fs)
      | Some parent_inode_num =>
        match ext2_read_inode fs parent_inode_num with
        | None => (-1, global_fs)
        | Some parent_inode =>
          match ext2_find_dir_entry fs parent_inode name with
          | None => (-1, global_fs)
          | Some inode_num =>
            match ext2_read_inode fs inode_num with
            | None => (-1, global_fs)
            | Some inode =>
              let is_dir := Z.land (i_mode inode) EXT2_S_IFDIR =? EXT2_S_IFDIR in
              let is_empty := if is_dir then ext2_is_dir_empty fs inode else 1 in
              if is_dir && ((is_empty <? 0) || (is_empty =? 0)) then (-1, global_fs)
              else
                let parent_inode :=
                  if is_dir
                  then set_i_links_count parent_inode (i_links_count parent_inode - 1)
                  else parent_inode in
                let '(r, fs1) :=
                  ext2_remove_dir_entry fs parent_inode parent_inode_num name in
                if negb (r =? 0) then (-1, Some fs1)
                else
                  let '(r2, fs2) := ext2_write_inode fs1 parent_inode_num parent_inode in
                  if negb (r2 =? 0) then (-1, Some fs2)
                  else
                    let inode := set_i_links_count inode (i_links_count inode - 1) in
                    if i_links_count inode =? 0 then
                      let fs3 := free_direct_blocks 12 fs2 inode 0 in
                      let '(_, fs4) := ext2_free_inode fs3 inode_num in
                      (0, Some fs4)
                    else
                      let '(_, fs3) := ext2_write_inode fs2 inode_num inode in
                      (0, Some fs3)
            end
          end
        end
      end
    end
  end.

(** The [while (written < size)] loop of [vfs_write]; every completed turn
    writes at least one byte.  The result is [written], the in-memory inode
    and the file system when the loop is left. *)
Fixpoint write_loop (fuel : nat) (fs : ext2_fs_t) (position : Z) (buf : list Z)
    (size written : Z) (inode : list Z) : Z * list Z * ext2_fs_t :=
  match fuel with
  | O => (written, inode, fs)
  | S fuel' =>
    if written <? size then
      let block_index := u32 (position + written) / block_size fs in
      let block_offset := u32 (position + written) mod block_size fs in
      let to_write :=
        if size - written <? block_size fs - block_offset
        then size - written else block_size fs - block_offset in
      let '(stop, inode, fs) :=
        if (block_index <? 12) && (i_block inode block_index =? 0) then
          let '(new_block, fs1) := ext2_alloc_block fs in
          if new_block =? 0 then (true, inode, fs1)
          else (false, set_i_block inode block_index new_block, fs1)
        else (false, inode, fs) in
      if stop then (written, inode, fs)
      else if (12 <=? block_index) || (i_block inode block_index =? 0)
      then (written, inode, fs)
      else
        match kmalloc (block_size fs) with
        | None => (written, inode, fs)
        | Some block0 =>
          let '(_, block) := ext2_read_blocks fs (i_block inode block_index) 1 block0 in
          let block := memcpy_local block block_offset buf written to_write in
          let '(_, fs2) := ext2_write_blocks fs (i_block inode block_index) 1 block in
          write_loop fuel' fs2 position buf size (written + to_write) inode
        end
    else (written, inode, fs)
  end.

Definition vfs_write (global_fs : option ext2_fs_t) (file : vfs_file_t)
    (buffer : list Z) (size : Z) (system_ticks : Z)
  : Z * option ext2_fs_t * vfs_file_t :=
  match global_fs with
  | None => (-1, global_fs, file)
  | Some fs =>
    if f_is_open file =? 0 then (-1, global_fs, file)
    else
      match ext2_read_inode fs (f_inode file) with
      | None => (-1, global_fs, file)
      | Some inode =>
        let '(written, inode, fs1) :=
          write_loop (Z.to_nat size) fs (f_position file) buffer size 0 inode in
        let inode :=
          if i_size inode <? u32 (f_position file + written)
          then set_i_size inode (u32 (f_position file + written)) else inode in
        let file' := mk_file (f_inode file) (i_size inode) (f_type file)
                       (u32 (f_position file + written)) (f_is_open file) in
        let inode := set_i_mtime inode (system_ticks / 100) in
        let '(_, fs2) := ext2_write_inode fs1 (f_inode file) inode in
        (to_int written, Some fs2, file')
      end
  end.

(** [for (i = new_blocks; i < old_blocks && i < 12; ++i)] of [vfs_truncate]. *)
Fixpoint truncate_loop (fuel : nat) (fs : ext2_fs_t) (inode : list Z)
    (i old_blocks : Z) : list Z * ext2_fs_t :=
  match fuel with
  | O => (inode, fs)
  | S fuel' =>
    if (i <? old_blocks) && (i <? 12) then
      if negb (i_block inode i =? 0) then
        let '(_, fs1) := ext2_free_block fs (i_block inode i) in
        truncate_loop fuel' fs1 (set_i_block inode i 0) (i + 1) old_blocks
      else truncate_loop fuel' fs inode (i + 1) old_blocks
    else (inode, fs)
  end.

Definition vfs_truncate (global_fs : option ext2_fs_t) (file : vfs_file_t)
    (new_size : Z) : Z * option ext2_fs_t * vfs_file_t :=
  match global_fs with
  | None => (-1, global_fs, file)
  | Some fs =>
    if f_is_open file =? 0 then (-1, global_fs, file)
    else
      match ext2_read_inode fs (f_inode file) with
      | None => (-1, global_fs, file)
      | Some inode =>
        if i_size inode <=? new_size then (0, global_fs, file)
        else
          let old_blocks := u32 (i_size inode + block_size fs - 1) / block_size fs in
          let new_blocks := u32 (new_size + block_size fs - 1) / block_size fs in
          let '(inode, fs1) := truncate_loop 12 fs inode new_blocks old_blocks in
          let inode := set_i_size inode new_size in
          let file' := mk_file (f_inode file) new_size (f_type file)
                         (if new_size <? f_position file then new_size
                          else f_position file) (f_is_open file) in
          let '(_, fs2) := ext2_write_inode fs1 (f_inode file) inode in
          (0, Some fs2, file')
      end
  end.

Definition vfs_create_symlink (global_fs : option ext2_fs_t) (path target : list Z)
  : Z * option ext2_fs_t :=
  match global_fs with
  | None => (-1, global_fs)
  | Some fs =>
    match split_path path with
    | None => (-1, global_fs)
    | Some (parent_path, name) =>
      match vfs_resolve_path global_fs parent_path with
      | None => (-1, global_fs)
      | Some parent_inode_num =>
        match ext2_read_inode fs parent_inode_num with
        | None => (-1, global_fs)
        | Some parent_inode =>
          let '(new_inode_num, fs1) := ext2_alloc_inode fs in
          if new_inode_num =? 0 then (-1, Some fs1)
          else
            let new_inode := memset_local (replicate (Z.to_nat INODE_SIZE) 0) 0 0 INODE_SIZE in
            let new_inode := set_i_mode new_inode (Z.lor EXT2_S_IFLNK 511) in
            let new_inode := set_i_links_count new_inode 1 in
            let target_len := u32 (strlen_local target) in
            let new_inode := set_i_size new_inode target_len in
            let '(stored, fs2) :=
              if target_len <=? 60 then
                (Some (memcpy_local new_inode I_BLOCK_OFF target 0 target_len), fs1)
              else
                let '(block, fs2) := ext2_alloc_block fs1 in
                if block =? 0 then (None, fs2)
                else
                  let new_inode := set_i_block new_inode 0 block in
                  let block_data :=
                    memset_local (replicate (Z.to_nat (block_size fs2)) 0) 0 0
                                 (block_size fs2) in
                  let block_data := memcpy_local block_data 0 target 0 target_len in
                  let '(_, fs3) := ext2_write_blocks fs2 block 1 block_data in
                  (Some new_inode, fs3) in
            match stored with
            | None =>
              let '(_, fs3) := ext2_free_inode fs2 new_inode_num in
              (-1, Some fs3)
            | Some new_inode =>
              let '(r, fs3) := ext2_write_inode fs2 new_inode_num new_inode in
              if negb (r =? 0) then
                let '(_, fs4) := ext2_free_inode fs3 new_inode_num in (-1, Some fs4)
              else
                let '(r2, fs4, parent_inode) :=
                  ext2_add_dir_entry fs3 parent_inode parent_inode_num
                                     new_inode_num name EXT2_FT_SYMLINK in
                if negb (r2 =? 0) then
                  let '(_, fs5) := ext2_free_inode fs4 new_inode_num in (-1, Some fs5)
                else
                  let '(r3, fs5) := ext2_write_inode fs4 parent_inode_num parent_inode in
                  if negb (r3 =? 0) then (-1, Some fs5) else (0, Some fs5)
            end
        end
      end
    end
  end.

Definition vfs_chmod (global_fs : option ext2_fs_t) (path : list Z) (mode : Z)
    (system_ticks : Z) : Z * option ext2_fs_t :=
  match global_fs with
  | None => (-1, global_fs)
  | Some fs =>
    let inode_num := ext2_path_to_inode fs path in
    if inode_num =? 0 then (-1, global_fs)
    else
      match ext2_read_inode fs inode_num with
      | None => (-1, global_fs)
      | Some inode =>
        let file_type := Z.land (i_mode inode) 61440 in
        let inode := set_i_mode inode (Z.lor file_type (Z.land mode 511)) in
        let inode := set_i_ctime inode (system_ticks / 100) in
        let '(r, fs') := ext2_write_inode fs inode_num inode in
        if negb (r =? 0) then (-1, Some fs') else (0, Some fs')
      end
  end.

Definition vfs_chown (global_fs : option ext2_fs_t) (path : list Z) (uid gid : Z)
    (system_ticks : Z) : Z * option ext2_fs_t :=
  match global_fs with
  | None => (-1, global_fs)
  | Some fs =>
    let inode_num := ext2_path_to_inode fs path in
    if inode_num =? 0 then (-1, global_fs)
    else
      match ext2_read_inode fs inode_num with
      | None => (-1, global_fs)
      | Some inode =>
        let inode := set_i_gid (set_i_uid inode uid) gid in
        let inode := set_i_ctime inode (system_ticks / 100) in
        let '(r, fs') := ext2_write_inode fs inode_num inode in
        if negb (r =? 0) then (-1, Some fs') else (0, Some fs')
      end
  end.

(** ** A small concrete image

    A 16 KiB ext2 revision 0 image with 1 KiB blocks, used to evaluate the
    code on concrete inputs: block 1 is the superblock, block 2 the group
    descriptors, blocks 3 and 4 the bitmaps, blocks 5..7 the inode table
    (24 inodes), block 8 the root directory, block 9 the data of the file
    [/f], blocks 10..15 are free.  The root directory is a parameter. *)

Definition le16 (v : Z) : list Z := [u8 v; u8 (v / 256)].
Definition le32 (v : Z) : list Z :=
  [u8 v; u8 (v / 256); u8 (v / 65536); u8 (v / 16777216)].
Definition pad_to (n : nat) (l : list Z) : list Z :=
  l ++ replicate (n - length l)%nat 0.

(** A directory record of [rec_len] bytes: inode, rec_len, name_len,
    file_type, name, zero padding. *)
Definition dirent (ino rec_len type : Z) (name : list Z) : list Z :=
  pad_to (Z.to_nat rec_len)
         (le32 ino ++ le16 rec_len ++ [Z.of_nat (length name); type] ++ name).

(** An inode record with its direct block pointers [blocks] (or, for a
    fast symlink, the bytes of the target) in the [i_block] area. *)
Definition inode_rec (mode size links : Z) (area : list Z) : list Z :=
  pad_to 128 (le16 mode ++ le16 0 ++ le32 size ++ replicate 16 0
              ++ le16 0 ++ le16 links ++ le32 0 ++ replicate 8 0 ++ area).

Definition img_superblock : list Z :=
  pad_to 1024 (le32 24 ++ le32 16 ++ le32 0 ++ le32 5 ++ le32 5 ++ le32 1
               ++ le32 0 ++ le32 0 ++ le32 16 ++ le32 16 ++ le32 24
               ++ le32 0 ++ le32 0 ++ le16 0 ++ le16 20 ++ le16 EXT2_MAGIC).

Definition img_group_desc : list Z :=
  pad_to 1024 (le32 3 ++ le32 4 ++ le32 5 ++ le16 5 ++ le16 5 ++ le16 1).

(** Blocks 1..10 in use (bits 0..9), block 16 does not exist (bit 15). *)
Definition img_block_bitmap : list Z := pad_to 1024 [255; 131].

(** Inodes 1..19 in use; the bits from 24 on do not denote inodes. *)
Definition img_inode_bitmap : list Z := pad_to 1024 [255; 255; 7].

Definition sl (c : Z) : list Z := [slash; 108; c].     (* "/l<c>" *)

Definition img_inode_table (root_size : Z) : list Z :=
  pad_to 3072
    (replicate 128 0
     ++ inode_rec 16877 root_size 2 (le32 8)             (* 2: root, DIR|0755 *)
     ++ replicate (8 * 128) 0                             (* 3..10 reserved *)
     ++ inode_rec 33188 2000 1 (le32 9 ++ le32 10)        (* 11: /f, REG|0644 *)
     ++ inode_rec 41471 3 1 (sl 50)                       (* 12: /l1 -> /l2 *)
     ++ inode_rec 41471 3 1 (sl 51)                       (* 13: /l2 -> /l3 *)
     ++ inode_rec 41471 3 1 (sl 52)
     ++ inode_rec 41471 3 1 (sl 53)
     ++ inode_rec 41471 3 1 (sl 54)
     ++ inode_rec 41471 3 1 (sl 55)
     ++ inode_rec 41471 3 1 (sl 56)                       (* 18: /l7 -> /l8 *)
     ++ inode_rec 41471 2 1 [slash; 102]).                (* 19: /l8 -> /f *)

Definition l_ (c : Z) : list Z := [108; c].             (* "l<c>" *)

(** The root directory: ".", "..", "f", "l1" .. "l8"; the last record
    extends to the end of the block. *)
Definition img_root_dir : list Z :=
  pad_to 1024
    (dirent 2 12 2 [46] ++ dirent 2 12 2 [46; 46] ++ dirent 11 12 1 [102]
     ++ dirent 12 12 7 (l_ 49) ++ dirent 13 12 7 (l_ 50) ++ dirent 14 12 7 (l_ 51)
     ++ dirent 15 12 7 (l_ 52) ++ dirent 16 12 7 (l_ 53) ++ dirent 17 12 7 (l_ 54)
     ++ dirent 18 12 7 (l_ 55) ++ dirent 19 904 7 (l_ 56)).

Definition mk_image (root_dir : list Z) : list Z :=
  replicate 1024 0 ++ img_superblock ++ img_group_desc ++ img_block_bitmap
  ++ img_inode_bitmap ++ img_inode_table 1024 ++ root_dir
  ++ pad_to 2048 [72; 101; 108; 108; 111; 10] ++ replicate (5 * 1024) 0.

Definition mk_dev (image : list Z) : blockdev_t :=
  mk_blockdev (mk_ramdisk image 16384 32) 32 512.

Definition img_dev : blockdev_t := mk_dev (mk_image img_root_dir).

(** The file system that mounting the image gives (see [img_mounted]). *)
Definition img_fs : ext2_fs_t :=
  mk_fs img_dev img_superblock img_group_desc 1024 16 24 1.

(** The handle that [vfs_open] returns for [/f] (see [img_open_f]). *)
Definition img_file : vfs_file_t := mk_file 11 2000 VFS_TYPE_FILE 0 1.

Definition path_f : list Z := [slash; 102].

(** The root inode of the image. *)
Definition img_root_inode : list Z := inode_rec 16877 1024 2 (le32 8).

(** A root directory whose second record has four spare bytes
    ([rec_len] 16 for a two-byte name): ".", "..", "f". *)
Definition img_root_dir_slack : list Z :=
  pad_to 1024
    (dirent 2 12 2 [46] ++ dirent 2 16 2 [46; 46] ++ dirent 11 996 1 [102]).

Definition img_slack_fs : ext2_fs_t :=
  mk_fs (mk_dev (mk_image img_root_dir_slack)) img_superblock img_group_desc
        1024 16 24 1.

Definition name_abcdefgh : list Z := [97; 98; 99; 100; 101; 102; 103; 104].

(** A path of 256 bytes whose components are all one byte long. *)
Definition long_path : list Z := concat (replicate 128%nat [slash; 97]).

(** The inode of [/f] in the image. *)
Definition img_f_inode : list Z := inode_rec 33188 2000 1 (le32 9 ++ le32 10).

(** 2500 bytes to write (three blocks, the third to be allocated), and a
    buffer to read them back. *)
Definition img_data : list Z := map (fun k => Z.of_nat k mod 251) (seq 0 2500).
Definition img_buf : list Z := replicate 3000%nat 0.

(** ** Vocabulary of the properties *)

(** The bytes and the size of the device under a file system. *)
Definition disk (fs : ext2_fs_t) : list Z := rd_data (device_data (device fs)).
Definition dev_blocks (fs : ext2_fs_t) : Z := rd_block_count (device_data (device fs)).

(** Geometry of a mounted file system: the block size is a positive
    multiple of the device block size that divides 2^32 (so a power of
    two), and the ramdisk array has [block_count * 512 < 2^32] bytes. *)
Definition fs_geom (fs : ext2_fs_t) : bool :=
  (0 <? block_size fs) && (block_size fs <? 4294967296)
  && (block_size fs mod 512 =? 0)
  && (4294967296 mod (block_size fs / 512) =? 0)
  && (Z.of_nat (length (disk fs)) =? dev_blocks fs * 512)
  && (dev_blocks fs * 512 <? 4294967296).

(** Device block at which file-system block [b] starts, whether the
    block lies on the device, and its bytes. *)
Definition blk_addr (fs : ext2_fs_t) (b : Z) : Z :=
  u32 (b * (block_size fs / 512)).
Definition blk_ok (fs : ext2_fs_t) (b : Z) : bool :=
  blk_addr fs b + block_size fs / 512 <=? dev_blocks fs.
Definition blk_data (fs : ext2_fs_t) (b : Z) : list Z :=
  take (Z.to_nat (block_size fs))
       (drop (Z.to_nat (blk_addr fs b * 512)) (disk fs)).

(** The file system after block [b] has been overwritten with [buf]. *)
Definition disk_put (fs : ext2_fs_t) (b : Z) (buf : list Z) : ext2_fs_t :=
  set_device fs
    (mk_blockdev
       (mk_ramdisk (list_inserts (Z.to_nat (blk_addr fs b * 512)) buf (disk fs))
                   (rd_size (device_data (device fs))) (dev_blocks fs))
       (dev_block_count (device fs)) (dev_block_size (device fs))).

(** Where inode [n] lives: group, block of the inode table, byte offset
    of its slot in that block. *)
Definition inode_group (fs : ext2_fs_t) (n : Z) : Z :=
  u32 (n - 1) / inodes_per_group fs.
Definition inode_block (fs : ext2_fs_t) (n : Z) : Z :=
  u32 (bg_inode_table (block_groups fs) (inode_group fs n)
       + (u32 (n - 1) mod inodes_per_group fs) / (block_size fs / INODE_SIZE)).
Definition inode_slot (fs : ext2_fs_t) (n : Z) : Z :=
  ((u32 (n - 1) mod inodes_per_group fs) mod (block_size fs / INODE_SIZE))
  * INODE_SIZE.
Definition inode_ok (fs : ext2_fs_t) (n : Z) : bool :=
  negb (n =? 0) && (inode_group fs n <? num_block_groups fs)
  && blk_ok fs (inode_block fs n).
Definition inode_at (fs : ext2_fs_t) (n : Z) : list Z :=
  take (Z.to_nat INODE_SIZE)
       (drop (Z.to_nat (inode_slot fs n)) (blk_data fs (inode_block fs n))).

(** The directory-block invariant of the specification: starting at
    [offset], every record has [rec_len >= 8 + round_up_4 (name_len)] and
    the records tile the block exactly up to [bs]. *)
Fixpoint dir_block_ok (fuel : nat) (block : list Z) (bs offset : Z) : bool :=
  match fuel with
  | O => false
  | S fuel' =>
    if offset =? bs then true
    else (offset + 8 <=? bs)
         && (dir_actual_len (de_name_len block offset) <=? de_rec_len block offset)
         && (offset + de_rec_len block offset <=? bs)
         && dir_block_ok fuel' block bs (offset + de_rec_len block offset)
  end.

(** The chain of symbolic links that starts at inode [inode_num]: the
    number of redirections to the first inode that is not a symlink, and
    that inode.  Targets are resolved from the root, as [vfs_open] does. *)
Fixpoint follow_chain (fuel : nat) (fs : ext2_fs_t) (inode_num : Z)
  : option (Z * Z) :=
  match fuel with
  | O => None
  | S fuel' =>
    match ext2_read_inode fs inode_num with
    | None => None
    | Some inode =>
      if Z.land (i_mode inode) EXT2_S_IFLNK =? EXT2_S_IFLNK then
        match ext2_read_symlink fs inode 256 with
        | None => None
        | Some target =>
          let next := ext2_path_to_inode fs target in
          if next =? 0 then None
          else
            match follow_chain fuel' fs next with
            | None => None
            | Some (depth, final) => Some (depth + 1, final)
            end
        end
      else Some (0, inode_num)
    end
  end.

(** Bytes: every element of a buffer is in [0, 256). *)
Definition bytes_ok (l : list Z) : bool :=
  forallb (fun b => (0 <=? b) && (b <? 256)) l.

(** A string without NUL bytes is what [strcpy_local] copies. *)
Definition no_nul (s : list Z) : Prop := forall b, In b s -> b <> 0.

(** What follows the string in its buffer: nothing, or the terminator. *)
Definition terminated (rest : list Z) : Prop := rest = [] \/ exists r, rest = 0 :: r.


(** The record offsets of a directory block, following [rec_len] from
    [offset] to the end of the block. *)
Fixpoint dir_chain (fuel : nat) (block : list Z) (bs offset : Z) : list Z :=
  match fuel with
  | O => []
  | S fuel' =>
    if offset <? bs
    then offset :: dir_chain fuel' block bs (offset + de_rec_len block offset)
    else []
  end.

(** The name of the record at [e], as [ext2_find_dir_entry] copies it. *)
Definition entry_name (buf : list Z) (e : Z) : list Z :=
  memcpy_local (replicate (Z.to_nat (de_name_len buf e)) 0) 0
               buf (e + DE_NAME_OFF) (de_name_len buf e).

(** The test of [ext2_find_dir_entry] on the record at [e]. *)
Definition live_match (buf name : list Z) (e : Z) : bool :=
  negb (de_inode buf e =? 0)
  && (de_name_len buf e =? strlen_local name)
  && (strcmp_local (entry_name buf e) name =? 0).

(** The test of [ext2_remove_dir_entry] on the record at [e]. *)
Definition remove_match (block name : list Z) (name_len e : Z) : bool :=
  negb (de_inode block e =? 0)
  && (de_name_len block e =? name_len)
  && (strcmp_local (drop (Z.to_nat (e + DE_NAME_OFF)) block) name =? 0).

Fixpoint first_match (buf name : list Z) (es : list Z) : option Z :=
  match es with
  | [] => None
  | e :: es' =>
    if live_match buf name e then Some (de_inode buf e)
    else first_match buf name es'
  end.

(** The effect of [ext2_remove_dir_entry] on the records [es] of a block:
    the first record that matches is merged into its predecessor, or
    loses its inode number when it is the first of the block. *)
Fixpoint remove_search (block name : list Z) (name_len : Z) (es : list Z)
    (prev : option Z) : option (list Z) :=
  match es with
  | [] => None
  | e :: es' =>
    if remove_match block name name_len e then
      match prev with
      | Some p =>
        Some (set_u16 block (p + 4) (de_rec_len block p + de_rec_len block e))
      | None => Some (set_u32 block e 0)
      end
    else remove_search block name name_len es' (Some e)
  end.

(** [records block bs off es]: the records of the block from [off] on
    are at the offsets [es], each holds its header and name, and they end
    exactly at [bs]. *)
Fixpoint records (block : list Z) (bs off : Z) (es : list Z) : Prop :=
  match es with
  | [] => off = bs
  | e :: es' =>
    e = off /\ 0 <= off /\ 0 <= de_name_len block off
    /\ 8 + de_name_len block off <= de_rec_len block off
    /\ off + de_rec_len block off <= bs
    /\ records block bs (off + de_rec_len block off) es'
  end.

(** [block] occupies the bytes of [buf] from [pos] on. *)
Definition embedded (buf : list Z) (pos : Z) (block : list Z) : Prop :=
  forall i, (i < length block)%nat -> buf !! (Z.to_nat pos + i)%nat = block !! i.

(** The record at [e] reads the same in [b'] as in [b]. *)
Definition same_record (b b' : list Z) (e : Z) : Prop :=
  de_inode b' e = de_inode b e /\ de_name_len b' e = de_name_len b e
  /\ entry_name b' e = entry_name b e.

(** Number of blocks of a file, as [ext2_add_dir_entry] and
    [ext2_remove_dir_entry] compute it. *)
Definition file_nblocks (fs : ext2_fs_t) (ino : list Z) : Z :=
  u32 (i_size ino + block_size fs - 1) / block_size fs.

(** A directory seen as the list of its blocks, each with the offsets of
    its records: the size is a whole number of at most 12 blocks, every
    block is mapped and on the device, and its records tile it. *)
Definition dir_layout (fs : ext2_fs_t) (ino : list Z)
    (bl : list (list Z * list Z)) : Prop :=
  i_size ino = Z.of_nat (length bl) * block_size fs
  /\ (0 < length bl <= 12)%nat
  /\ i_size ino < 2147483648
  /\ forall j B es, bl !! j = Some (B, es) ->
       i_block ino (Z.of_nat j) <> 0
       /\ blk_ok fs (i_block ino (Z.of_nat j)) = true
       /\ blk_data fs (i_block ino (Z.of_nat j)) = B
       /\ records B (block_size fs) 0 es.

Fixpoint first_match_list (name : list Z) (bl : list (list Z * list Z))
  : option Z :=
  match bl with
  | [] => None
  | (B, es) :: bl' =>
    match first_match B name es with
    | Some ino => Some ino
    | None => first_match_list name bl'
    end
  end.

(** [ext2_remove_dir_entry] over the blocks of a directory, from block
    number [j] on. *)
Fixpoint remove_list (fs : ext2_fs_t) (ino name : list Z) (j : nat)
    (bl : list (list Z * list Z)) : Z * ext2_fs_t :=
  match bl with
  | [] => (-1, fs)
  | (B, es) :: bl' =>
    match remove_search B name (strlen_local name) es None with
    | Some B' => (0, disk_put fs (i_block ino (Z.of_nat j)) B')
    | None => remove_list fs ino name (S j) bl'
    end
  end.

(** How many live records of the directory carry [name]. *)
Definition match_count (name : list Z) (bl : list (list Z * list Z)) : nat :=
  list_sum (map (fun p => length (List.filter (live_match (fst p) name) (snd p))) bl).

(** Lists of block numbers: pairwise distinct, and without a common
    element. *)
Fixpoint distinct (l : list Z) : bool :=
  match l with
  | [] => true
  | x :: l' => negb (existsb (Z.eqb x) l') && distinct l'
  end.

Definition disjoint (l1 l2 : list Z) : bool :=
  forallb (fun x => negb (existsb (Z.eqb x) l2)) l1.

(** The twelve direct block pointers of an inode, and the blocks of a
    directory up to its size. *)
Definition direct_blocks (ino : list Z) : list Z :=
  map (fun k => i_block ino (Z.of_nat k)) (seq 0 12).

Definition dir_blocks (fs : ext2_fs_t) (ino : list Z) : list Z :=
  map (fun j => i_block ino (Z.of_nat j)) (seq 0 (Z.to_nat (file_nblocks fs ino))).

Definition dir_view (fs : ext2_fs_t) (ino : list Z) : list (list Z * list Z) :=
  map (fun b => (blk_data fs b,
                 dir_chain (Z.to_nat (block_size fs)) (blk_data fs b) (block_size fs) 0))
      (dir_blocks fs ino).

(** A directory the code can search and edit: between 1 and 12 whole
    blocks, each mapped, on the device and tiled by its records, no two
    at the same place. *)
Definition dir_wf (fs : ext2_fs_t) (ino : list Z) : bool :=
  let nb := file_nblocks fs ino in
  (0 <? nb) && (nb <=? 12) && (i_size ino =? nb * block_size fs)
  && (i_size ino <? 2147483648) && (block_size fs <? 65536)
  && forallb (fun b => negb (b =? 0) && blk_ok fs b
                       && dir_block_ok (Z.to_nat (block_size fs)) (blk_data fs b)
                                       (block_size fs) 0)
             (dir_blocks fs ino)
  && distinct (map (blk_addr fs) (dir_blocks fs ino)).

(** Where the allocation bit of a block and of an inode lives, and the
    bit itself ([0] when clear), as [ext2_free_block] and
    [ext2_free_inode] address it. *)
Definition block_group (fs : ext2_fs_t) (b : Z) : Z :=
  (b - s_first_data_block (superblock fs)) / blocks_per_group fs.
Definition block_bitmap_of (fs : ext2_fs_t) (b : Z) : Z :=
  bg_block_bitmap (block_groups fs) (block_group fs b).
Definition block_bit (fs : ext2_fs_t) (b : Z) : Z :=
  bitmap_test (blk_data fs (block_bitmap_of fs b))
              ((b - s_first_data_block (superblock fs)) mod blocks_per_group fs).
Definition inode_bitmap_of (fs : ext2_fs_t) (n : Z) : Z :=
  bg_inode_bitmap (block_groups fs) (inode_group fs n).
Definition inode_bit (fs : ext2_fs_t) (n : Z) : Z :=
  bitmap_test (blk_data fs (inode_bitmap_of fs n))
              (u32 (n - 1) mod inodes_per_group fs).

(** The bitmap blocks that freeing inode [n] and its direct blocks
    rewrites. *)
Definition freed_bitmaps (fs : ext2_fs_t) (ino : list Z) (n : Z) : list Z :=
  map (block_bitmap_of fs) (List.filter (fun b => negb (b =? 0)) (direct_blocks ino))
  ++ [inode_bitmap_of fs n].

(** The inodes whose directories the walk of [vfs_resolve_path] searches:
    the same loop as [resolve_loop], collecting [current_inode] at every
    lookup. *)
Fixpoint walk_inodes (fs : ext2_fs_t) (path : list Z) (component : list Z)
    (current_inode : Z) : list Z :=
  let finish :=
    if 0 <? Z.of_nat (length component) then [current_inode] else [] in
  match path with
  | [] => finish
  | c :: path' =>
    if c =? 0 then finish
    else if c =? slash then
      if 0 <? Z.of_nat (length component) then
        current_inode ::
        match path_step fs current_inode component with
        | None => []
        | Some ino => walk_inodes fs path' [] ino
        end
      else walk_inodes fs path' component current_inode
    else
      if Z.of_nat (length component) <? 255
      then walk_inodes fs path' (component ++ [c]) current_inode
      else walk_inodes fs path' component current_inode
  end.

Definition path_inodes (fs : ext2_fs_t) (path : list Z) : list Z :=
  if strcmp_local path [slash] =? 0 then []
  else
    let path := if byte_at path 0 =? slash then drop 1 path else path in
    walk_inodes fs path [] EXT2_ROOT_INO.

(** Inode [c] is stored, and (unless it is the directory [pn] itself)
    keeps at most 12 blocks, away from the device blocks [W]. *)
Definition inode_apart (fs : ext2_fs_t) (W : list Z) (pn c : Z) : bool :=
  negb (existsb (Z.eqb (blk_addr fs (inode_block fs c))) W)
  && ((c =? pn)
      || match ext2_read_inode fs c with
         | None => true
         | Some cino =>
           (i_size cino <=? 12 * block_size fs)
           && disjoint (map (blk_addr fs) (direct_blocks cino)) W
         end).

(** What [vfs_unlink] relies on when it removes the file at [path]: the
    parent directory is well formed and holds the name once, the blocks
    of the file are data blocks whose bitmaps are on the device, and the
    blocks that the call rewrites (one directory block, the bitmaps) are
    not shared with the inodes and directories the walk of the parent
    path reads. *)
Definition unlink_wf (fs : ext2_fs_t) (path : list Z) : bool :=
  match split_path path with
  | None => false
  | Some (parent_path, name) =>
    match vfs_resolve_path (Some fs) parent_path with
    | None => false
    | Some pn =>
      match ext2_read_inode fs pn with
      | None => false
      | Some pino =>
        match ext2_find_dir_entry fs pino name with
        | None => false
        | Some n =>
          match ext2_read_inode fs n with
          | None => false
          | Some ino =>
            let PD := map (blk_addr fs) (dir_blocks fs pino) in
            let WB := map (blk_addr fs) (freed_bitmaps fs ino n) in
            dir_wf fs pino
            && (match_count name (dir_view fs pino) =? 1)%nat
            && (0 <? blocks_per_group fs) && (0 <? inodes_per_group fs)
            && forallb (fun b => (b =? 0)
                                 || ((s_first_data_block (superblock fs) <=? b)
                                     && blk_ok fs (block_bitmap_of fs b)))
                       (direct_blocks ino)
            && blk_ok fs (inode_bitmap_of fs n)
            && disjoint PD WB
            && forallb (inode_apart fs (PD ++ WB) pn) (pn :: path_inodes fs parent_path)
          end
        end
      end
    end
  end.

(** [fs'] has the geometry and the tables of [fs]. *)
Definition same_layout (fs fs' : ext2_fs_t) : Prop :=
  block_size fs' = block_size fs
  /\ blocks_per_group fs' = blocks_per_group fs
  /\ inodes_per_group fs' = inodes_per_group fs
  /\ num_block_groups fs' = num_block_groups fs
  /\ dev_blocks fs' = dev_blocks fs
  /\ s_first_data_block (superblock fs') = s_first_data_block (superblock fs)
  /\ forall g, 0 <= g ->
       bg_block_bitmap (block_groups fs') g = bg_block_bitmap (block_groups fs) g
       /\ bg_inode_bitmap (block_groups fs') g = bg_inode_bitmap (block_groups fs) g
       /\ bg_inode_table (block_groups fs') g = bg_inode_table (block_groups fs) g.

(** [fs'] differs from [fs] at most in the device blocks [W]. *)
Definition frame (W : list Z) (fs fs' : ext2_fs_t) : Prop :=
  fs_geom fs' = true /\ same_layout fs fs'
  /\ forall b, ~ In (blk_addr fs b) W -> blk_data fs' b = blk_data fs b.

(** ... and every bitmap bit clear in [fs] is clear in [fs']. *)
Definition clears (W : list Z) (fs fs' : ext2_fs_t) : Prop :=
  frame W fs fs'
  /\ forall b i, 0 <= i ->
       bitmap_test (blk_data fs b) i = 0 -> bitmap_test (blk_data fs' b) i = 0.

(** ** Free blocks, as [ext2_alloc_block] finds them *)

Definition bit_range (n : Z) : list Z := map Z.of_nat (seq 0 (Z.to_nat n)).

(** The bits of the block bitmaps, group by group, in the order of the
    two loops of [ext2_alloc_block]. *)
Definition all_bits (fs : ext2_fs_t) : list (Z * Z) :=
  flat_map (fun g => map (pair g) (bit_range (blocks_per_group fs)))
           (bit_range (num_block_groups fs)).

Definition bit_free (fs : ext2_fs_t) (gi : Z * Z) : bool :=
  blk_ok fs (bg_block_bitmap (block_groups fs) (fst gi))
  && (bitmap_test (blk_data fs (bg_block_bitmap (block_groups fs) (fst gi))) (snd gi) =? 0).

Definition free_bits (fs : ext2_fs_t) : list (Z * Z) :=
  List.filter (bit_free fs) (all_bits fs).

(** The block number [ext2_alloc_block] returns for a bit, and the file
    system it leaves. *)
Definition block_of_bit (fs : ext2_fs_t) (gi : Z * Z) : Z :=
  u32 (fst gi * blocks_per_group fs + snd gi + s_first_data_block (superblock fs)).

Definition alloc_update (fs : ext2_fs_t) (gi : Z * Z) : ext2_fs_t :=
  dec_free_blocks
    (disk_put fs (bg_block_bitmap (block_groups fs) (fst gi))
       (bitmap_set (blk_data fs (bg_block_bitmap (block_groups fs) (fst gi))) (snd gi)))
    (fst gi).

(** ** Writing a file from its start *)

(** The blocks a write fills, one per block index: the block the inode
    already maps, or the next free block of the allocator where the
    pointer is 0.  [None] when the free blocks run out. *)
Fixpoint plan (ptrs free : list Z) : option (list Z) :=
  match ptrs with
  | [] => Some []
  | p :: ptrs' =>
    if p =? 0 then
      match free with
      | [] => None
      | c :: free' => option_map (cons c) (plan ptrs' free')
      end
    else option_map (cons p) (plan ptrs' free)
  end.

Definition write_nblocks (fs : ext2_fs_t) (size : Z) : Z :=
  (size + block_size fs - 1) / block_size fs.

Definition write_ptrs (fs : ext2_fs_t) (ino : list Z) (size : Z) : list Z :=
  map (fun k => i_block ino (Z.of_nat k)) (seq 0 (Z.to_nat (write_nblocks fs size))).

Definition write_plan (fs : ext2_fs_t) (ino : list Z) (size : Z) : option (list Z) :=
  plan (write_ptrs fs ino size) (map (block_of_bit fs) (free_bits fs)).

Definition bitmap_addrs (fs : ext2_fs_t) : list Z :=
  map (fun g => blk_addr fs (bg_block_bitmap (block_groups fs) g))
      (bit_range (num_block_groups fs)).

(** What a write of [size] bytes to inode [n] relies on: there are
    enough free blocks for the pointers that are 0, and the blocks to
    fill are on the device, pairwise at different places and away from
    the inode's table block and from the block bitmaps; the bitmaps of
    the groups are at different places and cover the groups. *)
Definition write_wf (fs : ext2_fs_t) (n : Z) (ino : list Z) (size : Z) : bool :=
  match write_plan fs ino size with
  | None => false
  | Some P =>
    forallb (fun p => negb (p =? 0) && blk_ok fs p) P
    && distinct (map (blk_addr fs) P)
    && disjoint (map (blk_addr fs) P)
                (blk_addr fs (inode_block fs n) :: bitmap_addrs fs)
    && distinct (bitmap_addrs fs)
    && (blocks_per_group fs <=? 8 * block_size fs)
    && (0 <? inodes_per_group fs)
  end.

(** The state of the loop of [vfs_write] after [j] blocks: the inode maps
    the first [j] blocks as planned and is otherwise as it was, the
    allocator has handed out the first [a] free blocks, and the blocks
    written hold the bytes of [B]. *)
Definition write_inv (fs : ext2_fs_t) (ino B P : list Z) (size : Z)
    (j : nat) (fs_j : ext2_fs_t) (ino_j : list Z) : Prop :=
  fs_geom fs_j = true /\ same_layout fs fs_j
  /\ length ino_j = 128%nat /\ i_size ino_j = i_size ino
  /\ (forall k, (k < j)%nat -> P !! k = Some (i_block ino_j (Z.of_nat k)))
  /\ (forall k, Z.of_nat j <= k < 12 -> i_block ino_j k = i_block ino k)
  /\ (exists a, free_bits fs_j = drop a (free_bits fs)
        /\ plan (drop j (write_ptrs fs ino size))
                (drop a (map (block_of_bit fs) (free_bits fs))) = Some (drop j P))
  /\ (forall i, 0 <= i < Z.min size (Z.of_nat j * block_size fs) ->
        blk_data fs_j (i_block ino_j (i / block_size fs)) !! Z.to_nat (i mod block_size fs)
        = B !! Z.to_nat i).

(** ** More of ramdisk.c and blockdev.c *)

Definition ramdisk_get_block_count (ramdisk : ramdisk_data_t) : Z :=
  rd_block_count ramdisk.

Definition blockdev_get_block_count (dev : blockdev_t) : Z :=
  ramdisk_get_block_count (device_data dev).

(** [ramdisk_load_ext2_image]: copies the image to the start of the
    storage. *)
Definition ramdisk_load_ext2_image (dev : blockdev_t) (image_data : list Z)
    (image_size : Z) : Z * blockdev_t :=
  if image_size =? 0 then (-1, dev)
  else
    let ramdisk := device_data dev in
    if rd_size ramdisk <? image_size then (-1, dev)
    else
      (0, mk_blockdev
            (mk_ramdisk (memcpy_local (rd_data ramdisk) 0 image_data 0 image_size)
                        (rd_size ramdisk) (rd_block_count ramdisk))
            (dev_block_count dev) (dev_block_size dev)).

(** [str_cmp] of blockdev.c. *)
Fixpoint str_cmp (a b : list Z) : Z :=
  match a, b with
  | x :: a', y :: b' =>
      if negb (x =? 0) && negb (y =? 0) && (x =? y) then str_cmp a' b'
      else schar x - schar y
  | x :: _, [] => schar x - 0
  | [], y :: _ => 0 - schar y
  | [], [] => 0
  end.

Definition MAX_BLOCK_DEVICES : Z := 16.

(** The registry: the first [device_count] slots of [block_devices], each
    device with the name its [name] field points to. *)
Definition registry := list (list Z * blockdev_t).

(** The loop of [blockdev_register] and [blockdev_get] over the
    registered devices. *)
Fixpoint registry_find (devices : registry) (name : list Z) : option blockdev_t :=
  match devices with
  | [] => None
  | (n, dev) :: devices' =>
    if str_cmp n name =? 0 then Some dev else registry_find devices' name
  end.

Definition blockdev_register (devices : registry) (name : list Z) (dev : blockdev_t)
  : Z * registry :=
  if MAX_BLOCK_DEVICES <=? Z.of_nat (length devices) then (-1, devices)
  else
    match registry_find devices name with
    | Some _ => (-1, devices)
    | None => (0, devices ++ [(name, dev)])
    end.

Definition blockdev_get (devices : registry) (name : list Z) : option blockdev_t :=
  registry_find devices name.

(** "ramdisk0" *)
Definition ramdisk0 : list Z := [114; 97; 109; 100; 105; 115; 107; 48].

(** [vfs_mount_root] of vfs.c. *)
Definition vfs_mount_root (devices : registry) (global_fs : option ext2_fs_t)
  : Z * option ext2_fs_t :=
  match blockdev_get devices ramdisk0 with
  | None => (-1, global_fs)
  | Some root_device =>
    let '(r, g) := ext2_mount global_fs root_device in
    if negb (r =? 0) then (-1, g) else (0, g)
  end.

(** A registry as [blockdev_register] builds it: at most 16 devices, no
    name twice. *)
Definition registry_ok (devices : list (list Z * blockdev_t)) : Prop :=
  Z.of_nat (length devices) <= MAX_BLOCK_DEVICES
  /\ forall i j n d n' d', (i < j)%nat ->
       devices !! i = Some (n, d) -> devices !! j = Some (n', d') ->
       str_cmp n n' <> 0.

(** The storage of a ramdisk has the size its header records. *)
Definition ramdisk_ok (ramdisk : ramdisk_data_t) : bool :=
  (Z.of_nat (length (rd_data ramdisk)) =? rd_block_count ramdisk * RAMDISK_BLOCK_SIZE)
  && (rd_block_count ramdisk * RAMDISK_BLOCK_SIZE <? 4294967296)
  && (rd_size ramdisk =? rd_block_count ramdisk * RAMDISK_BLOCK_SIZE).

(** A ramdisk of four blocks and two blocks of data for it. *)
Definition small_dev : blockdev_t :=
  mk_blockdev (ramdisk_create 2048) 4 RAMDISK_BLOCK_SIZE.
Definition small_data : list Z := map (fun k => Z.of_nat k mod 256) (seq 0 1024).

(** ** heap.c

    The allocator keeps one singly linked list of blocks that starts at
    [heap_start]; every block is a header followed by [size] bytes, and
    [split_block] and the merge of [kfree] keep each block's successor
    directly behind it in memory.  The list of headers is the model's
    state: the address of a block is [heap_start] plus the headers and
    sizes of the blocks before it. *)

Module Heap.

Definition HEAP_SIZE : Z := 512 * 1024.
Definition HEAP_ALIGNMENT : Z := 8.

(** [sizeof(heap_block_t)] on the 32-bit target: a [size_t], an [int] and
    a pointer of four bytes each. *)
Definition BLOCK_SIZE : Z := 12.

Record heap_block_t := mk_block {
  hb_size : Z;
  hb_free : Z
}.

Record heap_t := mk_heap {
  heap_start : Z;
  free_list : list heap_block_t
}.

(** [split_block]: the block and the new block behind it, if it is
    split. *)
Definition split_block (block : heap_block_t) (size : Z)
  : heap_block_t * list heap_block_t :=
  if u32 (u32 (size + BLOCK_SIZE) + HEAP_ALIGNMENT) <=? hb_size block then
    (mk_block size (hb_free block),
     [mk_block (u32 (u32 (hb_size block - size) - BLOCK_SIZE)) 1])
  else (block, []).

(** [heap_init]; [end_addr] is the address of the linker symbol [_end]. *)
Definition heap_init (end_addr : Z) : heap_t :=
  let aligned := Z.land (u32 (end_addr + (HEAP_ALIGNMENT - 1)))
                        (u32 (Z.lnot (HEAP_ALIGNMENT - 1))) in
  mk_heap aligned [mk_block (HEAP_SIZE - BLOCK_SIZE) 1].

(** The [while (curr)] loop of [kmalloc]; [addr] is the address of
    [curr].  The result is the returned pointer and the list from [curr]
    on. *)
Fixpoint kmalloc_loop (curr : list heap_block_t) (addr size : Z)
  : option (Z * list heap_block_t) :=
  match curr with
  | [] => None
  | block :: next =>
    if negb (hb_free block =? 0) && (size <=? hb_size block) then
      let '(block', new_block) := split_block block size in
      Some (addr + BLOCK_SIZE, mk_block (hb_size block') 0 :: new_block ++ next)
    else
      match kmalloc_loop next (addr + BLOCK_SIZE + hb_size block) size with
      | Some (ptr, next') => Some (ptr, block :: next')
      | None => None
      end
  end.

(** [kmalloc]: [None] is the NULL pointer. *)
Definition kmalloc (heap : heap_t) (size : Z) : option Z * heap_t :=
  if size =? 0 then (None, heap)
  else
    let size := Z.land (u32 (size + (HEAP_ALIGNMENT - 1)))
                       (u32 (Z.lnot (HEAP_ALIGNMENT - 1))) in
    match kmalloc_loop (free_list heap) (heap_start heap) size with
    | Some (ptr, blocks) => (Some ptr, mk_heap (heap_start heap) blocks)
    | None => (None, heap)
    end.

(** [block->free = 1] of [kfree] for the header at [block_addr]; [None]
    when no block of the list starts there, where the C code writes into
    memory that is not a header. *)
Fixpoint mark_free (curr : list heap_block_t) (addr block_addr : Z)
  : option (list heap_block_t) :=
  match curr with
  | [] => None
  | block :: next =>
    if addr =? block_addr then Some (mk_block (hb_size block) 1 :: next)
    else
      match mark_free next (addr + BLOCK_SIZE + hb_size block) block_addr with
      | Some next' => Some (block :: next')
      | None => None
      end
  end.

(** The coalescing loop of [kfree]: a turn either merges [curr] with its
    successor and stays, or moves on. *)
Fixpoint coalesce (fuel : nat) (curr : list heap_block_t) : list heap_block_t :=
  match fuel with
  | O => curr
  | S fuel' =>
    match curr with
    | [] => []
    | block :: [] => block :: coalesce fuel' []
    | block :: (next :: rest) as tail =>
      if negb (hb_free block =? 0) && negb (hb_free next =? 0) then
        coalesce fuel'
          (mk_block (u32 (hb_size block + u32 (BLOCK_SIZE + hb_size next)))
                    (hb_free block) :: rest)
      else block :: coalesce fuel' tail
    end
  end.

(** [kfree]; [ptr = 0] is the NULL pointer. *)
Definition kfree (heap : heap_t) (ptr : Z) : option heap_t :=
  if ptr =? 0 then Some heap
  else
    match mark_free (free_list heap) (heap_start heap) (ptr - BLOCK_SIZE) with
    | None => None
    | Some blocks =>
      Some (mk_heap (heap_start heap) (coalesce (length blocks) blocks))
    end.

(** The loop of [heap_stats] over the list: [u] and [f]. *)
Fixpoint heap_stats_loop (curr : list heap_block_t) (u f : Z) : Z * Z :=
  match curr with
  | [] => (u, f)
  | block :: next =>
    if negb (hb_free block =? 0)
    then heap_stats_loop next u (u32 (f + hb_size block))
    else heap_stats_loop next (u32 (u + hb_size block)) f
  end.

(** [heap_stats]: total, used and free. *)
Definition heap_stats (heap : heap_t) : Z * Z * Z :=
  let '(u, f) := heap_stats_loop (free_list heap) 0 0 in
  (HEAP_SIZE, u, f).

(** *** Vocabulary for the properties of the heap *)

(** The payload address and size of every block in use, in list order. *)
Fixpoint used_blocks (addr : Z) (l : list heap_block_t) : list (Z * Z) :=
  match l with
  | [] => []
  | block :: next =>
    let tail := used_blocks (addr + BLOCK_SIZE + hb_size block) next in
    if hb_free block =? 0 then (addr + BLOCK_SIZE, hb_size block) :: tail
    else tail
  end.

Definition allocated (heap : heap_t) : list (Z * Z) :=
  used_blocks (heap_start heap) (free_list heap).

(** The bytes of the headers and payloads of a list of blocks. *)
Fixpoint span (l : list heap_block_t) : Z :=
  match l with
  | [] => 0
  | block :: next => BLOCK_SIZE + hb_size block + span next
  end.

(** The blocks tile the heap, which lies in the 32-bit address space
    above address 0: no negative size, and headers and payloads add up
    to [HEAP_SIZE]. *)
Definition heap_ok (heap : heap_t) : bool :=
  (0 <=? heap_start heap)
  && (heap_start heap + HEAP_SIZE <=? 4294967296)
  && forallb (fun block => 0 <=? hb_size block) (free_list heap)
  && (span (free_list heap) =? HEAP_SIZE).

(** No free block is followed by a free block. *)
Fixpoint coalesced (l : list heap_block_t) : bool :=
  match l with
  | [] => true
  | block :: next =>
    match next with
    | [] => true
    | block' :: _ =>
      negb (negb (hb_free block =? 0) && negb (hb_free block' =? 0))
      && coalesced next
    end
  end.

(** The flag of a free block is the 1 that the code writes. *)
Definition flags_ok (l : list heap_block_t) : bool :=
  forallb (fun block => (hb_free block =? 0) || (hb_free block =? 1)) l.

(** Two regions with room for a header between them. *)
Definition region_before (a b : Z * Z) : Prop :=
  fst a + snd a + BLOCK_SIZE <= fst b.

(** Every region lies before the regions behind it in the list. *)
Fixpoint regions_apart (l : list (Z * Z)) : Prop :=
  match l with
  | [] => True
  | r :: l' => Forall (region_before r) l' /\ regions_apart l'
  end.

Definition sizes_ok (l : list heap_block_t) : Prop :=
  Forall (fun block => 0 <= hb_size block) l.

(** The block that the loop of [kmalloc] chooses and what it makes of
    it: the first free block of at least [size] bytes, split when 20
    bytes or more are left over. *)
Definition fits (size : Z) (block : heap_block_t) : bool :=
  negb (hb_free block =? 0) && (size <=? hb_size block).

Definition taken (size : Z) (block : heap_block_t) : list heap_block_t :=
  if size + 20 <=? hb_size block
  then [mk_block size 0; mk_block (hb_size block - size - 12) 1]
  else [mk_block (hb_size block) 0].


End Heap.

(** ** [ramdisk_create] of ramdisk.c on the heap *)

(** [sizeof(ramdisk_data_t)], a pointer and two [uint32_t], and
    [sizeof(blockdev_t)], three pointers and two [uint32_t], on the 32-bit
    target. *)
Definition sizeof_ramdisk_data_t : Z := 12.
Definition sizeof_blockdev_t : Z := 20.

(** [ramdisk_create] with its allocations: the [ramdisk_data_t], the
    storage of the rounded size and the [blockdev_t], in this order.  When
    an allocation fails the call frees what it had allocated and returns
    NULL.  The result is the returned device, [None] for NULL, with the
    heap after the call; the outer [None] is a [kfree] of an address that
    is no block.  The device wraps the [ramdisk_data_t] that
    [ramdisk_create] above describes. *)
Definition ramdisk_device (heap : Heap.heap_t) (size : Z)
  : option (option blockdev_t * Heap.heap_t) :=
  match Heap.kmalloc heap sizeof_ramdisk_data_t with
  | (None, heap) => Some (None, heap)
  | (Some ramdisk_ptr, heap) =>
    let ramdisk := ramdisk_create size in
    match Heap.kmalloc heap (rd_size ramdisk) with
    | (None, heap) =>
      match Heap.kfree heap ramdisk_ptr with
      | None => None
      | Some heap => Some (None, heap)
      end
    | (Some data_ptr, heap) =>
      match Heap.kmalloc heap sizeof_blockdev_t with
      | (None, heap) =>
        match Heap.kfree heap data_ptr with
        | None => None
        | Some heap =>
          match Heap.kfree heap ramdisk_ptr with
          | None => None
          | Some heap => Some (None, heap)
          end
        end
      | (Some dev_ptr, heap) =>
        Some (Some (mk_blockdev ramdisk (rd_block_count ramdisk) RAMDISK_BLOCK_SIZE),
              heap)
      end
    end
  end.

(** ** Vocabulary for reading files *)

(** The byte of a file at position [i], through its direct blocks. *)
Definition file_at (fs : ext2_fs_t) (ino : list Z) (i : Z) : option Z :=
  blk_data fs (i_block ino (i / block_size fs))
    !! Z.to_nat (i mod block_size fs).

(** A file the code can read through its direct blocks: below 2 GiB, at
    most 12 blocks, every block up to the size mapped and on the
    device. *)
Definition file_wf (fs : ext2_fs_t) (ino : list Z) : bool :=
  (0 <=? i_size ino) && (i_size ino <? 2147483648)
  && (i_size ino <=? 12 * block_size fs)
  && forallb (fun b => negb (b =? 0) && blk_ok fs b)
             (write_ptrs fs ino (i_size ino)).

(** ** Vocabulary for directories *)

(** The live entries of a directory block and of a directory, in the
    order of the records: inode number and name. *)
Definition block_entries (B es : list Z) : list (Z * list Z) :=
  map (fun e => (de_inode B e, entry_name B e))
      (List.filter (fun e => negb (de_inode B e =? 0)) es).

Definition dir_entries (fs : ext2_fs_t) (ino : list Z) : list (Z * list Z) :=
  flat_map (fun p => block_entries (fst p) (snd p)) (dir_view fs ino).

(** The entry carries the name [name]: the length of the C string and
    the comparison of [strcmp_local]. *)
Definition name_is (name : list Z) (en : Z * list Z) : bool :=
  (Z.of_nat (length (snd en)) =? strlen_local name)
  && (strcmp_local (snd en) name =? 0).

(** In every live record that carries [name], the byte behind the name
    is not 0: the record has no padding and the next record follows, or
    the padding holds old bytes. *)
Definition name_unpadded (fs : ext2_fs_t) (ino name : list Z) : bool :=
  forallb (fun p =>
             forallb (fun e =>
                        negb (live_match (fst p) name e)
                        || negb (byte_at (fst p) (e + DE_NAME_OFF + strlen_local name)
                                 =? 0))
                     (snd p))
          (dir_view fs ino).

(** A root directory in which the record of "abcd" has no padding:
    ".", "..", "abcd", "l1". *)
Definition img_root_dir_tight : list Z :=
  pad_to 1024
    (dirent 2 12 2 [46] ++ dirent 2 12 2 [46; 46]
     ++ dirent 11 12 1 [97; 98; 99; 100] ++ dirent 12 988 7 (l_ 49)).

Definition img_tight_fs : ext2_fs_t :=
  mk_fs (mk_dev (mk_image img_root_dir_tight)) img_superblock img_group_desc
        1024 16 24 1.

Definition path_abcd : list Z := [slash; 97; 98; 99; 100].

(** ** Vocabulary for the allocator *)

(** The numbers of the free blocks, in the order in which
    [ext2_alloc_block] finds them. *)
Definition free_blocks (fs : ext2_fs_t) : list Z :=
  map (block_of_bit fs) (free_bits fs).

(** What the allocator relies on: the block bitmaps of the groups are
    at different places and cover the groups, and the block numbers of
    all groups fit 32 bits. *)
Definition alloc_wf (fs : ext2_fs_t) : bool :=
  distinct (bitmap_addrs fs)
  && (blocks_per_group fs <=? 8 * block_size fs)
  && (0 <=? s_first_data_block (superblock fs))
  && (num_block_groups fs * blocks_per_group fs
      + s_first_data_block (superblock fs) <=? 4294967296).

(** ** Vocabulary for truncation *)

(** The places of the bitmap blocks that hold the bits of the direct
    blocks of an inode. *)
Definition truncate_bitmaps (fs : ext2_fs_t) (ino : list Z) : list Z :=
  map (fun b => blk_addr fs (block_bitmap_of fs b))
      (List.filter (fun b => negb (b =? 0)) (direct_blocks ino)).

(** What [vfs_truncate] relies on for inode [n]: its direct blocks are
    data blocks whose bitmaps are on the device, and they lie apart from
    those bitmaps and from the block of the inode table that holds the
    inode, which is no bitmap block either; blocks are below 64 KiB. *)
Definition truncate_wf (fs : ext2_fs_t) (n : Z) (ino : list Z) : bool :=
  (0 <? blocks_per_group fs) && (0 <? inodes_per_group fs)
  && (block_size fs <? 65536)
  && forallb (fun b => (b =? 0)
                       || ((s_first_data_block (superblock fs) <=? b)
                           && blk_ok fs (block_bitmap_of fs b)))
             (direct_blocks ino)
  && disjoint (map (blk_addr fs)
                   (List.filter (fun b => negb (b =? 0)) (direct_blocks ino)))
              (blk_addr fs (inode_block fs n) :: truncate_bitmaps fs ino)
  && negb (existsb (Z.eqb (blk_addr fs (inode_block fs n)))
                   (truncate_bitmaps fs ino)).

(** The name is "." or "..", as [ext2_is_dir_empty] tests it. *)
Definition is_dot (name : list Z) : bool :=
  (strcmp_local name [46] =? 0) || (strcmp_local name [46; 46] =? 0).

(** ** [ext2_format_time] of ext2.c *)

(** [while (temp > 0) { len++; temp /= 10; }] *)
Fixpoint count_digits (fuel : nat) (temp len : Z) : Z :=
  match fuel with
  | O => len
  | S fuel' =>
    if 0 <? temp then count_digits fuel' (temp / 10) (len + 1) else len
  end.

(** [for (i = len - 1; i >= 0; i--) { buffer[i] = '0' + days % 10; days /= 10; }] *)
Fixpoint write_digits (fuel : nat) (buffer : list Z) (i days : Z) : list Z :=
  match fuel with
  | O => buffer
  | S fuel' =>
    if 0 <=? i
    then write_digits fuel' (set_u8 buffer i (48 + days mod 10)) (i - 1) (days / 10)
    else buffer
  end.

(** [ext2_format_time]: the buffer after the call.  A 32-bit number has
    at most 10 decimal digits.  A store past the end of the list, which
    in C overruns the caller's array, is dropped by [set_u8]; the
    theorems assume a buffer that is long enough. *)
Definition ext2_format_time (timestamp : Z) (buffer : list Z) : list Z :=
  let seconds := timestamp in
  let minutes := seconds / 60 in
  let hours := minutes / 60 in
  let days := hours / 24 in
  let '(buffer, base) :=
    if 0 <? days then
      let len := count_digits 10 days 0 in
      let buffer := write_digits (Z.to_nat len) buffer (len - 1) days in
      let buffer := set_u8 buffer len 100 in
      let buffer := set_u8 buffer (len + 1) 32 in
      (buffer, len + 2)
    else (buffer, 0) in
  let buffer := set_u8 buffer (base + 0) (48 + hours mod 24 / 10) in
  let buffer := set_u8 buffer (base + 1) (48 + (hours mod 24) mod 10) in
  let buffer := set_u8 buffer (base + 2) 58 in
  let buffer := set_u8 buffer (base + 3) (48 + minutes mod 60 / 10) in
  let buffer := set_u8 buffer (base + 4) (48 + (minutes mod 60) mod 10) in
  let buffer := set_u8 buffer (base + 5) 58 in
  let buffer := set_u8 buffer (base + 6) (48 + seconds mod 60 / 10) in
  let buffer := set_u8 buffer (base + 7) (48 + (seconds mod 60) mod 10) in
  set_u8 buffer (base + 8) 0.

(** The number that a string of decimal digits denotes, and the two
    digits of a number below 100. *)
Definition decimal_value (l : list Z) : Z :=
  fold_left (fun a d => 10 * a + (d - 48)) l 0.

Definition two_digits (x : Z) : list Z := [48 + x / 10; 48 + x mod 10].

(** ** Vocabulary for the inode allocator *)

(** The inode numbers that the inode bitmaps of the groups cover, in
    rising order, and the free ones among them, by the bit that
    [ext2_free_inode] addresses. *)
Definition inode_numbers (fs : ext2_fs_t) : list Z :=
  map (fun k => Z.of_nat k + 1)
      (seq 0 (Z.to_nat (num_block_groups fs * inodes_per_group fs))).

Definition inode_free (fs : ext2_fs_t) (n : Z) : bool := inode_bit fs n =? 0.

Definition free_inodes (fs : ext2_fs_t) : list Z :=
  List.filter (inode_free fs) (inode_numbers fs).

Definition inode_bitmap_addrs (fs : ext2_fs_t) : list Z :=
  map (fun g => blk_addr fs (bg_inode_bitmap (block_groups fs) g))
      (bit_range (num_block_groups fs)).

(** What the inode allocator relies on: the inode bitmaps of the groups
    are on the device, at different places, and cover the groups, and
    the inode numbers fit 32 bits. *)
Definition inode_alloc_wf (fs : ext2_fs_t) : bool :=
  (0 <? inodes_per_group fs) && (inodes_per_group fs <=? 8 * block_size fs)
  && (num_block_groups fs * inodes_per_group fs <? 4294967296)
  && forallb (fun g => blk_ok fs (bg_inode_bitmap (block_groups fs) g))
             (bit_range (num_block_groups fs))
  && distinct (inode_bitmap_addrs fs).

(** Bit [i] of the inode bitmap of group [g], and the file system that
    [ext2_alloc_inode] leaves when it takes that bit. *)
Definition group_inode_bit (fs : ext2_fs_t) (g i : Z) : Z :=
  bitmap_test (blk_data fs (bg_inode_bitmap (block_groups fs) g)) i.

Definition inode_alloc_update (fs : ext2_fs_t) (g i : Z) : ext2_fs_t :=
  dec_free_inodes
    (disk_put fs (bg_inode_bitmap (block_groups fs) g)
       (bitmap_set (blk_data fs (bg_inode_bitmap (block_groups fs) g)) i))
    g.

(** The tables in memory and the device hold bytes, and the tables
    have the counters of every group. *)
Definition tables_ok (fs : ext2_fs_t) : bool :=
  bytes_ok (disk fs) && bytes_ok (block_groups fs) && bytes_ok (superblock fs)
  && (num_block_groups fs * BGD_SIZE <=? Z.of_nat (length (block_groups fs)))
  && (20 <=? Z.of_nat (length (superblock fs))).

(** ** Vocabulary for adding a directory entry *)

(** The test of [ext2_add_dir_entry] on the record at [e]: its
    [rec_len] is larger than its name needs. *)
Definition has_slack (block : list Z) (e : Z) : bool :=
  dir_actual_len (de_name_len block e) <? de_rec_len block e.

(** The block after [ext2_add_dir_entry] has cut the record at [e] down
    to what its name needs and put the new record behind it. *)
Definition split_record (block : list Z) (e new_inode_num : Z) (name : list Z)
    (name_len type : Z) : list Z :=
  let actual_len := dir_actual_len (de_name_len block e) in
  let new_rec_len := u16 (de_rec_len block e - actual_len) in
  let block := set_u16 block (e + 4) actual_len in
  let new_entry := e + actual_len in
  let block := set_u32 block new_entry new_inode_num in
  let block := set_u16 block (new_entry + 4) new_rec_len in
  let block := set_u8 block (new_entry + 6) name_len in
  let block := set_u8 block (new_entry + 7) type in
  memcpy_local block (new_entry + DE_NAME_OFF) name 0 name_len.

(** [ext2_add_dir_entry] over the blocks of a directory, from block
    number [j] on: the first record with slack, in the order of the
    blocks and of the records, is split. *)
Fixpoint add_list (fs : ext2_fs_t) (ino : list Z) (new_inode_num : Z)
    (name : list Z) (type : Z) (j : nat) (bl : list (list Z * list Z))
  : option (Z * ext2_fs_t) :=
  match bl with
  | [] => None
  | (B, es) :: bl' =>
    match List.find (has_slack B) es with
    | Some e =>
      Some (0, disk_put fs (i_block ino (Z.of_nat j))
                 (split_record B e new_inode_num name (strlen_local name) type))
    | None => add_list fs ino new_inode_num name type (S j) bl'
    end
  end.

(** The first record with slack of a directory, with its block. *)
Fixpoint first_slack (bl : list (list Z * list Z)) : option (list Z * Z) :=
  match bl with
  | [] => None
  | (B, es) :: bl' =>
    match List.find (has_slack B) es with
    | Some e => Some (B, e)
    | None => first_slack bl'
    end
  end.

(** The first record with slack has room for a record with [name]. *)
Definition add_room (fs : ext2_fs_t) (ino name : list Z) : bool :=
  match first_slack (dir_view fs ino) with
  | Some (B, e) =>
    dir_actual_len (strlen_local name)
    <=? de_rec_len B e - dir_actual_len (de_name_len B e)
  | None => false
  end.

(** ** Vocabulary for [vfs_create] *)

(** The inode that [vfs_create] writes for a regular file. *)
Definition new_file_inode (system_ticks : Z) : list Z :=
  let new_inode :=
    memset_local (replicate (Z.to_nat INODE_SIZE) 0) 0 0 INODE_SIZE in
  let new_inode :=
    set_i_links_count (set_i_mode new_inode (Z.lor EXT2_S_IFREG 420)) 1 in
  let new_inode := set_i_blocks (set_i_size new_inode 0) 0 in
  let current_time := system_ticks / 100 in
  set_i_mtime (set_i_ctime (set_i_atime new_inode current_time) current_time)
              current_time.

(** Inode [c] of the walk is stored away from the inode bitmap [ibm] and
    the directory blocks [PD] and in another slot than the new inode
    [n], and (unless it is the directory [pn] itself) keeps at most 12
    blocks, away from [ibm], from the block [itb] of the inode table
    that takes the new inode, and from [PD]. *)
Definition create_apart (fs : ext2_fs_t) (ibm itb : Z) (PD : list Z)
    (pn n c : Z) : bool :=
  negb (existsb (Z.eqb (blk_addr fs (inode_block fs c))) (ibm :: PD))
  && (negb (blk_addr fs (inode_block fs c) =? itb)
      || negb (inode_slot fs c =? inode_slot fs n))
  && ((c =? pn)
      || match ext2_read_inode fs c with
         | None => true
         | Some cino =>
           (i_size cino <=? 12 * block_size fs)
           && disjoint (map (blk_addr fs) (direct_blocks cino)) (ibm :: itb :: PD)
         end).

(** What [vfs_create] relies on when it makes the file at [path]: the
    parent directory is well formed and has room for the name, the lowest
    free inode has a place in the inode table, and the three blocks that
    the call rewrites (an inode bitmap, a block of the inode table, a
    block of the directory) are different blocks, not shared with the
    inodes and directories that the walk of the parent path reads. *)
Definition create_wf (fs : ext2_fs_t) (path : list Z) : bool :=
  match split_path path with
  | None => false
  | Some (parent_path, name) =>
    match vfs_resolve_path (Some fs) parent_path with
    | None => false
    | Some pn =>
      match ext2_read_inode fs pn, free_inodes fs with
      | Some pino, n :: _ =>
        let PD := map (blk_addr fs) (dir_blocks fs pino) in
        let ibm := blk_addr fs (inode_bitmap_of fs n) in
        let itb := blk_addr fs (inode_block fs n) in
        dir_wf fs pino
        && negb (Z.land (i_mode pino) EXT2_S_IFDIR =? 0)
        && add_room fs pino name
        && inode_alloc_wf fs
        && inode_ok fs n
        && negb (ibm =? itb)
        && negb (existsb (Z.eqb ibm) PD)
        && negb (existsb (Z.eqb itb) PD)
        && forallb (create_apart fs ibm itb PD pn n)
                   (pn :: path_inodes fs parent_path)
      | _, _ => false
      end
    end
  end.

(** * Properties *)

(** ** Integers and byte buffers *)

Lemma u8_range x : 0 <= u8 x < 256.
Proof. unfold u8. apply Z.mod_pos_bound. lia. Qed.

Lemma u16_range x : 0 <= u16 x < 65536.
Proof. unfold u16. apply Z.mod_pos_bound. lia. Qed.

Lemma u32_range x : 0 <= u32 x < 4294967296.
Proof. unfold u32. apply Z.mod_pos_bound. lia. Qed.

Lemma u8_small x : 0 <= x < 256 -> u8 x = x.
Proof. unfold u8. apply Z.mod_small. Qed.

Lemma u16_small x : 0 <= x < 65536 -> u16 x = x.
Proof. unfold u16. apply Z.mod_small. Qed.

Lemma u32_small x : 0 <= x < 4294967296 -> u32 x = x.
Proof. unfold u32. apply Z.mod_small. Qed.

Lemma to_int_small x : 0 <= x < 2147483648 -> to_int x = x.
Proof.
  intros H. unfold to_int. rewrite u32_small by lia.
  destruct (Z.ltb_spec x 2147483648); lia.
Qed.

Lemma strlen_local_nonneg s : 0 <= strlen_local s.
Proof. induction s as [|c s IH]; simpl; [lia|]. destruct (c =? 0); lia. Qed.

Lemma strlen_local_le_length s : strlen_local s <= Z.of_nat (length s).
Proof.
  induction s as [|c s IH]; simpl length; simpl strlen_local; [lia|].
  destruct (c =? 0); lia.
Qed.

Lemma length_set_u8 m off v : length (set_u8 m off v) = length m.
Proof. unfold set_u8. apply length_insert. Qed.

Lemma length_set_u16 m off v : length (set_u16 m off v) = length m.
Proof. unfold set_u16. now rewrite !length_set_u8. Qed.

Lemma length_set_u32 m off v : length (set_u32 m off v) = length m.
Proof. unfold set_u32. now rewrite !length_set_u8. Qed.

Lemma length_memcpy_local dest doff src soff n :
  length (memcpy_local dest doff src soff n) = length dest.
Proof. unfold memcpy_local. apply length_inserts. Qed.

Lemma length_memset_local dest doff c n :
  length (memset_local dest doff c n) = length dest.
Proof. unfold memset_local. apply length_inserts. Qed.

(** Reading a byte after a one-byte store. *)
Lemma byte_at_set_u8 m off v i :
  0 <= off -> 0 <= i ->
  byte_at (set_u8 m off v) i =
  if (i =? off) && (off <? Z.of_nat (length m)) then u8 v else byte_at m i.
Proof.
  intros Hoff Hi. unfold byte_at, set_u8.
  destruct (Z.eqb_spec i off) as [->|Hne]; simpl.
  - destruct (Z.ltb_spec off (Z.of_nat (length m))).
    + rewrite list_lookup_insert_eq by lia. reflexivity.
    + rewrite list_insert_ge by lia. reflexivity.
  - rewrite list_lookup_insert_ne by lia. reflexivity.
Qed.

Lemma byte_at_set_u8_ne m off v i :
  0 <= off -> 0 <= i -> i <> off -> byte_at (set_u8 m off v) i = byte_at m i.
Proof.
  intros. rewrite byte_at_set_u8 by lia.
  destruct (Z.eqb_spec i off); [lia|reflexivity].
Qed.

Lemma byte_at_set_u8_eq m off v :
  0 <= off < Z.of_nat (length m) -> byte_at (set_u8 m off v) off = u8 v.
Proof.
  intros. rewrite byte_at_set_u8 by lia. rewrite Z.eqb_refl.
  destruct (Z.ltb_spec off (Z.of_nat (length m))); [reflexivity|lia].
Qed.

Lemma byte_at_set_u16_ne m off v i :
  0 <= off -> 0 <= i -> (i < off \/ off + 2 <= i) ->
  byte_at (set_u16 m off v) i = byte_at m i.
Proof.
  intros. unfold set_u16. rewrite !byte_at_set_u8_ne by lia. reflexivity.
Qed.

Lemma byte_at_set_u32_ne m off v i :
  0 <= off -> 0 <= i -> (i < off \/ off + 4 <= i) ->
  byte_at (set_u32 m off v) i = byte_at m i.
Proof.
  intros. unfold set_u32. rewrite !byte_at_set_u8_ne by lia. reflexivity.
Qed.

Lemma u16_split v : u8 v + 256 * u8 (v / 256) = u16 v.
Proof.
  unfold u8, u16.
  pose proof (Z.div_mod v 256 ltac:(lia)) as H0.
  pose proof (Z.div_mod (v / 256) 256 ltac:(lia)) as H1.
  pose proof (Z.mod_pos_bound v 256 ltac:(lia)).
  pose proof (Z.mod_pos_bound (v / 256) 256 ltac:(lia)).
  apply Z.mod_unique_pos with (q := v / 256 / 256); lia.
Qed.

Lemma u32_split v :
  u8 v + 256 * u8 (v / 256) + 65536 * u8 (v / 65536)
  + 16777216 * u8 (v / 16777216) = u32 v.
Proof.
  unfold u8, u32.
  pose proof (Z.div_mod v 256 ltac:(lia)) as H0.
  pose proof (Z.div_mod (v / 256) 256 ltac:(lia)) as H1.
  pose proof (Z.div_mod (v / 256 / 256) 256 ltac:(lia)) as H2.
  pose proof (Z.div_mod (v / 256 / 256 / 256) 256 ltac:(lia)) as H3.
  pose proof (Z.mod_pos_bound v 256 ltac:(lia)).
  pose proof (Z.mod_pos_bound (v / 256) 256 ltac:(lia)).
  pose proof (Z.mod_pos_bound (v / 256 / 256) 256 ltac:(lia)).
  pose proof (Z.mod_pos_bound (v / 256 / 256 / 256) 256 ltac:(lia)).
  replace (v / 65536) with (v / 256 / 256) by (rewrite Z.div_div by lia; reflexivity).
  replace (v / 16777216) with (v / 256 / 256 / 256)
    by (rewrite !Z.div_div by lia; reflexivity).
  apply Z.mod_unique_pos with (q := v / 256 / 256 / 256 / 256); lia.
Qed.

Lemma get_u16_set_u16 m off v :
  0 <= off -> off + 2 <= Z.of_nat (length m) ->
  get_u16 (set_u16 m off v) off = u16 v.
Proof.
  intros. unfold get_u16, set_u16.
  rewrite (byte_at_set_u8_ne _ (off + 1)) by lia.
  rewrite !byte_at_set_u8_eq by (rewrite ?length_set_u8; lia).
  apply u16_split.
Qed.

Lemma get_u32_set_u32 m off v :
  0 <= off -> off + 4 <= Z.of_nat (length m) ->
  get_u32 (set_u32 m off v) off = u32 v.
Proof.
  intros. unfold get_u32, set_u32.
  repeat first
    [ rewrite byte_at_set_u8_eq by (rewrite ?length_set_u8; lia)
    | rewrite byte_at_set_u8_ne by lia ].
  apply u32_split.
Qed.

Lemma get_u16_set_u16_ne m off v off' :
  0 <= off -> 0 <= off' -> (off' + 2 <= off \/ off + 2 <= off') ->
  get_u16 (set_u16 m off v) off' = get_u16 m off'.
Proof.
  intros. unfold get_u16. rewrite !byte_at_set_u16_ne by lia. reflexivity.
Qed.

Lemma get_u32_set_u16_ne m off v off' :
  0 <= off -> 0 <= off' -> (off' + 4 <= off \/ off + 2 <= off') ->
  get_u32 (set_u16 m off v) off' = get_u32 m off'.
Proof.
  intros. unfold get_u32. rewrite !byte_at_set_u16_ne by lia. reflexivity.
Qed.

Lemma get_u16_set_u32_ne m off v off' :
  0 <= off -> 0 <= off' -> (off' + 2 <= off \/ off + 4 <= off') ->
  get_u16 (set_u32 m off v) off' = get_u16 m off'.
Proof.
  intros. unfold get_u16. rewrite !byte_at_set_u32_ne by lia. reflexivity.
Qed.

Lemma get_u32_set_u32_ne m off v off' :
  0 <= off -> 0 <= off' -> (off' + 4 <= off \/ off + 4 <= off') ->
  get_u32 (set_u32 m off v) off' = get_u32 m off'.
Proof.
  intros. unfold get_u32. rewrite !byte_at_set_u32_ne by lia. reflexivity.
Qed.

(** ** The concrete image *)

Lemma img_mounted : ext2_mount None img_dev = (0, Some img_fs).
Proof. vm_compute. reflexivity. Qed.

Lemma img_open_f : vfs_open (Some img_fs) path_f = Some img_file.
Proof. vm_compute. reflexivity. Qed.

(** ** The RAM-backed device: range checks *)

(** A request whose range leaves the device is refused, as long as
    [block + count] does not wrap around 32 bits. *)
Lemma ramdisk_write_out_of_range rd block count buf :
  0 <= block -> 0 <= count -> block + count < 4294967296 ->
  rd_block_count rd < block + count ->
  ramdisk_write rd block count buf = (-1, rd).
Proof.
  intros Hb Hc Hsum Hout. unfold ramdisk_write.
  destruct (Z.leb_spec (rd_block_count rd) block); [reflexivity|].
  rewrite u32_small by lia.
  destruct (Z.ltb_spec (rd_block_count rd) (block + count)); [reflexivity|lia].
Qed.

Lemma ramdisk_read_out_of_range rd block count buf :
  0 <= block -> 0 <= count -> block + count < 4294967296 ->
  rd_block_count rd < block + count ->
  ramdisk_read rd block count buf = (-1, buf).
Proof.
  intros Hb Hc Hsum Hout. unfold ramdisk_read.
  destruct (Z.leb_spec (rd_block_count rd) block); [reflexivity|].
  rewrite u32_small by lia.
  destruct (Z.ltb_spec (rd_block_count rd) (block + count)); [reflexivity|lia].
Qed.

(** C6 (the code departs from the claim).  On a four-block ramdisk the
    request with first block 1 and count 0xFFFFFFFF covers blocks far
    outside the device, yet [block + count] wraps to 0 in 32 bits, both
    range checks pass, [ramdisk_write] and [ramdisk_read] return 0, and
    the write has changed the device's bytes. *)
Theorem ramdisk_range_check_wraps :
  let rd := ramdisk_create 2048 in
  let buf := replicate 512%nat 7 in
  rd_block_count rd = 4 /\
  ~ (1 + 4294967295 <= rd_block_count rd) /\
  fst (ramdisk_write rd 1 4294967295 buf) = 0 /\
  fst (ramdisk_read rd 1 4294967295 buf) = 0 /\
  byte_at (rd_data rd) 512 = 0 /\
  byte_at (rd_data (snd (ramdisk_write rd 1 4294967295 buf))) 512 = 7.
Proof.
  cbv zeta. split; [reflexivity|]. split; [intros H; apply H; reflexivity|].
  repeat split; lazy; reflexivity.
Qed.

(** ** Path length limits of create, unlink and symlink *)

Lemma split_path_rejects path :
  strlen_local path < 4294967296 ->
  strlen_local path = 0 \/ 255 < strlen_local path ->
  split_path path = None.
Proof.
  intros Hfit Hlen. pose proof (strlen_local_nonneg path) as Hnn.
  unfold split_path.
  destruct (Z.ltb_spec (strlen_local path) 2147483648) as [Hs|Hs].
  - rewrite to_int_small by lia.
    destruct Hlen as [->|Hl]; [reflexivity|].
    destruct (Z.eqb_spec (strlen_local path) 0); [reflexivity|].
    destruct (Z.ltb_spec 255 (strlen_local path)); [reflexivity|lia].
  - assert (Hneg : to_int (strlen_local path) = strlen_local path - 4294967296).
    { unfold to_int. rewrite u32_small by lia.
      destruct (Z.ltb_spec (strlen_local path) 2147483648); [lia|reflexivity]. }
    rewrite Hneg.
    destruct (Z.eqb_spec (strlen_local path - 4294967296) 0); [reflexivity|].
    destruct (Z.ltb_spec 255 (strlen_local path - 4294967296)); [reflexivity|].
    simpl orb. cbv iota.
    replace (Z.to_nat (strlen_local path - 4294967296)) with 0%nat by lia.
    reflexivity.
Qed.

(** C10.  A path of length 0 or of more than 255 bytes is rejected by
    [vfs_create], [vfs_unlink] and [vfs_create_symlink] with -1, before
    the file system is touched, whatever the length of its components.
    (The path is a C string of the 32-bit address space.) *)
Theorem vfs_path_length_limit g path type target ticks :
  strlen_local path < 4294967296 ->
  strlen_local path = 0 \/ 255 < strlen_local path ->
  vfs_create g path type ticks = (-1, g) /\
  vfs_unlink g path = (-1, g) /\
  vfs_create_symlink g path target = (-1, g).
Proof.
  intros Hfit Hlen. pose proof (split_path_rejects path Hfit Hlen) as Hs.
  unfold vfs_create, vfs_unlink, vfs_create_symlink. rewrite Hs.
  destruct g; repeat split; reflexivity.
Qed.

Lemma vfs_path_length_limit_witness :
  strlen_local long_path = 256 /\
  vfs_create (Some img_fs) long_path VFS_TYPE_FILE 0 = (-1, Some img_fs) /\
  vfs_unlink (Some img_fs) long_path = (-1, Some img_fs) /\
  vfs_create_symlink (Some img_fs) long_path path_f = (-1, Some img_fs).
Proof.
  split; [reflexivity|].
  apply (vfs_path_length_limit (Some img_fs) long_path VFS_TYPE_FILE path_f 0).
  - vm_compute. reflexivity.
  - right. vm_compute. reflexivity.
Defined.

(** ** Truncation never grows a file *)

(** C8.  When [new_size] is at least the size recorded in the on-disk
    inode, [vfs_truncate] returns 0 and leaves the file system (hence the
    on-disk inode) and the handle (cached size, position) as they were. *)
Theorem vfs_truncate_noop fs file new_size ino :
  f_is_open file <> 0 ->
  ext2_read_inode fs (f_inode file) = Some ino ->
  i_size ino <= new_size ->
  vfs_truncate (Some fs) file new_size = (0, Some fs, file).
Proof.
  intros Hopen Hread Hsize. unfold vfs_truncate.
  destruct (Z.eqb_spec (f_is_open file) 0); [contradiction|].
  rewrite Hread.
  destruct (Z.leb_spec (i_size ino) new_size); [reflexivity|lia].
Qed.

Lemma vfs_truncate_noop_witness :
  vfs_truncate (Some img_fs) img_file 2000 = (0, Some img_fs, img_file).
Proof.
  apply (vfs_truncate_noop img_fs img_file 2000
           (default [] (ext2_read_inode img_fs 11))).
  - vm_compute. discriminate.
  - vm_compute. reflexivity.
  - vm_compute. discriminate.
Defined.

(** ** Slices of byte buffers *)

Lemma lookup_slice (l : list Z) off n i :
  (i < n)%nat -> take n (drop off l) !! i = l !! (off + i)%nat.
Proof. intros. rewrite lookup_take_lt by lia. apply lookup_drop. Qed.

Lemma length_slice (l : list Z) off n :
  (off + n <= length l)%nat -> length (take n (drop off l)) = n.
Proof. intros. rewrite length_take, length_drop. lia. Qed.

Lemma slice_inserts_same (l k : list Z) off :
  (off + length k <= length l)%nat ->
  take (length k) (drop off (list_inserts off k l)) = k.
Proof.
  intros H. apply list_eq. intros i.
  destruct (decide (i < length k)%nat) as [Hi|Hi].
  - rewrite lookup_slice by lia.
    rewrite list_lookup_inserts by lia. f_equal. lia.
  - rewrite lookup_take_ge by lia. symmetry. apply lookup_ge_None_2. lia.
Qed.

Lemma slice_inserts_disjoint (l k : list Z) off off' n :
  (off' + n <= off \/ off + length k <= off')%nat ->
  take n (drop off' (list_inserts off k l)) = take n (drop off' l).
Proof.
  intros H. apply list_eq. intros i.
  destruct (decide (i < n)%nat) as [Hi|Hi].
  - rewrite !lookup_slice by lia.
    destruct H; [apply list_lookup_inserts_lt|apply list_lookup_inserts_ge]; lia.
  - rewrite !lookup_take_ge by lia. reflexivity.
Qed.

Lemma inserts_slice_id (l : list Z) off n :
  list_inserts off (take n (drop off l)) l = l.
Proof.
  apply list_eq. intros i.
  destruct (decide (i < off)%nat) as [Hlt|Hge].
  { apply list_lookup_inserts_lt. lia. }
  destruct (decide (off + length (take n (drop off l)) <= i)%nat) as [Hhi|Hin].
  { apply list_lookup_inserts_ge. lia. }
  assert (Hil : (i < length l)%nat).
  { rewrite length_take, length_drop in Hin. lia. }
  rewrite list_lookup_inserts by lia.
  rewrite length_take, length_drop in Hin.
  rewrite lookup_slice by lia. f_equal. lia.
Qed.

Lemma inserts_full (l k : list Z) :
  length k = length l -> list_inserts 0 k l = k.
Proof.
  intros H. rewrite <- (app_nil_r k) at 1. apply list_inserts_0_l. exact H.
Qed.

Lemma memcpy_local_read (buf src : list Z) soff n :
  0 <= soff -> 0 <= n ->
  Z.of_nat (length buf) = n -> soff + n <= Z.of_nat (length src) ->
  memcpy_local buf 0 src soff n = take (Z.to_nat n) (drop (Z.to_nat soff) src).
Proof.
  intros. unfold memcpy_local. change (Z.to_nat 0) with 0%nat.
  apply inserts_full. rewrite length_slice; lia.
Qed.

Lemma memcpy_local_write (dest src : list Z) doff n :
  0 <= doff -> Z.of_nat (length src) = n ->
  memcpy_local dest doff src 0 n = list_inserts (Z.to_nat doff) src dest.
Proof.
  intros. unfold memcpy_local. change (Z.to_nat 0) with 0%nat.
  rewrite drop_0, take_ge by lia. reflexivity.
Qed.

(** ** Block input and output *)

Section BlockIO.

Variable fs : ext2_fs_t.
Hypothesis Hgeom : fs_geom fs = true.

Let k := block_size fs / 512.

Lemma geom_facts :
  0 < block_size fs < 4294967296 /\ block_size fs = 512 * k /\ 0 < k
  /\ 4294967296 mod k = 0
  /\ Z.of_nat (length (disk fs)) = dev_blocks fs * 512
  /\ dev_blocks fs * 512 < 4294967296.
Proof.
  unfold fs_geom in Hgeom. subst k.
  repeat (apply andb_prop in Hgeom; destruct Hgeom as [Hgeom ?]).
  apply Z.ltb_lt in Hgeom.
  repeat match goal with
         | H : (_ <? _) = true |- _ => apply Z.ltb_lt in H
         | H : (_ =? _) = true |- _ => apply Z.eqb_eq in H
         end.
  assert (block_size fs = 512 * (block_size fs / 512)).
  { apply Z_div_exact_full_2; lia. }
  repeat split; try lia.
Qed.

Lemma kmalloc_block : kmalloc (block_size fs) = Some (replicate (Z.to_nat (block_size fs)) 0).
Proof.
  destruct geom_facts as (Hbs & _). unfold kmalloc.
  destruct (Z.eqb_spec (block_size fs) 0); [lia|reflexivity].
Qed.

Lemma blk_addr_range b : 0 <= blk_addr fs b < 4294967296.
Proof. apply u32_range. Qed.

Lemma blk_addr_multiple b : blk_addr fs b mod k = 0.
Proof.
  destruct geom_facts as (_ & _ & Hk & Hdiv & _).
  unfold blk_addr, u32. fold k.
  rewrite Z.mod_mod_divide by (apply Z.mod_divide; lia).
  apply Z.mod_mul. lia.
Qed.

(** Blocks at different device addresses do not overlap. *)
Lemma blk_addr_apart b b' :
  blk_addr fs b <> blk_addr fs b' ->
  blk_addr fs b + k <= blk_addr fs b' \/ blk_addr fs b' + k <= blk_addr fs b.
Proof.
  destruct geom_facts as (_ & _ & Hk & _).
  pose proof (blk_addr_multiple b) as H1. pose proof (blk_addr_multiple b') as H2.
  apply Z.mod_divide in H1; [|lia]. apply Z.mod_divide in H2; [|lia].
  destruct H1 as [q ->]. destruct H2 as [q' ->]. intros Hne.
  assert (q < q' \/ q' < q) as [Hq|Hq] by nia; nia.
Qed.

Lemma blk_ok_bound b :
  blk_ok fs b = true -> blk_addr fs b * 512 + block_size fs <= Z.of_nat (length (disk fs)).
Proof.
  destruct geom_facts as (_ & Hbs & Hk & _ & Hlen & _).
  unfold blk_ok. fold k. intros H. apply Z.leb_le in H. nia.
Qed.

Lemma length_blk_data b :
  blk_ok fs b = true -> Z.of_nat (length (blk_data fs b)) = block_size fs.
Proof.
  intros H. pose proof (blk_ok_bound b H). pose proof (blk_addr_range b).
  destruct geom_facts as (Hbs & _).
  unfold blk_data. rewrite length_slice; lia.
Qed.

Lemma read_blocks_spec b (buf : list Z) :
  Z.of_nat (length buf) = block_size fs ->
  ext2_read_blocks fs b 1 buf =
  if blk_ok fs b then (0, blk_data fs b) else (-1, buf).
Proof.
  intros Hbuf.
  destruct geom_facts as (Hbs & Hbk & Hk & _ & Hlen & Hsmall).
  pose proof (blk_addr_range b) as Ha.
  unfold ext2_read_blocks, blockdev_read, blockdev_get_block_size,
    ramdisk_get_block_size, ramdisk_read, RAMDISK_BLOCK_SIZE.
  fold k. change (u32 (b * k)) with (blk_addr fs b).
  fold (dev_blocks fs). fold (disk fs).
  rewrite Z.mul_1_l. rewrite (u32_small k) by lia.
  unfold blk_ok. fold k.
  destruct (Z.leb_spec (dev_blocks fs) (blk_addr fs b)) as [Hout|Hin].
  { destruct (Z.leb_spec (blk_addr fs b + k) (dev_blocks fs)); [lia|reflexivity]. }
  rewrite (u32_small (blk_addr fs b + k)) by lia.
  destruct (Z.leb_spec (blk_addr fs b + k) (dev_blocks fs)) as [Hok|Hbad].
  - destruct (Z.ltb_spec (dev_blocks fs) (blk_addr fs b + k)); [lia|].
    rewrite (u32_small (blk_addr fs b * 512)) by lia.
    rewrite (u32_small (k * 512)) by lia.
    replace (k * 512) with (block_size fs) by lia.
    rewrite memcpy_local_read by nia. reflexivity.
  - destruct (Z.ltb_spec (dev_blocks fs) (blk_addr fs b + k)); [reflexivity|lia].
Qed.

Lemma set_device_same : set_device fs (device fs) = fs.
Proof. destruct fs. reflexivity. Qed.

Lemma write_blocks_spec b (buf : list Z) :
  Z.of_nat (length buf) = block_size fs ->
  ext2_write_blocks fs b 1 buf =
  if blk_ok fs b then (0, disk_put fs b buf) else (-1, fs).
Proof.
  intros Hbuf.
  destruct geom_facts as (Hbs & Hbk & Hk & _ & Hlen & Hsmall).
  pose proof (blk_addr_range b) as Ha.
  unfold ext2_write_blocks, blockdev_write, blockdev_get_block_size,
    ramdisk_get_block_size, ramdisk_write, RAMDISK_BLOCK_SIZE.
  fold k. change (u32 (b * k)) with (blk_addr fs b).
  fold (dev_blocks fs). fold (disk fs).
  rewrite Z.mul_1_l. rewrite (u32_small k) by lia.
  unfold blk_ok. fold k.
  assert (Hsame : set_device fs
            (mk_blockdev (device_data (device fs)) (dev_block_count (device fs))
                         (dev_block_size (device fs))) = fs).
  { destruct fs as [[? ? ?] ? ? ? ? ? ?]. reflexivity. }
  destruct (Z.leb_spec (dev_blocks fs) (blk_addr fs b)) as [Hout|Hin].
  { destruct (Z.leb_spec (blk_addr fs b + k) (dev_blocks fs)); [lia|].
    rewrite Hsame. reflexivity. }
  rewrite (u32_small (blk_addr fs b + k)) by lia.
  destruct (Z.leb_spec (blk_addr fs b + k) (dev_blocks fs)) as [Hok|Hbad].
  - destruct (Z.ltb_spec (dev_blocks fs) (blk_addr fs b + k)); [lia|].
    rewrite (u32_small (blk_addr fs b * 512)) by lia.
    rewrite (u32_small (k * 512)) by lia.
    rewrite memcpy_local_write by lia. reflexivity.
  - destruct (Z.ltb_spec (dev_blocks fs) (blk_addr fs b + k)); [|lia].
    rewrite Hsame. reflexivity.
Qed.

(** The file system after a block write. *)
Lemma disk_put_geom b (buf : list Z) : fs_geom (disk_put fs b buf) = true.
Proof.
  unfold fs_geom in *. unfold disk_put, disk, dev_blocks in *. simpl.
  rewrite length_inserts. exact Hgeom.
Qed.

Lemma blk_addr_disk_put b buf b' : blk_addr (disk_put fs b buf) b' = blk_addr fs b'.
Proof. reflexivity. Qed.

Lemma blk_ok_disk_put b buf b' : blk_ok (disk_put fs b buf) b' = blk_ok fs b'.
Proof. reflexivity. Qed.

Lemma blk_data_disk_put_same b (buf : list Z) :
  blk_ok fs b = true -> Z.of_nat (length buf) = block_size fs ->
  blk_data (disk_put fs b buf) b = buf.
Proof.
  intros Hok Hbuf. pose proof (blk_ok_bound b Hok). pose proof (blk_addr_range b).
  unfold blk_data. rewrite blk_addr_disk_put.
  unfold disk_put, disk. simpl. fold (disk fs).
  replace (Z.to_nat (block_size fs)) with (length buf) by lia.
  apply slice_inserts_same. lia.
Qed.

Lemma blk_data_disk_put_other b (buf : list Z) b' :
  Z.of_nat (length buf) = block_size fs ->
  blk_addr fs b' <> blk_addr fs b ->
  blk_data (disk_put fs b buf) b' = blk_data fs b'.
Proof.
  intros Hbuf Hne.
  destruct geom_facts as (Hbs & Hbk & Hk & _).
  pose proof (blk_addr_range b). pose proof (blk_addr_range b').
  pose proof (blk_addr_apart b' b Hne) as Hapart. fold k in Hapart.
  unfold blk_data. rewrite blk_addr_disk_put.
  unfold disk_put, disk. simpl. fold (disk fs).
  apply slice_inserts_disjoint. lia.
Qed.

(** Writing back the bytes a block already holds changes nothing. *)
Lemma disk_put_same_data b :
  disk_put fs b (blk_data fs b) = fs.
Proof.
  unfold disk_put, blk_data. rewrite inserts_slice_id.
  destruct fs as [[[? ? ?] ? ?] ? ? ? ? ? ?]. reflexivity.
Qed.

End BlockIO.

(** ** Inode input and output *)

Lemma inode_slot_bound fs n :
  fs_geom fs = true ->
  0 <= inode_slot fs n /\ inode_slot fs n + INODE_SIZE <= block_size fs.
Proof.
  intros Hgeom. destruct (geom_facts fs Hgeom) as (Hbs & Hbk & Hk & _).
  unfold inode_slot, INODE_SIZE.
  assert (Hipb : 0 < block_size fs / 128).
  { apply Z.div_str_pos. lia. }
  pose proof (Z.mod_pos_bound (u32 (n - 1) mod inodes_per_group fs)
                (block_size fs / 128) Hipb).
  pose proof (Z.mul_div_le (block_size fs) 128 ltac:(lia)).
  nia.
Qed.

Lemma length_inode_at fs n :
  fs_geom fs = true -> inode_ok fs n = true ->
  length (inode_at fs n) = 128%nat.
Proof.
  intros Hgeom Hok. unfold inode_ok in Hok.
  apply andb_prop in Hok. destruct Hok as [_ Hblk].
  pose proof (length_blk_data fs Hgeom _ Hblk).
  pose proof (inode_slot_bound fs n Hgeom). unfold INODE_SIZE in *.
  unfold inode_at, INODE_SIZE. rewrite length_slice; lia.
Qed.

Lemma read_inode_spec fs n :
  fs_geom fs = true ->
  ext2_read_inode fs n = if inode_ok fs n then Some (inode_at fs n) else None.
Proof.
  intros Hgeom. unfold ext2_read_inode, inode_ok.
  destruct (Z.eqb_spec n 0) as [Hz|Hnz]; [reflexivity|]. simpl negb.
  fold (inode_group fs n).
  destruct (Z.leb_spec (num_block_groups fs) (inode_group fs n)) as [Hg|Hg].
  { destruct (Z.ltb_spec (inode_group fs n) (num_block_groups fs)); [lia|reflexivity]. }
  destruct (Z.ltb_spec (inode_group fs n) (num_block_groups fs)); [|lia].
  rewrite kmalloc_block by assumption.
  fold (inode_block fs n). simpl andb.
  rewrite read_blocks_spec by (try assumption; rewrite length_replicate; 
                               destruct (geom_facts fs Hgeom); lia).
  destruct (blk_ok fs (inode_block fs n)) eqn:Hblk; [|reflexivity].
  simpl negb. cbv iota.
  fold (inode_slot fs n).
  pose proof (length_blk_data fs Hgeom _ Hblk).
  pose proof (inode_slot_bound fs n Hgeom). unfold INODE_SIZE in *.
  rewrite memcpy_local_read; try lia.
  - reflexivity.
  - rewrite length_replicate. lia.
Qed.

Lemma write_inode_spec fs n (ino : list Z) :
  fs_geom fs = true -> length ino = 128%nat ->
  ext2_write_inode fs n ino =
  if inode_ok fs n
  then (0, disk_put fs (inode_block fs n)
             (list_inserts (Z.to_nat (inode_slot fs n)) ino
                           (blk_data fs (inode_block fs n))))
  else (-1, fs).
Proof.
  intros Hgeom Hlen. unfold ext2_write_inode, inode_ok.
  destruct (Z.eqb_spec n 0) as [Hz|Hnz]; [reflexivity|]. simpl negb.
  fold (inode_group fs n).
  destruct (Z.leb_spec (num_block_groups fs) (inode_group fs n)) as [Hg|Hg].
  { destruct (Z.ltb_spec (inode_group fs n) (num_block_groups fs)); [lia|reflexivity]. }
  destruct (Z.ltb_spec (inode_group fs n) (num_block_groups fs)); [|lia].
  rewrite kmalloc_block by assumption.
  fold (inode_block fs n). simpl andb.
  rewrite read_blocks_spec by (try assumption; rewrite length_replicate; 
                               destruct (geom_facts fs Hgeom); lia).
  destruct (blk_ok fs (inode_block fs n)) eqn:Hblk; [|reflexivity].
  simpl negb. cbv iota.
  fold (inode_slot fs n).
  pose proof (length_blk_data fs Hgeom _ Hblk).
  pose proof (inode_slot_bound fs n Hgeom). unfold INODE_SIZE in *.
  rewrite memcpy_local_write by lia.
  rewrite write_blocks_spec by (try assumption; rewrite length_inserts; lia).
  rewrite Hblk. reflexivity.
Qed.

(** The inode read back after [ext2_write_inode] is the inode written. *)
Lemma read_inode_after_write fs n (ino : list Z) fs' :
  fs_geom fs = true -> length ino = 128%nat -> inode_ok fs n = true ->
  ext2_write_inode fs n ino = (0, fs') ->
  fs_geom fs' = true /\ ext2_read_inode fs' n = Some ino.
Proof.
  intros Hgeom Hlen Hok Hw.
  rewrite write_inode_spec, Hok in Hw by assumption.
  injection Hw as <-.
  split; [apply disk_put_geom; assumption|].
  rewrite read_inode_spec by (apply disk_put_geom; assumption).
  change (inode_ok (disk_put fs (inode_block fs n)
            (list_inserts (Z.to_nat (inode_slot fs n)) ino
               (blk_data fs (inode_block fs n)))) n) with (inode_ok fs n).
  rewrite Hok. f_equal.
  unfold inode_ok in Hok. apply andb_prop in Hok. destruct Hok as [_ Hblk].
  pose proof (length_blk_data fs Hgeom _ Hblk).
  pose proof (inode_slot_bound fs n Hgeom). unfold INODE_SIZE in *.
  unfold inode_at.
  change (inode_block (disk_put fs (inode_block fs n)
            (list_inserts (Z.to_nat (inode_slot fs n)) ino
               (blk_data fs (inode_block fs n)))) n) with (inode_block fs n).
  change (inode_slot (disk_put fs (inode_block fs n)
            (list_inserts (Z.to_nat (inode_slot fs n)) ino
               (blk_data fs (inode_block fs n)))) n) with (inode_slot fs n).
  rewrite blk_data_disk_put_same; try assumption.
  - change (Z.to_nat INODE_SIZE) with 128%nat. rewrite <- Hlen.
    apply slice_inserts_same. lia.
  - rewrite length_inserts. assumption.
Qed.

Lemma read_inode_ok fs n ino :
  fs_geom fs = true -> ext2_read_inode fs n = Some ino ->
  inode_ok fs n = true /\ length ino = 128%nat.
Proof.
  intros Hgeom Hr. rewrite read_inode_spec in Hr by assumption.
  destruct (inode_ok fs n) eqn:Hok; [|discriminate].
  injection Hr as <-. split; [reflexivity|]. apply length_inode_at; assumption.
Qed.

(** ** chmod *)

Lemma land_mask_range x mask n :
  0 <= n -> 0 <= mask < 2 ^ n -> 0 <= Z.land x mask < 2 ^ n.
Proof.
  intros Hn Hm.
  assert (H : Z.land x mask = Z.land x mask mod 2 ^ n).
  { rewrite <- Z.land_ones by lia. rewrite <- Z.land_assoc.
    destruct (Z.eq_dec mask 0) as [->|Hnz]; [reflexivity|].
    rewrite Z.land_ones_low; [reflexivity|lia|].
    apply Z.log2_lt_pow2; lia. }
  rewrite H. apply Z.mod_pos_bound. lia.
Qed.

Lemma lor_range a b n :
  0 <= n -> 0 <= a < 2 ^ n -> 0 <= b < 2 ^ n -> 0 <= Z.lor a b < 2 ^ n.
Proof.
  intros Hn Ha Hb.
  assert (Hpow : 0 < 2 ^ n) by (apply Z.pow_pos_nonneg; lia).
  assert (Hnn : 0 <= Z.lor a b) by (apply Z.lor_nonneg; lia).
  split; [exact Hnn|].
  destruct (Z.eq_dec (Z.lor a b) 0) as [Hz|Hnz]; [rewrite Hz; exact Hpow|].
  assert (Hn0 : 0 < n).
  { destruct (Z.eq_dec n 0) as [->|]; [|lia].
    assert (a = 0) by (simpl in Ha; lia). assert (b = 0) by (simpl in Hb; lia).
    subst. simpl in Hnz. contradiction. }
  apply Z.log2_lt_pow2; [lia|].
  rewrite Z.log2_lor by lia.
  apply Z.max_lub_lt.
  - destruct (Z.eq_dec a 0) as [->|]; [simpl; lia|]. apply Z.log2_lt_pow2; lia.
  - destruct (Z.eq_dec b 0) as [->|]; [simpl; lia|]. apply Z.log2_lt_pow2; lia.
Qed.

Lemma chmod_mode_value old mode :
  0 <= Z.lor (Z.land old 61440) (Z.land mode 511) < 65536.
Proof.
  change 65536 with (2 ^ 16).
  apply lor_range; [lia| |]; apply land_mask_range; simpl; lia.
Qed.

Lemma chmod_mode_bits old mode :
  let m := Z.lor (Z.land old 61440) (Z.land mode 511) in
  Z.land m 511 = Z.land mode 511 /\ Z.land m 61440 = Z.land old 61440
  /\ Z.land m 3584 = 0.
Proof.
  cbv zeta. rewrite !Z.land_lor_distr_l, <- !Z.land_assoc.
  change (Z.land 61440 511) with 0. change (Z.land 511 511) with 511.
  change (Z.land 61440 61440) with 61440. change (Z.land 511 61440) with 0.
  change (Z.land 61440 3584) with 0. change (Z.land 511 3584) with 0.
  rewrite !Z.land_0_r. rewrite Z.lor_0_l, Z.lor_0_r. repeat split; reflexivity.
Qed.

(** What [vfs_chmod] does when the path resolves: the inode is written
    back with the new mode and change time. *)
Lemma vfs_chmod_spec fs path mode ticks n ino :
  fs_geom fs = true ->
  ext2_path_to_inode fs path = n -> n <> 0 ->
  ext2_read_inode fs n = Some ino ->
  exists fs',
    vfs_chmod (Some fs) path mode ticks = (0, Some fs') /\
    fs_geom fs' = true /\
    ext2_read_inode fs' n =
      Some (set_i_ctime
              (set_i_mode ino (Z.lor (Z.land (i_mode ino) 61440) (Z.land mode 511)))
              (ticks / 100)).
Proof.
  intros Hgeom Hpath Hnz Hread.
  destruct (read_inode_ok fs n ino Hgeom Hread) as [Hok Hlen].
  set (ino' := set_i_ctime
              (set_i_mode ino (Z.lor (Z.land (i_mode ino) 61440) (Z.land mode 511)))
              (ticks / 100)).
  assert (Hlen' : length ino' = 128%nat).
  { unfold ino', set_i_ctime, set_i_mode. rewrite length_set_u32, length_set_u16. exact Hlen. }
  pose proof (write_inode_spec fs n ino' Hgeom Hlen') as Hw. rewrite Hok in Hw.
  eexists. unfold vfs_chmod. rewrite Hpath.
  destruct (Z.eqb_spec n 0); [contradiction|].
  rewrite Hread. fold ino'. rewrite Hw. simpl.
  split; [reflexivity|].
  apply (read_inode_after_write fs n ino' _ Hgeom Hlen' Hok Hw).
Qed.

(** C9.  After [vfs_chmod] the stored mode is
    [(old_mode AND 0xF000) OR (argument AND 0777)]; the setuid, setgid and
    sticky bits (mask 0x0E00) are cleared whatever the old mode and the
    argument were. *)
Theorem vfs_chmod_stored_mode fs path mode ticks n ino :
  fs_geom fs = true ->
  ext2_path_to_inode fs path = n -> n <> 0 ->
  ext2_read_inode fs n = Some ino ->
  exists fs' ino',
    vfs_chmod (Some fs) path mode ticks = (0, Some fs') /\
    ext2_read_inode fs' n = Some ino' /\
    i_mode ino' = Z.lor (Z.land (i_mode ino) 61440) (Z.land mode 511) /\
    Z.land (i_mode ino') 3584 = 0.
Proof.
  intros Hgeom Hpath Hnz Hread.
  destruct (vfs_chmod_spec fs path mode ticks n ino Hgeom Hpath Hnz Hread)
    as (fs' & Hch & _ & Hr').
  destruct (read_inode_ok fs n ino Hgeom Hread) as [_ Hlen].
  exists fs'. eexists. split; [exact Hch|]. split; [exact Hr'|].
  assert (Hmode : i_mode (set_i_ctime
              (set_i_mode ino (Z.lor (Z.land (i_mode ino) 61440) (Z.land mode 511)))
              (ticks / 100)) = Z.lor (Z.land (i_mode ino) 61440) (Z.land mode 511)).
  { unfold i_mode at 1, set_i_ctime, set_i_mode.
    rewrite get_u16_set_u32_ne by lia.
    rewrite get_u16_set_u16 by lia.
    apply u16_small, chmod_mode_value. }
  split; [exact Hmode|].
  rewrite Hmode. apply chmod_mode_bits.
Qed.

Lemma vfs_chmod_stored_mode_witness :
  exists fs' ino',
    vfs_chmod (Some img_fs) path_f 3583 1000 = (0, Some fs') /\
    ext2_read_inode fs' 11 = Some ino' /\
    i_mode ino' = Z.lor (Z.land 33188 61440) (Z.land 3583 511) /\
    Z.land (i_mode ino') 3584 = 0.
Proof.
  apply (vfs_chmod_stored_mode img_fs path_f 3583 1000 11
           (inode_rec 33188 2000 1 (le32 9 ++ le32 10))).
  - vm_compute. reflexivity.
  - vm_compute. reflexivity.
  - discriminate.
  - vm_compute. reflexivity.
Defined.

(** C7.  For a path that resolves to an inode, [vfs_chmod] writes the
    inode back with the low 9 permission bits of the argument, the
    file-type bits of the old mode and the current time as ctime; uid,
    gid, size, links count and the fifteen block pointers are unchanged. *)
Theorem vfs_chmod_frame fs path mode ticks n ino :
  fs_geom fs = true ->
  ext2_path_to_inode fs path = n -> n <> 0 ->
  ext2_read_inode fs n = Some ino ->
  exists fs' ino',
    vfs_chmod (Some fs) path mode ticks = (0, Some fs') /\
    ext2_read_inode fs' n = Some ino' /\
    Z.land (i_mode ino') 511 = Z.land mode 511 /\
    Z.land (i_mode ino') 61440 = Z.land (i_mode ino) 61440 /\
    i_ctime ino' = u32 (ticks / 100) /\
    i_uid ino' = i_uid ino /\ i_gid ino' = i_gid ino /\
    i_size ino' = i_size ino /\ i_links_count ino' = i_links_count ino /\
    (forall k, 0 <= k < 15 -> i_block ino' k = i_block ino k).
Proof.
  intros Hgeom Hpath Hnz Hread.
  destruct (vfs_chmod_spec fs path mode ticks n ino Hgeom Hpath Hnz Hread)
    as (fs' & Hch & _ & Hr').
  destruct (read_inode_ok fs n ino Hgeom Hread) as [_ Hlen].
  exists fs'. eexists. split; [exact Hch|]. split; [exact Hr'|].
  assert (Hmode : i_mode (set_i_ctime
              (set_i_mode ino (Z.lor (Z.land (i_mode ino) 61440) (Z.land mode 511)))
              (ticks / 100)) = Z.lor (Z.land (i_mode ino) 61440) (Z.land mode 511)).
  { unfold i_mode at 1, set_i_ctime, set_i_mode.
    rewrite get_u16_set_u32_ne by lia.
    rewrite get_u16_set_u16 by lia.
    apply u16_small, chmod_mode_value. }
  rewrite Hmode.
  destruct (chmod_mode_bits (i_mode ino) mode) as (Hp & Ht & _).
  split; [exact Hp|]. split; [exact Ht|].
  unfold i_ctime, i_uid, i_gid, i_size, i_links_count, i_block, I_BLOCK_OFF,
    set_i_ctime, set_i_mode.
  split.
  { rewrite get_u32_set_u32 by (rewrite ?length_set_u16; lia). reflexivity. }
  repeat split; intros;
    rewrite ?get_u16_set_u32_ne, ?get_u32_set_u32_ne by lia;
    rewrite ?get_u16_set_u16_ne, ?get_u32_set_u16_ne by lia; reflexivity.
Qed.

Lemma vfs_chmod_frame_witness :
  exists fs' ino',
    vfs_chmod (Some img_fs) path_f 384 1000 = (0, Some fs') /\
    ext2_read_inode fs' 11 = Some ino' /\
    Z.land (i_mode ino') 511 = Z.land 384 511 /\
    Z.land (i_mode ino') 61440 = Z.land 33188 61440 /\
    i_ctime ino' = u32 (1000 / 100) /\
    i_uid ino' = 0 /\ i_gid ino' = 0 /\
    i_size ino' = 2000 /\ i_links_count ino' = 1 /\
    (forall k, 0 <= k < 15 ->
       i_block ino' k = i_block (inode_rec 33188 2000 1 (le32 9 ++ le32 10)) k).
Proof.
  apply (vfs_chmod_frame img_fs path_f 384 1000 11
           (inode_rec 33188 2000 1 (le32 9 ++ le32 10))).
  - vm_compute. reflexivity.
  - vm_compute. reflexivity.
  - discriminate.
  - vm_compute. reflexivity.
Defined.

(** ** Symbolic links on open *)

(** C3 (the code departs from the claim).  In the image [/l1] starts a
    chain of exactly 8 symbolic links that ends at the regular file [/f]
    (inode 11), and [/l2] a chain of 7.  [vfs_open] follows the chain of 7
    and returns a handle for inode 11, but refuses the chain of 8: its loop
    stops at [depth < MAX_SYMLINK_DEPTH] and the test that follows rejects
    [depth >= MAX_SYMLINK_DEPTH].  The helper [vfs_resolve_symlink] next
    to it accepts depth 8 and rejects only [depth > MAX_SYMLINK_DEPTH]. *)
Theorem vfs_open_symlink_depth_8 :
  ext2_path_to_inode img_fs (sl 49) = 12 /\
  follow_chain 20 img_fs 12 = Some (8, 11) /\
  vfs_get_type_from_mode (i_mode (default [] (ext2_read_inode img_fs 11)))
    = VFS_TYPE_FILE /\
  vfs_open (Some img_fs) (sl 49) = None /\
  ext2_path_to_inode img_fs (sl 50) = 13 /\
  follow_chain 20 img_fs 13 = Some (7, 11) /\
  vfs_open (Some img_fs) (sl 50) = Some (mk_file 11 2000 VFS_TYPE_FILE 0 1) /\
  vfs_resolve_symlink img_fs 12 256 8 = Some (sl 50) /\
  vfs_resolve_symlink img_fs 12 256 9 = None.
Proof. vm_compute. repeat split; reflexivity. Qed.

(** ** Directory records *)

(** C4 (the code departs from the claim).  The root directory of
    [img_slack_fs] satisfies the invariant; its record ".." has
    [rec_len] 16, four bytes more than it needs.  [ext2_add_dir_entry]
    takes any record with [rec_len > actual_len] as room for the new
    entry without comparing the spare bytes with the size of the new
    record: adding the 8-byte name "abcdefgh" returns 0 and leaves at
    offset 24 a record with [rec_len] 4 and [name_len] 8, whose header and
    name overwrite the record of "f" behind it.  The invariant no longer
    holds and "f" is no longer found. *)
Theorem add_dir_entry_breaks_invariant :
  dir_block_ok 1024 (blk_data img_slack_fs 8) 1024 0 = true /\
  ext2_find_dir_entry img_slack_fs img_root_inode [102] = Some 11 /\
  let '(res, fs', _) :=
    ext2_add_dir_entry img_slack_fs img_root_inode 2 20 name_abcdefgh
                       EXT2_FT_REG_FILE in
  res = 0 /\
  de_rec_len (blk_data fs' 8) 24 = 4 /\
  de_name_len (blk_data fs' 8) 24 = 8 /\
  dir_block_ok 1024 (blk_data fs' 8) 1024 0 = false /\
  ext2_find_dir_entry fs' img_root_inode [102] = None.
Proof. vm_compute. repeat split; reflexivity. Qed.

(** ** Slashes in paths *)

(** C5 (the code departs from the claim).  [/f] and [/f/] resolve to the
    same inode and [vfs_stat] succeeds on both, but the results differ:
    the name reported for [/f/] is "f/", because the loop that looks for
    the last component keeps the text after the last ['/'] that is
    followed by a character. *)
Theorem vfs_stat_trailing_slash :
  ext2_path_to_inode img_fs [slash; 102] = 11 /\
  ext2_path_to_inode img_fs [slash; 102; slash] = 11 /\
  vfs_stat (Some img_fs) [slash; 102]
    = Some (mk_dirent 11 [102] VFS_TYPE_FILE 2000) /\
  vfs_stat (Some img_fs) [slash; 102; slash]
    = Some (mk_dirent 11 [102; slash] VFS_TYPE_FILE 2000) /\
  vfs_stat (Some img_fs) [slash; 102] <> vfs_stat (Some img_fs) [slash; 102; slash].
Proof. vm_compute. repeat split; try reflexivity. discriminate. Qed.

(** ** C strings *)

Lemma bytes_ok_cons b l :
  bytes_ok (b :: l) = true <-> 0 <= b < 256 /\ bytes_ok l = true.
Proof.
  unfold bytes_ok. simpl. rewrite andb_true_iff, andb_true_iff.
  rewrite Z.leb_le, Z.ltb_lt. tauto.
Qed.

Lemma bytes_ok_app l1 l2 :
  bytes_ok (l1 ++ l2) = true <-> bytes_ok l1 = true /\ bytes_ok l2 = true.
Proof. unfold bytes_ok. rewrite forallb_app, andb_true_iff. tauto. Qed.

Lemma bytes_ok_elem l b : bytes_ok l = true -> In b l -> 0 <= b < 256.
Proof.
  unfold bytes_ok. rewrite forallb_forall. intros H Hin.
  specialize (H b Hin). apply andb_prop in H. destruct H as [H1 H2].
  apply Z.leb_le in H1. apply Z.ltb_lt in H2. lia.
Qed.

Lemma bytes_ok_intro l : (forall b, In b l -> 0 <= b < 256) -> bytes_ok l = true.
Proof.
  intros H. unfold bytes_ok. apply forallb_forall. intros b Hb.
  specialize (H b Hb). apply andb_true_intro. split; [apply Z.leb_le|apply Z.ltb_lt]; lia.
Qed.

Lemma In_take (l : list Z) n b : In b (take n l) -> In b l.
Proof.
  revert n. induction l as [|x l IH]; intros [|n]; simpl; try tauto.
  intros [->|H]; [now left|right; eauto].
Qed.

Lemma In_drop (l : list Z) n b : In b (drop n l) -> In b l.
Proof.
  revert n. induction l as [|x l IH]; intros [|n]; simpl; try tauto.
  intros H. right. eauto.
Qed.

Lemma bytes_ok_take l n : bytes_ok l = true -> bytes_ok (take n l) = true.
Proof.
  intros H. apply bytes_ok_intro. intros b Hb.
  apply (bytes_ok_elem l); [exact H|]. eapply In_take; eauto.
Qed.

Lemma bytes_ok_drop l n : bytes_ok l = true -> bytes_ok (drop n l) = true.
Proof.
  intros H. apply bytes_ok_intro. intros b Hb.
  apply (bytes_ok_elem l); [exact H|]. eapply In_drop; eauto.
Qed.

Lemma schar_inj x y : 0 <= x < 256 -> 0 <= y < 256 -> schar x - schar y = 0 -> x = y.
Proof.
  unfold schar. intros Hx Hy. rewrite !u8_small by lia.
  destruct (Z.ltb_spec x 128), (Z.ltb_spec y 128); lia.
Qed.

Lemma schar_0 : schar 0 = 0.
Proof. reflexivity. Qed.


Lemma strcpy_local_no_nul s : no_nul (strcpy_local s).
Proof.
  induction s as [|c s IH]; simpl; [intros b []|].
  destruct (Z.eqb_spec c 0); [intros b []|].
  intros b [<-|Hb]; [assumption|]. apply IH; assumption.
Qed.

Lemma strcpy_local_id s : no_nul s -> strcpy_local s = s.
Proof.
  induction s as [|c s IH]; intros H; simpl; [reflexivity|].
  destruct (Z.eqb_spec c 0) as [Hc|Hc].
  - exfalso. apply (H c); [left; reflexivity|assumption].
  - f_equal. apply IH. intros b Hb. apply H. right; assumption.
Qed.

Lemma strlen_local_strcpy s : strlen_local s = Z.of_nat (length (strcpy_local s)).
Proof.
  induction s as [|c s IH]; simpl; [reflexivity|].
  destruct (Z.eqb_spec c 0); simpl length; [reflexivity|]. lia.
Qed.

Lemma strcpy_local_prefix s :
  strcpy_local s = take (Z.to_nat (strlen_local s)) s.
Proof.
  induction s as [|c s IH]; simpl; [reflexivity|].
  destruct (Z.eqb_spec c 0); [reflexivity|].
  pose proof (strlen_local_nonneg s).
  replace (Z.to_nat (1 + strlen_local s)) with (S (Z.to_nat (strlen_local s))) by lia.
  simpl. f_equal. exact IH.
Qed.

Lemma bytes_ok_strcpy s : bytes_ok s = true -> bytes_ok (strcpy_local s) = true.
Proof. intros H. rewrite strcpy_local_prefix. apply bytes_ok_take, H. Qed.

(** On byte strings [strcmp_local] returns 0 exactly for equal strings. *)
Lemma strcmp_local_eq a b :
  bytes_ok a = true -> bytes_ok b = true ->
  strcmp_local a b = 0 <-> strcpy_local a = strcpy_local b.
Proof.
  revert b. induction a as [|x a IH]; intros [|y b] Ha Hb.
  - simpl. tauto.
  - apply bytes_ok_cons in Hb. destruct Hb as [Hy Hb]. simpl.
    destruct (Z.eqb_spec y 0) as [->|Hy0]; [rewrite schar_0; tauto|].
    split; [|discriminate]. intros H. exfalso. apply Hy0.
    symmetry. apply schar_inj; try lia. rewrite schar_0. lia.
  - apply bytes_ok_cons in Ha. destruct Ha as [Hx Ha]. simpl.
    destruct (Z.eqb_spec x 0) as [->|Hx0]; [rewrite schar_0; tauto|].
    split; [|discriminate]. intros H. exfalso. apply Hx0.
    apply schar_inj; try lia. rewrite schar_0. lia.
  - apply bytes_ok_cons in Ha. destruct Ha as [Hx Ha].
    apply bytes_ok_cons in Hb. destruct Hb as [Hy Hb]. simpl.
    destruct (Z.eqb_spec x 0) as [->|Hx0]; simpl.
    + destruct (Z.eqb_spec y 0) as [->|Hy0]; [rewrite schar_0; tauto|].
      split; [|discriminate]. intros H. exfalso. apply Hy0.
      symmetry. apply schar_inj; try lia.
    + destruct (Z.eqb_spec y 0) as [->|Hy0]; simpl.
      * split; [|discriminate]. intros H. exfalso. apply Hx0.
        apply schar_inj; try lia.
      * destruct (Z.eqb_spec x y) as [->|Hxy].
        -- rewrite IH by assumption. split; [intros ->; reflexivity|].
           intros H. injection H. tauto.
        -- split.
           ++ intros H. exfalso. apply Hxy. apply schar_inj; lia.
           ++ intros H. injection H. intros. contradiction.
Qed.

(** Comparing in place against the first [strlen b] bytes. *)
Lemma strcmp_local_take a b :
  strcmp_local a b = 0 ->
  strcmp_local (take (Z.to_nat (strlen_local b)) a) b = 0.
Proof.
  revert a. induction b as [|y b IH]; intros a H.
  - simpl. destruct a; reflexivity.
  - simpl strlen_local. destruct (Z.eqb_spec y 0) as [->|Hy0].
    + simpl. rewrite schar_0. reflexivity.
    + pose proof (strlen_local_nonneg b).
      replace (Z.to_nat (1 + strlen_local b)) with (S (Z.to_nat (strlen_local b))) by lia.
      destruct a as [|x a]; [exact H|].
      simpl in *.
      destruct (negb (x =? 0) && negb (y =? 0) && (x =? y)); [apply IH|]; exact H.
Qed.

(** ** Splitting a path at its last slash *)


Lemma cstring_decompose s :
  exists rest, s = strcpy_local s ++ rest /\ terminated rest.
Proof.
  induction s as [|c s (rest & IH & Ht)].
  - exists []. split; [reflexivity|left; reflexivity].
  - simpl. destruct (Z.eqb_spec c 0) as [->|Hc].
    + exists (0 :: s). split; [reflexivity|right; eauto].
    + exists rest. split; [simpl; f_equal; exact IH|exact Ht].
Qed.

Lemma strcpy_local_app a rest :
  no_nul a -> terminated rest -> strcpy_local (a ++ rest) = a.
Proof.
  induction a as [|c a IH]; intros Ha Ht.
  - simpl. destruct Ht as [->|[r ->]]; reflexivity.
  - simpl. destruct (Z.eqb_spec c 0) as [Hc|Hc].
    + exfalso. apply (Ha c); [left; reflexivity|assumption].
    + f_equal. apply IH; [|assumption]. intros b Hb. apply Ha. right; assumption.
Qed.

Lemma byte_at_app_l (a b : list Z) i :
  0 <= i < Z.of_nat (length a) -> byte_at (a ++ b) i = byte_at a i.
Proof. intros. unfold byte_at. rewrite lookup_app_l by lia. reflexivity. Qed.

Lemma byte_at_lookup (l : list Z) i x :
  l !! Z.to_nat i = Some x -> byte_at l i = x.
Proof. intros H. unfold byte_at. rewrite H. reflexivity. Qed.

(** [last_slash_loop] returns the last index in [i, len) that holds a
    slash, or the value it started with. *)
Lemma last_slash_loop_spec path len fuel i acc :
  0 <= i -> (Z.to_nat (len - i) <= fuel)%nat ->
  let r := last_slash_loop fuel path i len acc in
  (r = acc /\ forall j, i <= j < len -> byte_at path j <> slash)
  \/ (i <= r < len /\ byte_at path r = slash
      /\ forall j, r < j < len -> byte_at path j <> slash).
Proof.
  revert i acc. induction fuel as [|fuel IH]; intros i acc Hi Hfuel; simpl.
  - left. split; [reflexivity|]. intros j Hj. lia.
  - destruct (Z.ltb_spec i len) as [Hlt|Hge].
    + specialize (IH (i + 1) (if byte_at path i =? slash then i else acc)
                     ltac:(lia) ltac:(lia)).
      cbv zeta in IH. destruct IH as [[Hr Hno]|(Hr & Hs & Hno)].
      * destruct (Z.eqb_spec (byte_at path i) slash) as [Hsl|Hnsl].
        -- right. rewrite Hr. split; [lia|]. split; [exact Hsl|].
           intros j Hj. apply Hno. lia.
        -- left. split; [exact Hr|]. intros j Hj.
           destruct (Z.eq_dec j i) as [->|]; [exact Hnsl|apply Hno; lia].
      * right. split; [lia|]. split; [exact Hs|exact Hno].
    + left. split; [reflexivity|]. intros j Hj. lia.
Qed.

Lemma no_nul_app a b : no_nul (a ++ b) <-> no_nul a /\ no_nul b.
Proof.
  unfold no_nul. split.
  - intros H. split; intros x Hx; apply H; apply in_or_app; tauto.
  - intros [Ha Hb] x Hx. apply in_app_or in Hx. destruct Hx; eauto.
Qed.

Lemma In_byte_at (l : list Z) x :
  In x l -> exists i, 0 <= i < Z.of_nat (length l) /\ byte_at l i = x.
Proof.
  intros H. apply list_elem_of_In, list_elem_of_lookup in H. destruct H as [i Hi].
  exists (Z.of_nat i). pose proof (lookup_lt_Some _ _ _ Hi).
  split; [lia|]. apply byte_at_lookup. rewrite Nat2Z.id. exact Hi.
Qed.

(** The shape of a path that [split_path] accepts. *)
Lemma split_path_shape path parent name :
  strlen_local path < 4294967296 ->
  split_path path = Some (parent, name) ->
  exists pre rest,
    path = pre ++ slash :: name ++ rest /\ terminated rest
    /\ no_nul pre /\ no_nul name /\ ~ In slash name /\ name <> []
    /\ (length (pre ++ slash :: name) <= 255)%nat
    /\ parent = match pre with [] => [slash] | _ => pre end.
Proof.
  unfold split_path. intros Hfit H.
  destruct (cstring_decompose path) as (rest & Hpath & Hterm).
  set (s := strcpy_local path) in *.
  pose proof (strlen_local_strcpy path) as Hlen. fold s in Hlen.
  pose proof (strcpy_local_no_nul path) as Hnn. fold s in Hnn.
  pose proof (strlen_local_nonneg path) as Hnonneg.
  destruct (Z.ltb_spec (strlen_local path) 2147483648) as [Hsmall|Hbig].
  2:{ exfalso.
      assert (Hneg : to_int (strlen_local path) = strlen_local path - 4294967296).
      { unfold to_int. rewrite u32_small by lia.
        destruct (Z.ltb_spec (strlen_local path) 2147483648); [lia|reflexivity]. }
      rewrite Hneg in H.
      destruct (Z.eqb_spec (strlen_local path - 4294967296) 0); [lia|].
      destruct (Z.ltb_spec 255 (strlen_local path - 4294967296)); [lia|].
      simpl in H.
      replace (Z.to_nat (strlen_local path - 4294967296)) with 0%nat in H by lia.
      simpl in H. discriminate. }
  rewrite to_int_small in H by lia.
  destruct (Z.eqb_spec (strlen_local path) 0) as [|Hnz]; [discriminate|].
  destruct (Z.ltb_spec 255 (strlen_local path)) as [|Hle]; [discriminate|].
  simpl orb in H. cbv iota in H.
  pose proof (last_slash_loop_spec path (strlen_local path)
                (Z.to_nat (strlen_local path)) 0 (-1) ltac:(lia) ltac:(lia)) as Hls.
  cbv zeta in Hls.
  set (ls := last_slash_loop (Z.to_nat (strlen_local path)) path 0
               (strlen_local path) (-1)) in *.
  destruct Hls as [[Hr _]|(Hr & Hsl & Hno)].
  { rewrite Hr in H. simpl in H. discriminate. }
  destruct (Z.ltb_spec ls 0) as [|_]; [lia|].
  destruct (Z.eqb_spec (strlen_local (strcpy_local (drop (Z.to_nat (ls + 1)) path))) 0)
    as [|Hname]; [discriminate|].
  injection H as Hparent Hnm.
  (* the string is s = pre ++ slash :: nm *)
  assert (Hsls : s !! Z.to_nat ls = Some slash).
  { assert (Hlt : (Z.to_nat ls < length s)%nat) by lia.
    destruct (lookup_lt_is_Some_2 s _ Hlt) as [x Hx].
    rewrite Hx. f_equal. rewrite <- Hsl. rewrite Hpath.
    rewrite byte_at_app_l by lia. symmetry. apply byte_at_lookup. exact Hx. }
  pose proof (take_drop_middle s _ _ Hsls) as Hmid.
  set (pre := take (Z.to_nat ls) s) in *.
  set (nm := drop (S (Z.to_nat ls)) s) in *.
  assert (Hnn' : no_nul pre /\ no_nul (slash :: nm)).
  { apply no_nul_app. rewrite Hmid. exact Hnn. }
  destruct Hnn' as [Hnnpre Hnnsl].
  assert (Hnnnm : no_nul nm).
  { intros b Hb. apply Hnnsl. right. exact Hb. }
  assert (Hname_eq : name = nm).
  { rewrite <- Hnm. rewrite Hpath.
    replace (Z.to_nat (ls + 1)) with (S (Z.to_nat ls)) by lia.
    rewrite drop_app_le by lia. fold nm.
    apply strcpy_local_app; assumption. }
  assert (Hprelen : length pre = Z.to_nat ls).
  { unfold pre. rewrite length_take. lia. }
  exists pre, rest. split.
  { rewrite Hname_eq. rewrite Hpath at 1. rewrite <- Hmid.
    rewrite <- app_assoc. reflexivity. }
  split; [exact Hterm|]. split; [exact Hnnpre|].
  split; [rewrite Hname_eq; exact Hnnnm|].
  split.
  { rewrite Hname_eq. intros Hin.
    destruct (In_byte_at nm slash Hin) as (i & Hi & Hbi).
    apply (Hno (ls + 1 + i)).
    - unfold nm in Hi. rewrite length_drop in Hi. lia.
    - rewrite Hpath. rewrite byte_at_app_l.
      + rewrite <- Hmid. unfold byte_at.
        rewrite lookup_app_r by lia. rewrite Hprelen.
        replace (Z.to_nat (ls + 1 + i) - Z.to_nat ls)%nat with (S (Z.to_nat i)) by lia.
        simpl. exact Hbi.
      + unfold nm in Hi. rewrite length_drop in Hi. lia. }
  split.
  { rewrite Hname_eq. intros Hnil. apply Hname. rewrite Hnm, Hname_eq, Hnil. reflexivity. }
  split.
  { rewrite Hname_eq, Hmid. lia. }
  rewrite <- Hparent.
  destruct (Z.eqb_spec ls 0) as [Hz|Hnz0].
  - destruct pre; [reflexivity|simpl in Hprelen; lia].
  - assert (Htk : memcpy_local (replicate (Z.to_nat ls) 0) 0 path 0 ls = pre).
    { rewrite memcpy_local_read; try lia.
      - change (Z.to_nat 0) with 0%nat. rewrite drop_0.
        unfold pre. rewrite Hpath at 1. rewrite take_app_le by lia. reflexivity.
      - rewrite length_replicate. lia.
      - rewrite Hpath, length_app. lia. }
    rewrite Htk. destruct pre; [simpl in Hprelen; lia|reflexivity].
Qed.

(** ** The path walk *)

(** [ext2_path_to_inode] and [vfs_resolve_path] run the same walk. *)
Lemma path_loop_resolve_loop fs path comp cur :
  path_loop fs path comp cur = default 0 (resolve_loop fs path comp cur).
Proof.
  revert comp cur. induction path as [|c path IH]; intros comp cur; simpl.
  - destruct (0 <? Z.of_nat (length comp)); [|reflexivity].
    destruct (path_step fs cur comp); reflexivity.
  - destruct (c =? 0).
    { destruct (0 <? Z.of_nat (length comp)); [|reflexivity].
      destruct (path_step fs cur comp); reflexivity. }
    destruct (c =? slash).
    + destruct (0 <? Z.of_nat (length comp)); [|apply IH].
      destruct (path_step fs cur comp); [apply IH|reflexivity].
    + destruct (Z.of_nat (length comp) <? 255); apply IH.
Qed.

Lemma path_to_inode_resolve fs path :
  ext2_path_to_inode fs path = default 0 (vfs_resolve_path (Some fs) path).
Proof.
  unfold ext2_path_to_inode, vfs_resolve_path.
  destruct (strcmp_local path [slash] =? 0); [reflexivity|].
  apply path_loop_resolve_loop.
Qed.

(** The walk over the characters of one component. *)
Lemma resolve_loop_component fs name rest comp cur :
  no_nul name -> ~ In slash name -> terminated rest ->
  (length comp + length name <= 255)%nat ->
  resolve_loop fs (name ++ rest) comp cur =
  if 0 <? Z.of_nat (length (comp ++ name))
  then path_step fs cur (comp ++ name) else Some cur.
Proof.
  revert comp. induction name as [|c name IH]; intros comp Hnn Hns Ht Hlen.
  - rewrite app_nil_r. simpl app.
    destruct Ht as [->|[r ->]]; reflexivity.
  - simpl app. simpl resolve_loop.
    destruct (Z.eqb_spec c 0) as [Hc|_].
    { exfalso. apply (Hnn c); [left; reflexivity|exact Hc]. }
    destruct (Z.eqb_spec c slash) as [Hc|_].
    { exfalso. apply Hns. left. exact Hc. }
    simpl length in Hlen.
    destruct (Z.ltb_spec (Z.of_nat (length comp)) 255); [|lia].
    rewrite IH.
    + rewrite <- app_assoc. reflexivity.
    + intros b Hb. apply Hnn. right. exact Hb.
    + intros Hin. apply Hns. right. exact Hin.
    + exact Ht.
    + rewrite length_app. simpl. lia.
Qed.

(** The walk over [pre/name] is the walk over [pre] followed by the
    lookup of [name]. *)
Lemma resolve_loop_split fs pre name rest comp cur :
  no_nul pre -> no_nul name -> ~ In slash name -> name <> [] ->
  terminated rest -> (length name <= 255)%nat ->
  resolve_loop fs (pre ++ slash :: name ++ rest) comp cur =
  match resolve_loop fs pre comp cur with
  | Some p => path_step fs p name
  | None => None
  end.
Proof.
  intros Hpre Hnn Hns Hne Ht Hlen.
  assert (Hname : forall p, resolve_loop fs (name ++ rest) [] p = path_step fs p name).
  { intros p. rewrite resolve_loop_component by (simpl; assumption || lia).
    simpl app. destruct name; [contradiction|]. reflexivity. }
  revert comp cur. induction pre as [|c pre IH]; intros comp cur.
  - simpl app. simpl resolve_loop.
    change (slash =? 0) with false. change (slash =? slash) with true. cbv iota.
    destruct comp as [|x comp].
    + simpl. apply Hname.
    + cbn [length]. destruct (Z.ltb_spec 0 (Z.of_nat (S (length comp)))); [|lia].
      destruct (path_step fs cur (x :: comp)); [apply Hname|reflexivity].
  - simpl app. simpl resolve_loop.
    assert (Hpre' : no_nul pre).
    { intros b Hb. apply Hpre. right. exact Hb. }
    destruct (Z.eqb_spec c 0) as [Hc|_].
    { exfalso. apply (Hpre c); [left; reflexivity|exact Hc]. }
    destruct (c =? slash).
    + destruct (0 <? Z.of_nat (length comp)).
      * destruct (path_step fs cur comp); [apply IH; exact Hpre'|reflexivity].
      * apply IH; exact Hpre'.
    + destruct (Z.of_nat (length comp) <? 255); apply IH; exact Hpre'.
Qed.

Lemma strcmp_slash_iff path :
  bytes_ok path = true ->
  strcmp_local path [slash] = 0 <-> strcpy_local path = [slash].
Proof.
  intros H. rewrite strcmp_local_eq; [reflexivity|exact H|reflexivity].
Qed.

(** Resolving a path that [split_path] accepts: resolve the parent, then
    look the name up in it. *)
Lemma resolve_path_split fs path parent name :
  bytes_ok path = true -> strlen_local path < 4294967296 ->
  split_path path = Some (parent, name) ->
  vfs_resolve_path (Some fs) path =
  match vfs_resolve_path (Some fs) parent with
  | Some p => path_step fs p name
  | None => None
  end.
Proof.
  intros Hbytes Hfit Hsplit.
  destruct (split_path_shape path parent name Hfit Hsplit)
    as (pre & rest & Hpath & Ht & Hpre & Hnn & Hns & Hne & Hlen & Hparent).
  assert (Hlenname : (length name <= 255)%nat).
  { rewrite length_app in Hlen. simpl in Hlen. lia. }
  assert (Hcpy : strcpy_local path = pre ++ slash :: name).
  { rewrite Hpath.
    replace (pre ++ slash :: name ++ rest) with ((pre ++ slash :: name) ++ rest)
      by (rewrite <- app_assoc; reflexivity).
    apply strcpy_local_app; [|exact Ht].
    apply no_nul_app. split; [exact Hpre|].
    intros b [<-|Hb]; [discriminate|apply Hnn; exact Hb]. }
  unfold vfs_resolve_path at 1.
  destruct (Z.eqb_spec (strcmp_local path [slash]) 0) as [Hroot|_].
  { exfalso. apply strcmp_slash_iff in Hroot; [|exact Hbytes].
    rewrite Hcpy in Hroot. destruct pre as [|? pre].
    - destruct name; [contradiction|discriminate].
    - destruct pre; discriminate. }
  destruct pre as [|c pre].
  - (* the name sits directly under the root *)
    rewrite Hparent. simpl in Hpath. rewrite Hpath.
    change (byte_at (slash :: name ++ rest) 0) with slash.
    change (slash =? slash) with true. cbv iota. simpl drop. rewrite drop_0.
    rewrite resolve_loop_component by (simpl; assumption || lia).
    simpl app. change (vfs_resolve_path (Some fs) [slash]) with (Some EXT2_ROOT_INO).
    destruct name; [contradiction|]. reflexivity.
  - rewrite Hparent. unfold vfs_resolve_path.
    assert (Hbpre : bytes_ok (c :: pre) = true).
    { rewrite Hpath in Hbytes. apply bytes_ok_app in Hbytes. tauto. }
    rewrite Hpath. change (byte_at ((c :: pre) ++ slash :: name ++ rest) 0) with c.
    change (byte_at (c :: pre) 0) with c.
    destruct (Z.eqb_spec (strcmp_local (c :: pre) [slash]) 0) as [Hp|Hp].
    + apply strcmp_slash_iff in Hp; [|exact Hbpre].
      rewrite strcpy_local_id in Hp by exact Hpre. injection Hp as -> ->.
      change (slash =? slash) with true. cbv iota. simpl drop. simpl app.
      simpl resolve_loop.
      change (slash =? 0) with false. change (slash =? slash) with true. cbv iota.
      simpl. rewrite resolve_loop_component by (simpl; assumption || lia).
      simpl app. destruct name; [contradiction|]. reflexivity.
    + destruct (c =? slash).
      * simpl drop. rewrite drop_0.
        apply resolve_loop_split; try assumption.
        intros b Hb. apply Hpre. right. exact Hb.
      * change ((c :: pre) ++ slash :: name ++ rest)
          with ((c :: pre) ++ slash :: name ++ rest).
        apply resolve_loop_split; assumption.
Qed.

(** ** Reading a file through its direct blocks *)

Lemma read_data_block_direct fs ino j (buf : list Z) :
  fs_geom fs = true -> 0 <= j < 12 ->
  Z.of_nat (length buf) = block_size fs ->
  ext2_read_data_block fs ino j buf =
  if (i_block ino j =? 0) || negb (blk_ok fs (i_block ino j))
  then (-1, buf) else (0, blk_data fs (i_block ino j)).
Proof.
  intros Hgeom Hj Hbuf. unfold ext2_read_data_block.
  destruct (Z.ltb_spec j 12); [|lia].
  destruct (Z.eqb_spec (i_block ino j) 0); [reflexivity|].
  rewrite read_blocks_spec by assumption.
  destruct (blk_ok fs (i_block ino j)); reflexivity.
Qed.

Section ReadFile.

Variable fs : ext2_fs_t.
Variable ino : list Z.
Variable size : Z.
Hypothesis Hgeom : fs_geom fs = true.
Hypothesis Hsize : 0 <= size < 2147483648.
Hypothesis Hdirect : size <= 12 * block_size fs.
Hypothesis Hblocks :
  forall j, 0 <= j -> j * block_size fs < size ->
    i_block ino j <> 0 /\ blk_ok fs (i_block ino j) = true.

(** The byte of the file at position [i]. *)
Let file_byte (i : nat) : option Z :=
  blk_data fs (i_block ino (Z.of_nat i / block_size fs))
    !! Z.to_nat (Z.of_nat i mod block_size fs).

Lemma read_file_loop_spec fuel br (out : list Z) :
  0 <= br <= size -> (br mod block_size fs = 0 \/ br = size) ->
  (Z.to_nat (size - br) <= fuel)%nat ->
  size <= Z.of_nat (length out) ->
  exists out',
    read_file_loop fuel fs ino 0 size br out = (size, out')
    /\ length out' = length out
    /\ (forall i, (Z.to_nat br <= i < Z.to_nat size)%nat -> out' !! i = file_byte i)
    /\ (forall i, (i < Z.to_nat br \/ Z.to_nat size <= i)%nat -> out' !! i = out !! i).
Proof.
  destruct (geom_facts fs Hgeom) as (Hbs & _).
  revert br out. induction fuel as [|fuel IH]; intros br out Hbr Hal Hfuel Hout.
  - assert (br = size) by lia. subst br. exists out. simpl.
    rewrite to_int_small by lia.
    split; [reflexivity|]. split; [reflexivity|].
    split; intros i Hi; [lia|reflexivity].
  - simpl. destruct (Z.ltb_spec br size) as [Hlt|Hge].
    2:{ assert (br = size) by lia. subst br. exists out.
        rewrite to_int_small by lia.
        split; [reflexivity|]. split; [reflexivity|].
        split; intros i Hi; [lia|reflexivity]. }
    destruct Hal as [Hal|Hal]; [|lia].
    rewrite Z.add_0_l. rewrite (u32_small br) by lia.
    rewrite kmalloc_block by assumption.
    assert (Hj : 0 <= br / block_size fs < 12).
    { split; [apply Z.div_pos; lia|].
      apply Z.div_lt_upper_bound; lia. }
    assert (Hbrj : br = br / block_size fs * block_size fs).
    { rewrite (Z.div_mod br (block_size fs)) at 1 by lia. lia. }
    destruct (Hblocks (br / block_size fs) ltac:(lia) ltac:(lia)) as [Hnz Hok].
    rewrite read_data_block_direct
      by (try assumption; rewrite length_replicate; lia).
    destruct (Z.eqb_spec (i_block ino (br / block_size fs)) 0); [contradiction|].
    rewrite Hok. simpl orb. cbv iota. simpl negb. cbv iota.
    rewrite Hal, Z.sub_0_r.
    set (cnt := if size - br <? block_size fs then size - br else block_size fs).
    assert (Hn : 0 < cnt <= block_size fs /\ br + cnt <= size
                 /\ ((br + cnt) mod block_size fs = 0 \/ br + cnt = size)).
    { unfold cnt. destruct (Z.ltb_spec (size - br) (block_size fs)).
      - repeat split; try lia.
      - repeat split; try lia. left.
        rewrite <- Z.add_mod_idemp_l, Hal by lia. simpl.
        apply Z.mod_same. lia. }
    destruct Hn as (Hn1 & Hn2 & Hn3).
    pose proof (length_blk_data fs Hgeom _ Hok) as Hblen.
    set (blk := blk_data fs (i_block ino (br / block_size fs))) in *.
    set (out1 := memcpy_local out br blk 0 cnt).
    destruct (IH (br + cnt) out1 ltac:(lia) Hn3 ltac:(lia)
                ltac:(unfold out1; rewrite length_memcpy_local; lia))
      as (out' & Hloop & Hlen' & Hin & Hout').
    exists out'. split; [exact Hloop|].
    split; [rewrite Hlen'; unfold out1; apply length_memcpy_local|].
    assert (Hout1 : out1 = list_inserts (Z.to_nat br) (take (Z.to_nat cnt) blk) out).
    { unfold out1, memcpy_local. change (Z.to_nat 0) with 0%nat. rewrite drop_0.
      reflexivity. }
    assert (Htl : length (take (Z.to_nat cnt) blk) = Z.to_nat cnt).
    { rewrite length_take. lia. }
    split.
    + intros i Hi.
      destruct (decide (i < Z.to_nat (br + cnt))%nat) as [Hi1|Hi1].
      * rewrite Hout' by lia. rewrite Hout1.
        rewrite list_lookup_inserts by lia.
        rewrite lookup_take_lt by lia.
        unfold file_byte.
        assert (Hq : Z.of_nat i / block_size fs = br / block_size fs).
        { symmetry. apply Z.div_unique with (r := Z.of_nat i - br); lia. }
        assert (Hr : Z.of_nat i mod block_size fs = Z.of_nat i - br).
        { symmetry. apply Z.mod_unique with (q := br / block_size fs); lia. }
        rewrite Hq, Hr. fold blk. f_equal. lia.
      * apply Hin. lia.
    + intros i Hi. rewrite Hout' by lia. rewrite Hout1.
      destruct Hi as [Hi|Hi].
      * apply list_lookup_inserts_lt. lia.
      * apply list_lookup_inserts_ge. lia.
Qed.

(** Reading the first [size] bytes of a file that has them. *)
Lemma read_file_spec (buf : list Z) :
  size <= i_size ino -> size <= Z.of_nat (length buf) -> 0 < size ->
  exists out',
    ext2_read_file fs ino 0 size buf = (size, out')
    /\ length out' = length buf
    /\ (forall i, (i < Z.to_nat size)%nat -> out' !! i = file_byte i)
    /\ (forall i, (Z.to_nat size <= i)%nat -> out' !! i = buf !! i).
Proof.
  intros Hle Hbuf Hpos. unfold ext2_read_file.
  destruct (Z.leb_spec (i_size ino) 0); [lia|].
  rewrite Z.add_0_l, (u32_small size) by lia.
  destruct (Z.ltb_spec (i_size ino) size); [lia|].
  destruct (read_file_loop_spec (Z.to_nat size) 0 buf ltac:(lia)
              ltac:(left; apply Z.mod_0_l; destruct (geom_facts fs Hgeom); lia)
              ltac:(lia) Hbuf) as (out' & Hloop & Hlen & Hin & Hout).
  exists out'. split; [exact Hloop|]. split; [exact Hlen|].
  split.
  - intros i Hi. apply Hin. lia.
  - intros i Hi. apply Hout. lia.
Qed.

End ReadFile.

(** ** Directory blocks *)

Lemma land_lnot_3 x : Z.land x (Z.lnot 3) = 4 * (x / 4).
Proof.
  rewrite <- Z.ldiff_land. change 3 with (Z.ones 2).
  rewrite Z.ldiff_ones_r by lia.
  rewrite Z.shiftl_mul_pow2, Z.shiftr_div_pow2 by lia.
  change (2 ^ 2) with 4. lia.
Qed.

Lemma dir_actual_len_ge nl : 8 + nl <= dir_actual_len nl.
Proof.
  unfold dir_actual_len. rewrite land_lnot_3.
  pose proof (Z.div_mod (nl + 3) 4 ltac:(lia)).
  pose proof (Z.mod_pos_bound (nl + 3) 4 ltac:(lia)). lia.
Qed.

Lemma byte_at_nonneg (m : list Z) i : bytes_ok m = true -> 0 <= byte_at m i < 256.
Proof.
  intros H. unfold byte_at.
  destruct (m !! Z.to_nat i) as [x|] eqn:Hx; simpl; [|lia].
  apply (bytes_ok_elem m); [exact H|].
  apply list_elem_of_In, list_elem_of_lookup. eauto.
Qed.

Lemma get_u16_range (m : list Z) off : bytes_ok m = true -> 0 <= get_u16 m off < 65536.
Proof.
  intros H. unfold get_u16.
  pose proof (byte_at_nonneg m off H). pose proof (byte_at_nonneg m (off + 1) H). lia.
Qed.

Lemma get_u32_range (m : list Z) off :
  bytes_ok m = true -> 0 <= get_u32 m off < 4294967296.
Proof.
  intros H. unfold get_u32.
  pose proof (byte_at_nonneg m off H). pose proof (byte_at_nonneg m (off + 1) H).
  pose proof (byte_at_nonneg m (off + 2) H). pose proof (byte_at_nonneg m (off + 3) H).
  lia.
Qed.

(** The invariant of the specification gives the records of the block. *)
Lemma dir_block_ok_records fuel block bs off :
  bytes_ok block = true -> 0 <= off ->
  dir_block_ok fuel block bs off = true ->
  records block bs off (dir_chain fuel block bs off).
Proof.
  intros Hbytes. revert off. induction fuel as [|fuel IH]; intros off Hoff Hok.
  - discriminate.
  - simpl in Hok. simpl.
    destruct (Z.eqb_spec off bs) as [->|Hne].
    + destruct (Z.ltb_spec bs bs); [lia|]. reflexivity.
    + apply andb_prop in Hok. destruct Hok as [Hok Hrest].
      apply andb_prop in Hok. destruct Hok as [Hok Hend].
      apply andb_prop in Hok. destruct Hok as [Hhdr Hact].
      apply Z.leb_le in Hhdr, Hact, Hend.
      pose proof (dir_actual_len_ge (de_name_len block off)).
      pose proof (byte_at_nonneg block (off + 6) Hbytes) as Hnl.
      change (byte_at block (off + 6)) with (de_name_len block off) in Hnl.
      destruct (Z.ltb_spec off bs); [|lia].
      simpl. repeat split; try lia.
      apply IH; [lia|exact Hrest].
Qed.

Lemma records_length block bs off es :
  records block bs off es -> off <= bs /\ 8 * Z.of_nat (length es) <= bs - off.
Proof.
  revert off. induction es as [|e es IH]; intros off H; simpl in *.
  - lia.
  - destruct H as (_ & H0 & H8 & Hnl & Hend & Hrest).
    destruct (IH _ Hrest). lia.
Qed.

(** Every record lies inside the block, and the records after it start
    where it ends. *)
Lemma records_In block bs off es e :
  records block bs off es -> In e es ->
  off <= e /\ 0 <= e /\ 0 <= de_name_len block e
  /\ 8 + de_name_len block e <= de_rec_len block e
  /\ e + de_rec_len block e <= bs.
Proof.
  revert off. induction es as [|x es IH]; intros off H Hin; simpl in *; [contradiction|].
  destruct H as (-> & H0 & H8 & Hnl & Hend & Hrest).
  destruct Hin as [<-|Hin]; [lia|].
  destruct (IH _ Hrest Hin). lia.
Qed.

Lemma records_app block bs off l1 l2 :
  records block bs off (l1 ++ l2) ->
  exists mid, records block mid off l1 /\ records block bs mid l2 /\ off <= mid.
Proof.
  revert off. induction l1 as [|x l1 IH]; intros off H; simpl in *.
  - exists off. split; [reflexivity|]. split; [exact H|lia].
  - destruct H as (-> & H0 & H8 & Hnl & Hend & Hrest).
    destruct (IH _ Hrest) as (mid & H1 & H2 & Hle).
    exists mid. split; [|split; [exact H2|lia]].
    pose proof (records_length _ _ _ _ H1).
    repeat split; try lia. exact H1.
Qed.

Lemma records_app_intro block bs off mid l1 l2 :
  records block mid off l1 -> records block bs mid l2 -> mid <= bs ->
  records block bs off (l1 ++ l2).
Proof.
  revert off. induction l1 as [|x l1 IH]; intros off H1 H2 Hle; simpl in *.
  - subst. exact H2.
  - destruct H1 as (-> & H0 & H8 & Hnl & Hend & Hrest).
    repeat split; try lia. apply IH; assumption.
Qed.

(** The records depend only on the record lengths and name lengths. *)
Lemma records_ext block block' bs off es :
  records block bs off es ->
  (forall e, In e es ->
     de_rec_len block' e = de_rec_len block e
     /\ de_name_len block' e = de_name_len block e) ->
  records block' bs off es.
Proof.
  revert off. induction es as [|x es IH]; intros off H Hsame; simpl in *; [exact H|].
  destruct H as (-> & H0 & H8 & Hnl & Hend & Hrest).
  destruct (Hsame off (or_introl eq_refl)) as [Hr Hn]. rewrite Hr, Hn.
  repeat split; try lia. apply IH; [exact Hrest|].
  intros e He. apply Hsame. right. exact He.
Qed.

(** ** Records of a block inside a directory buffer *)

Section Embedded.

Variables (buf block : list Z) (pos : Z).
Hypothesis Hpos : 0 <= pos.
Hypothesis Hemb : embedded buf pos block.

Lemma embedded_byte_at i :
  0 <= i < Z.of_nat (length block) -> byte_at buf (pos + i) = byte_at block i.
Proof.
  intros Hi. unfold byte_at.
  replace (Z.to_nat (pos + i)) with (Z.to_nat pos + Z.to_nat i)%nat by lia.
  rewrite Hemb by lia. reflexivity.
Qed.

Lemma embedded_length i :
  (i < length block)%nat -> (Z.to_nat pos + i < length buf)%nat.
Proof.
  intros Hi. pose proof (Hemb _ Hi) as H.
  destruct (lookup_lt_is_Some_2 block _ Hi) as [y Hy].
  rewrite Hy in H. apply lookup_lt_Some in H. lia.
Qed.

Lemma embedded_header e :
  0 <= e -> e + 8 <= Z.of_nat (length block) ->
  de_inode buf (pos + e) = de_inode block e
  /\ de_rec_len buf (pos + e) = de_rec_len block e
  /\ de_name_len buf (pos + e) = de_name_len block e.
Proof.
  intros He Hlen.
  unfold de_inode, de_rec_len, de_name_len, get_u32, get_u16, get_u8.
  replace (pos + e + 1) with (pos + (e + 1)) by lia.
  replace (pos + e + 2) with (pos + (e + 2)) by lia.
  replace (pos + e + 3) with (pos + (e + 3)) by lia.
  replace (pos + e + 4) with (pos + (e + 4)) by lia.
  replace (pos + e + 6) with (pos + (e + 6)) by lia.
  replace (pos + (e + 4) + 1) with (pos + (e + 4 + 1)) by lia.
  rewrite !embedded_byte_at by lia. repeat split; reflexivity.
Qed.

Lemma embedded_slice off n :
  0 <= off -> 0 <= n -> off + n <= Z.of_nat (length block) ->
  take (Z.to_nat n) (drop (Z.to_nat (pos + off)) buf)
  = take (Z.to_nat n) (drop (Z.to_nat off) block).
Proof.
  intros Hoff Hn Hlen. apply list_eq. intros i.
  destruct (decide (i < Z.to_nat n)%nat) as [Hi|Hi].
  - rewrite !lookup_slice by lia.
    replace (Z.to_nat (pos + off) + i)%nat with (Z.to_nat pos + (Z.to_nat off + i))%nat by lia.
    apply Hemb. lia.
  - rewrite !lookup_take_ge by lia. reflexivity.
Qed.

Lemma entry_name_slice (b : list Z) e :
  0 <= e -> 0 <= de_name_len b e ->
  e + 8 + de_name_len b e <= Z.of_nat (length b) ->
  entry_name b e = take (Z.to_nat (de_name_len b e)) (drop (Z.to_nat (e + 8)) b).
Proof.
  intros He Hnl Hlen. unfold entry_name, DE_NAME_OFF.
  apply memcpy_local_read; try lia. rewrite length_replicate. lia.
Qed.

Lemma embedded_entry_name e :
  0 <= e -> 0 <= de_name_len block e ->
  e + 8 + de_name_len block e <= Z.of_nat (length block) ->
  entry_name buf (pos + e) = entry_name block e.
Proof.
  intros He Hnl Hlen.
  pose proof (embedded_length (Z.to_nat (e + 7 + de_name_len block e)) ltac:(lia)).
  destruct (embedded_header e He ltac:(lia)) as (_ & _ & Hn).
  rewrite entry_name_slice by (rewrite ?Hn; lia).
  rewrite (entry_name_slice block) by lia.
  rewrite Hn. replace (pos + e + 8) with (pos + (e + 8)) by lia.
  apply embedded_slice; lia.
Qed.

Lemma embedded_live_match name e :
  0 <= e -> 0 <= de_name_len block e ->
  e + 8 + de_name_len block e <= Z.of_nat (length block) ->
  live_match buf name (pos + e) = live_match block name e.
Proof.
  intros He Hnl Hlen. unfold live_match.
  destruct (embedded_header e He ltac:(lia)) as (Hi & _ & Hn).
  rewrite Hi, Hn, embedded_entry_name by assumption. reflexivity.
Qed.

(** [ext2_find_dir_entry]'s walk through the records of the block. *)
Lemma find_dir_loop_block name dir_size bs es off fuel :
  Z.of_nat (length block) = bs -> pos + bs <= dir_size -> dir_size < 4294967296 ->
  records block bs off es ->
  find_dir_loop (length es + fuel) buf dir_size name (pos + off) =
  match first_match block name es with
  | Some ino => Some ino
  | None => find_dir_loop fuel buf dir_size name (pos + bs)
  end.
Proof.
  intros Hlen Hsize Hsmall. revert off.
  induction es as [|e es IH]; intros off Hrec; simpl in Hrec.
  - subst off. reflexivity.
  - destruct Hrec as (-> & H0 & H8 & Hnl & Hend & Hrest).
    destruct (embedded_header off H0 ltac:(lia)) as (Hi & Hr & Hn).
    pose proof (embedded_live_match name off H0 ltac:(lia) ltac:(lia)) as Hlm.
    cbn [length Nat.add find_dir_loop first_match].
    destruct (Z.ltb_spec (pos + off) dir_size); [|lia].
    rewrite Hr.
    destruct (Z.eqb_spec (de_rec_len block off) 0); [lia|].
    rewrite (u32_small (pos + off + de_rec_len block off)) by lia.
    replace (pos + off + de_rec_len block off)
      with (pos + (off + de_rec_len block off)) by lia.
    rewrite <- Hlm. unfold live_match. fold (entry_name buf (pos + off)).
    destruct (negb (de_inode buf (pos + off) =? 0)
              && (de_name_len buf (pos + off) =? strlen_local name)); simpl.
    + destruct (strcmp_local (entry_name buf (pos + off)) name =? 0).
      * rewrite Hi. reflexivity.
      * apply IH. exact Hrest.
    + apply IH. exact Hrest.
Qed.

End Embedded.

(** ** Removing a record from a block *)

Lemma slice_insert_outside (l : list Z) x v o n :
  (x < o \/ o + n <= x)%nat ->
  take n (drop o (<[x := v]> l)) = take n (drop o l).
Proof.
  intros H. apply list_eq. intros i.
  destruct (decide (i < n)%nat) as [Hi|Hi].
  - rewrite !lookup_slice by lia. apply list_lookup_insert_ne. lia.
  - rewrite !lookup_take_ge by lia. reflexivity.
Qed.

Lemma slice_set_u8 (l : list Z) x v o n :
  0 <= x -> 0 <= o -> 0 <= n -> (x < o \/ o + n <= x) ->
  take (Z.to_nat n) (drop (Z.to_nat o) (set_u8 l x v))
  = take (Z.to_nat n) (drop (Z.to_nat o) l).
Proof. intros. unfold set_u8. apply slice_insert_outside. lia. Qed.

Lemma slice_set_u16 (l : list Z) x v o n :
  0 <= x -> 0 <= o -> 0 <= n -> (x + 2 <= o \/ o + n <= x) ->
  take (Z.to_nat n) (drop (Z.to_nat o) (set_u16 l x v))
  = take (Z.to_nat n) (drop (Z.to_nat o) l).
Proof. intros. unfold set_u16. rewrite !slice_set_u8 by lia. reflexivity. Qed.

Lemma slice_set_u32 (l : list Z) x v o n :
  0 <= x -> 0 <= o -> 0 <= n -> (x + 4 <= o \/ o + n <= x) ->
  take (Z.to_nat n) (drop (Z.to_nat o) (set_u32 l x v))
  = take (Z.to_nat n) (drop (Z.to_nat o) l).
Proof. intros. unfold set_u32. rewrite !slice_set_u8 by lia. reflexivity. Qed.

Lemma entry_name_change (b b' : list Z) e :
  de_name_len b' e = de_name_len b e ->
  take (Z.to_nat (de_name_len b e)) (drop (Z.to_nat (e + 8)) b')
  = take (Z.to_nat (de_name_len b e)) (drop (Z.to_nat (e + 8)) b) ->
  entry_name b' e = entry_name b e.
Proof.
  intros Hn Hs. unfold entry_name, memcpy_local, DE_NAME_OFF. rewrite Hn, Hs. reflexivity.
Qed.

Lemma same_record_set_u16 (b : list Z) x v e :
  0 <= x -> 0 <= e -> 0 <= de_name_len b e ->
  (x + 2 <= e \/ e + 8 + de_name_len b e <= x \/ x = e + 4) ->
  same_record b (set_u16 b x v) e /\
  (x <> e + 4 -> de_rec_len (set_u16 b x v) e = de_rec_len b e).
Proof.
  intros Hx He Hnl Hd.
  assert (Hn : de_name_len (set_u16 b x v) e = de_name_len b e).
  { unfold de_name_len, get_u8. apply byte_at_set_u16_ne; lia. }
  split; [split; [|split]|].
  - unfold de_inode. apply get_u32_set_u16_ne; lia.
  - exact Hn.
  - apply entry_name_change; [exact Hn|]. apply slice_set_u16; lia.
  - intros Hne. unfold de_rec_len. apply get_u16_set_u16_ne; lia.
Qed.

Lemma same_record_set_u32 (b : list Z) x v e :
  0 <= x -> 0 <= e -> 0 <= de_name_len b e ->
  (x + 4 <= e \/ e + 8 + de_name_len b e <= x) ->
  same_record b (set_u32 b x v) e /\ de_rec_len (set_u32 b x v) e = de_rec_len b e.
Proof.
  intros Hx He Hnl Hd.
  assert (Hn : de_name_len (set_u32 b x v) e = de_name_len b e).
  { unfold de_name_len, get_u8. apply byte_at_set_u32_ne; lia. }
  split; [split; [|split]|].
  - unfold de_inode. apply get_u32_set_u32_ne; lia.
  - exact Hn.
  - apply entry_name_change; [exact Hn|]. apply slice_set_u32; lia.
  - unfold de_rec_len. apply get_u16_set_u32_ne; lia.
Qed.

Lemma same_record_live_match b b' e name :
  same_record b b' e -> live_match b' name e = live_match b name e.
Proof. intros (Hi & Hn & He). unfold live_match. rewrite Hi, Hn, He. reflexivity. Qed.

Lemma first_match_ext b b' name es :
  (forall e, In e es -> same_record b b' e) ->
  first_match b' name es = first_match b name es.
Proof.
  induction es as [|e es IH]; intros H; simpl; [reflexivity|].
  pose proof (H e (or_introl eq_refl)) as He.
  rewrite (same_record_live_match b b' e name He).
  destruct He as (Hi & _). rewrite Hi.
  destruct (live_match b name e); [reflexivity|].
  apply IH. intros x Hx. apply H. right. exact Hx.
Qed.

Lemma first_match_app b name l1 l2 :
  first_match b name (l1 ++ l2) =
  match first_match b name l1 with
  | Some i => Some i
  | None => first_match b name l2
  end.
Proof.
  induction l1 as [|e l1 IH]; simpl; [reflexivity|].
  destruct (live_match b name e); [reflexivity|exact IH].
Qed.

(** [remove_dir_scan] on the records of a block. *)
Lemma remove_dir_scan_records fs block name nl es off prev fuel :
  records block (block_size fs) off es ->
  block_size fs < 4294967296 ->
  remove_dir_scan (length es + fuel) fs block off prev name nl
  = remove_search block name nl es prev.
Proof.
  intros Hrec Hsmall. revert off prev Hrec.
  induction es as [|e es IH]; intros off prev Hrec; simpl in Hrec.
  - subst off. simpl. destruct fuel; simpl; [reflexivity|].
    destruct (Z.ltb_spec (block_size fs) (block_size fs)); [lia|reflexivity].
  - destruct Hrec as (-> & H0 & Hnl & Hrl & Hend & Hrest).
    cbn [length Nat.add remove_dir_scan remove_search].
    destruct (Z.ltb_spec off (block_size fs)); [|lia].
    destruct (Z.eqb_spec (de_rec_len block off) 0); [lia|].
    unfold remove_match.
    destruct (negb (de_inode block off =? 0) && (de_name_len block off =? nl)
              && (strcmp_local (drop (Z.to_nat (off + DE_NAME_OFF)) block) name =? 0));
      [reflexivity|].
    rewrite u32_small by lia. apply IH. exact Hrest.
Qed.

Lemma remove_search_inv block name nl es prev block' :
  remove_search block name nl es prev = Some block' ->
  exists pre t post,
    es = pre ++ t :: post
    /\ (forall e, In e pre -> remove_match block name nl e = false)
    /\ remove_match block name nl t = true
    /\ block' =
       match (match last pre with Some q => Some q | None => prev end) with
       | Some q => set_u16 block (q + 4) (de_rec_len block q + de_rec_len block t)
       | None => set_u32 block t 0
       end.
Proof.
  revert prev. induction es as [|e es IH]; intros prev H; simpl in H; [discriminate|].
  destruct (remove_match block name nl e) eqn:Hm.
  - exists [], e, es. split; [reflexivity|]. split; [intros x []|].
    split; [exact Hm|]. simpl. destruct prev; injection H as <-; reflexivity.
  - destruct (IH _ H) as (pre & t & post & -> & Hpre & Ht & Hb).
    exists (e :: pre), t, post. split; [reflexivity|].
    split. { intros x [<-|Hx]; [exact Hm|apply Hpre; exact Hx]. }
    split; [exact Ht|].
    rewrite Hb. destruct pre as [|p pre]; [reflexivity|].
    change (last (e :: p :: pre)) with (last (p :: pre)).
    destruct (last (p :: pre)) eqn:Hl; [reflexivity|].
    apply last_None in Hl. discriminate.
Qed.

(** A record that [ext2_remove_dir_entry] matches is one that
    [ext2_find_dir_entry] matches. *)
Lemma remove_match_live_match block name t :
  0 <= t -> 0 <= de_name_len block t ->
  t + 8 + de_name_len block t <= Z.of_nat (length block) ->
  remove_match block name (strlen_local name) t = true ->
  live_match block name t = true.
Proof.
  intros Ht Hnl Hlen H. unfold remove_match in H. unfold live_match.
  apply andb_prop in H. destruct H as [H Hcmp].
  rewrite H. simpl.
  apply andb_prop in H. destruct H as [_ Hn]. apply Z.eqb_eq in Hn.
  apply Z.eqb_eq in Hcmp. apply Z.eqb_eq.
  rewrite entry_name_slice by lia. rewrite Hn.
  unfold DE_NAME_OFF in Hcmp. apply strcmp_local_take. exact Hcmp.
Qed.

(** The block after [ext2_remove_dir_entry] took the record [t] out:
    its records still tile the block, and a lookup sees the records the
    block had, without [t]. *)
Lemma remove_search_effect block bs name es block' :
  records block bs 0 es -> Z.of_nat (length block) = bs -> bs < 65536 ->
  remove_search block name (strlen_local name) es None = Some block' ->
  exists pre t post es',
    es = pre ++ t :: post
    /\ live_match block name t = true
    /\ records block' bs 0 es'
    /\ length block' = length block
    /\ forall c, first_match block' c es' = first_match block c (pre ++ post).
Proof.
  intros Hrec Hlen Hbs Hrm.
  destruct (remove_search_inv _ _ _ _ _ _ Hrm) as (pre & t & post & -> & Hpre & Ht & Hb).
  destruct (records_app _ _ _ _ _ Hrec) as (mid & Hrpre & Hrt & Hmid).
  simpl in Hrt. destruct Hrt as (-> & Ht0 & Htnl & Htrl & Htend & Hrpost).
  assert (Hlive : live_match block name mid = true).
  { apply remove_match_live_match; try lia. exact Ht. }
  assert (Hpost : forall e, In e post ->
            mid + de_rec_len block mid <= e /\ 0 <= e /\ 0 <= de_name_len block e).
  { intros e He. destruct (records_In _ _ _ _ _ Hrpost He). lia. }
  destruct (last pre) as [q|] eqn:Hlast.
  - (* the record is merged into its predecessor q *)
    apply last_Some in Hlast. destruct Hlast as [pre' ->].
    destruct (records_app _ _ _ _ _ Hrpre) as (m2 & Hrpre' & Hrq & Hm2).
    simpl in Hrq. destruct Hrq as (-> & Hq0 & Hqnl & Hqrl & Hqend & Hqmid).
    assert (Hqt : m2 + de_rec_len block m2 = mid) by lia. clear Hqmid.
    assert (Hpre' : forall e, In e pre' ->
              0 <= e /\ 0 <= de_name_len block e
              /\ e + 8 + de_name_len block e <= m2).
    { intros e He. destruct (records_In _ _ _ _ _ Hrpre' He). lia. }
    set (v := de_rec_len block m2 + de_rec_len block mid) in *.
    assert (Hsame : forall e, In e ((pre' ++ [m2]) ++ post) ->
              same_record block block' e).
    { intros e He. rewrite Hb.
      apply in_app_or in He. destruct He as [He|He].
      - apply in_app_or in He. destruct He as [He|[<-|[]]].
        + destruct (Hpre' e He) as (? & ? & ?).
          apply same_record_set_u16; lia.
        + apply same_record_set_u16; lia.
      - destruct (Hpost e He) as (? & ? & ?).
        apply same_record_set_u16; lia. }
    exists (pre' ++ [m2]), mid, post, ((pre' ++ [m2]) ++ post).
    split; [reflexivity|]. split; [exact Hlive|].
    split.
    { rewrite <- app_assoc. simpl.
      apply records_app_intro with (mid := m2); [| |lia].
      - apply (records_ext block); [exact Hrpre'|].
        intros e He. destruct (Hpre' e He) as (? & ? & ?). rewrite Hb.
        destruct (same_record_set_u16 block (m2 + 4) v e
                    ltac:(lia) ltac:(lia) ltac:(lia) ltac:(lia)) as [(_ & Hn & _) Hr].
        split; [apply Hr; lia|exact Hn].
      - simpl.
        assert (Hrq' : de_rec_len block' m2 = v).
        { rewrite Hb. unfold de_rec_len. rewrite get_u16_set_u16 by lia.
          apply u16_small. unfold v. lia. }
        assert (Hnq' : de_name_len block' m2 = de_name_len block m2).
        { rewrite Hb.
          destruct (same_record_set_u16 block (m2 + 4) v m2
                      ltac:(lia) ltac:(lia) ltac:(lia) ltac:(lia)) as [(_ & Hn & _) _].
          exact Hn. }
        rewrite Hrq', Hnq'. unfold v.
        repeat split; try lia.
        replace (m2 + (de_rec_len block m2 + de_rec_len block mid))
          with (mid + de_rec_len block mid) by lia.
        apply (records_ext block); [exact Hrpost|].
        intros e He. destruct (Hpost e He) as (? & ? & ?). rewrite Hb.
        destruct (same_record_set_u16 block (m2 + 4)
                    (de_rec_len block m2 + de_rec_len block mid) e
                    ltac:(lia) ltac:(lia) ltac:(lia) ltac:(lia))
          as [(_ & Hn & _) Hr].
        split; [apply Hr; lia|exact Hn]. }
    split. { rewrite Hb. apply length_set_u16. }
    intros c. apply first_match_ext. exact Hsame.
  - (* the record is the first of the block: it loses its inode number *)
    apply last_None in Hlast. subst pre. simpl in Hrpre. subst mid.
    simpl in Hb.
    exists [], 0, post, (0 :: post).
    split; [reflexivity|]. split; [exact Hlive|].
    assert (Hh : de_rec_len block' 0 = de_rec_len block 0
                 /\ de_name_len block' 0 = de_name_len block 0).
    { rewrite Hb. unfold de_rec_len, de_name_len, get_u8. split.
      - apply get_u16_set_u32_ne; lia.
      - apply byte_at_set_u32_ne; lia. }
    assert (Hsame : forall e, In e post ->
              same_record block block' e
              /\ de_rec_len block' e = de_rec_len block e).
    { intros e He. destruct (Hpost e He) as (? & ? & ?). rewrite Hb.
      apply same_record_set_u32; lia. }
    split.
    { apply (records_ext block); [exact Hrec|].
      intros e [<-|He]; [exact Hh|].
      destruct (Hsame e He) as [(_ & Hn & _) Hr]. split; assumption. }
    split. { rewrite Hb. apply length_set_u32. }
    intros c. simpl.
    assert (Hdead : live_match block' c 0 = false).
    { unfold live_match. rewrite Hb. unfold de_inode at 1.
      rewrite get_u32_set_u32 by lia. reflexivity. }
    rewrite Hdead. apply first_match_ext. intros e He. apply Hsame. exact He.
Qed.

(** ** Lookup and removal in a well-formed directory *)

Section DirLayout.

Variable fs : ext2_fs_t.
Variable ino : list Z.
Variable bl : list (list Z * list Z).
Hypothesis Hgeom : fs_geom fs = true.
Hypothesis Hlay : dir_layout fs ino bl.

Let bs := block_size fs.

Lemma layout_block j B es :
  bl !! j = Some (B, es) ->
  i_block ino (Z.of_nat j) <> 0
  /\ blk_ok fs (i_block ino (Z.of_nat j)) = true
  /\ blk_data fs (i_block ino (Z.of_nat j)) = B
  /\ records B bs 0 es /\ Z.of_nat (length B) = bs.
Proof.
  intros Hj. destruct Hlay as (_ & _ & _ & H).
  destruct (H j B es Hj) as (H1 & H2 & H3 & H4).
  repeat split; try assumption.
  rewrite <- H3. apply length_blk_data; assumption.
Qed.

Lemma layout_blocks_ok j :
  0 <= j -> j * bs < i_size ino ->
  i_block ino j <> 0 /\ blk_ok fs (i_block ino j) = true.
Proof.
  intros Hj Hlt. destruct Hlay as (Hsz & Hn & _ & H).
  destruct (geom_facts fs Hgeom) as (Hbs & _). fold bs in Hbs, Hsz.
  assert (Hjn : (Z.to_nat j < length bl)%nat) by nia.
  destruct (lookup_lt_is_Some_2 bl _ Hjn) as [[B es] HB].
  destruct (H _ _ _ HB) as (H1 & H2 & _).
  rewrite Z2Nat.id in H1, H2 by lia. split; assumption.
Qed.

Lemma layout_nblocks : file_nblocks fs ino = Z.of_nat (length bl).
Proof.
  destruct Hlay as (Hsz & Hn & Hsmall & _).
  destruct (geom_facts fs Hgeom) as (Hbs & _). fold bs in Hbs, Hsz.
  assert (bs <= i_size ino) by nia.
  unfold file_nblocks. fold bs. rewrite u32_small by lia.
  rewrite Hsz. symmetry. apply Z.div_unique with (r := bs - 1); lia.
Qed.

(** The walk of [ext2_find_dir_entry] over the blocks from [j] on. *)
Lemma find_dir_loop_layout buf name :
  (forall i, (i < Z.to_nat (i_size ino))%nat ->
     buf !! i = blk_data fs (i_block ino (Z.of_nat i / bs))
                  !! Z.to_nat (Z.of_nat i mod bs)) ->
  forall suf pre fuel,
    bl = pre ++ suf -> (length suf * Z.to_nat bs <= fuel)%nat ->
    find_dir_loop fuel buf (i_size ino) name (Z.of_nat (length pre) * bs)
    = first_match_list name suf.
Proof.
  intros Hbuf. destruct Hlay as (Hsz & Hn & Hsmall & _).
  destruct (geom_facts fs Hgeom) as (Hbs & _). fold bs in Hbs, Hsz.
  induction suf as [|[B es] suf IH]; intros pre fuel Hbl Hfuel.
  - rewrite app_nil_r in Hbl. subst pre. rewrite <- Hsz. simpl.
    destruct fuel; simpl; [reflexivity|].
    destruct (Z.ltb_spec (i_size ino) (i_size ino)); [lia|reflexivity].
  - assert (HB : bl !! length pre = Some (B, es)).
    { rewrite Hbl. rewrite lookup_app_r by lia.
      replace (length pre - length pre)%nat with 0%nat by lia. reflexivity. }
    destruct (layout_block _ _ _ HB) as (Hnz & Hok & Hdata & Hrec & HlenB).
    assert (Hlen_bl : length bl = (length pre + S (length suf))%nat).
    { rewrite Hbl, length_app. reflexivity. }
    pose proof (records_length _ _ _ _ Hrec) as [_ Hes].
    assert (Hfuel' : exists fuel', fuel = (length es + fuel')%nat
                       /\ (length suf * Z.to_nat bs <= fuel')%nat).
    { exists (fuel - length es)%nat. simpl in Hfuel. split; lia. }
    destruct Hfuel' as (fuel' & -> & Hfuel').
    assert (Hemb : embedded buf (Z.of_nat (length pre) * bs) B).
    { intros i Hi. 
      replace (Z.to_nat (Z.of_nat (length pre) * bs) + i)%nat
        with (Z.to_nat (Z.of_nat (length pre) * bs + Z.of_nat i)) by lia.
      rewrite Hbuf by nia.
      rewrite Z2Nat.id by lia.
      assert (Hq : (Z.of_nat (length pre) * bs + Z.of_nat i) / bs
                   = Z.of_nat (length pre)).
      { symmetry. apply Z.div_unique with (r := Z.of_nat i); lia. }
      assert (Hr : (Z.of_nat (length pre) * bs + Z.of_nat i) mod bs = Z.of_nat i).
      { symmetry. apply Z.mod_unique with (q := Z.of_nat (length pre)); lia. }
      rewrite Hq, Hr, Hdata, Nat2Z.id. reflexivity. }
    replace (Z.of_nat (length pre) * bs) with (Z.of_nat (length pre) * bs + 0) at 1 by lia.
    rewrite (find_dir_loop_block buf B (Z.of_nat (length pre) * bs) ltac:(lia) Hemb
               name (i_size ino) bs es 0 fuel' HlenB ltac:(nia) ltac:(lia) Hrec).
    simpl. destruct (first_match B name es); [reflexivity|].
    specialize (IH (pre ++ [(B, es)]) fuel').
    rewrite length_app in IH. simpl in IH.
    replace (Z.of_nat (length pre) * bs + bs)
      with (Z.of_nat (length pre + 1) * bs) by lia.
    apply IH; [|exact Hfuel'].
    rewrite <- app_assoc. exact Hbl.
Qed.

Lemma find_dir_entry_layout name :
  Z.land (i_mode ino) EXT2_S_IFDIR <> 0 ->
  ext2_find_dir_entry fs ino name = first_match_list name bl.
Proof.
  intros Hdir. pose proof Hlay as (Hsz & Hn & Hsmall & _).
  destruct (geom_facts fs Hgeom) as (Hbs & _). fold bs in Hbs, Hsz.
  unfold ext2_find_dir_entry.
  destruct (Z.eqb_spec (Z.land (i_mode ino) EXT2_S_IFDIR) 0); [contradiction|].
  assert (Hpos : 0 < i_size ino) by nia.
  unfold kmalloc. destruct (Z.eqb_spec (i_size ino) 0); [lia|].
  destruct (read_file_spec fs ino (i_size ino) Hgeom ltac:(lia) ltac:(fold bs; nia)
              layout_blocks_ok (replicate (Z.to_nat (i_size ino)) 0)
              ltac:(lia) ltac:(rewrite length_replicate; lia) Hpos)
    as (out' & Hread & Hlen & Hin & _).
  rewrite Hread. rewrite to_int_small by lia. rewrite Z.eqb_refl. simpl negb. cbv iota.
  apply (find_dir_loop_layout out' name Hin bl [] (Z.to_nat (i_size ino)) eq_refl).
  rewrite Hsz. nia.
Qed.

End DirLayout.

Section DirRemove.

Variable fs : ext2_fs_t.
Variable ino : list Z.
Variable bl : list (list Z * list Z).
Hypothesis Hgeom : fs_geom fs = true.
Hypothesis Hlay : dir_layout fs ino bl.

Let bs := block_size fs.

Lemma remove_search_length block name nl es prev block' :
  remove_search block name nl es prev = Some block' ->
  length block' = length block.
Proof.
  intros H. destruct (remove_search_inv _ _ _ _ _ _ H) as (pre & t & post & _ & _ & _ & ->).
  destruct (match last pre with Some q => Some q | None => prev end).
  - apply length_set_u16.
  - apply length_set_u32.
Qed.

Lemma remove_dir_blocks_layout name :
  forall suf pre fuel buf,
    bl = pre ++ suf -> (length suf <= fuel)%nat ->
    Z.of_nat (length buf) = bs ->
    remove_dir_blocks fuel fs ino (Z.of_nat (length pre)) (Z.of_nat (length bl))
                      buf name (strlen_local name)
    = remove_list fs ino name (length pre) suf.
Proof.
  destruct (geom_facts fs Hgeom) as (Hbs & _). fold bs in Hbs.
  pose proof Hlay as (Hsz & Hn & Hsmall & _).
  induction suf as [|[B es] suf IH]; intros pre fuel buf Hbl Hfuel Hbuf.
  - rewrite app_nil_r in Hbl. subst pre. simpl.
    destruct fuel; simpl; [reflexivity|].
    destruct (Z.ltb_spec (Z.of_nat (length bl)) (Z.of_nat (length bl))); [lia|reflexivity].
  - assert (HB : bl !! length pre = Some (B, es)).
    { rewrite Hbl. rewrite lookup_app_r by lia.
      replace (length pre - length pre)%nat with 0%nat by lia. reflexivity. }
    destruct (layout_block fs ino bl Hgeom Hlay _ _ _ HB)
      as (Hnz & Hok & Hdata & Hrec & HlenB).
    assert (Hlen_bl : length bl = (length pre + S (length suf))%nat).
    { rewrite Hbl, length_app. reflexivity. }
    destruct fuel as [|fuel]; [simpl in Hfuel; lia|].
    cbn [remove_dir_blocks remove_list].
    destruct (Z.ltb_spec (Z.of_nat (length pre)) (Z.of_nat (length bl))); [|lia].
    rewrite (read_data_block_direct fs ino (Z.of_nat (length pre)) buf Hgeom ltac:(lia) Hbuf).
    destruct (Z.eqb_spec (i_block ino (Z.of_nat (length pre))) 0); [contradiction|].
    rewrite Hok. simpl orb. cbv iota. simpl negb. cbv iota.
    rewrite Hdata.
    pose proof (records_length _ _ _ _ Hrec) as [_ Hes].
    replace (Z.to_nat (block_size fs))
      with (length es + (Z.to_nat bs - length es))%nat by (fold bs; lia).
    rewrite (remove_dir_scan_records fs B name (strlen_local name) es 0 None _ Hrec
               ltac:(fold bs; lia)).
    destruct (remove_search B name (strlen_local name) es None) as [B'|] eqn:Hrm.
    + pose proof (remove_search_length _ _ _ _ _ _ Hrm) as HlenB'.
      rewrite (write_blocks_spec fs Hgeom _ B') by (fold bs; lia).
      rewrite Hok. reflexivity.
    + specialize (IH (pre ++ [(B, es)]) fuel B).
      rewrite length_app in IH. simpl in IH.
      replace (Z.of_nat (length pre) + 1) with (Z.of_nat (length pre + 1)) by lia.
      replace (S (length pre)) with (length pre + 1)%nat by lia.
      apply IH; [|simpl in Hfuel; lia|exact HlenB].
      rewrite <- app_assoc. exact Hbl.
Qed.

Lemma remove_dir_entry_layout n name :
  0 < strlen_local name <= 255 ->
  ext2_remove_dir_entry fs ino n name = remove_list fs ino name 0 bl.
Proof.
  intros Hname. destruct (geom_facts fs Hgeom) as (Hbs & _). fold bs in Hbs.
  unfold ext2_remove_dir_entry.
  destruct (Z.eqb_spec (strlen_local name) 0); [lia|].
  destruct (Z.ltb_spec 255 (strlen_local name)); [lia|]. simpl orb. cbv iota.
  change (u32 (i_size ino + block_size fs - 1) / block_size fs)
    with (file_nblocks fs ino).
  rewrite (layout_nblocks fs ino bl Hgeom Hlay).
  rewrite (kmalloc_block fs Hgeom).
  rewrite Nat2Z.id.
  apply (remove_dir_blocks_layout name bl [] (length bl) _ eq_refl (le_n _)).
  rewrite length_replicate. fold bs. lia.
Qed.

End DirRemove.

(** ** Names in a directory after a removal *)

Lemma first_match_none_count B name es :
  length (List.filter (live_match B name) es) = 0%nat ->
  first_match B name es = None.
Proof.
  induction es as [|e es IH]; simpl; [reflexivity|].
  destruct (live_match B name e); simpl; [discriminate|exact IH].
Qed.

Lemma filter_count_app (f : Z -> bool) l1 l2 :
  length (List.filter f (l1 ++ l2))
  = (length (List.filter f l1) + length (List.filter f l2))%nat.
Proof. rewrite List.filter_app, length_app. reflexivity. Qed.

Lemma match_count_app name l1 l2 :
  match_count name (l1 ++ l2) = (match_count name l1 + match_count name l2)%nat.
Proof.
  unfold match_count. rewrite map_app, list_sum_app. reflexivity.
Qed.

Lemma first_match_list_none name bl :
  match_count name bl = 0%nat -> first_match_list name bl = None.
Proof.
  induction bl as [|[B es] bl IH]; intros H; [reflexivity|].
  unfold match_count in H. simpl in H.
  simpl. rewrite first_match_none_count by lia.
  apply IH. unfold match_count. lia.
Qed.

Lemma first_match_list_app name l1 l2 :
  first_match_list name (l1 ++ l2) =
  match first_match_list name l1 with
  | Some i => Some i
  | None => first_match_list name l2
  end.
Proof.
  induction l1 as [|[B es] l1 IH]; simpl; [reflexivity|].
  destruct (first_match B name es); [reflexivity|exact IH].
Qed.

(** Two names that match the same record select the same records. *)
Lemma strcmp_local_strcpy_r a b :
  strcmp_local a b = strcmp_local a (strcpy_local b).
Proof.
  revert a. induction b as [|y b IH]; intros a; [reflexivity|].
  simpl strcpy_local. destruct (Z.eqb_spec y 0) as [->|Hy].
  - destruct a as [|x a]; simpl; [rewrite schar_0; reflexivity|].
    rewrite andb_false_r. simpl. rewrite schar_0. reflexivity.
  - destruct a as [|x a]; simpl; [reflexivity|].
    rewrite IH. reflexivity.
Qed.

Lemma live_match_same_name B e name name' :
  strcpy_local name = strcpy_local name' ->
  live_match B name e = live_match B name' e.
Proof.
  intros H. unfold live_match.
  rewrite (strlen_local_strcpy name), (strlen_local_strcpy name'), H.
  rewrite (strcmp_local_strcpy_r _ name), (strcmp_local_strcpy_r _ name'), H.
  reflexivity.
Qed.

Lemma first_match_same_name B es name name' :
  strcpy_local name = strcpy_local name' ->
  first_match B name es = first_match B name' es.
Proof.
  intros H. induction es as [|e es IH]; simpl; [reflexivity|].
  rewrite (live_match_same_name B e name name' H), IH. reflexivity.
Qed.

Lemma first_match_list_same_name bl name name' :
  strcpy_local name = strcpy_local name' ->
  first_match_list name bl = first_match_list name' bl.
Proof.
  intros H. induction bl as [|[B es] bl IH]; simpl; [reflexivity|].
  rewrite (first_match_same_name B es name name' H), IH. reflexivity.
Qed.

Lemma bytes_ok_entry_name B e :
  bytes_ok B = true -> bytes_ok (entry_name B e) = true.
Proof.
  intros HB. unfold entry_name, memcpy_local.
  apply bytes_ok_intro. intros b Hb.
  apply list_elem_of_In in Hb.
  apply list_elem_of_lookup in Hb. destruct Hb as [i Hi].
  set (src := take (Z.to_nat (de_name_len B e)) (drop (Z.to_nat (e + DE_NAME_OFF)) B)) in *.
  set (dst := replicate (Z.to_nat (de_name_len B e)) 0) in *.
  assert (Hi' := Hi).
  apply list_lookup_inserts_Some in Hi'.
  destruct Hi' as [(_ & Hdst)|(_ & _ & Hsrc)].
  - unfold dst in Hdst. apply lookup_replicate in Hdst. lia.
  - apply (bytes_ok_elem src).
    + unfold src. apply bytes_ok_take, bytes_ok_drop, HB.
    + apply list_elem_of_In. apply list_elem_of_lookup. eexists. exact Hsrc.
Qed.

Lemma live_match_both B e name name' :
  bytes_ok B = true -> bytes_ok name = true -> bytes_ok name' = true ->
  live_match B name e = true -> live_match B name' e = true ->
  strcpy_local name = strcpy_local name'.
Proof.
  intros HB Hn Hn' H1 H2. unfold live_match in H1, H2.
  apply andb_prop in H1. destruct H1 as [_ H1].
  apply andb_prop in H2. destruct H2 as [_ H2].
  apply Z.eqb_eq in H1, H2.
  pose proof (bytes_ok_entry_name B e HB) as He.
  apply (strcmp_local_eq _ _ He Hn) in H1.
  apply (strcmp_local_eq _ _ He Hn') in H2.
  congruence.
Qed.

(** The view of a directory after the record [t] of one block has been
    removed, for the name removed and for every other name. *)
Lemma first_match_list_removed name cmp pre post B B' es es' pre_e t post_e :
  bytes_ok B = true -> bytes_ok name = true -> bytes_ok cmp = true ->
  match_count name (pre ++ (B, es) :: post) = 1%nat ->
  es = pre_e ++ t :: post_e ->
  live_match B name t = true ->
  (forall c, first_match B' c es' = first_match B c (pre_e ++ post_e)) ->
  first_match_list name (pre ++ (B', es') :: post) = None
  /\ (first_match_list cmp (pre ++ (B', es') :: post) = None
      \/ first_match_list cmp (pre ++ (B', es') :: post)
         = first_match_list cmp (pre ++ (B, es) :: post)).
Proof.
  intros HB Hn Hc Hcount -> Ht Hview.
  rewrite match_count_app in Hcount.
  change ((B, pre_e ++ t :: post_e) :: post)
    with ([(B, pre_e ++ t :: post_e)] ++ post) in Hcount.
  rewrite match_count_app in Hcount.
  unfold match_count at 2 in Hcount. simpl in Hcount.
  rewrite filter_count_app in Hcount. simpl in Hcount. rewrite Ht in Hcount.
  simpl in Hcount.
  assert (Hnone : first_match_list name (pre ++ (B', es') :: post) = None).
  { rewrite first_match_list_app.
    rewrite (first_match_list_none name pre) by lia.
    simpl. rewrite Hview, first_match_app.
    rewrite (first_match_none_count B name pre_e) by lia.
    rewrite (first_match_none_count B name post_e) by lia.
    apply first_match_list_none. lia. }
  split; [exact Hnone|].
  destruct (live_match B cmp t) eqn:Hcmp.
  - left.
    rewrite (first_match_list_same_name _ cmp name); [exact Hnone|].
    apply (live_match_both B t); assumption.
  - right. rewrite !first_match_list_app. simpl.
    rewrite Hview, !first_match_app. simpl. rewrite Hcmp. reflexivity.
Qed.

Lemma remove_list_inv fs ino name bl : forall j fs1,
  remove_list fs ino name j bl = (0, fs1) ->
  exists pre B es B' post,
    bl = pre ++ (B, es) :: post
    /\ remove_search B name (strlen_local name) es None = Some B'
    /\ fs1 = disk_put fs (i_block ino (Z.of_nat (j + length pre))) B'.
Proof.
  induction bl as [|[B es] bl IH]; intros j fs1 H; simpl in H; [discriminate|].
  destruct (remove_search B name (strlen_local name) es None) as [B'|] eqn:Hrm.
  - exists [], B, es, B', bl. injection H as <-.
    simpl. rewrite Nat.add_0_r. split; [reflexivity|]. split; [exact Hrm|reflexivity].
  - destruct (IH _ _ H) as (pre & B1 & es1 & B' & post & -> & Hrm1 & ->).
    exists ((B, es) :: pre), B1, es1, B', post. simpl.
    split; [reflexivity|]. split; [exact Hrm1|].
    f_equal. f_equal. lia.
Qed.

Lemma distinct_spec l :
  distinct l = true ->
  forall i j x y, l !! i = Some x -> l !! j = Some y -> i <> j -> x <> y.
Proof.
  induction l as [|a l IH]; intros H i j x y Hi Hj Hij; [discriminate|].
  simpl in H. apply andb_prop in H. destruct H as [Ha Hl].
  apply negb_true_iff in Ha.
  assert (Hnot : forall k z, l !! k = Some z -> a <> z).
  { intros k z Hk ->. 
    assert (existsb (Z.eqb z) l = true); [|congruence].
    apply existsb_exists. exists z. split; [|apply Z.eqb_refl].
    apply list_elem_of_In. apply list_elem_of_lookup. eexists; exact Hk. }
  destruct i as [|i], j as [|j]; simpl in Hi, Hj.
  - contradiction.
  - injection Hi as <-. eapply Hnot; eassumption.
  - injection Hj as <-. intros E. symmetry in E. revert E. eapply Hnot; eassumption.
  - eapply IH; eauto.
Qed.

Lemma existsb_eqb_false x (l : list Z) :
  existsb (Z.eqb x) l = false <-> ~ In x l.
Proof.
  split.
  - intros H Hin. assert (existsb (Z.eqb x) l = true); [|congruence].
    apply existsb_exists. exists x. split; [exact Hin|apply Z.eqb_refl].
  - intros H. destruct (existsb (Z.eqb x) l) eqn:E; [|reflexivity].
    apply existsb_exists in E. destruct E as (y & Hy & Heq).
    apply Z.eqb_eq in Heq. subst y. contradiction.
Qed.

Lemma disjoint_spec l1 l2 x :
  disjoint l1 l2 = true -> In x l1 -> ~ In x l2.
Proof.
  intros H Hin. unfold disjoint in H. rewrite forallb_forall in H.
  specialize (H x Hin). apply negb_true_iff in H.
  apply existsb_eqb_false. exact H.
Qed.

(** ** File systems that differ in a few blocks *)

Lemma same_layout_refl fs : same_layout fs fs.
Proof. unfold same_layout. repeat split; reflexivity. Qed.

Lemma same_layout_trans fs1 fs2 fs3 :
  same_layout fs1 fs2 -> same_layout fs2 fs3 -> same_layout fs1 fs3.
Proof.
  intros (A1 & A2 & A3 & A4 & A5 & A6 & A7) (B1 & B2 & B3 & B4 & B5 & B6 & B7).
  unfold same_layout. repeat split; try congruence.
  - destruct (A7 g H) as (E & _), (B7 g H) as (E' & _). congruence.
  - destruct (A7 g H) as (_ & E & _), (B7 g H) as (_ & E' & _). congruence.
  - destruct (A7 g H) as (_ & _ & E), (B7 g H) as (_ & _ & E'). congruence.
Qed.

Lemma same_layout_blk_addr fs fs' b :
  same_layout fs fs' -> blk_addr fs' b = blk_addr fs b.
Proof. intros (E & _). unfold blk_addr. rewrite E. reflexivity. Qed.

Lemma same_layout_blk_ok fs fs' b :
  same_layout fs fs' -> blk_ok fs' b = blk_ok fs b.
Proof.
  intros H. pose proof (same_layout_blk_addr fs fs' b H) as Ha.
  destruct H as (E & _ & _ & _ & Ed & _).
  unfold blk_ok. rewrite Ha, E, Ed. reflexivity.
Qed.

Lemma inode_group_nonneg fs n : 0 < inodes_per_group fs -> 0 <= inode_group fs n.
Proof.
  intros H. unfold inode_group. apply Z.div_pos; [|exact H].
  pose proof (u32_range (n - 1)). lia.
Qed.

Lemma same_layout_inode fs fs' n :
  same_layout fs fs' -> 0 < inodes_per_group fs ->
  inode_group fs' n = inode_group fs n
  /\ inode_block fs' n = inode_block fs n
  /\ inode_slot fs' n = inode_slot fs n
  /\ inode_ok fs' n = inode_ok fs n
  /\ inode_bitmap_of fs' n = inode_bitmap_of fs n.
Proof.
  intros H Hipg. pose proof (inode_group_nonneg fs n Hipg) as Hg.
  pose proof H as (E1 & E2 & E3 & E4 & E5 & E6 & E7).
  destruct (E7 _ Hg) as (_ & Eib & Eit).
  assert (G : inode_group fs' n = inode_group fs n).
  { unfold inode_group. rewrite E3. reflexivity. }
  assert (Bk : inode_block fs' n = inode_block fs n).
  { unfold inode_block. rewrite G, Eit, E3, E1. reflexivity. }
  repeat split.
  - exact G.
  - exact Bk.
  - unfold inode_slot. rewrite E3, E1. reflexivity.
  - unfold inode_ok. rewrite G, E4, Bk, (same_layout_blk_ok fs fs' _ H). reflexivity.
  - unfold inode_bitmap_of. rewrite G. exact Eib.
Qed.

Lemma frame_refl W fs : fs_geom fs = true -> frame W fs fs.
Proof.
  intros H. unfold frame. split; [exact H|]. split; [apply same_layout_refl|].
  reflexivity.
Qed.

Lemma frame_trans W fs1 fs2 fs3 :
  frame W fs1 fs2 -> frame W fs2 fs3 -> frame W fs1 fs3.
Proof.
  intros (G2 & L12 & D12) (G3 & L23 & D23).
  split; [exact G3|]. split; [eapply same_layout_trans; eassumption|].
  intros b Hb. rewrite D23, D12; [reflexivity|exact Hb|].
  rewrite (same_layout_blk_addr fs1 fs2 b L12). exact Hb.
Qed.

Lemma frame_weaken W W' fs fs' :
  (forall x, In x W -> In x W') -> frame W fs fs' -> frame W' fs fs'.
Proof.
  intros Hincl (G & L & D). split; [exact G|]. split; [exact L|].
  intros b Hb. apply D. intros Hin. apply Hb, Hincl, Hin.
Qed.

Lemma same_layout_disk_put fs b buf : same_layout fs (disk_put fs b buf).
Proof. unfold same_layout. repeat split; reflexivity. Qed.

Lemma blk_data_same_addr fs b b' :
  blk_addr fs b' = blk_addr fs b -> blk_data fs b' = blk_data fs b.
Proof. intros H. unfold blk_data. rewrite H. reflexivity. Qed.

Lemma disk_put_same_addr fs b b' buf :
  blk_addr fs b' = blk_addr fs b -> disk_put fs b' buf = disk_put fs b buf.
Proof. intros H. unfold disk_put. rewrite H. reflexivity. Qed.

Lemma blk_ok_same_addr fs b b' :
  blk_addr fs b' = blk_addr fs b -> blk_ok fs b' = blk_ok fs b.
Proof. intros H. unfold blk_ok. rewrite H. reflexivity. Qed.

Lemma frame_disk_put W fs b (buf : list Z) :
  fs_geom fs = true -> In (blk_addr fs b) W ->
  Z.of_nat (length buf) = block_size fs ->
  frame W fs (disk_put fs b buf).
Proof.
  intros G Hin Hlen. split; [apply disk_put_geom, G|].
  split; [apply same_layout_disk_put|].
  intros b' Hb'. apply blk_data_disk_put_other; [exact G|exact Hlen|].
  intros E. apply Hb'. rewrite E. exact Hin.
Qed.

(** The free counters live apart from the tables. *)
Lemma frame_inc_free_blocks W fs g :
  fs_geom fs = true -> 0 <= g -> frame W fs (inc_free_blocks fs g).
Proof.
  intros G Hg. split; [exact G|]. split; [|reflexivity].
  unfold same_layout. repeat split; try reflexivity.
  - unfold inc_free_blocks, s_first_data_block. cbn [superblock set_superblock].
    apply get_u32_set_u32_ne; lia.
  - unfold inc_free_blocks, bg_block_bitmap. cbn [block_groups set_superblock set_block_groups].
    apply get_u32_set_u16_ne; unfold BGD_SIZE; lia.
  - unfold inc_free_blocks, bg_inode_bitmap. cbn [block_groups set_superblock set_block_groups].
    apply get_u32_set_u16_ne; unfold BGD_SIZE; lia.
  - unfold inc_free_blocks, bg_inode_table. cbn [block_groups set_superblock set_block_groups].
    apply get_u32_set_u16_ne; unfold BGD_SIZE; lia.
Qed.

Lemma frame_inc_free_inodes W fs g :
  fs_geom fs = true -> 0 <= g -> frame W fs (inc_free_inodes fs g).
Proof.
  intros G Hg. split; [exact G|]. split; [|reflexivity].
  unfold same_layout. repeat split; try reflexivity.
  - unfold inc_free_inodes, s_first_data_block. cbn [superblock set_superblock].
    apply get_u32_set_u32_ne; lia.
  - unfold inc_free_inodes, bg_block_bitmap. cbn [block_groups set_superblock set_block_groups].
    apply get_u32_set_u16_ne; unfold BGD_SIZE; lia.
  - unfold inc_free_inodes, bg_inode_bitmap. cbn [block_groups set_superblock set_block_groups].
    apply get_u32_set_u16_ne; unfold BGD_SIZE; lia.
  - unfold inc_free_inodes, bg_inode_table. cbn [block_groups set_superblock set_block_groups].
    apply get_u32_set_u16_ne; unfold BGD_SIZE; lia.
Qed.

(** ** Bitmap bits *)

Lemma land_bit_zero a k :
  0 <= k -> Z.land a (Z.shiftl 1 k) = 0 <-> Z.testbit a k = false.
Proof.
  intros Hk. rewrite Z.shiftl_1_l. split.
  - intros H. assert (E : Z.testbit (Z.land a (2 ^ k)) k = false)
      by (rewrite H; apply Z.bits_0).
    rewrite Z.land_spec, Z.pow2_bits_true, andb_true_r in E by lia. exact E.
  - intros H. apply Z.bits_inj'. intros n Hn.
    rewrite Z.land_spec, Z.bits_0, Z.pow2_bits_eqb by lia.
    destruct (Z.eqb_spec k n) as [->|]; [rewrite H; reflexivity|apply andb_false_r].
Qed.

Lemma bitmap_test_zero bm i :
  0 <= i -> bitmap_test bm i = 0 <-> Z.testbit (byte_at bm (i / 8)) (i mod 8) = false.
Proof.
  intros Hi. unfold bitmap_test. apply land_bit_zero.
  apply Z.mod_pos_bound. lia.
Qed.

Lemma u8_testbit x k : 0 <= k < 8 -> Z.testbit (u8 x) k = Z.testbit x k.
Proof.
  intros Hk. unfold u8. change 256 with (2 ^ 8).
  apply Z.mod_pow2_bits_low. lia.
Qed.

Lemma bitmap_clear_bit bm i : 0 <= i -> bitmap_test (bitmap_clear bm i) i = 0.
Proof.
  intros Hi. apply bitmap_test_zero; [exact Hi|].
  assert (Hk : 0 <= i mod 8 < 8) by (apply Z.mod_pos_bound; lia).
  assert (Hq : 0 <= i / 8) by (apply Z.div_pos; lia).
  unfold bitmap_clear. rewrite byte_at_set_u8 by lia.
  rewrite Z.eqb_refl. simpl andb.
  destruct (Z.ltb_spec (i / 8) (Z.of_nat (length bm))).
  - rewrite u8_testbit by lia.
    rewrite Z.land_spec, Z.lnot_spec, Z.shiftl_1_l, Z.pow2_bits_true by lia.
    apply andb_false_r.
  - unfold byte_at. rewrite lookup_ge_None_2 by lia. apply Z.bits_0.
Qed.

Lemma bitmap_clear_mono bm i j :
  0 <= i -> 0 <= j ->
  bitmap_test bm j = 0 -> bitmap_test (bitmap_clear bm i) j = 0.
Proof.
  intros Hi Hj H. apply bitmap_test_zero in H; [|exact Hj].
  apply bitmap_test_zero; [exact Hj|].
  assert (Hk : 0 <= j mod 8 < 8) by (apply Z.mod_pos_bound; lia).
  assert (Hq : 0 <= i / 8) by (apply Z.div_pos; lia).
  assert (Hq' : 0 <= j / 8) by (apply Z.div_pos; lia).
  unfold bitmap_clear. rewrite byte_at_set_u8 by lia.
  destruct ((j / 8 =? i / 8) && (i / 8 <? Z.of_nat (length bm))) eqn:E; [|exact H].
  apply andb_prop in E. destruct E as [E _]. apply Z.eqb_eq in E.
  rewrite u8_testbit by lia. rewrite Z.land_spec, <- E, H. reflexivity.
Qed.

Lemma length_bitmap_clear bm i : length (bitmap_clear bm i) = length bm.
Proof. apply length_set_u8. Qed.

(** ** Freeing blocks and inodes *)

Lemma clears_refl W fs : fs_geom fs = true -> clears W fs fs.
Proof. intros H. split; [apply frame_refl, H|]. auto. Qed.

Lemma clears_trans W fs1 fs2 fs3 :
  clears W fs1 fs2 -> clears W fs2 fs3 -> clears W fs1 fs3.
Proof.
  intros (F12 & M12) (F23 & M23). split; [eapply frame_trans; eassumption|].
  intros b i Hi H. apply M23, M12; assumption.
Qed.

(** Rewriting a bitmap block with one bit cleared, then adjusting the
    counters. *)
Lemma clears_bitmap_write W fs bm i :
  fs_geom fs = true -> blk_ok fs bm = true -> In (blk_addr fs bm) W -> 0 <= i ->
  clears W fs (disk_put fs bm (bitmap_clear (blk_data fs bm) i))
  /\ bitmap_test (blk_data (disk_put fs bm (bitmap_clear (blk_data fs bm) i)) bm) i = 0.
Proof.
  intros G Hok Hin Hi.
  assert (Hlen : Z.of_nat (length (bitmap_clear (blk_data fs bm) i)) = block_size fs).
  { rewrite length_bitmap_clear. apply length_blk_data; assumption. }
  split; [split|].
  - apply frame_disk_put; assumption.
  - intros b j Hj H.
    destruct (Z.eq_dec (blk_addr fs b) (blk_addr fs bm)) as [E|E].
    + rewrite (blk_data_same_addr _ bm b).
      * rewrite blk_data_disk_put_same by assumption.
        apply bitmap_clear_mono; [exact Hi|exact Hj|].
        rewrite <- (blk_data_same_addr fs bm b E). exact H.
      * rewrite !blk_addr_disk_put. exact E.
    + rewrite blk_data_disk_put_other by assumption. exact H.
  - rewrite blk_data_disk_put_same by assumption.
    apply bitmap_clear_bit, Hi.
Qed.

Lemma free_block_clears W fs b :
  fs_geom fs = true -> 0 < blocks_per_group fs ->
  s_first_data_block (superblock fs) <= b ->
  blk_ok fs (block_bitmap_of fs b) = true ->
  In (blk_addr fs (block_bitmap_of fs b)) W ->
  clears W fs (snd (ext2_free_block fs b))
  /\ bitmap_test (blk_data (snd (ext2_free_block fs b)) (block_bitmap_of fs b))
       ((b - s_first_data_block (superblock fs)) mod blocks_per_group fs) = 0.
Proof.
  intros G Hbpg Hb Hok Hin. unfold ext2_free_block.
  destruct (Z.ltb_spec b (s_first_data_block (superblock fs))); [lia|].
  rewrite (kmalloc_block fs G).
  change (bg_block_bitmap (block_groups fs)
            ((b - s_first_data_block (superblock fs)) / blocks_per_group fs))
    with (block_bitmap_of fs b).
  rewrite (read_blocks_spec fs G) by (rewrite length_replicate; destruct (geom_facts fs G); lia).
  rewrite Hok. simpl negb. cbv iota.
  set (i := (b - s_first_data_block (superblock fs)) mod blocks_per_group fs).
  assert (Hi : 0 <= i) by (apply Z.mod_pos_bound; lia).
  rewrite (write_blocks_spec fs G)
    by (rewrite length_bitmap_clear; apply length_blk_data; assumption).
  rewrite Hok. rewrite Z.eqb_refl. cbn [snd].
  destruct (clears_bitmap_write W fs (block_bitmap_of fs b) i G Hok Hin Hi) as [Hc Hbit].
  assert (Hg : 0 <= (b - s_first_data_block (superblock fs)) / blocks_per_group fs)
    by (apply Z.div_pos; lia).
  split.
  - eapply clears_trans; [exact Hc|].
    split; [apply frame_inc_free_blocks; [apply disk_put_geom, G|exact Hg]|].
    auto.
  - exact Hbit.
Qed.

Lemma free_inode_clears W fs n :
  fs_geom fs = true -> 0 < inodes_per_group fs -> n <> 0 ->
  blk_ok fs (inode_bitmap_of fs n) = true ->
  In (blk_addr fs (inode_bitmap_of fs n)) W ->
  clears W fs (snd (ext2_free_inode fs n))
  /\ bitmap_test (blk_data (snd (ext2_free_inode fs n)) (inode_bitmap_of fs n))
       (u32 (n - 1) mod inodes_per_group fs) = 0.
Proof.
  intros G Hipg Hn Hok Hin. unfold ext2_free_inode.
  destruct (Z.eqb_spec n 0); [contradiction|].
  rewrite (kmalloc_block fs G).
  change (bg_inode_bitmap (block_groups fs) (u32 (n - 1) / inodes_per_group fs))
    with (inode_bitmap_of fs n).
  rewrite (read_blocks_spec fs G) by (rewrite length_replicate; destruct (geom_facts fs G); lia).
  rewrite Hok. simpl negb. cbv iota.
  set (i := u32 (n - 1) mod inodes_per_group fs).
  assert (Hi : 0 <= i) by (apply Z.mod_pos_bound; lia).
  rewrite (write_blocks_spec fs G)
    by (rewrite length_bitmap_clear; apply length_blk_data; assumption).
  rewrite Hok. rewrite Z.eqb_refl. cbn [snd].
  destruct (clears_bitmap_write W fs (inode_bitmap_of fs n) i G Hok Hin Hi) as [Hc Hbit].
  pose proof (inode_group_nonneg fs n Hipg) as Hg.
  split.
  - eapply clears_trans; [exact Hc|].
    split; [apply frame_inc_free_inodes; [apply disk_put_geom, G|exact Hg]|].
    auto.
  - exact Hbit.
Qed.

Lemma same_layout_block_bitmap fs fs' b :
  same_layout fs fs' -> 0 < blocks_per_group fs ->
  s_first_data_block (superblock fs) <= b ->
  block_bitmap_of fs' b = block_bitmap_of fs b
  /\ block_bit fs' b
     = bitmap_test (blk_data fs' (block_bitmap_of fs b))
         ((b - s_first_data_block (superblock fs)) mod blocks_per_group fs).
Proof.
  intros (E1 & E2 & E3 & E4 & E5 & E6 & E7) Hbpg Hb.
  assert (Hg : 0 <= block_group fs b) by (apply Z.div_pos; lia).
  assert (G : block_group fs' b = block_group fs b).
  { unfold block_group. rewrite E6, E2. reflexivity. }
  assert (Bm : block_bitmap_of fs' b = block_bitmap_of fs b).
  { unfold block_bitmap_of. rewrite G. apply (E7 _ Hg). }
  split; [exact Bm|]. unfold block_bit. rewrite Bm, E6, E2. reflexivity.
Qed.

Lemma free_direct_blocks_clears W fs0 ino :
  0 < blocks_per_group fs0 ->
  forall fuel i fs,
    (Z.to_nat (12 - i) <= fuel)%nat -> 0 <= i ->
    fs_geom fs = true -> same_layout fs0 fs ->
    (forall k, i <= k < 12 -> i_block ino k <> 0 ->
       s_first_data_block (superblock fs0) <= i_block ino k
       /\ blk_ok fs0 (block_bitmap_of fs0 (i_block ino k)) = true
       /\ In (blk_addr fs0 (block_bitmap_of fs0 (i_block ino k))) W) ->
    clears W fs (free_direct_blocks fuel fs ino i)
    /\ forall k, i <= k < 12 -> i_block ino k <> 0 ->
         block_bit (free_direct_blocks fuel fs ino i) (i_block ino k) = 0.
Proof.
  intros Hbpg. induction fuel as [|fuel IH]; intros i fs Hfuel Hi G L Hblocks.
  - simpl. split; [apply clears_refl, G|]. intros k Hk. lia.
  - cbn [free_direct_blocks].
    destruct (Z.ltb_spec i 12); [|split; [apply clears_refl, G|intros; lia]].
    destruct (Z.eqb_spec (i_block ino i) 0) as [Hz|Hnz]; simpl negb; cbv iota.
    + destruct (IH (i + 1) fs ltac:(lia) ltac:(lia) G L) as [Hc Hbits].
      { intros k Hk. apply Hblocks. lia. }
      split; [exact Hc|]. intros k Hk Hnz.
      destruct (Z.eq_dec k i) as [->|]; [contradiction|]. apply Hbits; [lia|exact Hnz].
    + destruct (Hblocks i ltac:(lia) Hnz) as (Hfirst & Hok & Hin).
      pose proof L as (E1 & E2 & E3 & E4 & E5 & E6 & E7).
      destruct (same_layout_block_bitmap fs0 fs (i_block ino i) L Hbpg Hfirst) as [Bm _].
      destruct (free_block_clears W fs (i_block ino i) G ltac:(lia) ltac:(lia))
        as [Hc1 Hbit1].
      { rewrite Bm, (same_layout_blk_ok fs0 fs _ L). exact Hok. }
      { rewrite Bm, (same_layout_blk_addr fs0 fs _ L). exact Hin. }
      set (fs1 := snd (ext2_free_block fs (i_block ino i))) in *.
      pose proof Hc1 as ((G1 & L1 & _) & _).
      assert (L01 : same_layout fs0 fs1) by (eapply same_layout_trans; eassumption).
      destruct (IH (i + 1) fs1 ltac:(lia) ltac:(lia) G1 L01) as [Hc Hbits].
      { intros k Hk. apply Hblocks. lia. }
      split; [eapply clears_trans; eassumption|].
      intros k Hk Hnzk.
      destruct (Z.eq_dec k i) as [->|]; [|apply Hbits; [lia|exact Hnzk]].
      pose proof Hc as ((_ & L1' & _) & Hmono).
      assert (L0' : same_layout fs0 (free_direct_blocks fuel fs1 ino (i + 1)))
        by (eapply same_layout_trans; eassumption).
      destruct (same_layout_block_bitmap fs0 _ (i_block ino i) L0' Hbpg Hfirst) as [_ ->].
      apply Hmono; [apply Z.mod_pos_bound; lia|].
      rewrite Bm, E6, E2 in Hbit1. exact Hbit1.
Qed.

(** ** Reading through a frame *)

Section FrameRead.

Variables (W : list Z) (fs fs' : ext2_fs_t).
Hypothesis Hgeom : fs_geom fs = true.
Hypothesis Hframe : frame W fs fs'.

Lemma frame_read_inode c :
  0 < inodes_per_group fs ->
  ~ In (blk_addr fs (inode_block fs c)) W ->
  ext2_read_inode fs' c = ext2_read_inode fs c.
Proof.
  intros Hipg Hout. destruct Hframe as (G' & L & D).
  rewrite (read_inode_spec fs' c G'), (read_inode_spec fs c Hgeom).
  destruct (same_layout_inode fs fs' c L Hipg) as (_ & Eb & Es & Eok & _).
  rewrite Eok. unfold inode_at. rewrite Eb, Es, (D _ Hout). reflexivity.
Qed.

Lemma frame_read_data_block ino j (buf : list Z) :
  0 <= j < 12 -> Z.of_nat (length buf) = block_size fs ->
  ~ In (blk_addr fs (i_block ino j)) W ->
  ext2_read_data_block fs' ino j buf = ext2_read_data_block fs ino j buf.
Proof.
  intros Hj Hbuf Hout. destruct Hframe as (G' & L & D).
  pose proof L as (E1 & _).
  rewrite (read_data_block_direct fs' ino j buf G' Hj) by lia.
  rewrite (read_data_block_direct fs ino j buf Hgeom Hj Hbuf).
  rewrite (same_layout_blk_ok fs fs' _ L), (D _ Hout). reflexivity.
Qed.

Lemma frame_read_file_loop ino size :
  size <= 12 * block_size fs ->
  (forall j, 0 <= j < 12 -> ~ In (blk_addr fs (i_block ino j)) W) ->
  forall fuel br out, 0 <= br ->
    read_file_loop fuel fs' ino 0 size br out = read_file_loop fuel fs ino 0 size br out.
Proof.
  intros Hsize Hout. destruct (geom_facts fs Hgeom) as (Hbs & _).
  pose proof Hframe as (G' & L & D). pose proof L as (E1 & _).
  induction fuel as [|fuel IH]; intros br out Hbr; [reflexivity|].
  cbn [read_file_loop]. rewrite E1.
  destruct (Z.ltb_spec br size); [|reflexivity].
  rewrite (kmalloc_block fs Hgeom).
  assert (Hidx : 0 <= u32 (0 + br) / block_size fs < 12).
  { pose proof (u32_range (0 + br)).
    assert (u32 (0 + br) <= br) by (unfold u32; apply Z.mod_le; lia).
    split; [apply Z.div_pos; lia|].
    apply Z.div_lt_upper_bound; lia. }
  rewrite (frame_read_data_block ino _ _ Hidx)
    by (rewrite ?length_replicate; try lia; apply Hout, Hidx).
  destruct (ext2_read_data_block fs ino (u32 (0 + br) / block_size fs)
              (replicate (Z.to_nat (block_size fs)) 0)) as [r bb].
  destruct (negb (r =? 0)); [reflexivity|].
  apply IH.
  pose proof (Z.mod_pos_bound (u32 (0 + br)) (block_size fs) ltac:(lia)).
  destruct (Z.ltb_spec (size - br) (block_size fs - u32 (0 + br) mod block_size fs)); lia.
Qed.

Lemma frame_find_dir_entry ino name :
  i_size ino <= 12 * block_size fs ->
  (forall j, 0 <= j < 12 -> ~ In (blk_addr fs (i_block ino j)) W) ->
  ext2_find_dir_entry fs' ino name = ext2_find_dir_entry fs ino name.
Proof.
  intros Hsize Hout. unfold ext2_find_dir_entry.
  destruct (Z.land (i_mode ino) EXT2_S_IFDIR =? 0); [reflexivity|].
  destruct (kmalloc (i_size ino)) as [buf0|]; [|reflexivity].
  unfold ext2_read_file.
  destruct (i_size ino <=? 0); [reflexivity|].
  rewrite frame_read_file_loop; [reflexivity| |exact Hout|lia].
  destruct (i_size ino <? u32 (0 + i_size ino)); lia.
Qed.

End FrameRead.

(** ** The walk of a path in two file systems *)

Lemma bytes_ok_snoc l c :
  bytes_ok l = true -> 0 <= c < 256 -> bytes_ok (l ++ [c]) = true.
Proof.
  intros Hl Hc. apply bytes_ok_app. split; [exact Hl|].
  apply bytes_ok_cons. split; [exact Hc|reflexivity].
Qed.

Lemma resolve_loop_lockstep fs fs' : forall path comp cur,
  bytes_ok path = true -> bytes_ok comp = true ->
  (forall c cmp, In c (walk_inodes fs path comp cur) -> bytes_ok cmp = true ->
     path_step fs' c cmp = None \/ path_step fs' c cmp = path_step fs c cmp) ->
  resolve_loop fs' path comp cur = None
  \/ resolve_loop fs' path comp cur = resolve_loop fs path comp cur.
Proof.
  induction path as [|c path IH]; intros comp cur Hpath Hcomp Hstep.
  - simpl in *. destruct (0 <? Z.of_nat (length comp)); [|right; reflexivity].
    apply Hstep; [left; reflexivity|exact Hcomp].
  - apply bytes_ok_cons in Hpath. destruct Hpath as [Hc Hpath].
    cbn [resolve_loop walk_inodes] in *.
    destruct (c =? 0).
    { destruct (0 <? Z.of_nat (length comp)); [|right; reflexivity].
      apply Hstep; [left; reflexivity|exact Hcomp]. }
    destruct (c =? slash).
    + destruct (0 <? Z.of_nat (length comp)).
      * destruct (Hstep cur comp (or_introl eq_refl) Hcomp) as [E|E]; rewrite E.
        { left; reflexivity. }
        destruct (path_step fs cur comp) as [ino|]; [|right; reflexivity].
        apply IH; [exact Hpath|reflexivity|].
        intros c' cmp Hin. apply Hstep. right. exact Hin.
      * apply IH; assumption.
    + destruct (Z.of_nat (length comp) <? 255).
      * apply IH; [exact Hpath|apply bytes_ok_snoc; assumption|exact Hstep].
      * apply IH; assumption.
Qed.

Lemma resolve_path_lockstep fs fs' path :
  bytes_ok path = true ->
  (forall c cmp, In c (path_inodes fs path) -> bytes_ok cmp = true ->
     path_step fs' c cmp = None \/ path_step fs' c cmp = path_step fs c cmp) ->
  vfs_resolve_path (Some fs') path = None
  \/ vfs_resolve_path (Some fs') path = vfs_resolve_path (Some fs) path.
Proof.
  intros Hpath Hstep. unfold vfs_resolve_path, path_inodes in *.
  destruct (strcmp_local path [slash] =? 0); [right; reflexivity|].
  apply resolve_loop_lockstep; [|reflexivity|exact Hstep].
  destruct (byte_at path 0 =? slash); [apply bytes_ok_drop|]; exact Hpath.
Qed.

(** ** The parent directory across [vfs_unlink] *)

Lemma dir_blocks_lookup fs ino j :
  (j < Z.to_nat (file_nblocks fs ino))%nat ->
  dir_blocks fs ino !! j = Some (i_block ino (Z.of_nat j)).
Proof.
  intros Hj. unfold dir_blocks. rewrite list_lookup_fmap.
  rewrite lookup_seq_lt by exact Hj. reflexivity.
Qed.

Lemma length_dir_blocks fs ino :
  length (dir_blocks fs ino) = Z.to_nat (file_nblocks fs ino).
Proof. unfold dir_blocks. rewrite length_map, length_seq. reflexivity. Qed.

Lemma length_dir_view fs ino :
  length (dir_view fs ino) = Z.to_nat (file_nblocks fs ino).
Proof. unfold dir_view. rewrite length_map. apply length_dir_blocks. Qed.

Lemma bytes_ok_blk_data fs b :
  bytes_ok (disk fs) = true -> bytes_ok (blk_data fs b) = true.
Proof. intros H. unfold blk_data. apply bytes_ok_take, bytes_ok_drop, H. Qed.

Lemma dir_wf_layout fs ino :
  fs_geom fs = true -> bytes_ok (disk fs) = true -> dir_wf fs ino = true ->
  dir_layout fs ino (dir_view fs ino)
  /\ block_size fs < 65536
  /\ forall i j, (i < length (dir_view fs ino))%nat ->
       (j < length (dir_view fs ino))%nat -> i <> j ->
       blk_addr fs (i_block ino (Z.of_nat i)) <> blk_addr fs (i_block ino (Z.of_nat j)).
Proof.
  intros G Hdisk Hwf. unfold dir_wf in Hwf.
  repeat (apply andb_prop in Hwf; destruct Hwf as [Hwf ?]).
  rename H into Hdist, H0 into Hall, H1 into Hbs, H2 into Hsmall, H3 into Hsz, H4 into H12.
  apply Z.ltb_lt in Hwf, Hbs, Hsmall. apply Z.leb_le in H12. apply Z.eqb_eq in Hsz.
  rewrite forallb_forall in Hall.
  split; [|split; [exact Hbs|]].
  - unfold dir_layout. rewrite length_dir_view.
    split; [rewrite Z2Nat.id by lia; exact Hsz|].
    split; [lia|]. split; [exact Hsmall|].
    intros j B es Hj.
    assert (Hlt : (j < Z.to_nat (file_nblocks fs ino))%nat).
    { rewrite <- length_dir_view. eapply lookup_lt_Some. exact Hj. }
    unfold dir_view in Hj. rewrite list_lookup_fmap, (dir_blocks_lookup fs ino j Hlt) in Hj.
    simpl in Hj. injection Hj as <- <-.
    assert (Hin : In (i_block ino (Z.of_nat j)) (dir_blocks fs ino)).
    { apply list_elem_of_In. apply list_elem_of_lookup. exists j.
      apply dir_blocks_lookup, Hlt. }
    specialize (Hall _ Hin).
    apply andb_prop in Hall. destruct Hall as [Hall Hok].
    apply andb_prop in Hall. destruct Hall as [Hnz Hblk].
    apply negb_true_iff in Hnz. apply Z.eqb_neq in Hnz.
    repeat split; try assumption.
    apply dir_block_ok_records; [apply bytes_ok_blk_data, Hdisk|lia|exact Hok].
  - intros i j Hi Hj Hij. rewrite length_dir_view in Hi, Hj.
    apply (distinct_spec _ Hdist i j); [| |exact Hij].
    + rewrite list_lookup_fmap, (dir_blocks_lookup fs ino i Hi). reflexivity.
    + rewrite list_lookup_fmap, (dir_blocks_lookup fs ino j Hj). reflexivity.
Qed.

Lemma dir_layout_update fs ino pre B es post B' es' :
  fs_geom fs = true ->
  dir_layout fs ino (pre ++ (B, es) :: post) ->
  (forall j, (j < length (pre ++ (B, es) :: post))%nat -> j <> length pre ->
     blk_addr fs (i_block ino (Z.of_nat j))
     <> blk_addr fs (i_block ino (Z.of_nat (length pre)))) ->
  records B' (block_size fs) 0 es' -> length B' = length B ->
  dir_layout (disk_put fs (i_block ino (Z.of_nat (length pre))) B') ino
             (pre ++ (B', es') :: post).
Proof.
  intros G Hlay Hdist Hrec Hlen.
  assert (HB : (pre ++ (B, es) :: post) !! length pre = Some (B, es)).
  { rewrite lookup_app_r by lia.
    replace (length pre - length pre)%nat with 0%nat by lia. reflexivity. }
  destruct (layout_block fs ino _ G Hlay _ _ _ HB) as (Hnz & Hok & Hdata & _ & HlenB).
  destruct Hlay as (Hsz & Hn & Hsmall & Hblocks).
  assert (Elen : length (pre ++ (B', es') :: post) = length (pre ++ (B, es) :: post)).
  { rewrite !length_app. reflexivity. }
  unfold dir_layout. rewrite Elen.
  split; [exact Hsz|]. split; [exact Hn|]. split; [exact Hsmall|].
  intros j B1 es1 Hj.
  assert (Hjlt : (j < length (pre ++ (B, es) :: post))%nat).
  { rewrite <- Elen. eapply lookup_lt_Some. exact Hj. }
  rewrite blk_ok_disk_put.
  destruct (Nat.eq_dec j (length pre)) as [->|Hne].
  - rewrite lookup_app_r in Hj by lia.
    replace (length pre - length pre)%nat with 0%nat in Hj by lia.
    simpl in Hj. injection Hj as <- <-.
    repeat split; try assumption.
    apply blk_data_disk_put_same; [exact G|exact Hok|lia].
  - assert (Hj' : (pre ++ (B, es) :: post) !! j = Some (B1, es1)).
    { destruct (Nat.lt_ge_cases j (length pre)).
      - rewrite lookup_app_l in Hj |- * by lia. exact Hj.
      - rewrite lookup_app_r in Hj |- * by lia.
        destruct (j - length pre)%nat eqn:E; [lia|]. exact Hj. }
    destruct (Hblocks _ _ _ Hj') as (H1 & H2 & H3 & H4).
    repeat split; try assumption.
    rewrite blk_data_disk_put_other; [exact H3|exact G|lia|].
    apply Hdist; assumption.
Qed.

Lemma dir_layout_frame W fs fs' ino bl :
  dir_layout fs ino bl -> frame W fs fs' ->
  (forall j, (j < length bl)%nat -> ~ In (blk_addr fs (i_block ino (Z.of_nat j))) W) ->
  dir_layout fs' ino bl.
Proof.
  intros (Hsz & Hn & Hsmall & Hblocks) (G' & L & D) Hout.
  pose proof L as (E1 & _).
  unfold dir_layout. rewrite E1.
  split; [exact Hsz|]. split; [exact Hn|]. split; [exact Hsmall|].
  intros j B es Hj. destruct (Hblocks _ _ _ Hj) as (H1 & H2 & H3 & H4).
  rewrite (same_layout_blk_ok fs fs' _ L), D.
  - repeat split; assumption.
  - apply Hout. eapply lookup_lt_Some. exact Hj.
Qed.

(** The directory after [ext2_remove_dir_entry] has removed [name]. *)
Lemma remove_entry_view fs pino pn name fs1 :
  fs_geom fs = true -> bytes_ok (disk fs) = true -> dir_wf fs pino = true ->
  match_count name (dir_view fs pino) = 1%nat ->
  bytes_ok name = true -> 0 < strlen_local name <= 255 ->
  ext2_remove_dir_entry fs pino pn name = (0, fs1) ->
  exists bl',
    dir_layout fs1 pino bl'
    /\ length bl' = length (dir_view fs pino)
    /\ frame (map (blk_addr fs) (dir_blocks fs pino)) fs fs1
    /\ first_match_list name bl' = None
    /\ forall cmp, bytes_ok cmp = true ->
         first_match_list cmp bl' = None
         \/ first_match_list cmp bl' = first_match_list cmp (dir_view fs pino).
Proof.
  intros G Hdisk Hwf Hcount Hname Hlen Hrm.
  destruct (dir_wf_layout fs pino G Hdisk Hwf) as (Hlay & Hbs & Hdist).
  rewrite (remove_dir_entry_layout fs pino _ G Hlay pn name Hlen) in Hrm.
  destruct (remove_list_inv _ _ _ _ _ _ Hrm) as (pre & B & es & B' & post & Hbl & Hsearch & ->).
  simpl in *. rewrite Hbl in *.
  assert (HB : (pre ++ (B, es) :: post) !! length pre = Some (B, es)).
  { rewrite lookup_app_r by lia.
    replace (length pre - length pre)%nat with 0%nat by lia. reflexivity. }
  destruct (layout_block fs pino _ G Hlay _ _ _ HB) as (Hnz & Hok & Hdata & Hrec & HlenB).
  destruct (remove_search_effect B (block_size fs) name es B' Hrec HlenB Hbs Hsearch)
    as (pre_e & t & post_e & es' & Hes & Ht & Hrec' & HlenB' & Hview).
  exists (pre ++ (B', es') :: post).
  split; [|split; [|split]].
  - apply (dir_layout_update fs pino pre B es post B' es'); try assumption.
    intros j Hj Hne. apply Hdist; [exact Hj| |exact Hne].
    rewrite length_app. simpl. lia.
  - rewrite !length_app. reflexivity.
  - apply frame_disk_put; [exact G| |lia].
    apply in_map. apply list_elem_of_In. apply list_elem_of_lookup.
    exists (length pre). apply dir_blocks_lookup.
    rewrite <- length_dir_view, Hbl, length_app. simpl. lia.
  - assert (HBok : bytes_ok B = true) by (rewrite <- Hdata; apply bytes_ok_blk_data, Hdisk).
    split.
    + apply (first_match_list_removed name name pre post B B' es es' pre_e t post_e);
        assumption.
    + intros cmp Hcmp.
      apply (first_match_list_removed name cmp pre post B B' es es' pre_e t post_e);
        assumption.
Qed.

(** ** [vfs_unlink] of a regular file *)

Lemma split_path_name path parent name :
  bytes_ok path = true -> strlen_local path < 4294967296 ->
  split_path path = Some (parent, name) ->
  bytes_ok name = true /\ 0 < strlen_local name <= 255 /\ bytes_ok parent = true.
Proof.
  intros Hpath Hlen Hsplit.
  destruct (split_path_shape path parent name Hlen Hsplit)
    as (pre & rest & -> & _ & _ & Hnn & _ & Hne & Hl & ->).
  apply bytes_ok_app in Hpath. destruct Hpath as [Hpre Hpath].
  apply bytes_ok_cons in Hpath. destruct Hpath as [_ Hpath].
  apply bytes_ok_app in Hpath. destruct Hpath as [Hname _].
  split; [exact Hname|]. split.
  - rewrite strlen_local_strcpy, (strcpy_local_id name Hnn).
    rewrite length_app in Hl. simpl in Hl.
    destruct name; [contradiction|]. cbn [length] in *. lia.
  - destruct pre; [reflexivity|exact Hpre].
Qed.

Lemma in_direct_blocks ino k : 0 <= k < 12 -> In (i_block ino k) (direct_blocks ino).
Proof.
  intros Hk. unfold direct_blocks. apply in_map_iff. exists (Z.to_nat k).
  split; [rewrite Z2Nat.id by lia; reflexivity|]. apply in_seq. lia.
Qed.

Lemma i_block_set_links ino v k :
  0 <= k -> i_block (set_i_links_count ino v) k = i_block ino k.
Proof.
  intros Hk. unfold i_block, set_i_links_count, I_BLOCK_OFF.
  apply get_u32_set_u16_ne; lia.
Qed.

Lemma path_step_frame W fs fs' pn c cmp :
  fs_geom fs = true -> frame W fs fs' -> 0 < inodes_per_group fs ->
  inode_apart fs W pn c = true -> c <> pn ->
  path_step fs' c cmp = path_step fs c cmp.
Proof.
  intros G F Hipg Hap Hne. unfold inode_apart in Hap.
  apply andb_prop in Hap. destruct Hap as [Hino Hblocks].
  apply negb_true_iff, existsb_eqb_false in Hino.
  destruct (Z.eqb_spec c pn); [contradiction|]. cbn [orb] in Hblocks.
  unfold path_step. rewrite (frame_read_inode W fs fs' G F c Hipg Hino).
  destruct (ext2_read_inode fs c) as [cino|]; [|reflexivity].
  apply andb_prop in Hblocks. destruct Hblocks as [Hsz Hdis].
  apply Z.leb_le in Hsz.
  apply (frame_find_dir_entry W fs fs' G F); [exact Hsz|].
  intros j Hj. apply (disjoint_spec _ _ _ Hdis).
  apply in_map. apply in_direct_blocks, Hj.
Qed.

Lemma regular_not_dir mode :
  Z.land mode 61440 = EXT2_S_IFREG ->
  (Z.land mode EXT2_S_IFDIR =? EXT2_S_IFDIR) = false.
Proof.
  intros H. apply Z.eqb_neq. intros E.
  assert (Hb : Z.testbit (Z.land mode 61440) 14 = Z.testbit mode 14).
  { rewrite Z.land_spec. change (Z.testbit 61440 14) with true. apply andb_true_r. }
  rewrite H in Hb. change (Z.testbit EXT2_S_IFREG 14) with false in Hb.
  assert (Hb' : Z.testbit (Z.land mode EXT2_S_IFDIR) 14 = Z.testbit mode 14).
  { rewrite Z.land_spec. change (Z.testbit EXT2_S_IFDIR 14) with true. apply andb_true_r. }
  rewrite E in Hb'. change (Z.testbit EXT2_S_IFDIR 14) with true in Hb'. congruence.
Qed.

Lemma find_dir_entry_is_dir fs ino name r :
  ext2_find_dir_entry fs ino name = Some r -> Z.land (i_mode ino) EXT2_S_IFDIR <> 0.
Proof.
  unfold ext2_find_dir_entry.
  destruct (Z.eqb_spec (Z.land (i_mode ino) EXT2_S_IFDIR) 0); [discriminate|auto].
Qed.

(** Writing an inode back as it was read changes nothing. *)
Lemma write_inode_unchanged fs n ino :
  fs_geom fs = true -> ext2_read_inode fs n = Some ino ->
  ext2_write_inode fs n ino = (0, fs).
Proof.
  intros G Hread. destruct (read_inode_ok fs n ino G Hread) as [Hok Hlen].
  rewrite (write_inode_spec fs n ino G Hlen), Hok.
  pose proof (read_inode_spec fs n G) as Hspec.
  rewrite Hread, Hok in Hspec. injection Hspec as ->.
  unfold inode_at. rewrite inserts_slice_id, disk_put_same_data by exact G.
  reflexivity.
Qed.

(** The state that [vfs_unlink] leaves when it succeeds on a file with
    one link. *)
Lemma vfs_unlink_steps fs path parent name pn pino n ino :
  fs_geom fs = true ->
  split_path path = Some (parent, name) ->
  vfs_resolve_path (Some fs) parent = Some pn ->
  ext2_read_inode fs pn = Some pino ->
  ext2_find_dir_entry fs pino name = Some n ->
  ext2_read_inode fs n = Some ino ->
  Z.land (i_mode ino) 61440 = EXT2_S_IFREG -> i_links_count ino = 1 ->
  ~ In (blk_addr fs (inode_block fs pn)) (map (blk_addr fs) (dir_blocks fs pino)) ->
  0 < inodes_per_group fs ->
  (forall fs1, ext2_remove_dir_entry fs pino pn name = (0, fs1) ->
     frame (map (blk_addr fs) (dir_blocks fs pino)) fs fs1) ->
  fst (vfs_unlink (Some fs) path) = 0 ->
  exists fs1,
    ext2_remove_dir_entry fs pino pn name = (0, fs1)
    /\ snd (vfs_unlink (Some fs) path)
       = Some (snd (ext2_free_inode
                      (free_direct_blocks 12 fs1 (set_i_links_count ino 0) 0) n)).
Proof.
  intros G Hsplit Hres Hpino Hfind Hino Hreg Hlinks Hapart Hipg Hframe Hret.
  unfold vfs_unlink in *. rewrite Hsplit, Hres, Hpino, Hfind, Hino in *.
  rewrite (regular_not_dir _ Hreg) in *. cbn [andb] in *. cbv iota in *.
  destruct (ext2_remove_dir_entry fs pino pn name) as [r fs1] eqn:Hrm.
  destruct (Z.eqb_spec r 0) as [->|Hr]; cbn [negb] in *; cbv iota in *;
    [|simpl in Hret; lia].
  specialize (Hframe fs1 eq_refl).
  assert (Hpino1 : ext2_read_inode fs1 pn = Some pino).
  { rewrite (frame_read_inode _ fs fs1 G Hframe pn Hipg Hapart). exact Hpino. }
  pose proof Hframe as (G1 & _).
  rewrite (write_inode_unchanged fs1 pn pino G1 Hpino1) in *.
  rewrite Z.eqb_refl in *. cbn [negb] in *. cbv iota in *.
  destruct (read_inode_ok fs n ino G Hino) as [_ Hlen].
  rewrite Hlinks in *. change (1 - 1) with 0 in *.
  assert (Hz : i_links_count (set_i_links_count ino 0) = 0).
  { unfold i_links_count, set_i_links_count. rewrite get_u16_set_u16 by lia.
    reflexivity. }
  rewrite Hz in *. rewrite Z.eqb_refl in *.
  exists fs1. split; [reflexivity|].
  destruct (ext2_free_inode (free_direct_blocks 12 fs1 (set_i_links_count ino 0) 0) n).
  reflexivity.
Qed.

Lemma in_freed_bitmaps_block fs ino n b :
  In b (direct_blocks ino) -> b <> 0 ->
  In (blk_addr fs (block_bitmap_of fs b)) (map (blk_addr fs) (freed_bitmaps fs ino n)).
Proof.
  intros Hin Hnz. apply in_map. unfold freed_bitmaps. apply in_or_app. left.
  apply in_map. apply filter_In. split; [exact Hin|].
  apply negb_true_iff. apply Z.eqb_neq. exact Hnz.
Qed.

Lemma in_freed_bitmaps_inode fs ino n :
  In (blk_addr fs (inode_bitmap_of fs n)) (map (blk_addr fs) (freed_bitmaps fs ino n)).
Proof.
  apply in_map. unfold freed_bitmaps. apply in_or_app. right. left. reflexivity.
Qed.

(** C2 (as amended).  A path names a regular file with one link, once in
    its parent directory, on a file system whose directory blocks, inode
    table and bitmaps are laid out apart.  When [vfs_unlink] returns 0,
    the path no longer resolves ([vfs_exists] is 0 and [vfs_stat]
    fails), the bit of the inode is clear in its inode bitmap and the bit
    of every direct block the file held is clear in its block bitmap. *)
Theorem vfs_unlink_regular fs path n ino :
  fs_geom fs = true -> bytes_ok (disk fs) = true ->
  bytes_ok path = true -> strlen_local path < 4294967296 ->
  ext2_path_to_inode fs path = n -> ext2_read_inode fs n = Some ino ->
  Z.land (i_mode ino) 61440 = EXT2_S_IFREG -> i_links_count ino = 1 ->
  unlink_wf fs path = true ->
  fst (vfs_unlink (Some fs) path) = 0 ->
  exists fs',
    snd (vfs_unlink (Some fs) path) = Some fs'
    /\ vfs_exists (Some fs') path = 0
    /\ vfs_stat (Some fs') path = None
    /\ inode_bit fs' n = 0
    /\ forall k, 0 <= k < 12 -> i_block ino k <> 0 ->
         block_bit fs' (i_block ino k) = 0.
Proof.
  intros G Hdisk Hpath Hlen Hn Hino Hreg Hlinks Hwf Hret.
  unfold unlink_wf in Hwf.
  destruct (split_path path) as [[parent name]|] eqn:Hsplit; [|discriminate].
  destruct (vfs_resolve_path (Some fs) parent) as [pn|] eqn:Hres; [|discriminate].
  destruct (ext2_read_inode fs pn) as [pino|] eqn:Hpino; [|discriminate].
  destruct (ext2_find_dir_entry fs pino name) as [n'|] eqn:Hfind; [|discriminate].
  assert (n' = n).
  { rewrite path_to_inode_resolve,
      (resolve_path_split fs path parent name Hpath Hlen Hsplit), Hres in Hn.
    unfold path_step in Hn. rewrite Hpino, Hfind in Hn. exact Hn. }
  subst n'. rewrite Hino in Hwf.
  set (PD := map (blk_addr fs) (dir_blocks fs pino)) in *.
  set (WB := map (blk_addr fs) (freed_bitmaps fs ino n)) in *.
  apply andb_prop in Hwf. destruct Hwf as [Hwf Hsep].
  apply andb_prop in Hwf. destruct Hwf as [Hwf Hdisj].
  apply andb_prop in Hwf. destruct Hwf as [Hwf Hibm].
  apply andb_prop in Hwf. destruct Hwf as [Hwf Hblocks].
  apply andb_prop in Hwf. destruct Hwf as [Hwf Hipg].
  apply andb_prop in Hwf. destruct Hwf as [Hwf Hbpg].
  apply andb_prop in Hwf. destruct Hwf as [Hdwf Hcount].
  apply Z.ltb_lt in Hipg, Hbpg. apply Nat.eqb_eq in Hcount.
  rewrite forallb_forall in Hsep, Hblocks.
  destruct (split_path_name path parent name Hpath Hlen Hsplit)
    as (Hname & Hnlen & Hparent).
  destruct (dir_wf_layout fs pino G Hdisk Hdwf) as (Hlay & Hbs & Hdist).
  pose proof (find_dir_entry_is_dir fs pino name n Hfind) as Hisdir.
  destruct (read_inode_ok fs n ino G Hino) as [Hnok _].
  assert (Hn0 : n <> 0).
  { unfold inode_ok in Hnok. destruct (Z.eqb_spec n 0); [discriminate|assumption]. }
  (* the parent inode is stored apart from what the call rewrites *)
  assert (Hpn_out : ~ In (blk_addr fs (inode_block fs pn)) (PD ++ WB)).
  { pose proof (Hsep pn (or_introl eq_refl)) as Hap. unfold inode_apart in Hap.
    apply andb_prop in Hap. destruct Hap as [Hap _].
    apply negb_true_iff, existsb_eqb_false in Hap. exact Hap. }
  (* the steps of the call *)
  destruct (vfs_unlink_steps fs path parent name pn pino n ino G Hsplit Hres Hpino
              Hfind Hino Hreg Hlinks) as (fs1 & Hrm & Hsnd); try assumption.
  { intros Hin. apply Hpn_out. apply in_or_app. left. exact Hin. }
  { intros fs1 Hrm.
    destruct (remove_entry_view fs pino pn name fs1 G Hdisk Hdwf Hcount Hname Hnlen Hrm)
      as (bl' & _ & _ & F & _). exact F. }
  destruct (remove_entry_view fs pino pn name fs1 G Hdisk Hdwf Hcount Hname Hnlen Hrm)
    as (bl' & Hlay1 & Hlen' & F1 & Hnone & Hother).
  pose proof F1 as (G1 & L1 & D1).
  set (ino0 := set_i_links_count ino 0) in *.
  set (fs3 := free_direct_blocks 12 fs1 ino0 0) in *.
  set (fs' := snd (ext2_free_inode fs3 n)) in *.
  (* the frees *)
  destruct (free_direct_blocks_clears WB fs ino0 Hbpg 12 0 fs1 ltac:(simpl; lia)
              ltac:(lia) G1 L1) as [C3 Hbits3].
  { intros k Hk. unfold ino0. rewrite i_block_set_links by lia. intros Hnz.
    pose proof (Hblocks _ (in_direct_blocks ino k Hk)) as Hb.
    destruct (Z.eqb_spec (i_block ino k) 0); [contradiction|]. cbn [orb] in Hb.
    apply andb_prop in Hb. destruct Hb as [Hb1 Hb2]. apply Z.leb_le in Hb1.
    split; [exact Hb1|]. split; [exact Hb2|].
    apply in_freed_bitmaps_block; [apply in_direct_blocks, Hk|exact Hnz]. }
  fold fs3 in C3, Hbits3.
  pose proof C3 as ((G3 & L3 & D3) & M3).
  assert (L03 : same_layout fs fs3) by (eapply same_layout_trans; eassumption).
  pose proof L03 as (E1 & E2 & E3 & E4 & E5 & E6 & E7).
  destruct (same_layout_inode fs fs3 n L03 Hipg) as (_ & _ & _ & _ & Eibm).
  destruct (free_inode_clears WB fs3 n G3 ltac:(lia) Hn0) as [C4 Hbit4].
  { rewrite Eibm, (same_layout_blk_ok fs fs3 _ L03). exact Hibm. }
  { rewrite Eibm, (same_layout_blk_addr fs fs3 _ L03). apply in_freed_bitmaps_inode. }
  fold fs' in C4, Hbit4.
  pose proof C4 as ((G' & L4 & D4) & M4).
  assert (L0' : same_layout fs fs') by (eapply same_layout_trans; eassumption).
  exists fs'. split; [exact Hsnd|].
  (* what the walk reads is unchanged *)
  assert (F14 : frame WB fs1 fs').
  { eapply frame_trans; [exact (proj1 C3)|exact (proj1 C4)]. }
  assert (F : frame (PD ++ WB) fs fs').
  { eapply frame_trans.
    - eapply frame_weaken; [|exact F1]. intros x Hx. apply in_or_app. left. exact Hx.
    - eapply frame_weaken; [|exact F14]. intros x Hx. apply in_or_app. right. exact Hx. }
  assert (Hlay' : dir_layout fs' pino bl').
  { apply (dir_layout_frame WB fs1 fs' pino bl' Hlay1 F14).
    intros j Hj. rewrite (same_layout_blk_addr fs fs1 _ L1).
    intros Hin. revert Hin. apply (disjoint_spec _ _ _ Hdisj).
    apply in_map. apply list_elem_of_In. apply list_elem_of_lookup. exists j.
    apply dir_blocks_lookup. rewrite <- length_dir_view, <- Hlen'. exact Hj. }
  assert (Hpino' : ext2_read_inode fs' pn = Some pino).
  { rewrite (frame_read_inode _ fs fs' G F pn Hipg Hpn_out). exact Hpino. }
  assert (Hstep_pn : forall cmp, bytes_ok cmp = true ->
            path_step fs' pn cmp = None \/ path_step fs' pn cmp = path_step fs pn cmp).
  { intros cmp Hcmp. unfold path_step. rewrite Hpino', Hpino.
    rewrite (find_dir_entry_layout fs' pino bl' G' Hlay' cmp Hisdir).
    rewrite (find_dir_entry_layout fs pino _ G Hlay cmp Hisdir).
    apply Hother, Hcmp. }
  assert (Hstep_name : path_step fs' pn name = None).
  { unfold path_step. rewrite Hpino'.
    rewrite (find_dir_entry_layout fs' pino bl' G' Hlay' name Hisdir). exact Hnone. }
  assert (Hpar : vfs_resolve_path (Some fs') parent = None
                 \/ vfs_resolve_path (Some fs') parent = Some pn).
  { rewrite <- Hres. apply (resolve_path_lockstep fs fs' parent Hparent).
    intros c cmp Hin Hcmp. destruct (Z.eq_dec c pn) as [->|Hne].
    - apply Hstep_pn, Hcmp.
    - right. apply (path_step_frame (PD ++ WB) fs fs' pn c cmp G F Hipg); [|exact Hne].
      apply Hsep. right. exact Hin. }
  assert (Hgone : vfs_resolve_path (Some fs') path = None).
  { rewrite (resolve_path_split fs' path parent name Hpath Hlen Hsplit).
    destruct Hpar as [-> | ->]; [reflexivity|exact Hstep_name]. }
  split; [unfold vfs_exists; rewrite Hgone; reflexivity|].
  split; [unfold vfs_stat; rewrite path_to_inode_resolve, Hgone; reflexivity|].
  split.
  - destruct (same_layout_inode fs3 fs' n L4 ltac:(lia)) as (_ & _ & _ & _ & Eibm').
    pose proof L4 as (_ & _ & E3' & _).
    unfold inode_bit. rewrite Eibm', E3'. exact Hbit4.
  - intros k Hk Hnz.
    pose proof (Hblocks _ (in_direct_blocks ino k Hk)) as Hb.
    destruct (Z.eqb_spec (i_block ino k) 0); [contradiction|]. cbn [orb] in Hb.
    apply andb_prop in Hb. destruct Hb as [Hb1 _]. apply Z.leb_le in Hb1.
    destruct (same_layout_block_bitmap fs3 fs' (i_block ino k) L4 ltac:(lia) ltac:(lia))
      as [_ ->].
    apply M4; [apply Z.mod_pos_bound; lia|].
    specialize (Hbits3 k Hk). unfold ino0 in Hbits3.
    rewrite i_block_set_links in Hbits3 by lia. exact (Hbits3 Hnz).
Qed.

(** Unlinking [/f] in the image. *)
Lemma vfs_unlink_regular_witness :
  exists fs',
    snd (vfs_unlink (Some img_fs) path_f) = Some fs'
    /\ vfs_exists (Some fs') path_f = 0
    /\ vfs_stat (Some fs') path_f = None
    /\ inode_bit fs' 11 = 0
    /\ forall k, 0 <= k < 12 ->
         i_block (inode_rec 33188 2000 1 (le32 9 ++ le32 10)) k <> 0 ->
         block_bit fs' (i_block (inode_rec 33188 2000 1 (le32 9 ++ le32 10)) k) = 0.
Proof.
  apply (vfs_unlink_regular img_fs path_f 11 (inode_rec 33188 2000 1 (le32 9 ++ le32 10))).
  - vm_compute. reflexivity.
  - vm_compute. reflexivity.
  - vm_compute. reflexivity.
  - vm_compute. reflexivity.
  - vm_compute. reflexivity.
  - vm_compute. reflexivity.
  - vm_compute. reflexivity.
  - vm_compute. reflexivity.
  - vm_compute. reflexivity.
  - vm_compute. reflexivity.
Defined.

(** C2 (as stated) fails when the name occurs twice in the directory.
    [vfs_create] does not look the name up, so creating [/f] over the
    existing file succeeds and leaves two records named "f": [/f] still
    names inode 11, a regular file with one link.  [vfs_unlink] then
    returns 0 and removes the first record only: the path still resolves
    (to the file just created, inode 20), [vfs_exists] is 1 and
    [vfs_stat] succeeds. *)
Lemma vfs_unlink_duplicate_name :
  let created := vfs_create (Some img_fs) path_f VFS_TYPE_FILE 1000 in
  let unlinked := vfs_unlink (snd created) path_f in
  fst created = 0
  /\ option_map (fun fs => ext2_path_to_inode fs path_f) (snd created) = Some 11
  /\ option_map (fun ino => (Z.land (i_mode ino) 61440, i_links_count ino))
       (ext2_read_inode (default img_fs (snd created)) 11)
     = Some (EXT2_S_IFREG, 1)
  /\ fst unlinked = 0
  /\ vfs_exists (snd unlinked) path_f = 1
  /\ option_map d_inode (vfs_stat (snd unlinked) path_f) = Some 20.
Proof. vm_compute. repeat split; reflexivity. Qed.

(** ** [ext2_alloc_block] takes the first free bit *)

Lemma length_bitmap_set bm i : length (bitmap_set bm i) = length bm.
Proof. apply length_set_u8. Qed.

Lemma alloc_block_bits_first fs g (bitmap : list Z) :
  fs_geom fs = true ->
  blk_ok fs (bg_block_bitmap (block_groups fs) g) = true ->
  Z.of_nat (length bitmap) = block_size fs ->
  forall c a fuel,
    (a + c = Z.to_nat (blocks_per_group fs))%nat -> (c <= fuel)%nat ->
    alloc_block_bits fuel fs g bitmap (Z.of_nat a) =
    match List.filter (fun i => bitmap_test bitmap i =? 0) (map Z.of_nat (seq a c)) with
    | [] => (None, fs)
    | i :: _ =>
      (Some (block_of_bit fs (g, i)),
       dec_free_blocks
         (disk_put fs (bg_block_bitmap (block_groups fs) g) (bitmap_set bitmap i)) g)
    end.
Proof.
  intros G Hok Hlen. induction c as [|c IH]; intros a fuel Hac Hfuel.
  - simpl. destruct fuel; simpl; [reflexivity|].
    destruct (Z.ltb_spec (Z.of_nat a) (blocks_per_group fs)); [lia|reflexivity].
  - destruct fuel as [|fuel]; [lia|]. cbn [alloc_block_bits seq map List.filter].
    destruct (Z.ltb_spec (Z.of_nat a) (blocks_per_group fs)); [|lia].
    destruct (bitmap_test bitmap (Z.of_nat a) =? 0).
    + rewrite (write_blocks_spec fs G) by (rewrite length_bitmap_set; exact Hlen).
      rewrite Hok. reflexivity.
    + replace (Z.of_nat a + 1) with (Z.of_nat (S a)) by lia.
      apply IH; lia.
Qed.

Lemma filter_row_not_ok fs g l :
  blk_ok fs (bg_block_bitmap (block_groups fs) g) = false ->
  List.filter (bit_free fs) (map (pair g) l) = [].
Proof.
  intros H. induction l as [|i l IH]; [reflexivity|].
  simpl. unfold bit_free at 1. simpl. rewrite H. exact IH.
Qed.

Lemma filter_row_ok fs g l :
  blk_ok fs (bg_block_bitmap (block_groups fs) g) = true ->
  List.filter (bit_free fs) (map (pair g) l)
  = map (pair g)
      (List.filter
         (fun i => bitmap_test (blk_data fs (bg_block_bitmap (block_groups fs) g)) i =? 0) l).
Proof.
  intros H. induction l as [|i l IH]; [reflexivity|].
  simpl. unfold bit_free at 1. simpl. rewrite H. simpl.
  destruct (bitmap_test _ i =? 0); simpl; rewrite IH; reflexivity.
Qed.

Lemma alloc_block_groups_first fs :
  fs_geom fs = true ->
  forall c a fuel,
    (a + c = Z.to_nat (num_block_groups fs))%nat -> (c <= fuel)%nat ->
    alloc_block_groups fuel fs (Z.of_nat a) =
    match List.filter (bit_free fs)
            (flat_map (fun g => map (pair g) (bit_range (blocks_per_group fs)))
                      (map Z.of_nat (seq a c))) with
    | [] => (0, fs)
    | gi :: _ => (block_of_bit fs gi, alloc_update fs gi)
    end.
Proof.
  intros G. induction c as [|c IH]; intros a fuel Hac Hfuel.
  - simpl. destruct fuel; simpl; [reflexivity|].
    destruct (Z.ltb_spec (Z.of_nat a) (num_block_groups fs)); [lia|reflexivity].
  - destruct fuel as [|fuel]; [lia|]. cbn [alloc_block_groups seq map flat_map].
    destruct (Z.ltb_spec (Z.of_nat a) (num_block_groups fs)); [|lia].
    rewrite (kmalloc_block fs G).
    rewrite (read_blocks_spec fs G)
      by (rewrite length_replicate; destruct (geom_facts fs G); lia).
    rewrite List.filter_app.
    replace (Z.of_nat a + 1) with (Z.of_nat (S a)) by lia.
    destruct (blk_ok fs (bg_block_bitmap (block_groups fs) (Z.of_nat a))) eqn:Hok.
    + simpl negb. cbv iota.
      pose proof (alloc_block_bits_first fs (Z.of_nat a) _ G Hok
                 (length_blk_data fs G _ Hok)
                 (Z.to_nat (blocks_per_group fs)) 0 _ eq_refl (le_n _)) as Hbits.
      change (Z.of_nat 0) with 0 in Hbits. rewrite Hbits. clear Hbits.
      rewrite (filter_row_ok fs _ _ Hok). unfold bit_range.
      destruct (List.filter _ (map Z.of_nat (seq 0 (Z.to_nat (blocks_per_group fs)))))
        as [|i rest]; simpl.
      * apply IH; lia.
      * reflexivity.
    + simpl negb. cbv iota. rewrite (filter_row_not_ok fs _ _ Hok). simpl.
      apply IH; lia.
Qed.

Lemma ext2_alloc_block_first fs :
  fs_geom fs = true ->
  ext2_alloc_block fs =
  match free_bits fs with
  | [] => (0, fs)
  | gi :: _ => (block_of_bit fs gi, alloc_update fs gi)
  end.
Proof.
  intros G. unfold ext2_alloc_block, free_bits, all_bits, bit_range.
  apply (alloc_block_groups_first fs G (Z.to_nat (num_block_groups fs)) 0 _ eq_refl (le_n _)).
Qed.

Lemma bitmap_set_test bm i j :
  0 <= i -> 0 <= j -> i / 8 < Z.of_nat (length bm) ->
  (bitmap_test (bitmap_set bm i) j =? 0)
  = (bitmap_test bm j =? 0) && negb (j =? i).
Proof.
  intros Hi Hj Hlen.
  assert (Hk : 0 <= j mod 8 < 8) by (apply Z.mod_pos_bound; lia).
  assert (Hk' : 0 <= i mod 8 < 8) by (apply Z.mod_pos_bound; lia).
  assert (Hq : 0 <= i / 8) by (apply Z.div_pos; lia).
  assert (Hq' : 0 <= j / 8) by (apply Z.div_pos; lia).
  assert (Hbit : Z.testbit (byte_at (bitmap_set bm i) (j / 8)) (j mod 8)
                 = Z.testbit (byte_at bm (j / 8)) (j mod 8) || (j =? i)).
  { unfold bitmap_set. rewrite byte_at_set_u8 by lia.
    destruct (Z.eqb_spec (j / 8) (i / 8)) as [E|E].
    - destruct (Z.ltb_spec (i / 8) (Z.of_nat (length bm))); [|lia]. simpl andb. cbv iota.
      rewrite u8_testbit by lia.
      rewrite Z.lor_spec, Z.shiftl_1_l, Z.pow2_bits_eqb, E by lia.
      f_equal. destruct (Z.eqb_spec (i mod 8) (j mod 8)) as [E'|E'];
        destruct (Z.eqb_spec j i) as [E''|E'']; try reflexivity.
      + exfalso. apply E''. rewrite (Z.div_mod j 8), (Z.div_mod i 8) by lia. lia.
      + exfalso. apply E'. rewrite E''. reflexivity.
    - simpl andb. cbv iota. destruct (Z.eqb_spec j i) as [->|]; [contradiction|].
      rewrite orb_false_r. reflexivity. }
  destruct (Z.eqb_spec (bitmap_test (bitmap_set bm i) j) 0) as [E|E].
  - apply bitmap_test_zero in E; [|exact Hj]. rewrite Hbit in E.
    apply orb_false_elim in E. destruct E as [E1 E2].
    apply (bitmap_test_zero bm j Hj) in E1. rewrite E1, E2. reflexivity.
  - destruct (Z.eqb_spec (bitmap_test bm j) 0) as [E1|E1]; [|reflexivity].
    destruct (Z.eqb_spec j i) as [E2|E2]; [reflexivity|].
    exfalso. apply E. apply bitmap_test_zero; [exact Hj|]. rewrite Hbit.
    apply (bitmap_test_zero bm j Hj) in E1. rewrite E1. reflexivity.
Qed.

Lemma frame_dec_free_blocks W fs g :
  fs_geom fs = true -> 0 <= g -> frame W fs (dec_free_blocks fs g).
Proof.
  intros G Hg. split; [exact G|]. split; [|reflexivity].
  unfold same_layout. repeat split; try reflexivity.
  - unfold dec_free_blocks, s_first_data_block. cbn [superblock set_superblock].
    apply get_u32_set_u32_ne; lia.
  - unfold dec_free_blocks, bg_block_bitmap. cbn [block_groups set_superblock set_block_groups].
    apply get_u32_set_u16_ne; unfold BGD_SIZE; lia.
  - unfold dec_free_blocks, bg_inode_bitmap. cbn [block_groups set_superblock set_block_groups].
    apply get_u32_set_u16_ne; unfold BGD_SIZE; lia.
  - unfold dec_free_blocks, bg_inode_table. cbn [block_groups set_superblock set_block_groups].
    apply get_u32_set_u16_ne; unfold BGD_SIZE; lia.
Qed.

Lemma in_bit_range n x : In x (bit_range n) <-> 0 <= x < n.
Proof.
  unfold bit_range. rewrite in_map_iff. split.
  - intros (k & <- & Hk). apply in_seq in Hk. lia.
  - intros Hx. exists (Z.to_nat x). split; [lia|]. apply in_seq. lia.
Qed.

Lemma in_all_bits fs g i :
  In (g, i) (all_bits fs) <-> 0 <= g < num_block_groups fs /\ 0 <= i < blocks_per_group fs.
Proof.
  unfold all_bits. rewrite in_flat_map. split.
  - intros (g' & Hg & Hin). apply in_map_iff in Hin. destruct Hin as (i' & E & Hi).
    injection E as <- <-. apply in_bit_range in Hg, Hi. split; assumption.
  - intros [Hg Hi]. exists g. split; [apply in_bit_range, Hg|].
    apply in_map. apply in_bit_range, Hi.
Qed.

Lemma NoDup_map_inj {A B} (f : A -> B) (l : list A) :
  (forall x y, f x = f y -> x = y) -> List.NoDup l -> List.NoDup (map f l).
Proof.
  intros Hinj. induction 1 as [|x l Hnot Hnd IH]; simpl; constructor; [|exact IH].
  rewrite in_map_iff. intros (y & E & Hy). apply Hinj in E. subst y. contradiction.
Qed.

Lemma NoDup_bit_range n : List.NoDup (bit_range n).
Proof.
  unfold bit_range. apply NoDup_map_inj.
  - intros x y H. lia.
  - apply List.seq_NoDup.
Qed.

Lemma NoDup_rows (bpg : Z) (gs : list Z) :
  List.NoDup gs ->
  List.NoDup (flat_map (fun g => map (pair g) (bit_range bpg)) gs).
Proof.
  induction 1 as [|g gs Hnot Hnd IH]; simpl; [constructor|].
  apply NoDup_ListNoDup. apply NoDup_app. split; [|split].
  - apply NoDup_ListNoDup. apply NoDup_map_inj.
    + intros x y E. injection E. auto.
    + apply NoDup_bit_range.
  - intros [g' i'] Hin Hin'. apply list_elem_of_In in Hin, Hin'.
    apply in_map_iff in Hin. destruct Hin as (i & E & _). injection E as <- <-.
    apply in_flat_map in Hin'. destruct Hin' as (g2 & Hg2 & Hin').
    apply in_map_iff in Hin'. destruct Hin' as (i2 & E & _). injection E as -> _.
    contradiction.
  - apply NoDup_ListNoDup. exact IH.
Qed.

Lemma NoDup_all_bits fs : List.NoDup (all_bits fs).
Proof. apply NoDup_rows, NoDup_bit_range. Qed.

(** Removing the head of a filtered list by strengthening the filter. *)
Lemma filter_without_head {A} (P Q : A -> bool) (l : list A) x rest :
  List.NoDup l -> List.filter P l = x :: rest ->
  Q x = false -> (forall y, In y l -> y <> x -> Q y = P y) ->
  List.filter Q l = rest.
Proof.
  induction 1 as [|y l Hnot Hnd IH]; intros Hf Hx HQ; [discriminate|].
  simpl in Hf |- *. destruct (P y) eqn:HP.
  - injection Hf as -> <-. rewrite Hx.
    apply List.filter_ext_in. intros z Hz. apply HQ; [right; exact Hz|].
    intros ->. contradiction.
  - assert (Hyx : y <> x).
    { intros ->. assert (Hin : In x (List.filter P l)) by (rewrite Hf; left; reflexivity).
      apply filter_In in Hin. destruct Hin as [Hin _]. contradiction. }
    rewrite (HQ y (or_introl eq_refl) Hyx), HP.
    apply IH; [exact Hf|exact Hx|]. intros z Hz. apply HQ. right. exact Hz.
Qed.

Lemma free_bits_frame fs fs' :
  same_layout fs fs' ->
  (forall g, 0 <= g < num_block_groups fs ->
     blk_ok fs (bg_block_bitmap (block_groups fs) g) = true ->
     blk_data fs' (bg_block_bitmap (block_groups fs) g)
     = blk_data fs (bg_block_bitmap (block_groups fs) g)) ->
  free_bits fs' = free_bits fs.
Proof.
  intros L Hdata. pose proof L as (E1 & E2 & E3 & E4 & E5 & E6 & E7).
  unfold free_bits, all_bits. rewrite E2, E4.
  apply List.filter_ext_in. intros [g i] Hin.
  apply (in_all_bits fs) in Hin. destruct Hin as [Hg Hi].
  unfold bit_free. cbn [fst snd].
  destruct (E7 g ltac:(lia)) as (-> & _).
  rewrite (same_layout_blk_ok fs fs' _ L).
  destruct (blk_ok fs (bg_block_bitmap (block_groups fs) g)) eqn:Hok; [|reflexivity].
  rewrite (Hdata g Hg Hok). reflexivity.
Qed.

(** After an allocation the free bits are those that were free, without
    the one taken. *)
Lemma free_bits_alloc fs gi rest :
  fs_geom fs = true ->
  blocks_per_group fs <= 8 * block_size fs ->
  (forall g g', 0 <= g < num_block_groups fs -> 0 <= g' < num_block_groups fs ->
     g <> g' ->
     blk_addr fs (bg_block_bitmap (block_groups fs) g)
     <> blk_addr fs (bg_block_bitmap (block_groups fs) g')) ->
  free_bits fs = gi :: rest ->
  free_bits (alloc_update fs gi) = rest.
Proof.
  intros G Hbpg Hdist Hfree. destruct gi as [g i].
  assert (Hin : In (g, i) (free_bits fs)) by (rewrite Hfree; left; reflexivity).
  unfold free_bits in Hin. apply filter_In in Hin. destruct Hin as [Hin Hbit].
  apply in_all_bits in Hin. destruct Hin as [Hg Hi].
  unfold bit_free in Hbit. cbn [fst snd] in Hbit.
  apply andb_prop in Hbit. destruct Hbit as [Hok Hclear].
  unfold alloc_update. cbn [fst snd].
  set (bm := bg_block_bitmap (block_groups fs) g) in *.
  set (fs1 := disk_put fs bm (bitmap_set (blk_data fs bm) i)).
  assert (G1 : fs_geom fs1 = true) by apply disk_put_geom, G.
  assert (Hlen : Z.of_nat (length (bitmap_set (blk_data fs bm) i)) = block_size fs).
  { rewrite length_bitmap_set. apply length_blk_data; assumption. }
  rewrite (free_bits_frame fs1 (dec_free_blocks fs1 g)).
  2:{ apply (frame_dec_free_blocks [] fs1 g G1). lia. }
  2:{ intros. reflexivity. }
  unfold free_bits. change (all_bits fs1) with (all_bits fs).
  apply (filter_without_head (bit_free fs) (bit_free fs1) (all_bits fs) (g, i) rest).
  - apply NoDup_all_bits.
  - exact Hfree.
  - unfold bit_free. cbn [fst snd]. change (block_groups fs1) with (block_groups fs).
    fold bm. unfold fs1. rewrite blk_ok_disk_put, Hok.
    rewrite blk_data_disk_put_same by assumption.
    rewrite bitmap_set_test; [| lia | lia |].
    + rewrite Z.eqb_refl. apply andb_false_r.
    + pose proof (length_blk_data fs G bm Hok).
      apply Z.div_lt_upper_bound; lia.
  - intros [g2 i2] Hin2 Hne. apply in_all_bits in Hin2. destruct Hin2 as [Hg2 Hi2].
    unfold bit_free. cbn [fst snd]. change (block_groups fs1) with (block_groups fs).
    unfold fs1. rewrite blk_ok_disk_put.
    destruct (blk_ok fs (bg_block_bitmap (block_groups fs) g2)) eqn:Hok2; [|reflexivity].
    simpl andb. destruct (Z.eq_dec g2 g) as [->|Hgg].
    + fold bm. rewrite blk_data_disk_put_same by assumption.
      rewrite bitmap_set_test; [| lia | lia |].
      * destruct (Z.eqb_spec i2 i) as [->|]; [contradiction|]. apply andb_true_r.
      * pose proof (length_blk_data fs G bm Hok).
        apply Z.div_lt_upper_bound; lia.
    + rewrite blk_data_disk_put_other; [reflexivity|exact G|exact Hlen|].
      apply Hdist; assumption.
Qed.

(** ** The block pointers of the inode in memory *)

Lemma i_block_set_i_block_same ino k v :
  length ino = 128%nat -> 0 <= k < 12 ->
  i_block (set_i_block ino k v) k = u32 v.
Proof.
  intros Hlen Hk. unfold i_block, set_i_block, I_BLOCK_OFF.
  apply get_u32_set_u32; lia.
Qed.

Lemma i_block_set_i_block_other ino k v k' :
  0 <= k -> 0 <= k' -> k <> k' ->
  i_block (set_i_block ino k v) k' = i_block ino k'.
Proof.
  intros Hk Hk' Hne. unfold i_block, set_i_block, I_BLOCK_OFF.
  apply get_u32_set_u32_ne; lia.
Qed.

Lemma i_size_set_i_block ino k v :
  0 <= k -> i_size (set_i_block ino k v) = i_size ino.
Proof.
  intros Hk. unfold i_size, set_i_block, I_BLOCK_OFF.
  apply get_u32_set_u32_ne; lia.
Qed.

Lemma length_set_i_block ino k v : length (set_i_block ino k v) = length ino.
Proof. apply length_set_u32. Qed.

(** ** The plan of a write *)

Lemma plan_length ptrs : forall free P, plan ptrs free = Some P -> length P = length ptrs.
Proof.
  induction ptrs as [|p ptrs IH]; intros free P H; simpl in H.
  - injection H as <-. reflexivity.
  - destruct (p =? 0).
    + destruct free as [|c free]; [discriminate|].
      destruct (plan ptrs free) as [P'|] eqn:E; [|discriminate].
      injection H as <-. simpl. f_equal. eapply IH. exact E.
    + destruct (plan ptrs free) as [P'|] eqn:E; [|discriminate].
      injection H as <-. simpl. f_equal. eapply IH. exact E.
Qed.

Lemma plan_step p ptrs free q P :
  plan (p :: ptrs) free = Some (q :: P) ->
  (p = 0 /\ exists free', free = q :: free' /\ plan ptrs free' = Some P)
  \/ (p <> 0 /\ q = p /\ plan ptrs free = Some P).
Proof.
  intros H. simpl in H. destruct (Z.eqb_spec p 0) as [->|Hp].
  - left. split; [reflexivity|]. destruct free as [|c free]; [discriminate|].
    destruct (plan ptrs free) as [P'|] eqn:E; [|discriminate].
    injection H as -> ->. exists free. split; [reflexivity|first [exact E|reflexivity]].
  - right. split; [exact Hp|].
    destruct (plan ptrs free) as [P'|] eqn:E; [|discriminate].
    injection H as -> ->. split; [reflexivity|first [exact E|reflexivity]].
Qed.

Lemma write_nblocks_spec fs size :
  fs_geom fs = true -> 0 <= size ->
  0 <= write_nblocks fs size
  /\ (write_nblocks fs size - 1) * block_size fs < size
  /\ size <= write_nblocks fs size * block_size fs.
Proof.
  intros G Hs. destruct (geom_facts fs G) as (Hbs & _). unfold write_nblocks.
  pose proof (Z.div_mod (size + block_size fs - 1) (block_size fs) ltac:(lia)) as Hdm.
  pose proof (Z.mod_pos_bound (size + block_size fs - 1) (block_size fs) ltac:(lia)) as Hm.
  assert (0 <= (size + block_size fs - 1) / block_size fs) by (apply Z.div_pos; lia).
  split; [assumption|]. split; nia.
Qed.

Lemma write_ptrs_lookup fs ino size j :
  (j < Z.to_nat (write_nblocks fs size))%nat ->
  write_ptrs fs ino size !! j = Some (i_block ino (Z.of_nat j)).
Proof.
  intros Hj. unfold write_ptrs. rewrite list_lookup_fmap.
  rewrite lookup_seq_lt by exact Hj. reflexivity.
Qed.

Lemma length_write_ptrs fs ino size :
  length (write_ptrs fs ino size) = Z.to_nat (write_nblocks fs size).
Proof. unfold write_ptrs. rewrite length_map, length_seq. reflexivity. Qed.

Lemma in_bitmap_addrs fs g :
  0 <= g < num_block_groups fs ->
  In (blk_addr fs (bg_block_bitmap (block_groups fs) g)) (bitmap_addrs fs).
Proof.
  intros Hg. unfold bitmap_addrs.
  apply (in_map (fun g => blk_addr fs (bg_block_bitmap (block_groups fs) g))).
  apply in_bit_range, Hg.
Qed.

Lemma bitmap_addrs_distinct fs :
  distinct (bitmap_addrs fs) = true ->
  forall g g', 0 <= g < num_block_groups fs -> 0 <= g' < num_block_groups fs ->
    g <> g' ->
    blk_addr fs (bg_block_bitmap (block_groups fs) g)
    <> blk_addr fs (bg_block_bitmap (block_groups fs) g').
Proof.
  intros Hd g g' Hg Hg' Hne.
  apply (distinct_spec _ Hd (Z.to_nat g) (Z.to_nat g')); [| |lia].
  - unfold bitmap_addrs, bit_range. rewrite !list_lookup_fmap.
    rewrite lookup_seq_lt by lia. simpl. rewrite Z2Nat.id by lia. reflexivity.
  - unfold bitmap_addrs, bit_range. rewrite !list_lookup_fmap.
    rewrite lookup_seq_lt by lia. simpl. rewrite Z2Nat.id by lia. reflexivity.
Qed.

(** The allocation as a frame: only a bitmap block changes. *)
Lemma alloc_update_frame fs0 fs g i :
  fs_geom fs = true -> same_layout fs0 fs ->
  0 <= g < num_block_groups fs0 ->
  blk_ok fs (bg_block_bitmap (block_groups fs) g) = true ->
  frame (bitmap_addrs fs0) fs (alloc_update fs (g, i)).
Proof.
  intros G L Hg Hok. unfold alloc_update. cbn [fst snd].
  pose proof L as (E1 & E2 & E3 & E4 & E5 & E6 & E7).
  apply (frame_trans _ _
           (disk_put fs (bg_block_bitmap (block_groups fs) g)
              (bitmap_set (blk_data fs (bg_block_bitmap (block_groups fs) g)) i))).
  - apply frame_disk_put; [exact G| |].
    + destruct (E7 g ltac:(lia)) as (-> & _).
      rewrite (same_layout_blk_addr fs0 fs _ L). apply in_bitmap_addrs, Hg.
    + rewrite length_bitmap_set. apply length_blk_data; assumption.
  - apply frame_dec_free_blocks; [apply disk_put_geom, G|lia].
Qed.

Lemma same_layout_block_of_bit fs fs' gi :
  same_layout fs fs' -> block_of_bit fs' gi = block_of_bit fs gi.
Proof.
  intros (E1 & E2 & E3 & E4 & E5 & E6 & E7). unfold block_of_bit.
  rewrite E2, E6. reflexivity.
Qed.

Lemma same_layout_bitmap_addrs fs fs' :
  same_layout fs fs' -> bitmap_addrs fs' = bitmap_addrs fs.
Proof.
  intros L. pose proof L as (E1 & E2 & E3 & E4 & E5 & E6 & E7).
  unfold bitmap_addrs. rewrite E4. apply map_ext_in. intros g Hg.
  apply in_bit_range in Hg. destruct (E7 g ltac:(lia)) as (-> & _).
  apply same_layout_blk_addr, L.
Qed.

Section WriteLoop.

Variables (fs : ext2_fs_t) (ino B P : list Z) (size : Z).
Hypothesis G : fs_geom fs = true.
Hypothesis Hsize : 0 < size < 2147483648.
Hypothesis Hsize12 : size <= 12 * block_size fs.
Hypothesis HB : Z.of_nat (length B) = size.
Hypothesis Hplan : write_plan fs ino size = Some P.
Hypothesis HP : forall k p, P !! k = Some p ->
  p <> 0 /\ blk_ok fs p = true /\ ~ In (blk_addr fs p) (bitmap_addrs fs).
Hypothesis HPd : forall k k' p p', P !! k = Some p -> P !! k' = Some p' ->
  k <> k' -> blk_addr fs p <> blk_addr fs p'.
Hypothesis Hbm : distinct (bitmap_addrs fs) = true.
Hypothesis Hbpg : blocks_per_group fs <= 8 * block_size fs.

(** The allocation step of one turn of the loop. *)
Lemma write_acquire (j : Z) fs_j ino_j a rp pj rP :
  fs_geom fs_j = true -> same_layout fs fs_j -> length ino_j = 128%nat ->
  0 <= j < 12 -> i_block ino_j j = i_block ino j ->
  free_bits fs_j = drop a (free_bits fs) ->
  plan (i_block ino j :: rp) (drop a (map (block_of_bit fs) (free_bits fs)))
    = Some (pj :: rP) ->
  pj <> 0 ->
  exists ino1 fs1 a1,
    (if (j <? 12) && (i_block ino_j j =? 0)
     then let '(new_block, fs1) := ext2_alloc_block fs_j in
          if new_block =? 0 then (true, ino_j, fs1)
          else (false, set_i_block ino_j j new_block, fs1)
     else (false, ino_j, fs_j)) = (false, ino1, fs1)
    /\ frame (bitmap_addrs fs) fs_j fs1
    /\ free_bits fs1 = drop a1 (free_bits fs)
    /\ plan rp (drop a1 (map (block_of_bit fs) (free_bits fs))) = Some rP
    /\ length ino1 = 128%nat /\ i_size ino1 = i_size ino_j
    /\ i_block ino1 j = pj
    /\ forall k, 0 <= k -> k <> j -> i_block ino1 k = i_block ino_j k.
Proof.
  intros Gj Lj Hlen Hj Hptr Hfree Hpl Hpj.
  destruct (Z.ltb_spec j 12); [|lia]. rewrite Hptr. simpl andb.
  destruct (plan_step _ _ _ _ _ Hpl) as [(Hz & free' & Hfc & Hpl')|(Hnz & -> & Hpl')].
  - rewrite Hz, Z.eqb_refl.
    rewrite List.skipn_map, <- Hfree in Hfc.
    destruct (free_bits fs_j) as [|gi rest] eqn:Hfj; [discriminate|].
    simpl in Hfc. injection Hfc as Hgi Hrest.
    rewrite (ext2_alloc_block_first fs_j Gj), Hfj.
    rewrite (same_layout_block_of_bit fs fs_j gi Lj), Hgi.
    destruct (Z.eqb_spec pj 0); [contradiction|].
    assert (Hin : In gi (free_bits fs_j)) by (rewrite Hfj; left; reflexivity).
    unfold free_bits in Hin. apply filter_In in Hin. destruct Hin as [Hin Hbit].
    destruct gi as [g i]. apply in_all_bits in Hin. destruct Hin as [Hg Hi].
    unfold bit_free in Hbit. cbn [fst snd] in Hbit.
    apply andb_prop in Hbit. destruct Hbit as [Hok _].
    pose proof Lj as (E1 & E2 & E3 & E4 & E5 & E6 & E7).
    exists (set_i_block ino_j j pj), (alloc_update fs_j (g, i)), (S a).
    split; [reflexivity|]. split.
    { apply alloc_update_frame; [exact Gj|exact Lj|lia|exact Hok]. }
    assert (Hdrop : drop (S a) (free_bits fs) = rest).
    { replace (S a) with (a + 1)%nat by lia. rewrite <- drop_drop, <- Hfree. reflexivity. }
    split.
    { rewrite Hdrop. apply (free_bits_alloc fs_j (g, i) rest Gj).
      - rewrite E1, E2. exact Hbpg.
      - intros g1 g2 Hg1 Hg2 Hne.
        destruct (E7 g1 ltac:(lia)) as (-> & _). destruct (E7 g2 ltac:(lia)) as (-> & _).
        rewrite !(same_layout_blk_addr fs fs_j _ Lj).
        apply (bitmap_addrs_distinct fs Hbm); lia.
      - exact Hfj. }
    split.
    { rewrite List.skipn_map, Hdrop, Hrest. exact Hpl'. }
    split; [rewrite length_set_i_block; exact Hlen|].
    split; [apply i_size_set_i_block; lia|].
    split.
    { rewrite i_block_set_i_block_same by (try assumption; lia).
      rewrite <- Hgi. unfold block_of_bit, u32. apply Z.mod_mod. lia. }
    intros k Hk Hne. apply i_block_set_i_block_other; lia.
  - destruct (Z.eqb_spec (i_block ino j) 0); [contradiction|].
    exists ino_j, fs_j, a.
    split; [reflexivity|]. split; [apply frame_refl, Gj|].
    split; [exact Hfree|]. split; [exact Hpl'|].
    split; [exact Hlen|]. split; [reflexivity|]. split; [exact Hptr|].
    intros. reflexivity.
Qed.

(** One turn of the loop: block [j] is acquired and filled. *)
Lemma write_loop_step j fs_j ino_j fuel :
  write_inv fs ino B P size j fs_j ino_j ->
  Z.of_nat j * block_size fs < size ->
  exists fs' ino',
    write_loop (S fuel) fs_j 0 B size (Z.of_nat j * block_size fs) ino_j
    = write_loop fuel fs' 0 B size (Z.min size (Z.of_nat (S j) * block_size fs)) ino'
    /\ write_inv fs ino B P size (S j) fs' ino'.
Proof.
  intros (Gj & Lj & Hlen & Hsz & Hdone & Hrest & (a & Hfree & Hpl) & Hdata) Hlt.
  destruct (geom_facts fs G) as (Hbs & _).
  pose proof (write_nblocks_spec fs size G ltac:(lia)) as (Hnb0 & Hnb1 & Hnb2).
  assert (Hj12 : Z.of_nat j < 12).
  { apply Z.mul_lt_mono_pos_r with (p := block_size fs); lia. }
  assert (Hjnb : (j < Z.to_nat (write_nblocks fs size))%nat).
  { assert (Z.of_nat j < write_nblocks fs size); [|lia].
    apply Z.mul_lt_mono_pos_r with (p := block_size fs); lia. }
  pose proof (plan_length _ _ _ Hplan) as HlenP. rewrite length_write_ptrs in HlenP.
  destruct (lookup_lt_is_Some_2 P j ltac:(lia)) as [pj HPj].
  rewrite (drop_S _ _ _ (write_ptrs_lookup fs ino size j Hjnb)) in Hpl.
  rewrite (drop_S _ _ _ HPj) in Hpl.
  destruct (HP _ _ HPj) as (Hpj0 & Hpjok & Hpjbm).
  destruct (write_acquire (Z.of_nat j) fs_j ino_j a _ pj _ Gj Lj Hlen ltac:(lia)
              (Hrest (Z.of_nat j) ltac:(lia)) Hfree Hpl Hpj0)
    as (ino1 & fs1 & a1 & Hacq & F1 & Hfree1 & Hpl1 & Hlen1 & Hsz1 & Hptr1 & Hother1).
  pose proof F1 as (G1 & L1 & D1).
  assert (L01 : same_layout fs fs1) by (eapply same_layout_trans; eassumption).
  pose proof Lj as (Ej & _). pose proof L01 as (E1 & _).
  set (w := Z.of_nat j * block_size fs) in *.
  set (tw := if size - w <? block_size fs - 0 then size - w else block_size fs - 0).
  set (blk := memcpy_local (blk_data fs1 pj) 0 B w tw).
  assert (Htw : 0 < tw <= block_size fs /\ w + tw = Z.min size (Z.of_nat (S j) * block_size fs)).
  { unfold tw. destruct (Z.ltb_spec (size - w) (block_size fs - 0)); lia. }
  assert (Hblk : Z.of_nat (length blk) = block_size fs).
  { unfold blk. rewrite length_memcpy_local.
    rewrite <- E1. apply length_blk_data; [exact G1|].
    rewrite (same_layout_blk_ok fs fs1 _ L01). exact Hpjok. }
  exists (disk_put fs1 pj blk), ino1. split.
  - cbn [write_loop]. fold w.
    destruct (Z.ltb_spec w size); [|lia].
    rewrite Ej.
    replace (u32 (0 + w)) with w by (rewrite u32_small; lia).
    assert (Hdiv : w / block_size fs = Z.of_nat j) by (unfold w; apply Z.div_mul; lia).
    assert (Hmod : w mod block_size fs = 0) by (unfold w; apply Z.mod_mul; lia).
    rewrite !Hdiv, !Hmod.
    rewrite Hacq. cbv iota beta.
    rewrite Hptr1. destruct (Z.leb_spec 12 (Z.of_nat j)); [lia|].
    destruct (Z.eqb_spec pj 0); [contradiction|]. simpl orb. cbv iota.
    rewrite (kmalloc_block fs1 G1).
    rewrite (read_blocks_spec fs1 G1) by (rewrite length_replicate; lia).
    rewrite (same_layout_blk_ok fs fs1 _ L01), Hpjok.
    fold tw. fold blk.
    rewrite (write_blocks_spec fs1 G1) by lia.
    rewrite (same_layout_blk_ok fs fs1 _ L01), Hpjok.
    destruct Htw as [_ ->]. reflexivity.
  - assert (Hdata1 : forall b, blk_addr fs b <> blk_addr fs pj ->
              blk_data (disk_put fs1 pj blk) b = blk_data fs1 b).
    { intros b Hb. apply blk_data_disk_put_other; [exact G1|lia|].
      rewrite !(same_layout_blk_addr fs fs1 _ L01). exact Hb. }
    split; [apply disk_put_geom, G1|].
    split; [eapply same_layout_trans; [exact L01|apply same_layout_disk_put]|].
    split; [exact Hlen1|]. split; [congruence|].
    split.
    { intros k Hk. destruct (Nat.eq_dec k j) as [->|Hne].
      - rewrite Hptr1. exact HPj.
      - rewrite Hother1 by lia. apply Hdone. lia. }
    split.
    { intros k Hk. rewrite Hother1 by lia. apply Hrest. lia. }
    split.
    { exists a1. split; [|exact Hpl1]. rewrite <- Hfree1.
      apply free_bits_frame; [apply same_layout_disk_put|].
      intros g Hg Hok. apply Hdata1.
      intros E. apply Hpjbm. rewrite <- E.
      pose proof L01 as (_ & _ & _ & E4 & _ & _ & E7).
      destruct (E7 g ltac:(lia)) as (-> & _).
      apply in_bitmap_addrs. lia. }
    intros i Hi.
    assert (Hq : 0 <= i / block_size fs) by (apply Z.div_pos; lia).
    pose proof (Z.mod_pos_bound i (block_size fs) ltac:(lia)) as Hm.
    pose proof (Z.div_mod i (block_size fs) ltac:(lia)) as Hdm.
    destruct (Z.lt_ge_cases i w) as [Hlow|Hhigh].
    + assert (Hk : i / block_size fs < Z.of_nat j)
        by (apply Z.div_lt_upper_bound; unfold w in Hlow; lia).
      rewrite Hother1 by lia.
      specialize (Hdone (Z.to_nat (i / block_size fs)) ltac:(lia)).
      rewrite Z2Nat.id in Hdone by lia.
      rewrite Hdata1.
      * rewrite D1; [apply Hdata; lia|].
        rewrite (same_layout_blk_addr fs fs_j _ Lj).
        exact (proj2 (proj2 (HP _ _ Hdone))).
      * apply (HPd _ _ _ _ Hdone HPj). lia.
    + assert (Hk : i / block_size fs = Z.of_nat j).
      { symmetry. apply Z.div_unique with (r := i - w); unfold w in *; lia. }
      assert (Hr : i mod block_size fs = i - w).
      { symmetry. apply Z.mod_unique with (q := Z.of_nat j); unfold w in *; lia. }
      rewrite Hk, Hptr1, Hr.
      rewrite blk_data_disk_put_same;
        [|exact G1|rewrite (same_layout_blk_ok fs fs1 _ L01); exact Hpjok|lia].
      unfold blk, memcpy_local.
      assert (Hlt_tw : i - w < tw) by lia.
      rewrite list_lookup_inserts.
      * rewrite lookup_take_lt by lia. rewrite lookup_drop. f_equal. lia.
      * rewrite length_take, length_drop. lia.
      * assert (Z.of_nat (length (blk_data fs1 pj)) = block_size fs1).
        { apply length_blk_data; [exact G1|].
          rewrite (same_layout_blk_ok fs fs1 _ L01). exact Hpjok. }
        lia.
Qed.

Lemma write_inv_start :
  length ino = 128%nat -> write_inv fs ino B P size 0 fs ino.
Proof.
  intros Hlen. destruct (geom_facts fs G) as (Hbs & _).
  split; [exact G|]. split; [apply same_layout_refl|].
  split; [exact Hlen|]. split; [reflexivity|].
  split; [intros k Hk; lia|]. split; [reflexivity|].
  split; [exists 0%nat; split; [reflexivity|exact Hplan]|].
  intros i Hi. lia.
Qed.

(** The whole loop: all of [B] is written. *)
Lemma write_loop_run : forall m j fs_j ino_j fuel,
  write_inv fs ino B P size j fs_j ino_j ->
  (j + m = Z.to_nat (write_nblocks fs size))%nat -> (m <= fuel)%nat ->
  exists fs' ino',
    write_loop fuel fs_j 0 B size (Z.min size (Z.of_nat j * block_size fs)) ino_j
    = (size, ino', fs')
    /\ write_inv fs ino B P size (Z.to_nat (write_nblocks fs size)) fs' ino'.
Proof.
  destruct (geom_facts fs G) as (Hbs & _).
  pose proof (write_nblocks_spec fs size G ltac:(lia)) as (Hnb0 & Hnb1 & Hnb2).
  induction m as [|m IH]; intros j fs_j ino_j fuel Hinv Hjm Hfuel.
  - assert (Hj : Z.of_nat j = write_nblocks fs size) by lia.
    rewrite Hj, Z.min_l by lia.
    exists fs_j, ino_j. split.
    + destruct fuel; simpl; [reflexivity|].
      destruct (Z.ltb_spec size size); [lia|reflexivity].
    + replace (Z.to_nat (write_nblocks fs size)) with j by lia. exact Hinv.
  - destruct fuel as [|fuel]; [lia|].
    assert (Hlt : Z.of_nat j * block_size fs < size) by nia.
    rewrite Z.min_r by lia.
    destruct (write_loop_step j fs_j ino_j fuel Hinv Hlt) as (fs1 & ino1 & -> & Hinv1).
    apply (IH (S j) fs1 ino1 fuel Hinv1); lia.
Qed.

End WriteLoop.

(** ** Write, seek and read back *)

Lemma i_block_set_i_size ino v k :
  0 <= k -> i_block (set_i_size ino v) k = i_block ino k.
Proof.
  intros Hk. unfold i_block, set_i_size, I_BLOCK_OFF. apply get_u32_set_u32_ne; lia.
Qed.

Lemma i_block_set_i_mtime ino v k :
  0 <= k -> i_block (set_i_mtime ino v) k = i_block ino k.
Proof.
  intros Hk. unfold i_block, set_i_mtime, I_BLOCK_OFF. apply get_u32_set_u32_ne; lia.
Qed.

Lemma i_size_set_i_mtime ino v : i_size (set_i_mtime ino v) = i_size ino.
Proof. unfold i_size, set_i_mtime. apply get_u32_set_u32_ne; lia. Qed.

Lemma i_size_set_i_size ino v :
  length ino = 128%nat -> i_size (set_i_size ino v) = u32 v.
Proof. intros H. unfold i_size, set_i_size. apply get_u32_set_u32; lia. Qed.

Lemma write_wf_facts fs n ino size :
  write_wf fs n ino size = true ->
  exists P,
    write_plan fs ino size = Some P
    /\ (forall k p, P !! k = Some p ->
          p <> 0 /\ blk_ok fs p = true /\ ~ In (blk_addr fs p) (bitmap_addrs fs))
    /\ (forall k k' p p', P !! k = Some p -> P !! k' = Some p' ->
          k <> k' -> blk_addr fs p <> blk_addr fs p')
    /\ (forall k p, P !! k = Some p ->
          blk_addr fs p <> blk_addr fs (inode_block fs n))
    /\ distinct (bitmap_addrs fs) = true
    /\ blocks_per_group fs <= 8 * block_size fs
    /\ 0 < inodes_per_group fs.
Proof.
  unfold write_wf. destruct (write_plan fs ino size) as [P|]; [|discriminate].
  intros H. exists P. split; [reflexivity|].
  apply andb_prop in H. destruct H as [H Hipg].
  apply andb_prop in H. destruct H as [H Hbpg].
  apply andb_prop in H. destruct H as [H Hbm].
  apply andb_prop in H. destruct H as [H Hdisj].
  apply andb_prop in H. destruct H as [Hall Hdist].
  rewrite forallb_forall in Hall.
  apply Z.ltb_lt in Hipg. apply Z.leb_le in Hbpg.
  assert (HinP : forall k p, P !! k = Some p -> In p P).
  { intros k p Hk. apply list_elem_of_In. apply list_elem_of_lookup. exists k. exact Hk. }
  split; [|split; [|split; [|split; [|split]]]]; try assumption.
  - intros k p Hk. specialize (Hall p (HinP k p Hk)).
    apply andb_prop in Hall. destruct Hall as [Hnz Hok].
    apply negb_true_iff, Z.eqb_neq in Hnz.
    split; [exact Hnz|]. split; [exact Hok|].
    intros Hin. revert Hin.
    pose proof (disjoint_spec _ _ (blk_addr fs p) Hdisj
                  (in_map (blk_addr fs) P p (HinP k p Hk))) as Hout.
    intros Hin. apply Hout. right. exact Hin.
  - intros k k' p p' Hk Hk' Hne.
    apply (distinct_spec _ Hdist k k'); [| |exact Hne].
    + rewrite list_lookup_fmap, Hk. reflexivity.
    + rewrite list_lookup_fmap, Hk'. reflexivity.
  - intros k p Hk E.
    pose proof (disjoint_spec _ _ (blk_addr fs p) Hdisj
                  (in_map (blk_addr fs) P p (HinP k p Hk))) as Hout.
    apply Hout. left. symmetry. exact E.
Qed.

(** [vfs_write] of a non-empty [B] at position 0. *)
Lemma vfs_write_spec fs file B ticks ino :
  fs_geom fs = true ->
  f_is_open file <> 0 -> f_position file = 0 ->
  ext2_read_inode fs (f_inode file) = Some ino ->
  0 < Z.of_nat (length B) < 2147483648 ->
  Z.of_nat (length B) <= 12 * block_size fs ->
  write_wf fs (f_inode file) ino (Z.of_nat (length B)) = true ->
  exists fs2 ino2,
    vfs_write (Some fs) file B (Z.of_nat (length B)) ticks
    = (Z.of_nat (length B), Some fs2,
       mk_file (f_inode file) (Z.max (i_size ino) (Z.of_nat (length B)))
               (f_type file) (Z.of_nat (length B)) (f_is_open file))
    /\ fs_geom fs2 = true /\ block_size fs2 = block_size fs
    /\ ext2_read_inode fs2 (f_inode file) = Some ino2
    /\ i_size ino2 = Z.max (i_size ino) (Z.of_nat (length B))
    /\ (forall j, 0 <= j -> j * block_size fs < Z.of_nat (length B) ->
          i_block ino2 j <> 0 /\ blk_ok fs2 (i_block ino2 j) = true)
    /\ (forall i, 0 <= i < Z.of_nat (length B) ->
          blk_data fs2 (i_block ino2 (i / block_size fs)) !! Z.to_nat (i mod block_size fs)
          = B !! Z.to_nat i).
Proof.
  intros G Hopen Hpos Hino Hsize Hsize12 Hwf.
  set (size := Z.of_nat (length B)) in *. set (n := f_inode file) in *.
  destruct (geom_facts fs G) as (Hbs & _).
  destruct (read_inode_ok fs n ino G Hino) as [Hok Hlen].
  destruct (write_wf_facts fs n ino size Hwf)
    as (P & Hplan & HP & HPd & HPT & Hbm & Hbpg & Hipg).
  pose proof (write_nblocks_spec fs size G ltac:(lia)) as (Hnb0 & Hnb1 & Hnb2).
  assert (Hstart : write_inv fs ino B P size 0 fs ino)
    by (apply write_inv_start; assumption).
  destruct (write_loop_run fs ino B P size G Hsize Hsize12 eq_refl Hplan HP HPd Hbm Hbpg
              (Z.to_nat (write_nblocks fs size)) 0 fs ino (Z.to_nat size)
              Hstart eq_refl ltac:(nia))
    as (fs' & ino' & Hrun & Hinv).
  change (Z.of_nat 0 * block_size fs) with 0 in Hrun. rewrite Z.min_r in Hrun by lia.
  destruct Hinv as (G' & L' & Hlen' & Hsz' & Hdone & _ & _ & Hdata).
  pose proof L' as (E1 & _).
  pose proof (plan_length _ _ _ Hplan) as HlenP. rewrite length_write_ptrs in HlenP.
  set (ino1 := if i_size ino' <? size then set_i_size ino' size else ino').
  set (ino2 := set_i_mtime ino1 (ticks / 100)).
  assert (Hlen1 : length ino1 = 128%nat).
  { unfold ino1. destruct (i_size ino' <? size); [unfold set_i_size; rewrite length_set_u32|];
      exact Hlen'. }
  assert (Hsz1 : i_size ino1 = Z.max (i_size ino) size).
  { unfold ino1. destruct (Z.ltb_spec (i_size ino') size).
    - rewrite i_size_set_i_size by exact Hlen'. rewrite u32_small by lia. lia.
    - lia. }
  assert (Hblk1 : forall k, 0 <= k -> i_block ino2 k = i_block ino' k).
  { intros k Hk. unfold ino2. rewrite i_block_set_i_mtime by lia.
    unfold ino1. destruct (i_size ino' <? size); [apply i_block_set_i_size; lia|reflexivity]. }
  assert (Hlen2 : length ino2 = 128%nat).
  { unfold ino2, set_i_mtime. rewrite length_set_u32. exact Hlen1. }
  destruct (same_layout_inode fs fs' n L' Hipg) as (_ & Eb & Es & Eok & _).
  pose proof (write_inode_spec fs' n ino2 G' Hlen2) as Hw. rewrite Eok, Hok in Hw.
  set (fs2 := disk_put fs' (inode_block fs' n)
                (list_inserts (Z.to_nat (inode_slot fs' n)) ino2
                   (blk_data fs' (inode_block fs' n)))) in *.
  destruct (read_inode_after_write fs' n ino2 fs2 G' Hlen2 ltac:(congruence) Hw)
    as [G2 Hread2].
  assert (HPk : forall k, 0 <= k -> k * block_size fs < size ->
            P !! Z.to_nat k = Some (i_block ino' k)).
  { intros k Hk Hlt. rewrite <- (Z2Nat.id k) at 2 by lia. apply Hdone.
    assert (k < write_nblocks fs size); [|lia].
    apply Z.mul_lt_mono_pos_r with (p := block_size fs); lia. }
  assert (Hdata2 : forall k, 0 <= k -> k * block_size fs < size ->
            blk_data fs2 (i_block ino' k) = blk_data fs' (i_block ino' k)).
  { intros k Hk Hlt. unfold fs2. apply blk_data_disk_put_other; [exact G'| |].
    - rewrite length_inserts. apply length_blk_data; [exact G'|].
      assert (Hok' : inode_ok fs' n = true) by congruence.
      unfold inode_ok in Hok'.
      apply andb_prop in Hok'. destruct Hok' as [_ Hok']. exact Hok'.
    - rewrite !(same_layout_blk_addr fs fs' _ L'), Eb.
      apply (HPT _ _ (HPk k Hk Hlt)). }
  exists fs2, ino2.
  split.
  { unfold vfs_write. fold n. destruct (Z.eqb_spec (f_is_open file) 0); [contradiction|].
    rewrite Hino, Hpos, Hrun. cbv iota beta zeta.
    replace (u32 (0 + size)) with size by (rewrite u32_small; lia).
    fold ino1. fold ino2. rewrite Hw. rewrite Hsz1.
    rewrite to_int_small by lia. reflexivity. }
  split; [exact G2|]. split; [unfold fs2; rewrite <- E1; reflexivity|].
  split; [exact Hread2|].
  split; [unfold ino2; rewrite i_size_set_i_mtime; exact Hsz1|].
  split.
  { intros j Hj Hlt. rewrite Hblk1 by lia.
    destruct (HP _ _ (HPk j Hj Hlt)) as (Hnz & Hpok & _).
    split; [exact Hnz|]. unfold fs2. rewrite blk_ok_disk_put.
    rewrite (same_layout_blk_ok fs fs' _ L'). exact Hpok. }
  intros i Hi.
  assert (Hq : 0 <= i / block_size fs) by (apply Z.div_pos; lia).
  assert (Hql : i / block_size fs * block_size fs < size).
  { pose proof (Z.div_mod i (block_size fs) ltac:(lia)).
    pose proof (Z.mod_pos_bound i (block_size fs) ltac:(lia)). lia. }
  rewrite Hblk1 by lia. rewrite (Hdata2 _ Hq Hql).
  apply Hdata. lia.
Qed.

(** What [vfs_stat] reports as size is the [i_size] stored in the inode
    the path resolves to. *)
Lemma stat_size_of_inode fs path n ino :
  ext2_path_to_inode fs path = n -> ext2_read_inode fs n = Some ino ->
  option_map d_size (vfs_stat (Some fs) path) = Some (i_size ino).
Proof.
  intros Hp Hr. unfold vfs_stat. rewrite Hp.
  destruct (Z.eqb_spec n 0) as [E|_].
  - subst n. rewrite E in Hr. discriminate Hr.
  - rewrite Hr. reflexivity.
Qed.

(** The empty write. *)
Lemma vfs_write_read_empty fs file buf ticks ticks' ino :
  fs_geom fs = true ->
  f_is_open file <> 0 -> f_position file = 0 ->
  ext2_read_inode fs (f_inode file) = Some ino ->
  let '(w, g1, file1) := vfs_write (Some fs) file [] 0 ticks in
  let '(s, file2) := vfs_seek file1 0 in
  let '(r, out, _, _) := vfs_read g1 file2 buf 0 ticks' in
  w = 0 /\ s = 0 /\ r = 0 /\ take 0 out = []
  /\ f_size file1 = Z.max (i_size ino) 0
  /\ exists fs1 ino1,
       g1 = Some fs1 /\ ext2_read_inode fs1 (f_inode file) = Some ino1
       /\ i_size ino1 = Z.max (i_size ino) 0
       /\ forall path, ext2_path_to_inode fs1 path = f_inode file ->
            option_map d_size (vfs_stat (Some fs1) path)
            = Some (Z.max (i_size ino) 0).
Proof.
  intros G Hopen Hpos Hino. set (n := f_inode file) in *.
  destruct (read_inode_ok fs n ino G Hino) as [Hok Hlen].
  set (ino1 := if i_size ino <? 0 then set_i_size ino 0 else ino).
  set (ino2 := set_i_mtime ino1 (ticks / 100)).
  assert (Hlen1 : length ino1 = 128%nat).
  { unfold ino1. destruct (i_size ino <? 0); [unfold set_i_size; rewrite length_set_u32|];
      exact Hlen. }
  assert (Hsz1 : i_size ino1 = Z.max (i_size ino) 0).
  { unfold ino1. destruct (Z.ltb_spec (i_size ino) 0).
    - rewrite i_size_set_i_size by exact Hlen. change (u32 0) with 0. lia.
    - lia. }
  assert (Hlen2 : length ino2 = 128%nat).
  { unfold ino2, set_i_mtime. rewrite length_set_u32. exact Hlen1. }
  pose proof (write_inode_spec fs n ino2 G Hlen2) as Hw. rewrite Hok in Hw.
  set (fs2 := disk_put fs (inode_block fs n)
                (list_inserts (Z.to_nat (inode_slot fs n)) ino2
                   (blk_data fs (inode_block fs n)))) in *.
  destruct (read_inode_after_write fs n ino2 fs2 G Hlen2 Hok Hw) as [G2 Hread2].
  unfold vfs_write. fold n. destruct (Z.eqb_spec (f_is_open file) 0); [contradiction|].
  rewrite Hino, Hpos.
  change (write_loop (Z.to_nat 0) fs 0 [] 0 0 ino) with (0, ino, fs).
  cbv iota beta zeta.
  change (u32 (0 + 0)) with 0. fold ino1. fold ino2. rewrite Hw.
  unfold vfs_seek. cbn [f_is_open f_size].
  destruct (Z.eqb_spec (f_is_open file) 0); [contradiction|].
  rewrite Hsz1. destruct (Z.ltb_spec (Z.max (i_size ino) 0) 0); [lia|].
  unfold vfs_read. cbn [f_is_open f_inode f_position].
  destruct (Z.eqb_spec (f_is_open file) 0); [contradiction|].
  fold n. rewrite Hread2.
  assert (Hsz2 : i_size ino2 = Z.max (i_size ino) 0)
    by (unfold ino2; rewrite i_size_set_i_mtime; exact Hsz1).
  assert (Hrf : ext2_read_file fs2 ino2 0 0 buf = (0, buf)).
  { unfold ext2_read_file. destruct (i_size ino2 <=? 0); [reflexivity|].
    change (u32 (0 + 0)) with 0.
    destruct (Z.ltb_spec (i_size ino2) 0); [lia|]. reflexivity. }
  rewrite Hrf. cbn [Z.ltb Z.compare].
  repeat split; try reflexivity.
  exists fs2, ino2. split; [reflexivity|]. split; [exact Hread2|].
  split; [exact Hsz2|]. intros path Hp. rewrite <- Hsz2.
  apply (stat_size_of_inode fs2 path n ino2 Hp Hread2).
Qed.

(** C1 (as amended).  A byte string [B] of at most 12 blocks is written
    at position 0 through an open handle, on a file system with enough
    free blocks whose blocks to fill are laid out apart; the handle is
    rewound and [|B|] bytes are read.  The write returns [|B|], the read
    returns [|B|] and the bytes of [B], and the size of the file after
    the write is the larger of the previous size and [|B|]: in the
    handle, in the inode that the write stored on the device, and in
    what [vfs_stat] reports for every path that resolves to the file. *)
Theorem vfs_write_read_back fs file B buf ticks ticks' ino :
  fs_geom fs = true ->
  f_is_open file <> 0 -> f_position file = 0 ->
  ext2_read_inode fs (f_inode file) = Some ino ->
  Z.of_nat (length B) <= 12 * block_size fs ->
  Z.of_nat (length B) < 2147483648 ->
  write_wf fs (f_inode file) ino (Z.of_nat (length B)) = true ->
  (length B <= length buf)%nat ->
  let '(w, g1, file1) := vfs_write (Some fs) file B (Z.of_nat (length B)) ticks in
  let '(s, file2) := vfs_seek file1 0 in
  let '(r, out, _, _) := vfs_read g1 file2 buf (Z.of_nat (length B)) ticks' in
  w = Z.of_nat (length B) /\ s = 0 /\ r = Z.of_nat (length B)
  /\ take (length B) out = B
  /\ f_size file1 = Z.max (i_size ino) (Z.of_nat (length B))
  /\ exists fs1 ino1,
       g1 = Some fs1 /\ ext2_read_inode fs1 (f_inode file) = Some ino1
       /\ i_size ino1 = Z.max (i_size ino) (Z.of_nat (length B))
       /\ forall path, ext2_path_to_inode fs1 path = f_inode file ->
            option_map d_size (vfs_stat (Some fs1) path)
            = Some (Z.max (i_size ino) (Z.of_nat (length B))).
Proof.
  intros G Hopen Hpos Hino Hsize12 Hsmall Hwf Hbuf.
  destruct B as [|b0 B0].
  { apply (vfs_write_read_empty fs file buf ticks ticks' ino); assumption. }
  set (B := b0 :: B0) in *. set (size := Z.of_nat (length B)) in *.
  assert (Hsize : 0 < size < 2147483648)
    by (split; [unfold size, B; simpl length; lia|exact Hsmall]).
  destruct (vfs_write_spec fs file B ticks ino G Hopen Hpos Hino Hsize Hsize12 Hwf)
    as (fs2 & ino2 & Hwrite & G2 & Ebs & Hread2 & Hsz2 & Hblocks & Hdata).
  fold size in Hwrite, Hsz2, Hblocks, Hdata. rewrite Hwrite.
  unfold vfs_seek. cbn [f_is_open f_size].
  destruct (Z.eqb_spec (f_is_open file) 0); [contradiction|].
  destruct (Z.ltb_spec (Z.max (i_size ino) size) 0); [lia|].
  unfold vfs_read. cbn [f_is_open f_inode f_position].
  destruct (Z.eqb_spec (f_is_open file) 0); [contradiction|].
  rewrite Hread2.
  rewrite <- Ebs in Hsize12, Hblocks, Hdata.
  destruct (read_file_spec fs2 ino2 size G2 ltac:(lia) Hsize12 Hblocks buf
              ltac:(lia) ltac:(unfold size; lia) ltac:(lia))
    as (out & Hrf & Hlen_out & Hout & _).
  rewrite Hrf. destruct (Z.ltb_spec 0 size); [|lia].
  destruct (ext2_write_inode fs2 (f_inode file) (set_i_atime ino2 (ticks' / 100)))
    as [r3 fs3].
  split; [reflexivity|]. split; [reflexivity|]. split; [reflexivity|].
  split; [|split; [reflexivity|]].
  - apply list_eq. intros i.
    destruct (Nat.lt_ge_cases i (length B)) as [Hi|Hi].
    + rewrite lookup_take_lt by exact Hi.
      rewrite Hout by (unfold size; lia).
      rewrite Hdata by (unfold size; lia). rewrite Nat2Z.id. reflexivity.
    + rewrite lookup_take_ge by exact Hi. symmetry. apply lookup_ge_None_2. exact Hi.
  - exists fs2, ino2. split; [reflexivity|]. split; [exact Hread2|].
    split; [exact Hsz2|]. intros path Hp. rewrite <- Hsz2.
    apply (stat_size_of_inode fs2 path (f_inode file) ino2 Hp Hread2).
Qed.

(** The round trip on the image: 2500 bytes written to [/f], whose third
    block is allocated by the write. *)
Lemma vfs_write_read_back_witness :
  let '(w, g1, file1) :=
    vfs_write (Some img_fs) img_file img_data (Z.of_nat (length img_data)) 1000 in
  let '(s, file2) := vfs_seek file1 0 in
  let '(r, out, _, _) := vfs_read g1 file2 img_buf (Z.of_nat (length img_data)) 2000 in
  w = Z.of_nat (length img_data) /\ s = 0 /\ r = Z.of_nat (length img_data)
  /\ take (length img_data) out = img_data
  /\ f_size file1 = Z.max (i_size img_f_inode) (Z.of_nat (length img_data))
  /\ exists fs1 ino1,
       g1 = Some fs1 /\ ext2_read_inode fs1 (f_inode img_file) = Some ino1
       /\ i_size ino1 = Z.max (i_size img_f_inode) (Z.of_nat (length img_data))
       /\ forall path, ext2_path_to_inode fs1 path = f_inode img_file ->
            option_map d_size (vfs_stat (Some fs1) path)
            = Some (Z.max (i_size img_f_inode) (Z.of_nat (length img_data))).
Proof.
  apply (vfs_write_read_back img_fs img_file img_data img_buf 1000 2000 img_f_inode).
  - vm_compute. reflexivity.
  - vm_compute. discriminate.
  - vm_compute. reflexivity.
  - vm_compute. reflexivity.
  - vm_compute. discriminate.
  - vm_compute. reflexivity.
  - vm_compute. reflexivity.
  - vm_compute. lia.
Defined.

(** C1 (as stated) fails for the size.  [/f] holds 2000 bytes; writing
    the three bytes 1, 2, 3 at position 0 returns 3 and reading them back
    returns the same bytes, but the size that the handle and the inode
    report stays 2000: [vfs_write] raises the size when the new position
    lies beyond it and never lowers it. *)
Lemma vfs_write_keeps_larger_size :
  let '(w, g1, file1) := vfs_write (Some img_fs) img_file [1; 2; 3] 3 1000 in
  let '(s, file2) := vfs_seek file1 0 in
  let '(r, out, _, _) := vfs_read g1 file2 [0; 0; 0] 3 2000 in
  w = 3 /\ s = 0 /\ r = 3 /\ out = [1; 2; 3]
  /\ f_size file1 = 2000 /\ f_size file1 <> 3
  /\ option_map i_size (ext2_read_inode (default img_fs g1) 11) = Some 2000.
Proof. vm_compute. repeat split; try reflexivity. discriminate. Qed.

(** * Further properties of the code *)

(** ** The block device layer *)

(** X1.  A request that leaves the device is refused by [blockdev_read] and
    [blockdev_write] without touching the caller's buffer or the device,
    as long as [block + count] fits 32 bits. *)
Theorem blockdev_out_of_range dev block count (buf : list Z) :
  0 <= block -> 0 <= count -> block + count < 4294967296 ->
  blockdev_get_block_count dev <= block
  \/ blockdev_get_block_count dev < block + count ->
  blockdev_write dev block count buf = (-1, dev)
  /\ blockdev_read dev block count buf = (-1, buf).
Proof.
  intros Hb Hc Hsum Hout. destruct dev as [rd bc bsz].
  unfold blockdev_write, blockdev_read, blockdev_get_block_count,
    ramdisk_get_block_count, ramdisk_write, ramdisk_read in *.
  cbn [device_data dev_block_count dev_block_size] in *.
  destruct (Z.leb_spec (rd_block_count rd) block); [split; reflexivity|].
  rewrite u32_small by lia.
  destruct (Z.ltb_spec (rd_block_count rd) (block + count)); [split; reflexivity|lia].
Qed.

Lemma blockdev_out_of_range_witness :
  blockdev_write img_dev 31 2 [] = (-1, img_dev)
  /\ blockdev_read img_dev 31 2 [] = (-1, []).
Proof.
  apply (blockdev_out_of_range img_dev 31 2 []).
  - lia.
  - lia.
  - lia.
  - right. vm_compute. reflexivity.
Defined.

(** X2.  What an accepted write stores is what a read of the same range
    returns, and reads of ranges that do not meet it return what they
    returned before. *)
Theorem blockdev_write_read dev block count (buf out : list Z) :
  ramdisk_ok (device_data dev) = true ->
  0 <= block < blockdev_get_block_count dev -> 0 <= count ->
  block + count <= blockdev_get_block_count dev ->
  Z.of_nat (length buf) = count * 512 -> Z.of_nat (length out) = count * 512 ->
  exists dev',
    blockdev_write dev block count buf = (0, dev')
    /\ ramdisk_ok (device_data dev') = true
    /\ blockdev_get_block_count dev' = blockdev_get_block_count dev
    /\ blockdev_read dev' block count out = (0, buf)
    /\ forall b' c' out',
         0 <= b' -> 0 <= c' -> b' + c' <= block \/ block + count <= b' ->
         blockdev_read dev' b' c' out' = blockdev_read dev b' c' out'.
Proof.
  intros Hok Hb Hc Hin Hbuf Hout. destruct dev as [rd bc bsz].
  unfold blockdev_get_block_count, ramdisk_get_block_count in *.
  cbn [device_data] in *.
  unfold ramdisk_ok in Hok.
  apply andb_prop in Hok. destruct Hok as [Hok Hsz].
  apply andb_prop in Hok. destruct Hok as [Hlen Hsmall].
  apply Z.eqb_eq in Hlen, Hsz. apply Z.ltb_lt in Hsmall.
  unfold RAMDISK_BLOCK_SIZE in *.
  unfold blockdev_write, ramdisk_write. cbn [device_data dev_block_count dev_block_size].
  destruct (Z.leb_spec (rd_block_count rd) block); [lia|].
  rewrite (u32_small (block + count)) by lia.
  destruct (Z.ltb_spec (rd_block_count rd) (block + count)); [lia|].
  unfold RAMDISK_BLOCK_SIZE.
  rewrite (u32_small (block * 512)), (u32_small (count * 512)) by lia.
  rewrite (memcpy_local_write (rd_data rd) buf (block * 512) (count * 512)) by lia.
  eexists. split; [reflexivity|]. cbn [device_data].
  split.
  { unfold ramdisk_ok. cbn [rd_data rd_size rd_block_count].
    rewrite length_inserts. unfold RAMDISK_BLOCK_SIZE.
    rewrite Hlen, Hsz, Z.eqb_refl. simpl.
    destruct (Z.ltb_spec (rd_block_count rd * 512) 4294967296); [reflexivity|lia]. }
  split; [reflexivity|].
  split.
  { unfold blockdev_read, ramdisk_read. cbn [device_data rd_data rd_block_count].
    destruct (Z.leb_spec (rd_block_count rd) block); [lia|].
    rewrite (u32_small (block + count)) by lia.
    destruct (Z.ltb_spec (rd_block_count rd) (block + count)); [lia|].
    unfold RAMDISK_BLOCK_SIZE.
    rewrite (u32_small (block * 512)), (u32_small (count * 512)) by lia.
    rewrite memcpy_local_read; [| lia | lia | lia | rewrite length_inserts; lia].
    replace (Z.to_nat (count * 512)) with (length buf) by lia.
    rewrite slice_inserts_same by lia. reflexivity. }
  intros b' c' out' Hb' Hc' Hdisj.
  unfold blockdev_read, ramdisk_read. cbn [device_data rd_data rd_block_count].
  destruct (Z.leb_spec (rd_block_count rd) b'); [reflexivity|].
  destruct (rd_block_count rd <? u32 (b' + c')); [reflexivity|].
  unfold RAMDISK_BLOCK_SIZE, memcpy_local. f_equal. f_equal.
  rewrite (u32_small (b' * 512)) by lia.
  apply slice_inserts_disjoint.
  destruct Hdisj as [Hd|Hd]; [|lia].
  rewrite (u32_small (c' * 512)) by lia. lia.
Qed.

Lemma blockdev_write_read_witness :
  exists dev',
    blockdev_write small_dev 1 2 small_data = (0, dev')
    /\ ramdisk_ok (device_data dev') = true
    /\ blockdev_get_block_count dev' = blockdev_get_block_count small_dev
    /\ blockdev_read dev' 1 2 (replicate 1024%nat 0) = (0, small_data)
    /\ forall b' c' out',
         0 <= b' -> 0 <= c' -> b' + c' <= 1 \/ 1 + 2 <= b' ->
         blockdev_read dev' b' c' out' = blockdev_read small_dev b' c' out'.
Proof.
  apply (blockdev_write_read small_dev 1 2 small_data (replicate 1024%nat 0)).
  - vm_compute. reflexivity.
  - vm_compute. split; [discriminate|reflexivity].
  - lia.
  - vm_compute. discriminate.
  - vm_compute. reflexivity.
  - vm_compute. reflexivity.
Defined.

(** X4.  [ramdisk_load_ext2_image] refuses an empty image and one larger than
    the storage; otherwise the storage starts with the image and is
    unchanged behind it. *)
Theorem ramdisk_load_image dev (image : list Z) n :
  ramdisk_ok (device_data dev) = true -> Z.of_nat (length image) = n ->
  (n = 0 \/ rd_size (device_data dev) < n ->
     ramdisk_load_ext2_image dev image n = (-1, dev))
  /\ (0 < n <= rd_size (device_data dev) ->
      exists dev',
        ramdisk_load_ext2_image dev image n = (0, dev')
        /\ ramdisk_ok (device_data dev') = true
        /\ take (length image) (rd_data (device_data dev')) = image
        /\ drop (length image) (rd_data (device_data dev'))
           = drop (length image) (rd_data (device_data dev))).
Proof.
  intros Hok Hlen. unfold ramdisk_load_ext2_image.
  unfold ramdisk_ok in Hok.
  apply andb_prop in Hok. destruct Hok as [Hok Hsz].
  apply andb_prop in Hok. destruct Hok as [Hdl Hsmall].
  apply Z.eqb_eq in Hdl, Hsz. apply Z.ltb_lt in Hsmall.
  split.
  - intros [->|Hbig]; [reflexivity|].
    destruct (Z.eqb_spec n 0); [reflexivity|].
    destruct (Z.ltb_spec (rd_size (device_data dev)) n); [reflexivity|lia].
  - intros Hn. destruct (Z.eqb_spec n 0); [lia|].
    destruct (Z.ltb_spec (rd_size (device_data dev)) n); [lia|].
    eexists. split; [reflexivity|]. cbn [device_data rd_data rd_size rd_block_count].
    rewrite (memcpy_local_write _ image 0 n) by lia. change (Z.to_nat 0) with 0%nat.
    split.
    { unfold ramdisk_ok. cbn [rd_data rd_size rd_block_count].
      rewrite length_inserts, Hdl, Hsz, !Z.eqb_refl.
      destruct (Z.ltb_spec (rd_block_count (device_data dev) * RAMDISK_BLOCK_SIZE)
                           4294967296); [reflexivity|lia]. }
    split.
    + pose proof (slice_inserts_same (rd_data (device_data dev)) image 0 ltac:(lia)) as Hs.
      rewrite drop_0 in Hs. exact Hs.
    + apply list_eq. intros i. rewrite !lookup_drop.
      apply list_lookup_inserts_ge. lia.
Qed.

Lemma ramdisk_load_image_witness :
  (1024 = 0 \/ rd_size (device_data small_dev) < 1024 ->
     ramdisk_load_ext2_image small_dev small_data 1024 = (-1, small_dev))
  /\ (0 < 1024 <= rd_size (device_data small_dev) ->
      exists dev',
        ramdisk_load_ext2_image small_dev small_data 1024 = (0, dev')
        /\ ramdisk_ok (device_data dev') = true
        /\ take (length small_data) (rd_data (device_data dev')) = small_data
        /\ drop (length small_data) (rd_data (device_data dev'))
           = drop (length small_data) (rd_data (device_data small_dev))).
Proof.
  apply (ramdisk_load_image small_dev small_data 1024).
  - vm_compute. reflexivity.
  - vm_compute. reflexivity.
Defined.

(** ** The device registry *)

Lemma str_cmp_refl a : str_cmp a a = 0.
Proof.
  induction a as [|x a IH]; simpl; [reflexivity|].
  rewrite Z.eqb_refl. destruct (negb (x =? 0)); simpl; [exact IH|lia].
Qed.

Lemma registry_find_none (devices : list (list Z * blockdev_t)) name :
  registry_find devices name = None ->
  forall i n d, devices !! i = Some (n, d) -> str_cmp n name <> 0.
Proof.
  induction devices as [|[n0 d0] devices IH]; intros H i n d Hi; [discriminate|].
  simpl in H. destruct (Z.eqb_spec (str_cmp n0 name) 0) as [|Hne]; [discriminate|].
  destruct i as [|i]; simpl in Hi.
  - injection Hi as <- <-. exact Hne.
  - eapply IH; eassumption.
Qed.

Lemma registry_find_app devices name n d :
  registry_find (devices ++ [(n, d)]) name =
  match registry_find devices name with
  | Some dev => Some dev
  | None => if str_cmp n name =? 0 then Some d else None
  end.
Proof.
  induction devices as [|[n0 d0] devices IH]; simpl; [reflexivity|].
  destruct (str_cmp n0 name =? 0); [reflexivity|exact IH].
Qed.

(** X5.  A device that [blockdev_register] accepts is the one [blockdev_get]
    returns for its name; every name that was registered keeps its
    device, a name that was not resolves only if it is the new one, and
    the registry keeps at most 16 devices with no name twice.  A name
    that [blockdev_get] already finds, or a full registry, is refused
    without a change. *)
Theorem blockdev_register_get devices name dev :
  registry_ok devices ->
  match blockdev_register devices name dev with
  | (r, devices') =>
    registry_ok devices'
    /\ (r = 0 \/ r = -1)
    /\ (r = 0 ->
        blockdev_get devices name = None
        /\ blockdev_get devices' name = Some dev
        /\ forall n, blockdev_get devices n <> None ->
             blockdev_get devices' n = blockdev_get devices n)
    /\ (r = -1 ->
        devices' = devices
        /\ (blockdev_get devices name <> None
            \/ MAX_BLOCK_DEVICES <= Z.of_nat (length devices)))
  end.
Proof.
  intros [Hlen Hdist]. unfold blockdev_register, blockdev_get.
  destruct (Z.leb_spec MAX_BLOCK_DEVICES (Z.of_nat (length devices))) as [Hfull|Hroom].
  { split; [split; assumption|]. split; [right; reflexivity|].
    split; [intros; lia|]. intros _. split; [reflexivity|right; exact Hfull]. }
  destruct (registry_find devices name) as [d|] eqn:Hfind.
  { split; [split; assumption|]. split; [right; reflexivity|].
    split; [intros; lia|]. intros _. split; [reflexivity|left; discriminate]. }
  split.
  { split; [rewrite length_app; simpl; lia|].
    intros i j n d n' d' Hij Hi Hj.
    assert (Hjl : (j < length (devices ++ [(name, dev)]))%nat)
      by (eapply lookup_lt_Some; exact Hj).
    rewrite length_app in Hjl. simpl in Hjl.
    rewrite lookup_app_l in Hi by lia.
    destruct (Nat.eq_dec j (length devices)) as [->|Hne].
    - rewrite lookup_app_r in Hj by lia.
      replace (length devices - length devices)%nat with 0%nat in Hj by lia.
      simpl in Hj. injection Hj as <- <-.
      eapply registry_find_none; eassumption.
    - rewrite lookup_app_l in Hj by lia. eapply (Hdist i j); eassumption. }
  split; [left; reflexivity|].
  split; [|intros; lia].
  intros _. split; [reflexivity|].
  split.
  - rewrite registry_find_app, Hfind, str_cmp_refl. reflexivity.
  - intros n Hn. rewrite registry_find_app.
    destruct (registry_find devices n); [reflexivity|contradiction].
Qed.

Lemma blockdev_register_get_witness :
  match blockdev_register [(ramdisk0, img_dev)] [114; 100; 49] small_dev with
  | (r, devices') =>
    registry_ok devices'
    /\ (r = 0 \/ r = -1)
    /\ (r = 0 ->
        blockdev_get [(ramdisk0, img_dev)] [114; 100; 49] = None
        /\ blockdev_get devices' [114; 100; 49] = Some small_dev
        /\ forall n, blockdev_get [(ramdisk0, img_dev)] n <> None ->
             blockdev_get devices' n = blockdev_get [(ramdisk0, img_dev)] n)
    /\ (r = -1 ->
        devices' = [(ramdisk0, img_dev)]
        /\ (blockdev_get [(ramdisk0, img_dev)] [114; 100; 49] <> None
            \/ MAX_BLOCK_DEVICES
               <= Z.of_nat (length [(ramdisk0, img_dev)])))
  end.
Proof.
  apply (blockdev_register_get [(ramdisk0, img_dev)] [114; 100; 49] small_dev).
  split; [simpl; unfold MAX_BLOCK_DEVICES; lia|].
  intros i j n d n' d' Hij Hi Hj.
  destruct i as [|i]; [|destruct i; discriminate].
  destruct j as [|j]; [lia|destruct j; discriminate].
Defined.

(** ** Mounting *)

Lemma shiftl_1024 k :
  0 <= k <= 21 ->
  0 < Z.shiftl 1024 k < 4294967296
  /\ Z.shiftl 1024 k mod 512 = 0
  /\ 4294967296 mod (Z.shiftl 1024 k / 512) = 0.
Proof.
  intros Hk.
  assert (H : k = 0 \/ k = 1 \/ k = 2 \/ k = 3 \/ k = 4 \/ k = 5 \/ k = 6 \/ k = 7
              \/ k = 8 \/ k = 9 \/ k = 10 \/ k = 11 \/ k = 12 \/ k = 13 \/ k = 14
              \/ k = 15 \/ k = 16 \/ k = 17 \/ k = 18 \/ k = 19 \/ k = 20 \/ k = 21)
    by lia.
  repeat (destruct H as [->|H]; [vm_compute; repeat split; reflexivity|]).
  rewrite H. vm_compute. repeat split; reflexivity.
Qed.

(** X6.  A file system that [ext2_init] returns for a ramdisk has the magic
    number in its superblock and, when the block-size exponent is at
    most 21, the geometry that the driver computes with: a block size
    [1024 << s_log_block_size] that is a power of two of at least 1024
    bytes. *)
Theorem ext2_init_geometry dev fs :
  ramdisk_ok (device_data dev) = true ->
  ext2_init dev = Some fs ->
  0 <= s_log_block_size (superblock fs) <= 21 ->
  fs_geom fs = true /\ device fs = dev
  /\ s_magic (superblock fs) = EXT2_MAGIC
  /\ block_size fs = Z.shiftl 1024 (s_log_block_size (superblock fs))
  /\ blocks_per_group fs = s_blocks_per_group (superblock fs)
  /\ inodes_per_group fs = s_inodes_per_group (superblock fs).
Proof.
  intros Hok Hinit Hlog. unfold ext2_init in Hinit.
  destruct (kmalloc 1024) as [sb0|]; [|discriminate].
  destruct (blockdev_read dev (EXT2_SUPERBLOCK_OFFSET / blockdev_get_block_size dev) 2 sb0)
    as [r sb].
  destruct (negb (r =? 0)); [discriminate|].
  destruct (Z.eqb_spec (s_magic sb) EXT2_MAGIC) as [Hmagic|]; [|discriminate].
  simpl negb in Hinit. cbv iota in Hinit.
  destruct (kmalloc _) as [bg0|]; [|discriminate].
  destruct (ext2_read_blocks _ _ _ bg0) as [r2 bgs].
  destruct (negb (r2 =? 0)); [discriminate|].
  injection Hinit as <-. cbn [superblock set_block_groups] in Hlog.
  cbn [superblock device block_size blocks_per_group inodes_per_group set_block_groups].
  destruct (shiftl_1024 _ Hlog) as (Hbs & Hmod & Hpow).
  assert (Ebs : EXT2_BLOCK_SIZE sb = Z.shiftl 1024 (s_log_block_size sb))
    by (unfold EXT2_BLOCK_SIZE; apply u32_small; lia).
  split; [|repeat split; try assumption].
  unfold fs_geom, disk, dev_blocks.
  cbn [superblock device block_size blocks_per_group inodes_per_group set_block_groups].
  rewrite Ebs.
  unfold ramdisk_ok in Hok.
  apply andb_prop in Hok. destruct Hok as [Hok _].
  apply andb_prop in Hok. destruct Hok as [Hdl Hsmall].
  unfold RAMDISK_BLOCK_SIZE in *. rewrite Hdl, Hsmall.
  rewrite Hmod, Hpow. simpl.
  destruct (Z.ltb_spec 0 (Z.shiftl 1024 (s_log_block_size sb))); [|lia].
  destruct (Z.ltb_spec (Z.shiftl 1024 (s_log_block_size sb)) 4294967296); [|lia].
  reflexivity.
Qed.

Lemma ext2_init_geometry_witness :
  fs_geom img_fs = true /\ device img_fs = img_dev
  /\ s_magic (superblock img_fs) = EXT2_MAGIC
  /\ block_size img_fs = Z.shiftl 1024 (s_log_block_size (superblock img_fs))
  /\ blocks_per_group img_fs = s_blocks_per_group (superblock img_fs)
  /\ inodes_per_group img_fs = s_inodes_per_group (superblock img_fs).
Proof.
  apply (ext2_init_geometry img_dev img_fs).
  - vm_compute. reflexivity.
  - vm_compute. reflexivity.
  - vm_compute. split; discriminate.
Defined.

(** ** The heap *)

Lemma land_lnot_7 x : Z.land x (Z.lnot 7) = 8 * (x / 8).
Proof.
  rewrite <- Z.ldiff_land. change 7 with (Z.ones 3).
  rewrite Z.ldiff_ones_r by lia.
  rewrite Z.shiftl_mul_pow2, Z.shiftr_div_pow2 by lia.
  change (2 ^ 3) with 8. lia.
Qed.

Lemma round_up_8 x :
  0 <= x < 4294967296 ->
  Z.land x (u32 (Z.lnot (Heap.HEAP_ALIGNMENT - 1))) = 8 * (x / 8).
Proof.
  intros Hx. unfold u32, Heap.HEAP_ALIGNMENT. change (8 - 1) with 7.
  change 4294967296 with (2 ^ 32). rewrite <- Z.land_ones by lia.
  rewrite (Z.land_comm (Z.lnot 7)), Z.land_assoc.
  rewrite (Z.land_ones x 32) by lia.
  rewrite Z.mod_small by (change (2 ^ 32) with 4294967296; lia).
  apply land_lnot_7.
Qed.

(** The size that [kmalloc] looks for. *)
Lemma kmalloc_rounded n :
  0 < n < 4294967296 ->
  let r := Z.land (u32 (n + (Heap.HEAP_ALIGNMENT - 1)))
                  (u32 (Z.lnot (Heap.HEAP_ALIGNMENT - 1))) in
  0 <= r < 4294967296
  /\ (n <= 4294967288 -> n <= r < n + 8)
  /\ (4294967288 < n -> r = 0).
Proof.
  intros Hn r. unfold r.
  assert (Hu : 0 <= u32 (n + (Heap.HEAP_ALIGNMENT - 1)) < 4294967296)
    by (unfold u32; apply Z.mod_pos_bound; lia).
  rewrite round_up_8 by exact Hu.
  unfold Heap.HEAP_ALIGNMENT. change (8 - 1) with 7.
  pose proof (Z.div_mod (u32 (n + 7)) 8 ltac:(lia)) as Hdm.
  pose proof (Z.mod_pos_bound (u32 (n + 7)) 8 ltac:(lia)) as Hm.
  unfold Heap.HEAP_ALIGNMENT in Hu. change (8 - 1) with 7 in Hu.
  split; [lia|]. split.
  - intros Hle. rewrite (u32_small (n + 7)) in * by lia. lia.
  - intros Hgt. unfold u32 in *.
    assert (E : (n + 7) mod 4294967296 = n + 7 - 4294967296).
    { symmetry. apply Z.mod_unique_pos with (q := 1); lia. }
    rewrite E in *. 
    assert ((n + 7 - 4294967296) / 8 = 0) by (apply Z.div_small; lia).
    lia.
Qed.

Lemma span_nonneg l : Heap.sizes_ok l -> 0 <= Heap.span l.
Proof.
  induction 1 as [|b l Hb _ IH]; simpl; unfold Heap.BLOCK_SIZE; lia.
Qed.

Lemma span_app l1 l2 : Heap.span (l1 ++ l2) = Heap.span l1 + Heap.span l2.
Proof. induction l1 as [|b l1 IH]; simpl; lia. Qed.

Lemma heap_ok_facts heap :
  Heap.heap_ok heap = true ->
  0 <= Heap.heap_start heap
  /\ Heap.heap_start heap + Heap.HEAP_SIZE <= 4294967296
  /\ Heap.sizes_ok (Heap.free_list heap)
  /\ Heap.span (Heap.free_list heap) = Heap.HEAP_SIZE.
Proof.
  unfold Heap.heap_ok. intros H.
  apply andb_prop in H. destruct H as [H Hspan].
  apply andb_prop in H. destruct H as [H Hsizes].
  apply andb_prop in H. destruct H as [Hs He].
  apply Z.leb_le in Hs. apply Z.leb_le in He. apply Z.eqb_eq in Hspan.
  repeat split; try assumption.
  unfold Heap.sizes_ok. rewrite Forall_forall. intros b Hb.
  rewrite forallb_forall in Hsizes. apply Z.leb_le. apply Hsizes.
  apply list_elem_of_In. exact Hb.
Qed.

Lemma heap_ok_intro start l :
  0 <= start -> start + Heap.HEAP_SIZE <= 4294967296 ->
  Heap.sizes_ok l -> Heap.span l = Heap.HEAP_SIZE ->
  Heap.heap_ok (Heap.mk_heap start l) = true.
Proof.
  intros Hs He Hsz Hspan. unfold Heap.heap_ok. cbn [Heap.heap_start Heap.free_list].
  apply andb_true_intro. split; [|apply Z.eqb_eq; exact Hspan].
  apply andb_true_intro. split.
  - apply andb_true_intro. split; apply Z.leb_le; assumption.
  - rewrite forallb_forall. intros b Hb. apply Z.leb_le.
    unfold Heap.sizes_ok in Hsz. rewrite Forall_forall in Hsz. apply Hsz.
    apply list_elem_of_In. exact Hb.
Qed.

(** What [split_block] returns when the block is large enough for the
    request. *)
Lemma split_block_spec block size :
  0 <= size <= Heap.hb_size block -> Heap.hb_size block <= Heap.HEAP_SIZE ->
  Heap.split_block block size =
  if size + 20 <=? Heap.hb_size block
  then (Heap.mk_block size (Heap.hb_free block),
        [Heap.mk_block (Heap.hb_size block - size - 12) 1])
  else (block, []).
Proof.
  intros Hs Hb. unfold Heap.split_block, Heap.BLOCK_SIZE, Heap.HEAP_ALIGNMENT,
    Heap.HEAP_SIZE in *.
  rewrite (u32_small (size + 12)) by lia.
  rewrite (u32_small (size + 12 + 8)) by lia.
  replace (size + 12 + 8) with (size + 20) by lia.
  destruct (Z.leb_spec (size + 20) (Heap.hb_size block)); [|reflexivity].
  rewrite (u32_small (Heap.hb_size block - size)) by lia.
  rewrite (u32_small (Heap.hb_size block - size - 12)) by lia.
  reflexivity.
Qed.

Lemma used_blocks_app a l1 l2 :
  Heap.used_blocks a (l1 ++ l2)
  = Heap.used_blocks a l1 ++ Heap.used_blocks (a + Heap.span l1) l2.
Proof.
  revert a. induction l1 as [|b l1 IH]; intros a; simpl.
  - f_equal. lia.
  - rewrite IH.
    replace (a + Heap.BLOCK_SIZE + Heap.hb_size b + Heap.span l1)
      with (a + (Heap.BLOCK_SIZE + Heap.hb_size b + Heap.span l1)) by lia.
    destruct (Heap.hb_free b =? 0); reflexivity.
Qed.

Lemma used_blocks_bounds l : forall a,
  Heap.sizes_ok l ->
  Forall (fun r => a + Heap.BLOCK_SIZE <= fst r /\ 0 <= snd r
                   /\ fst r + snd r <= a + Heap.span l)
         (Heap.used_blocks a l).
Proof.
  induction l as [|b l IH]; intros a Hsz; simpl; [constructor|].
  inversion Hsz as [|? ? Hb Hl]; subst.
  pose proof (span_nonneg l Hl) as Hsp.
  specialize (IH (a + Heap.BLOCK_SIZE + Heap.hb_size b) Hl).
  assert (Htail : Forall (fun r => a + Heap.BLOCK_SIZE <= fst r /\ 0 <= snd r
      /\ fst r + snd r <= a + (Heap.BLOCK_SIZE + Heap.hb_size b + Heap.span l))
      (Heap.used_blocks (a + Heap.BLOCK_SIZE + Heap.hb_size b) l)).
  { eapply Forall_impl; [exact IH|]. unfold Heap.BLOCK_SIZE. simpl. intros r. lia. }
  destruct (Heap.hb_free b =? 0); [|exact Htail].
  constructor; [|exact Htail]. simpl. unfold Heap.BLOCK_SIZE. lia.
Qed.

(** The blocks in use lie behind one another, a header apart. *)
Lemma used_blocks_sorted l : forall a,
  Heap.sizes_ok l -> Heap.regions_apart (Heap.used_blocks a l).
Proof.
  induction l as [|b l IH]; intros a Hsz; simpl; [constructor|].
  inversion Hsz as [|? ? Hb Hl]; subst.
  destruct (Heap.hb_free b =? 0); [|apply IH; exact Hl].
  split; [|apply IH; exact Hl].
  eapply Forall_impl; [apply used_blocks_bounds; exact Hl|].
  unfold Heap.region_before. simpl. intros r. lia.
Qed.


Lemma kmalloc_loop_inv l : forall a size,
  Heap.sizes_ok l -> Heap.span l <= Heap.HEAP_SIZE -> 0 <= size ->
  match Heap.kmalloc_loop l a size with
  | None => Forall (fun block => Heap.fits size block = false) l
  | Some (ptr, l') =>
    exists pre block post,
      l = pre ++ block :: post
      /\ Forall (fun block => Heap.fits size block = false) pre
      /\ Heap.fits size block = true
      /\ ptr = a + Heap.span pre + Heap.BLOCK_SIZE
      /\ l' = pre ++ Heap.taken size block ++ post
  end.
Proof.
  induction l as [|b l IH]; intros a size Hsz Hspan Hsize; simpl; [constructor|].
  inversion Hsz as [|? ? Hb Hl]; subst.
  pose proof (span_nonneg l Hl) as Hsp. simpl in Hspan.
  fold (Heap.fits size b). destruct (Heap.fits size b) eqn:Hfit.
  - assert (Hle : size <= Heap.hb_size b).
    { unfold Heap.fits in Hfit. apply andb_prop in Hfit. apply Z.leb_le. apply Hfit. }
    rewrite split_block_spec
      by (unfold Heap.BLOCK_SIZE, Heap.HEAP_SIZE in *; lia).
    destruct (size + 20 <=? Heap.hb_size b) eqn:E;
      (exists [], b, l; unfold Heap.taken; rewrite E; simpl;
       split; [reflexivity|]; split; [apply List.Forall_nil|];
       split; [exact Hfit|]; split; [lia|reflexivity]).
  - specialize (IH (a + Heap.BLOCK_SIZE + Heap.hb_size b) size Hl
                   ltac:(unfold Heap.BLOCK_SIZE in *; lia) Hsize).
    destruct (Heap.kmalloc_loop l (a + Heap.BLOCK_SIZE + Heap.hb_size b) size)
      as [[ptr l']|].
    + destruct IH as (pre & block & post & -> & Hpre & Hblock & -> & ->).
      exists (b :: pre), block, post. simpl.
      split; [reflexivity|]. split; [constructor; assumption|].
      split; [exact Hblock|]. split; [lia|reflexivity].
    + constructor; assumption.
Qed.

Lemma taken_facts size block :
  0 <= size -> Heap.fits size block = true ->
  Heap.span (Heap.taken size block) = Heap.BLOCK_SIZE + Heap.hb_size block
  /\ Heap.sizes_ok (Heap.taken size block)
  /\ exists sz, size <= sz <= Heap.hb_size block
       /\ forall a, Heap.used_blocks a (Heap.taken size block) = [(a + Heap.BLOCK_SIZE, sz)].
Proof.
  intros Hsize Hfit. unfold Heap.fits in Hfit. apply andb_prop in Hfit.
  destruct Hfit as [_ Hle]. apply Z.leb_le in Hle.
  unfold Heap.taken. destruct (Z.leb_spec (size + 20) (Heap.hb_size block)).
  - split; [simpl; unfold Heap.BLOCK_SIZE; lia|].
    split; [repeat constructor; simpl; lia|].
    exists size. split; [lia|]. intros a. reflexivity.
  - split; [simpl; unfold Heap.BLOCK_SIZE; lia|].
    split; [repeat constructor; simpl; lia|].
    exists (Heap.hb_size block). split; [lia|]. intros a. reflexivity.
Qed.

Lemma sizes_ok_app l1 l2 :
  Heap.sizes_ok (l1 ++ l2) <-> Heap.sizes_ok l1 /\ Heap.sizes_ok l2.
Proof. unfold Heap.sizes_ok. apply Forall_app. Qed.

Lemma fits_free size block :
  Heap.fits size block = true -> (Heap.hb_free block =? 0) = false.
Proof.
  unfold Heap.fits. intros H. apply andb_prop in H. destruct H as [H _].
  apply negb_true_iff in H. exact H.
Qed.

(** [kmalloc] on a well-formed heap. *)
Lemma kmalloc_spec heap n :
  Heap.heap_ok heap = true -> 0 < n < 4294967296 ->
  let size := Z.land (u32 (n + (Heap.HEAP_ALIGNMENT - 1)))
                     (u32 (Z.lnot (Heap.HEAP_ALIGNMENT - 1))) in
  match Heap.kmalloc heap n with
  | (None, heap') =>
    heap' = heap /\ Forall (fun block => Heap.fits size block = false) (Heap.free_list heap)
  | (Some ptr, heap') =>
    exists pre block post,
      Heap.free_list heap = pre ++ block :: post
      /\ Forall (fun block => Heap.fits size block = false) pre
      /\ Heap.fits size block = true
      /\ ptr = Heap.heap_start heap + Heap.span pre + Heap.BLOCK_SIZE
      /\ heap' = Heap.mk_heap (Heap.heap_start heap) (pre ++ Heap.taken size block ++ post)
  end.
Proof.
  intros Hok Hn size.
  destruct (heap_ok_facts heap Hok) as (Hs & He & Hsz & Hspan).
  destruct (kmalloc_rounded n Hn) as (Hr & _).
  unfold Heap.kmalloc. destruct (Z.eqb_spec n 0); [lia|]. fold size.
  pose proof (kmalloc_loop_inv (Heap.free_list heap) (Heap.heap_start heap) size
                Hsz ltac:(lia) ltac:(apply Hr)) as Hinv.
  destruct (Heap.kmalloc_loop (Heap.free_list heap) (Heap.heap_start heap) size)
    as [[ptr l']|].
  - destruct Hinv as (pre & block & post & Hl & Hpre & Hblock & Hptr & Hl').
    exists pre, block, post. rewrite Hl'. repeat split; assumption.
  - split; [reflexivity|exact Hinv].
Qed.

Lemma coalesce_nil fuel : Heap.coalesce fuel [] = [].
Proof. destruct fuel; reflexivity. Qed.

Lemma coalesce_keeps fuel : forall l a,
  Heap.sizes_ok l -> Heap.span l <= Heap.HEAP_SIZE ->
  Heap.span (Heap.coalesce fuel l) = Heap.span l
  /\ Heap.sizes_ok (Heap.coalesce fuel l)
  /\ Heap.used_blocks a (Heap.coalesce fuel l) = Heap.used_blocks a l.
Proof.
  induction fuel as [|fuel IH]; intros l a Hsz Hspan; [simpl; auto|].
  destruct l as [|b [|c rest]].
  - simpl. auto.
  - simpl. rewrite coalesce_nil. auto.
  - inversion Hsz as [|? ? Hb Hl]; subst. inversion Hl as [|? ? Hc Hrest]; subst.
    pose proof (span_nonneg rest Hrest) as Hsp.
    cbn [Heap.coalesce]. cbn [Heap.span] in Hspan.
    unfold Heap.BLOCK_SIZE, Heap.HEAP_SIZE in *.
    destruct (negb (Heap.hb_free b =? 0) && negb (Heap.hb_free c =? 0)) eqn:Hm.
    + apply andb_prop in Hm. destruct Hm as [Hfb Hfc].
      apply negb_true_iff in Hfb, Hfc.
      rewrite (u32_small (12 + Heap.hb_size c)) by lia.
      rewrite (u32_small (Heap.hb_size b + (12 + Heap.hb_size c))) by lia.
      destruct (IH (Heap.mk_block (Heap.hb_size b + (12 + Heap.hb_size c))
                      (Heap.hb_free b) :: rest) a) as (H1 & H2 & H3).
      * constructor; [simpl; lia|exact Hrest].
      * simpl. unfold Heap.BLOCK_SIZE. lia.
      * rewrite H1, H3. split; [simpl; unfold Heap.BLOCK_SIZE; lia|].
        split; [exact H2|].
        simpl. rewrite Hfb, Hfc. f_equal. unfold Heap.BLOCK_SIZE. lia.
    + destruct (IH (c :: rest) (a + 12 + Heap.hb_size b) Hl) as (H1 & H2 & H3).
      * simpl. unfold Heap.BLOCK_SIZE. lia.
      * split; [cbn [Heap.span]; rewrite H1; reflexivity|].
        split; [constructor; assumption|].
        cbn [Heap.used_blocks]. unfold Heap.BLOCK_SIZE.
        cbn [Heap.used_blocks] in H3. unfold Heap.BLOCK_SIZE in H3.
        rewrite H3. reflexivity.
Qed.

Lemma coalesce_head fuel b l :
  exists b' l', Heap.coalesce fuel (b :: l) = b' :: l'
                /\ Heap.hb_free b' = Heap.hb_free b.
Proof.
  revert b l. induction fuel as [|fuel IH]; intros b l; [simpl; eauto|].
  destruct l as [|c rest]; [simpl; eauto|].
  cbn [Heap.coalesce].
  destruct (negb (Heap.hb_free b =? 0) && negb (Heap.hb_free c =? 0)).
  - destruct (IH (Heap.mk_block
                    (u32 (Heap.hb_size b + u32 (Heap.BLOCK_SIZE + Heap.hb_size c)))
                    (Heap.hb_free b)) rest) as (b' & l' & -> & Hf).
    eauto.
  - eauto.
Qed.

(** After the loop of [kfree] no free block is followed by a free
    block. *)
Lemma coalesce_coalesced fuel : forall l,
  (length l <= fuel)%nat -> Heap.coalesced (Heap.coalesce fuel l) = true.
Proof.
  induction fuel as [|fuel IH]; intros l Hlen.
  - destruct l; [reflexivity|simpl in Hlen; lia].
  - destruct l as [|b [|c rest]]; [reflexivity|simpl; rewrite coalesce_nil; reflexivity|].
    cbn [Heap.coalesce]. simpl in Hlen.
    destruct (negb (Heap.hb_free b =? 0) && negb (Heap.hb_free c =? 0)) eqn:Hm.
    + apply IH. simpl. lia.
    + pose proof (IH (c :: rest) ltac:(simpl; lia)) as Hc.
      destruct (coalesce_head fuel c rest) as (c' & l' & E & Hf).
      rewrite E in *.
      change (Heap.coalesced (b :: c' :: l'))
        with (negb (negb (Heap.hb_free b =? 0) && negb (Heap.hb_free c' =? 0))
              && Heap.coalesced (c' :: l')).
      rewrite Hf, Hm, Hc. reflexivity.
Qed.

Lemma coalesce_id fuel : forall l,
  Heap.coalesced l = true -> Heap.coalesce fuel l = l.
Proof.
  induction fuel as [|fuel IH]; intros l Hc; [reflexivity|].
  destruct l as [|b [|c rest]]; [reflexivity|simpl; rewrite coalesce_nil; reflexivity|].
  cbn [Heap.coalesce]. cbn [Heap.coalesced] in Hc.
  apply andb_prop in Hc. destruct Hc as [Hm Hc]. apply negb_true_iff in Hm.
  rewrite Hm. f_equal. apply IH. exact Hc.
Qed.

Lemma coalesce_prefix pre : forall fuel X,
  Heap.coalesced (pre ++ take 1 X) = true ->
  Heap.coalesce (length pre + fuel) (pre ++ X) = pre ++ Heap.coalesce fuel X.
Proof.
  induction pre as [|b pre IH]; intros fuel X Hc; [reflexivity|].
  change (length (b :: pre) + fuel)%nat with (S (length pre + fuel)).
  assert (Htail : Heap.coalesced (pre ++ take 1 X) = true).
  { simpl in Hc. destruct (pre ++ take 1 X); [reflexivity|].
    apply andb_prop in Hc. apply Hc. }
  destruct (pre ++ X) as [|c rest] eqn:E.
  - apply app_eq_nil in E. destruct E as [-> ->].
    simpl. rewrite !coalesce_nil. reflexivity.
  - change ((b :: pre) ++ X) with (b :: (pre ++ X)). rewrite E.
    cbn [Heap.coalesce].
    assert (Hm : negb (Heap.hb_free b =? 0) && negb (Heap.hb_free c =? 0) = false).
    { assert (Hhead : exists rest', pre ++ take 1 X = c :: rest').
      { destruct pre as [|p pre'].
        - simpl in E. subst X. simpl. eauto.
        - simpl in E. injection E as -> _. simpl. eauto. }
      destruct Hhead as (rest' & Eh). simpl in Hc. rewrite Eh in Hc.
      apply andb_prop in Hc. destruct Hc as [Hm _]. apply negb_true_iff in Hm.
      exact Hm. }
    rewrite Hm. rewrite <- E. rewrite IH by exact Htail. reflexivity.
Qed.

Lemma mark_free_spec pre : forall a block post,
  Heap.sizes_ok pre ->
  Heap.mark_free (pre ++ block :: post) a (a + Heap.span pre)
  = Some (pre ++ Heap.mk_block (Heap.hb_size block) 1 :: post).
Proof.
  induction pre as [|b pre IH]; intros a block post Hsz.
  - simpl. replace (a + 0) with a by lia. rewrite Z.eqb_refl. reflexivity.
  - inversion Hsz as [|? ? Hb Hpre]; subst.
    pose proof (span_nonneg pre Hpre) as Hsp.
    simpl. unfold Heap.BLOCK_SIZE in *.
    destruct (Z.eqb_spec a (a + (12 + Heap.hb_size b + Heap.span pre))); [lia|].
    replace (a + (12 + Heap.hb_size b + Heap.span pre))
      with (a + 12 + Heap.hb_size b + Heap.span pre) by lia.
    rewrite IH by exact Hpre. reflexivity.
Qed.

Lemma used_blocks_in l : forall a ptr sz,
  In (ptr, sz) (Heap.used_blocks a l) ->
  exists pre block post,
    l = pre ++ block :: post /\ Heap.hb_free block = 0
    /\ Heap.hb_size block = sz /\ ptr = a + Heap.span pre + Heap.BLOCK_SIZE.
Proof.
  induction l as [|b l IH]; intros a ptr sz Hin; [destruct Hin|].
  simpl in Hin.
  assert (Htail : In (ptr, sz) (Heap.used_blocks (a + Heap.BLOCK_SIZE + Heap.hb_size b) l)
                  -> exists pre block post,
                       b :: l = pre ++ block :: post /\ Heap.hb_free block = 0
                       /\ Heap.hb_size block = sz
                       /\ ptr = a + Heap.span pre + Heap.BLOCK_SIZE).
  { intros H. destruct (IH _ _ _ H) as (pre & block & post & -> & Hf & Hs & ->).
    exists (b :: pre), block, post. simpl. repeat split; try assumption. lia. }
  destruct (Z.eqb_spec (Heap.hb_free b) 0) as [Hf|Hf]; [|exact (Htail Hin)].
  destruct Hin as [E|Hin]; [|exact (Htail Hin)].
  injection E as <- <-. exists [], b, l. simpl. repeat split; try assumption. lia.
Qed.

Lemma mark_free_keeps l : forall a x l',
  Heap.mark_free l a x = Some l' ->
  Heap.span l' = Heap.span l /\ (Heap.sizes_ok l -> Heap.sizes_ok l').
Proof.
  induction l as [|b l IH]; intros a x l' H; [discriminate|].
  simpl in H. destruct (a =? x).
  - injection H as <-. split; [reflexivity|].
    intros Hsz. inversion Hsz; subst. constructor; assumption.
  - destruct (Heap.mark_free l (a + Heap.BLOCK_SIZE + Heap.hb_size b) x) as [l1|] eqn:E;
      [|discriminate].
    injection H as <-. destruct (IH _ _ _ E) as [Hs Hk].
    split; [simpl; rewrite Hs; reflexivity|].
    intros Hsz. inversion Hsz; subst. constructor; [assumption|apply Hk; assumption].
Qed.

Lemma heap_stats_loop_sum l : forall u f,
  Heap.sizes_ok l -> 0 <= u -> 0 <= f -> u + f + Heap.span l < 4294967296 ->
  match Heap.heap_stats_loop l u f with
  | (u', f') =>
    u' + f' + Heap.BLOCK_SIZE * Z.of_nat (length l) = u + f + Heap.span l
    /\ 0 <= u' /\ 0 <= f'
  end.
Proof.
  induction l as [|b l IH]; intros u f Hsz Hu Hf Hsum.
  - simpl. lia.
  - inversion Hsz as [|? ? Hb Hl]; subst.
    pose proof (span_nonneg l Hl) as Hsp.
    cbn [Heap.heap_stats_loop Heap.span] in *. unfold Heap.BLOCK_SIZE in *.
    destruct (negb (Heap.hb_free b =? 0)).
    + rewrite (u32_small (f + Heap.hb_size b)) by lia.
      specialize (IH u (f + Heap.hb_size b) Hl ltac:(lia) ltac:(lia) ltac:(lia)).
      destruct (Heap.heap_stats_loop l u (f + Heap.hb_size b)) as [u' f'].
      rewrite length_cons. lia.
    + rewrite (u32_small (u + Heap.hb_size b)) by lia.
      specialize (IH (u + Heap.hb_size b) f Hl ltac:(lia) ltac:(lia) ltac:(lia)).
      destruct (Heap.heap_stats_loop l (u + Heap.hb_size b) f) as [u' f'].
      rewrite length_cons. lia.
Qed.

Lemma kmalloc_keeps_ok heap n :
  Heap.heap_ok heap = true -> 0 <= n < 4294967296 ->
  Heap.heap_ok (snd (Heap.kmalloc heap n)) = true.
Proof.
  intros Hok Hn.
  destruct (Z.eq_dec n 0) as [->|Hnz]; [exact Hok|].
  destruct (heap_ok_facts heap Hok) as (Hs & He & Hsz & Hspan).
  destruct (kmalloc_rounded n ltac:(lia)) as (Hr & _).
  pose proof (kmalloc_spec heap n Hok ltac:(lia)) as Hspec. cbv zeta in Hspec.
  destruct (Heap.kmalloc heap n) as [[ptr|] heap'].
  - destruct Hspec as (pre & block & post & Hl & _ & Hfit & _ & ->).
    destruct (taken_facts _ block ltac:(apply Hr) Hfit) as (Htspan & Htsz & _).
    rewrite Hl in Hsz, Hspan.
    apply sizes_ok_app in Hsz. destruct Hsz as [Hpre Hbp].
    inversion Hbp as [|? ? Hb Hpost]; subst.
    simpl. apply heap_ok_intro; try assumption.
    + apply sizes_ok_app. split; [assumption|].
      apply sizes_ok_app. split; assumption.
    + rewrite !span_app, Htspan. rewrite span_app in Hspan. simpl in Hspan. lia.
  - destruct Hspec as [-> _]. exact Hok.
Qed.

(** X7.  The blocks of the heap tile it: [kmalloc] and [kfree] keep the
    headers and payloads adding up to [HEAP_SIZE] with no negative
    size, and [heap_stats] reports a used and a free count that, with
    one header per block, add up to the total. *)
Theorem heap_tiling_kept heap n ptr :
  Heap.heap_ok heap = true -> 0 <= n < 4294967296 ->
  Heap.heap_ok (snd (Heap.kmalloc heap n)) = true
  /\ (forall heap', Heap.kfree heap ptr = Some heap' -> Heap.heap_ok heap' = true)
  /\ (let '(total, used, free) := Heap.heap_stats heap in
      total = Heap.HEAP_SIZE
      /\ used + free + Heap.BLOCK_SIZE * Z.of_nat (length (Heap.free_list heap))
         = total).
Proof.
  intros Hok Hn. split; [apply kmalloc_keeps_ok; assumption|].
  destruct (heap_ok_facts heap Hok) as (Hs & He & Hsz & Hspan).
  split.
  - intros heap' Hfree. unfold Heap.kfree in Hfree.
    destruct (ptr =? 0); [injection Hfree as <-; exact Hok|].
    destruct (Heap.mark_free (Heap.free_list heap) (Heap.heap_start heap)
                (ptr - Heap.BLOCK_SIZE)) as [blocks|] eqn:E; [|discriminate].
    injection Hfree as <-.
    destruct (mark_free_keeps _ _ _ _ E) as [Hsp Hk].
    destruct (coalesce_keeps (length blocks) blocks 0 (Hk Hsz) ltac:(lia))
      as (H1 & H2 & _).
    apply heap_ok_intro; try assumption. lia.
  - unfold Heap.heap_stats.
    pose proof (heap_stats_loop_sum (Heap.free_list heap) 0 0 Hsz ltac:(lia) ltac:(lia)
                  ltac:(unfold Heap.HEAP_SIZE in *; lia)) as Hsum.
    destruct (Heap.heap_stats_loop (Heap.free_list heap) 0 0) as [u f].
    split; [reflexivity|]. lia.
Qed.

Lemma heap_tiling_kept_witness :
  Heap.heap_ok (snd (Heap.kmalloc (Heap.heap_init 1048577) 100)) = true
  /\ (forall heap', Heap.kfree (Heap.heap_init 1048577) 1048596 = Some heap' ->
        Heap.heap_ok heap' = true)
  /\ (let '(total, used, free) := Heap.heap_stats (Heap.heap_init 1048577) in
      total = Heap.HEAP_SIZE
      /\ used + free
         + Heap.BLOCK_SIZE
           * Z.of_nat (length (Heap.free_list (Heap.heap_init 1048577)))
         = total).
Proof.
  apply (heap_tiling_kept (Heap.heap_init 1048577) 100 1048596).
  - vm_compute. reflexivity.
  - lia.
Defined.

(** X8.  A successful [kmalloc] hands out a region of at least the
    requested size inside the heap that lies apart from every region
    in use, which all stay in use; a failed one changes nothing and
    means that no free block holds the request rounded up to 8 bytes. *)
Theorem kmalloc_allocates heap n :
  Heap.heap_ok heap = true -> 0 < n <= 4294967288 ->
  match Heap.kmalloc heap n with
  | (Some ptr, heap') =>
    exists before after sz,
      Heap.allocated heap = before ++ after
      /\ Heap.allocated heap' = before ++ (ptr, sz) :: after
      /\ n <= sz
      /\ Heap.heap_start heap + Heap.BLOCK_SIZE <= ptr
      /\ ptr + sz <= Heap.heap_start heap + Heap.HEAP_SIZE
      /\ Heap.regions_apart (Heap.allocated heap')
      /\ Heap.heap_start heap' = Heap.heap_start heap
  | (None, heap') =>
    heap' = heap
    /\ forall block, In block (Heap.free_list heap) ->
         Heap.hb_free block = 0 \/ Heap.hb_size block < 8 * ((n + 7) / 8)
  end.
Proof.
  intros Hok Hn.
  destruct (heap_ok_facts heap Hok) as (Hs & He & Hsz & Hspan).
  destruct (kmalloc_rounded n ltac:(lia)) as (Hr & Hround & _).
  specialize (Hround ltac:(lia)).
  pose proof (kmalloc_keeps_ok heap n Hok ltac:(lia)) as Hok'.
  pose proof (kmalloc_spec heap n Hok ltac:(lia)) as Hspec. cbv zeta in Hspec.
  destruct (Heap.kmalloc heap n) as [[ptr|] heap'].
  - destruct Hspec as (pre & block & post & Hl & _ & Hfit & Hptr & ->).
    destruct (taken_facts _ block ltac:(apply Hr) Hfit)
      as (Htspan & Htsz & sz & Hsize & Hused).
    simpl in Hok'. destruct (heap_ok_facts _ Hok') as (_ & _ & Hsz' & Hspan').
    cbn [Heap.heap_start Heap.free_list] in Hsz', Hspan'.
    exists (Heap.used_blocks (Heap.heap_start heap) pre),
      (Heap.used_blocks (Heap.heap_start heap + Heap.span pre
                         + (Heap.BLOCK_SIZE + Heap.hb_size block)) post), sz.
    unfold Heap.allocated. cbn [Heap.heap_start Heap.free_list]. rewrite Hl.
    rewrite !used_blocks_app, Hused, Htspan.
    cbn [Heap.used_blocks]. rewrite (fits_free _ _ Hfit).
    rewrite Hl in Hsz, Hspan. rewrite span_app in Hspan. cbn [Heap.span] in Hspan.
    apply sizes_ok_app in Hsz. destruct Hsz as [Hpre Hbp].
    inversion Hbp as [|? ? Hb Hpost]; subst.
    pose proof (span_nonneg pre Hpre). pose proof (span_nonneg post Hpost).
    replace (Heap.heap_start heap + Heap.span pre + Heap.BLOCK_SIZE + Heap.hb_size block)
      with (Heap.heap_start heap + Heap.span pre
            + (Heap.BLOCK_SIZE + Heap.hb_size block)) by lia.
    split; [reflexivity|]. simpl app. split; [reflexivity|].
    split; [lia|]. unfold Heap.BLOCK_SIZE in *.
    split; [lia|]. split; [lia|]. split; [|reflexivity].
    pose proof (used_blocks_sorted _ (Heap.heap_start heap) Hsz') as Hsorted.
    rewrite !used_blocks_app, Hused, Htspan in Hsorted. exact Hsorted.
  - destruct Hspec as [-> Hnone]. split; [reflexivity|].
    intros block Hin. rewrite Forall_forall in Hnone.
    specialize (Hnone block ltac:(apply list_elem_of_In; exact Hin)).
    unfold Heap.fits in Hnone. apply andb_false_iff in Hnone.
    rewrite (u32_small (n + (Heap.HEAP_ALIGNMENT - 1))) in *
      by (unfold Heap.HEAP_ALIGNMENT; lia).
    rewrite round_up_8 in * by (unfold Heap.HEAP_ALIGNMENT; lia).
    unfold Heap.HEAP_ALIGNMENT in Hnone. change (8 - 1) with 7 in Hnone.
    destruct Hnone as [Hf|Hsmall].
    + left. apply negb_false_iff in Hf. apply Z.eqb_eq. exact Hf.
    + right. apply Z.leb_gt. exact Hsmall.
Qed.

Lemma kmalloc_allocates_witness :
  match Heap.kmalloc (Heap.heap_init 1048577) 100 with
  | (Some ptr, heap') =>
    exists before after sz,
      Heap.allocated (Heap.heap_init 1048577) = before ++ after
      /\ Heap.allocated heap' = before ++ (ptr, sz) :: after
      /\ 100 <= sz
      /\ Heap.heap_start (Heap.heap_init 1048577) + Heap.BLOCK_SIZE <= ptr
      /\ ptr + sz <= Heap.heap_start (Heap.heap_init 1048577) + Heap.HEAP_SIZE
      /\ Heap.regions_apart (Heap.allocated heap')
      /\ Heap.heap_start heap' = Heap.heap_start (Heap.heap_init 1048577)
  | (None, heap') =>
    heap' = Heap.heap_init 1048577
    /\ forall block, In block (Heap.free_list (Heap.heap_init 1048577)) ->
         Heap.hb_free block = 0 \/ Heap.hb_size block < 8 * ((100 + 7) / 8)
  end.
Proof.
  apply (kmalloc_allocates (Heap.heap_init 1048577) 100).
  - vm_compute. reflexivity.
  - lia.
Defined.

(** X9.  [kfree] of a region in use takes exactly that region out of
    the regions in use, keeps the tiling of the heap and leaves no free
    block followed by a free block. *)
Theorem kfree_releases heap ptr sz :
  Heap.heap_ok heap = true -> In (ptr, sz) (Heap.allocated heap) ->
  exists heap' before after,
    Heap.kfree heap ptr = Some heap'
    /\ Heap.allocated heap = before ++ (ptr, sz) :: after
    /\ Heap.allocated heap' = before ++ after
    /\ Heap.coalesced (Heap.free_list heap') = true
    /\ Heap.heap_ok heap' = true.
Proof.
  intros Hok Hin.
  destruct (heap_ok_facts heap Hok) as (Hs & He & Hsz & Hspan).
  unfold Heap.allocated in *.
  destruct (used_blocks_in _ _ _ _ Hin) as (pre & block & post & Hl & Hf & Hsize & Hptr).
  rewrite Hl in Hsz, Hspan. rewrite span_app in Hspan. cbn [Heap.span] in Hspan.
  pose proof Hsz as Hall.
  apply sizes_ok_app in Hsz. destruct Hsz as [Hpre Hbp].
  inversion Hbp as [|? ? Hb Hpost]; subst.
  pose proof (span_nonneg pre Hpre). pose proof (span_nonneg post Hpost).
  set (blocks := pre ++ Heap.mk_block (Heap.hb_size block) 1 :: post).
  assert (Hmark : Heap.mark_free (Heap.free_list heap) (Heap.heap_start heap)
                    (Heap.heap_start heap + Heap.span pre + Heap.BLOCK_SIZE
                     - Heap.BLOCK_SIZE) = Some blocks).
  { rewrite Hl.
    replace (Heap.heap_start heap + Heap.span pre + Heap.BLOCK_SIZE - Heap.BLOCK_SIZE)
      with (Heap.heap_start heap + Heap.span pre) by lia.
    apply mark_free_spec. exact Hpre. }
  assert (Hbsz : Heap.sizes_ok blocks).
  { apply sizes_ok_app. split; [exact Hpre|]. constructor; assumption. }
  assert (Hbspan : Heap.span blocks = Heap.HEAP_SIZE).
  { unfold blocks. rewrite span_app. cbn [Heap.span Heap.hb_size]. lia. }
  destruct (coalesce_keeps (length blocks) blocks (Heap.heap_start heap) Hbsz
              ltac:(lia)) as (H1 & H2 & H3).
  exists (Heap.mk_heap (Heap.heap_start heap) (Heap.coalesce (length blocks) blocks)),
    (Heap.used_blocks (Heap.heap_start heap) pre),
    (Heap.used_blocks (Heap.heap_start heap + Heap.span pre
                       + Heap.BLOCK_SIZE + Heap.hb_size block) post).
  split.
  { unfold Heap.kfree. unfold Heap.BLOCK_SIZE in *.
    destruct (Z.eqb_spec (Heap.heap_start heap + Heap.span pre + 12) 0); [lia|].
    rewrite Hmark. reflexivity. }
  split.
  { rewrite Hl, used_blocks_app. cbn [Heap.used_blocks]. rewrite Hf. reflexivity. }
  split.
  { cbn [Heap.heap_start Heap.free_list]. rewrite H3. unfold blocks.
    rewrite used_blocks_app. cbn [Heap.used_blocks Heap.hb_free Heap.hb_size].
    reflexivity. }
  split.
  { cbn [Heap.free_list]. apply coalesce_coalesced. lia. }
  apply heap_ok_intro; try assumption. lia.
Qed.

Lemma kfree_releases_witness :
  exists heap' before after,
    Heap.kfree (snd (Heap.kmalloc (Heap.heap_init 1048577) 100)) 1048596 = Some heap'
    /\ Heap.allocated (snd (Heap.kmalloc (Heap.heap_init 1048577) 100))
       = before ++ (1048596, 104) :: after
    /\ Heap.allocated heap' = before ++ after
    /\ Heap.coalesced (Heap.free_list heap') = true
    /\ Heap.heap_ok heap' = true.
Proof.
  apply (kfree_releases (snd (Heap.kmalloc (Heap.heap_init 1048577) 100)) 1048596 104).
  - vm_compute. reflexivity.
  - vm_compute. left. reflexivity.
Defined.

Lemma coalesced_app_inv l1 l2 :
  Heap.coalesced (l1 ++ l2) = true ->
  Heap.coalesced (l1 ++ take 1 l2) = true /\ Heap.coalesced l2 = true.
Proof.
  induction l1 as [|b l1 IH]; intros H.
  - simpl. split; [|exact H]. destruct l2 as [|c l2]; reflexivity.
  - change ((b :: l1) ++ l2) with (b :: (l1 ++ l2)) in H.
    change ((b :: l1) ++ take 1 l2) with (b :: (l1 ++ take 1 l2)).
    cbn [Heap.coalesced] in H |- *.
    destruct (l1 ++ l2) as [|c rest] eqn:E.
    + apply app_eq_nil in E. destruct E as [-> ->]. simpl. auto.
    + apply andb_prop in H. destruct H as [Hm Hc].
      destruct (IH Hc) as [H1 H2]. split; [|exact H2].
      assert (Hhead : exists rest', l1 ++ take 1 l2 = c :: rest').
      { destruct l1 as [|p l1'].
        - simpl in E. subst l2. simpl. eauto.
        - simpl in E. injection E as -> _. simpl. eauto. }
      destruct Hhead as (rest' & Eh). rewrite Eh in *.
      rewrite Hm, H1. reflexivity.
Qed.

Lemma coalesce_merge fuel b c rest :
  Heap.hb_free b <> 0 -> Heap.hb_free c <> 0 ->
  Heap.coalesce (S fuel) (b :: c :: rest)
  = Heap.coalesce fuel
      (Heap.mk_block (u32 (Heap.hb_size b + u32 (Heap.BLOCK_SIZE + Heap.hb_size c)))
                     (Heap.hb_free b) :: rest).
Proof.
  intros Hb Hc. cbn [Heap.coalesce].
  destruct (Z.eqb_spec (Heap.hb_free b) 0); [contradiction|].
  destruct (Z.eqb_spec (Heap.hb_free c) 0); [contradiction|].
  reflexivity.
Qed.

Lemma coalesced_snoc_flag pre x x' :
  Heap.hb_free x' = Heap.hb_free x ->
  Heap.coalesced (pre ++ [x]) = true -> Heap.coalesced (pre ++ [x']) = true.
Proof.
  intros Hf. induction pre as [|b pre IH]; intros H; [reflexivity|].
  destruct pre as [|c pre'].
  - simpl in *. rewrite Hf. exact H.
  - change (Heap.coalesced (b :: c :: (pre' ++ [x])) = true) in H.
    change (Heap.coalesced (b :: c :: (pre' ++ [x'])) = true).
    cbn [Heap.coalesced] in H |- *.
    apply andb_prop in H. destruct H as [Hm Hc].
    rewrite Hm. simpl. apply IH. exact Hc.
Qed.

(** X10.  On a heap in which no free block is followed by a free block,
    [kfree] of the pointer that [kmalloc] has just returned gives back
    the heap as it was before the allocation. *)
Theorem kmalloc_kfree_round_trip heap n ptr heap' :
  Heap.heap_ok heap = true ->
  Heap.coalesced (Heap.free_list heap) = true ->
  Heap.flags_ok (Heap.free_list heap) = true ->
  0 < n < 4294967296 ->
  Heap.kmalloc heap n = (Some ptr, heap') ->
  Heap.kfree heap' ptr = Some heap.
Proof.
  intros Hok Hco Hflags Hn Hk.
  destruct (heap_ok_facts heap Hok) as (Hs & He & Hsz & Hspan).
  destruct (kmalloc_rounded n Hn) as (Hr & _).
  pose proof (kmalloc_spec heap n Hok Hn) as Hspec. cbv zeta in Hspec.
  rewrite Hk in Hspec.
  destruct Hspec as (pre & block & post & Hl & _ & Hfit & Hptr & ->).
  set (size := Z.land (u32 (n + (Heap.HEAP_ALIGNMENT - 1)))
                      (u32 (Z.lnot (Heap.HEAP_ALIGNMENT - 1)))) in *.
  rewrite Hl in Hsz, Hspan, Hco, Hflags.
  rewrite span_app in Hspan. cbn [Heap.span] in Hspan.
  apply sizes_ok_app in Hsz. destruct Hsz as [Hpre Hbp].
  inversion Hbp as [|? ? Hb Hpost]; subst.
  pose proof (span_nonneg pre Hpre). pose proof (span_nonneg post Hpost).
  assert (Hfree : Heap.hb_free block = 1).
  { unfold Heap.flags_ok in Hflags. rewrite forallb_app in Hflags.
    apply andb_prop in Hflags. destruct Hflags as [_ Hflags].
    simpl in Hflags. apply andb_prop in Hflags. destruct Hflags as [Hflag _].
    rewrite (fits_free _ _ Hfit) in Hflag. simpl in Hflag.
    apply Z.eqb_eq. exact Hflag. }
  assert (Hle : size <= Heap.hb_size block).
  { unfold Heap.fits in Hfit. apply andb_prop in Hfit. apply Z.leb_le. apply Hfit. }
  destruct (coalesced_app_inv _ _ Hco) as [Hco1 Hco2].
  unfold Heap.kfree. cbn [Heap.heap_start Heap.free_list].
  unfold Heap.BLOCK_SIZE, Heap.HEAP_SIZE in *.
  destruct (Z.eqb_spec (Heap.heap_start heap + Heap.span pre + 12) 0); [lia|].
  replace (Heap.heap_start heap + Heap.span pre + 12 - 12)
    with (Heap.heap_start heap + Heap.span pre) by lia.
  assert (Hblock : block = Heap.mk_block (Heap.hb_size block) 1).
  { destruct block as [s f]. simpl in Hfree. subst f. reflexivity. }
  unfold Heap.taken.
  destruct (Z.leb_spec (size + 20) (Heap.hb_size block)) as [Hsplit|Hwhole].
  - change (pre ++ [Heap.mk_block size 0;
                    Heap.mk_block (Heap.hb_size block - size - 12) 1] ++ post)
      with (pre ++ Heap.mk_block size 0
                :: (Heap.mk_block (Heap.hb_size block - size - 12) 1 :: post)).
    rewrite mark_free_spec by exact Hpre. cbn [Heap.hb_size].
    rewrite length_app. cbn [length].
    rewrite coalesce_prefix
      by (simpl take; simpl take in Hco1;
          eapply coalesced_snoc_flag; [|exact Hco1]; simpl; rewrite Hfree;
          reflexivity).
    rewrite coalesce_merge by (simpl; lia).
    cbn [Heap.hb_free Heap.hb_size]. unfold Heap.BLOCK_SIZE.
    rewrite (u32_small (12 + (Heap.hb_size block - size - 12))) by lia.
    rewrite (u32_small (size + (12 + (Heap.hb_size block - size - 12)))) by lia.
    replace (size + (12 + (Heap.hb_size block - size - 12)))
      with (Heap.hb_size block) by lia.
    rewrite <- Hblock. rewrite coalesce_id by exact Hco2.
    rewrite <- Hl. destruct heap; reflexivity.
  - change (pre ++ [Heap.mk_block (Heap.hb_size block) 0] ++ post)
      with (pre ++ Heap.mk_block (Heap.hb_size block) 0 :: post).
    rewrite mark_free_spec by exact Hpre. cbn [Heap.hb_size].
    rewrite <- Hblock. rewrite length_app.
    rewrite coalesce_prefix by exact Hco1.
    rewrite coalesce_id by exact Hco2.
    rewrite <- Hl. destruct heap; reflexivity.
Qed.

Lemma kmalloc_kfree_round_trip_witness :
  Heap.kfree (Heap.mk_heap 1048584 [Heap.mk_block 104 0; Heap.mk_block 524160 1])
             1048596
  = Some (Heap.heap_init 1048577).
Proof.
  apply (kmalloc_kfree_round_trip (Heap.heap_init 1048577) 100).
  - vm_compute. reflexivity.
  - vm_compute. reflexivity.
  - vm_compute. reflexivity.
  - lia.
  - vm_compute. reflexivity.
Defined.

(** X11.  A request of more than 4294967288 bytes wraps to 0 when it is
    rounded up to 8 bytes: if the heap has a free block, [kmalloc]
    returns a pointer, to a region of fewer than 20 bytes. *)
Theorem kmalloc_size_wraps heap n block :
  Heap.heap_ok heap = true -> 4294967288 < n < 4294967296 ->
  In block (Heap.free_list heap) -> Heap.hb_free block <> 0 ->
  exists ptr heap' sz,
    Heap.kmalloc heap n = (Some ptr, heap')
    /\ In (ptr, sz) (Heap.allocated heap') /\ sz < 20.
Proof.
  intros Hok Hn Hin Hfree.
  destruct (heap_ok_facts heap Hok) as (Hs & He & Hsz & Hspan).
  destruct (kmalloc_rounded n ltac:(lia)) as (_ & _ & Hzero).
  specialize (Hzero ltac:(lia)).
  pose proof (kmalloc_spec heap n Hok ltac:(lia)) as Hspec. cbv zeta in Hspec.
  rewrite Hzero in Hspec.
  destruct (Heap.kmalloc heap n) as [[ptr|] heap'].
  - destruct Hspec as (pre & b & post & Hl & _ & Hfit & Hptr & ->).
    exists ptr. eexists.
    exists (if 0 + 20 <=? Heap.hb_size b then 0 else Heap.hb_size b).
    split; [reflexivity|].
    split.
    + unfold Heap.allocated. cbn [Heap.heap_start Heap.free_list].
      rewrite used_blocks_app. apply in_or_app. right.
      rewrite used_blocks_app. apply in_or_app. left.
      unfold Heap.taken. rewrite Hptr.
      destruct (0 + 20 <=? Heap.hb_size b); left; reflexivity.
    + destruct (Z.leb_spec (0 + 20) (Heap.hb_size b)); lia.
  - destruct Hspec as [_ Hnone]. exfalso.
    rewrite Forall_forall in Hnone.
    specialize (Hnone block ltac:(apply list_elem_of_In; exact Hin)).
    unfold Heap.fits in Hnone. apply andb_false_iff in Hnone.
    unfold Heap.sizes_ok in Hsz. rewrite Forall_forall in Hsz.
    specialize (Hsz block ltac:(apply list_elem_of_In; exact Hin)).
    destruct Hnone as [Hf|Hsmall].
    + apply negb_false_iff in Hf. apply Z.eqb_eq in Hf. contradiction.
    + apply Z.leb_gt in Hsmall. lia.
Qed.

Lemma kmalloc_size_wraps_witness :
  exists ptr heap' sz,
    Heap.kmalloc (Heap.heap_init 1048577) 4294967290 = (Some ptr, heap')
    /\ In (ptr, sz) (Heap.allocated heap') /\ sz < 20.
Proof.
  apply (kmalloc_size_wraps (Heap.heap_init 1048577) 4294967290
           (Heap.mk_block (Heap.HEAP_SIZE - Heap.BLOCK_SIZE) 1)).
  - vm_compute. reflexivity.
  - lia.
  - simpl. left. reflexivity.
  - simpl. lia.
Defined.

(** ** Inodes *)

(** X12.  [ext2_write_inode] either fails and leaves the file system as it
    was, or stores the inode so that [ext2_read_inode] returns it; every
    inode in another slot of the inode tables reads as before. *)
Theorem write_inode_read_back fs n ino :
  fs_geom fs = true -> length ino = 128%nat ->
  match ext2_write_inode fs n ino with
  | (r, fs') =>
    (r = -1 /\ fs' = fs /\ inode_ok fs n = false)
    \/ (r = 0 /\ fs_geom fs' = true
        /\ ext2_read_inode fs' n = Some ino
        /\ forall m,
             blk_addr fs (inode_block fs m) <> blk_addr fs (inode_block fs n)
             \/ inode_slot fs m <> inode_slot fs n ->
             ext2_read_inode fs' m = ext2_read_inode fs m)
  end.
Proof.
  intros Hgeom Hlen.
  pose proof (write_inode_spec fs n ino Hgeom Hlen) as Hw.
  destruct (inode_ok fs n) eqn:Hok; rewrite Hw; [right|left; auto].
  destruct (read_inode_after_write fs n ino _ Hgeom Hlen Hok Hw) as [Hgeom' Hread].
  split; [reflexivity|]. split; [exact Hgeom'|]. split; [exact Hread|].
  intros m Hm.
  rewrite !read_inode_spec by assumption.
  set (fs' := disk_put fs (inode_block fs n)
                (list_inserts (Z.to_nat (inode_slot fs n)) ino
                   (blk_data fs (inode_block fs n)))).
  change (inode_ok fs' m) with (inode_ok fs m).
  destruct (inode_ok fs m) eqn:Hokm; [|reflexivity].
  f_equal. unfold inode_at.
  change (inode_block fs' m) with (inode_block fs m).
  change (inode_slot fs' m) with (inode_slot fs m).
  unfold inode_ok in Hok, Hokm.
  apply andb_prop in Hok. destruct Hok as [_ Hblk].
  apply andb_prop in Hokm. destruct Hokm as [_ Hblkm].
  pose proof (length_blk_data fs Hgeom _ Hblk) as Hlb.
  pose proof (inode_slot_bound fs n Hgeom) as Hsn.
  pose proof (inode_slot_bound fs m Hgeom) as Hsm.
  unfold INODE_SIZE in *.
  destruct (Z.eq_dec (blk_addr fs (inode_block fs m)) (blk_addr fs (inode_block fs n)))
    as [Heq|Hne].
  - assert (Hslot : inode_slot fs m <> inode_slot fs n) by (destruct Hm; congruence).
    assert (E1 : blk_data fs' (inode_block fs m) = blk_data fs' (inode_block fs n)).
    { unfold blk_data.
      change (blk_addr fs' (inode_block fs m)) with (blk_addr fs (inode_block fs m)).
      change (blk_addr fs' (inode_block fs n)) with (blk_addr fs (inode_block fs n)).
      rewrite Heq. reflexivity. }
    assert (E2 : blk_data fs (inode_block fs m) = blk_data fs (inode_block fs n)).
    { unfold blk_data. rewrite Heq. reflexivity. }
    rewrite E1, E2. unfold fs'.
    rewrite blk_data_disk_put_same;
      [|assumption|assumption|rewrite length_inserts; assumption].
    apply slice_inserts_disjoint.
    unfold inode_slot, INODE_SIZE in *.
    set (a := (u32 (m - 1) mod inodes_per_group fs) mod (block_size fs / 128)) in *.
    set (b := (u32 (n - 1) mod inodes_per_group fs) mod (block_size fs / 128)) in *.
    assert (a <> b) by (intros E; apply Hslot; rewrite E; reflexivity).
    lia.
  - unfold fs'. rewrite blk_data_disk_put_other;
      [reflexivity|assumption|rewrite length_inserts; assumption|assumption].
Qed.

Lemma write_inode_read_back_witness :
  match ext2_write_inode img_fs 11 (inode_rec 33188 7 1 (le32 9)) with
  | (r, fs') =>
    (r = -1 /\ fs' = img_fs /\ inode_ok img_fs 11 = false)
    \/ (r = 0 /\ fs_geom fs' = true
        /\ ext2_read_inode fs' 11 = Some (inode_rec 33188 7 1 (le32 9))
        /\ forall m,
             blk_addr img_fs (inode_block img_fs m)
             <> blk_addr img_fs (inode_block img_fs 11)
             \/ inode_slot img_fs m <> inode_slot img_fs 11 ->
             ext2_read_inode fs' m = ext2_read_inode img_fs m)
  end.
Proof.
  apply (write_inode_read_back img_fs 11 (inode_rec 33188 7 1 (le32 9))).
  - vm_compute. reflexivity.
  - vm_compute. reflexivity.
Defined.

(** X13.  For a path that resolves to an inode, [vfs_chown] stores the low
    16 bits of the user and group arguments and the current time as
    ctime; mode, size, links count and the fifteen block pointers are
    unchanged.  A path that does not resolve is refused and nothing
    changes. *)
Theorem vfs_chown_frame fs path uid gid ticks :
  fs_geom fs = true ->
  match ext2_read_inode fs (ext2_path_to_inode fs path) with
  | Some ino =>
    exists fs' ino',
      vfs_chown (Some fs) path uid gid ticks = (0, Some fs') /\
      ext2_read_inode fs' (ext2_path_to_inode fs path) = Some ino' /\
      i_uid ino' = u16 uid /\ i_gid ino' = u16 gid /\
      i_ctime ino' = u32 (ticks / 100) /\
      i_mode ino' = i_mode ino /\ i_size ino' = i_size ino /\
      i_links_count ino' = i_links_count ino /\
      (forall k, 0 <= k < 15 -> i_block ino' k = i_block ino k)
  | None => vfs_chown (Some fs) path uid gid ticks = (-1, Some fs)
  end.
Proof.
  intros Hgeom. set (n := ext2_path_to_inode fs path).
  destruct (ext2_read_inode fs n) as [ino|] eqn:Hread.
  - destruct (read_inode_ok fs n ino Hgeom Hread) as [Hok Hlen].
    set (ino' := set_i_ctime (set_i_gid (set_i_uid ino uid) gid) (ticks / 100)).
    assert (Hlen' : length ino' = 128%nat).
    { unfold ino', set_i_ctime, set_i_gid, set_i_uid.
      rewrite length_set_u32, !length_set_u16. exact Hlen. }
    pose proof (write_inode_spec fs n ino' Hgeom Hlen') as Hw. rewrite Hok in Hw.
    assert (Hnz : n <> 0).
    { intros E. unfold inode_ok in Hok. rewrite E in Hok. discriminate. }
    eexists. exists ino'.
    split.
    { unfold vfs_chown. fold n. destruct (Z.eqb_spec n 0); [contradiction|].
      rewrite Hread. fold ino'. rewrite Hw. reflexivity. }
    split; [apply (read_inode_after_write fs n ino' _ Hgeom Hlen' Hok Hw)|].
    unfold ino', i_uid, i_gid, i_ctime, i_mode, i_size, i_links_count, i_block,
      I_BLOCK_OFF, set_i_ctime, set_i_gid, set_i_uid.
    split.
    { rewrite get_u16_set_u32_ne by lia. rewrite get_u16_set_u16_ne by lia.
      rewrite get_u16_set_u16 by lia. reflexivity. }
    split.
    { rewrite get_u16_set_u32_ne by lia.
      rewrite get_u16_set_u16 by (rewrite ?length_set_u16; lia). reflexivity. }
    split.
    { rewrite get_u32_set_u32 by (rewrite ?length_set_u16; lia). reflexivity. }
    repeat split; intros;
      rewrite ?get_u16_set_u32_ne, ?get_u32_set_u32_ne by lia;
      rewrite ?get_u16_set_u16_ne, ?get_u32_set_u16_ne by lia; reflexivity.
  - unfold vfs_chown. fold n. rewrite Hread.
    destruct (n =? 0); reflexivity.
Qed.

Lemma vfs_chown_frame_witness :
  match ext2_read_inode img_fs (ext2_path_to_inode img_fs path_f) with
  | Some ino =>
    exists fs' ino',
      vfs_chown (Some img_fs) path_f 70000 5 1000 = (0, Some fs') /\
      ext2_read_inode fs' (ext2_path_to_inode img_fs path_f) = Some ino' /\
      i_uid ino' = u16 70000 /\ i_gid ino' = u16 5 /\
      i_ctime ino' = u32 (1000 / 100) /\
      i_mode ino' = i_mode ino /\ i_size ino' = i_size ino /\
      i_links_count ino' = i_links_count ino /\
      (forall k, 0 <= k < 15 -> i_block ino' k = i_block ino k)
  | None => vfs_chown (Some img_fs) path_f 70000 5 1000 = (-1, Some img_fs)
  end.
Proof.
  apply (vfs_chown_frame img_fs path_f 70000 5 1000).
  vm_compute. reflexivity.
Defined.

(** ** Reading at a position *)

Lemma file_wf_facts fs ino :
  fs_geom fs = true -> file_wf fs ino = true ->
  0 <= i_size ino < 2147483648 /\ i_size ino <= 12 * block_size fs
  /\ forall j, 0 <= j -> j * block_size fs < i_size ino ->
       i_block ino j <> 0 /\ blk_ok fs (i_block ino j) = true.
Proof.
  intros Hgeom Hwf. destruct (geom_facts fs Hgeom) as (Hbs & _).
  unfold file_wf in Hwf.
  apply andb_prop in Hwf. destruct Hwf as [Hwf Hall].
  apply andb_prop in Hwf. destruct Hwf as [Hsz Hnb].
  apply andb_prop in Hsz. destruct Hsz as [H0 Hsz].
  apply Z.leb_le in H0. apply Z.ltb_lt in Hsz. apply Z.leb_le in Hnb.
  split; [lia|]. split; [exact Hnb|].
  intros j Hj Hlt.
  assert (Hjn : j < (i_size ino + block_size fs - 1) / block_size fs).
  { assert (j + 1 <= (i_size ino + block_size fs - 1) / block_size fs); [|lia].
    apply Z.div_le_lower_bound; [lia|]. nia. }
  rewrite forallb_forall in Hall.
  specialize (Hall (i_block ino j)).
  assert (Hin : In (i_block ino j) (write_ptrs fs ino (i_size ino))).
  { unfold write_ptrs, write_nblocks.
    apply in_map_iff. exists (Z.to_nat j). split; [f_equal; lia|].
    apply in_seq. lia. }
  specialize (Hall Hin). apply andb_prop in Hall. destruct Hall as [Hnz Hok].
  split; [|exact Hok]. apply negb_true_iff in Hnz. apply Z.eqb_neq. exact Hnz.
Qed.

Section ReadAt.

Variable fs : ext2_fs_t.
Variable ino : list Z.
Variable offset size : Z.
Hypothesis Hgeom : fs_geom fs = true.
Hypothesis Hoffset : 0 <= offset.
Hypothesis Hsize : 0 <= size.
Hypothesis Hend : offset + size < 2147483648.
Hypothesis Hdirect : offset + size <= 12 * block_size fs.
Hypothesis Hblocks :
  forall j, 0 <= j -> j * block_size fs < offset + size ->
    i_block ino j <> 0 /\ blk_ok fs (i_block ino j) = true.

Lemma read_file_loop_at fuel : forall br (out : list Z),
  0 <= br <= size ->
  (Z.to_nat (size - br) <= fuel)%nat ->
  size <= Z.of_nat (length out) ->
  exists out',
    read_file_loop fuel fs ino offset size br out = (size, out')
    /\ length out' = length out
    /\ (forall i, br <= i < size ->
          out' !! Z.to_nat i = file_at fs ino (offset + i))
    /\ (forall i, (i < Z.to_nat br \/ Z.to_nat size <= i)%nat -> out' !! i = out !! i).
Proof.
  destruct (geom_facts fs Hgeom) as (Hbs & _).
  induction fuel as [|fuel IH]; intros br out Hbr Hfuel Hout.
  - assert (br = size) by lia. subst br. exists out. simpl.
    rewrite to_int_small by lia.
    split; [reflexivity|]. split; [reflexivity|].
    split; intros i Hi; [lia|reflexivity].
  - simpl. destruct (Z.ltb_spec br size) as [Hlt|Hge].
    2:{ assert (br = size) by lia. subst br. exists out.
        rewrite to_int_small by lia.
        split; [reflexivity|]. split; [reflexivity|].
        split; intros i Hi; [lia|reflexivity]. }
    rewrite (u32_small (offset + br)) by lia.
    rewrite kmalloc_block by assumption.
    set (q := (offset + br) / block_size fs).
    set (r := (offset + br) mod block_size fs).
    assert (Hqr : offset + br = block_size fs * q + r)
      by (apply Z.div_mod; lia).
    assert (Hr : 0 <= r < block_size fs) by (apply Z.mod_pos_bound; lia).
    assert (Hq : 0 <= q < 12).
    { split; [apply Z.div_pos; lia|]. apply Z.div_lt_upper_bound; lia. }
    destruct (Hblocks q ltac:(lia) ltac:(nia)) as [Hnz Hok].
    rewrite read_data_block_direct
      by (try assumption; rewrite length_replicate; lia).
    destruct (Z.eqb_spec (i_block ino q) 0); [contradiction|].
    rewrite Hok. simpl orb. cbv iota. simpl negb. cbv iota.
    set (cnt := if size - br <? block_size fs - r then size - br
                else block_size fs - r).
    assert (Hn : 0 < cnt /\ cnt <= block_size fs - r /\ br + cnt <= size).
    { unfold cnt. destruct (Z.ltb_spec (size - br) (block_size fs - r)); lia. }
    destruct Hn as (Hn1 & Hn2 & Hn3).
    pose proof (length_blk_data fs Hgeom _ Hok) as Hblen.
    set (blk := blk_data fs (i_block ino q)) in *.
    set (out1 := memcpy_local out br blk r cnt).
    destruct (IH (br + cnt) out1 ltac:(lia) ltac:(lia)
                ltac:(unfold out1; rewrite length_memcpy_local; lia))
      as (out' & Hloop & Hlen' & Hin & Hout').
    exists out'. split; [exact Hloop|].
    split; [rewrite Hlen'; unfold out1; apply length_memcpy_local|].
    assert (Htl : length (take (Z.to_nat cnt) (drop (Z.to_nat r) blk)) = Z.to_nat cnt).
    { rewrite length_slice; lia. }
    split.
    + intros i Hi.
      destruct (Z.lt_ge_cases i (br + cnt)) as [Hi1|Hi1].
      * rewrite Hout' by lia. unfold out1, memcpy_local.
        rewrite list_lookup_inserts by lia.
        rewrite lookup_slice by lia.
        unfold file_at.
        assert (Hq' : (offset + i) / block_size fs = q).
        { symmetry. apply Z.div_unique with (r := r + (i - br)); lia. }
        assert (Hr' : (offset + i) mod block_size fs = r + (i - br)).
        { symmetry. apply Z.mod_unique with (q := q); lia. }
        rewrite Hq', Hr'. fold blk. f_equal. lia.
      * apply Hin. lia.
    + intros i Hi. rewrite Hout' by lia. unfold out1, memcpy_local.
      destruct Hi as [Hi|Hi].
      * apply list_lookup_inserts_lt. lia.
      * apply list_lookup_inserts_ge. lia.
Qed.

End ReadAt.

(** [ext2_read_file] on a file with direct blocks: the bytes from
    [offset] on, cut at the end of the file. *)
Lemma read_file_at fs ino offset size (buf : list Z) :
  fs_geom fs = true -> file_wf fs ino = true ->
  0 <= offset -> 0 <= size < 2147483648 -> size <= Z.of_nat (length buf) ->
  let cnt := Z.max 0 (Z.min size (i_size ino - offset)) in
  exists out,
    ext2_read_file fs ino offset size buf = (cnt, out)
    /\ length out = length buf
    /\ (forall i, 0 <= i < cnt -> out !! Z.to_nat i = file_at fs ino (offset + i))
    /\ (forall i, (Z.to_nat cnt <= i)%nat -> out !! i = buf !! i).
Proof.
  intros Hgeom Hwf Hoff Hsize Hbuf cnt.
  destruct (file_wf_facts fs ino Hgeom Hwf) as (Hisz & Hdirect & Hblocks).
  unfold ext2_read_file.
  destruct (Z.leb_spec (i_size ino) offset) as [Heof|Hin].
  { exists buf. replace cnt with 0 by (unfold cnt; lia).
    split; [reflexivity|]. split; [reflexivity|].
    split; [intros; lia|reflexivity]. }
  rewrite (u32_small (offset + size)) by lia.
  assert (Hc : (if i_size ino <? offset + size then i_size ino - offset else size) = cnt).
  { unfold cnt. destruct (Z.ltb_spec (i_size ino) (offset + size)); lia. }
  rewrite Hc.
  assert (Hcnt : 0 <= cnt /\ cnt <= size /\ offset + cnt <= i_size ino)
    by (unfold cnt; lia).
  destruct (read_file_loop_at fs ino offset cnt Hgeom Hoff ltac:(lia) ltac:(lia)
              ltac:(lia) ltac:(intros j Hj Hlt; apply Hblocks; lia)
              (Z.to_nat cnt) 0 buf ltac:(lia) ltac:(lia) ltac:(lia))
    as (out & Hloop & Hlen & Hdata & Hrest).
  exists out. split; [exact Hloop|]. split; [exact Hlen|].
  split; [exact Hdata|]. intros i Hi. apply Hrest. lia.
Qed.

(** X14.  [vfs_read] through an open handle on a file with direct blocks
    returns the bytes of the file from the handle's position on, as many
    as were asked for and are left before the end of the file, and
    advances the position by that count; the rest of the buffer keeps
    its bytes.  At or behind the end of the file it returns 0 and changes
    nothing; otherwise it stores the file's inode with the access time
    set. *)
Theorem vfs_read_at_position fs file buf n ticks ino :
  fs_geom fs = true -> f_is_open file <> 0 ->
  ext2_read_inode fs (f_inode file) = Some ino -> file_wf fs ino = true ->
  0 <= f_position file -> 0 <= n < 2147483648 -> n <= Z.of_nat (length buf) ->
  let cnt := Z.max 0 (Z.min n (i_size ino - f_position file)) in
  exists out fs',
    vfs_read (Some fs) file buf n ticks
    = (cnt, out, Some fs',
       mk_file (f_inode file) (f_size file) (f_type file)
               (f_position file + cnt) (f_is_open file))
    /\ length out = length buf
    /\ (forall i, 0 <= i < cnt ->
          out !! Z.to_nat i = file_at fs ino (f_position file + i))
    /\ (forall i, (Z.to_nat cnt <= i)%nat -> out !! i = buf !! i)
    /\ (cnt = 0 -> fs' = fs)
    /\ (0 < cnt ->
        ext2_read_inode fs' (f_inode file) = Some (set_i_atime ino (ticks / 100))).
Proof.
  intros Hgeom Hopen Hread Hwf Hpos Hn Hbuf cnt.
  destruct (file_wf_facts fs ino Hgeom Hwf) as (Hisz & _ & _).
  destruct (read_inode_ok fs _ ino Hgeom Hread) as [Hok Hlen].
  destruct (read_file_at fs ino (f_position file) n buf Hgeom Hwf Hpos Hn Hbuf)
    as (out & Hrf & Hlen' & Hdata & Hrest).
  fold cnt in Hrf, Hdata, Hrest.
  assert (Hcnt : 0 <= cnt) by (unfold cnt; lia).
  unfold vfs_read. destruct (Z.eqb_spec (f_is_open file) 0); [contradiction|].
  rewrite Hread, Hrf.
  destruct (Z.ltb_spec 0 cnt) as [Hgt|Hzero].
  - assert (Hlen2 : length (set_i_atime ino (ticks / 100)) = 128%nat).
    { unfold set_i_atime. rewrite length_set_u32. exact Hlen. }
    pose proof (write_inode_spec fs (f_inode file) _ Hgeom Hlen2) as Hw.
    rewrite Hok in Hw. rewrite Hw.
    rewrite (u32_small (f_position file + cnt)) by (unfold cnt in *; lia).
    exists out. eexists. split; [reflexivity|]. split; [exact Hlen'|].
    split; [exact Hdata|]. split; [exact Hrest|].
    split; [lia|]. intros _.
    apply (read_inode_after_write fs (f_inode file) _ _ Hgeom Hlen2 Hok Hw).
  - assert (E : cnt = 0) by lia. rewrite E in *.
    exists out, fs. rewrite Z.add_0_r. destruct file as [fi fsz ft fp fo].
    split; [reflexivity|]. split; [exact Hlen'|].
    split; [exact Hdata|]. split; [exact Hrest|].
    split; [reflexivity|]. intros; lia.
Qed.

Lemma vfs_read_at_position_witness :
  exists out fs',
    vfs_read (Some img_fs) (mk_file 11 2000 VFS_TYPE_FILE 1500 1)
             (replicate 1000 0) 1000 700
    = (Z.max 0 (Z.min 1000 (i_size img_f_inode - 1500)), out, Some fs',
       mk_file 11 2000 VFS_TYPE_FILE
               (1500 + Z.max 0 (Z.min 1000 (i_size img_f_inode - 1500))) 1)
    /\ length out = length (replicate 1000 0)
    /\ (forall i, 0 <= i < Z.max 0 (Z.min 1000 (i_size img_f_inode - 1500)) ->
          out !! Z.to_nat i = file_at img_fs img_f_inode (1500 + i))
    /\ (forall i, (Z.to_nat (Z.max 0 (Z.min 1000 (i_size img_f_inode - 1500))) <= i)%nat ->
          out !! i = replicate 1000 0 !! i)
    /\ (Z.max 0 (Z.min 1000 (i_size img_f_inode - 1500)) = 0 -> fs' = img_fs)
    /\ (0 < Z.max 0 (Z.min 1000 (i_size img_f_inode - 1500)) ->
        ext2_read_inode fs' 11 = Some (set_i_atime img_f_inode (700 / 100))).
Proof.
  apply (vfs_read_at_position img_fs (mk_file 11 2000 VFS_TYPE_FILE 1500 1)
           (replicate 1000 0) 1000 700 img_f_inode).
  - vm_compute. reflexivity.
  - simpl. lia.
  - vm_compute. reflexivity.
  - vm_compute. reflexivity.
  - simpl. lia.
  - lia.
  - vm_compute. discriminate.
Defined.

(** ** Slashes in a path *)

Lemma path_loop_slash fs b component current_inode :
  path_loop fs (slash :: b) component current_inode
  = if 0 <? Z.of_nat (length component) then
      match path_step fs current_inode component with
      | None => 0
      | Some ino => path_loop fs b [] ino
      end
    else path_loop fs b component current_inode.
Proof. reflexivity. Qed.

Lemma path_loop_nil fs component current_inode :
  path_loop fs [] component current_inode
  = if 0 <? Z.of_nat (length component) then
      match path_step fs current_inode component with
      | None => 0
      | Some ino => ino
      end
    else current_inode.
Proof. reflexivity. Qed.

Lemma path_loop_double_slash fs a b : forall component current_inode,
  path_loop fs (a ++ slash :: slash :: b) component current_inode
  = path_loop fs (a ++ slash :: b) component current_inode.
Proof.
  induction a as [|c a IH]; intros component current_inode.
  - cbn [app]. rewrite !path_loop_slash.
    destruct (0 <? Z.of_nat (length component)) eqn:Hc.
    + destruct (path_step fs current_inode component); reflexivity.
    + rewrite ?path_loop_slash, ?Hc. reflexivity.
  - cbn [app path_loop].
    destruct (c =? 0); [reflexivity|].
    destruct (c =? slash).
    + destruct (0 <? Z.of_nat (length component)); [|apply IH].
      destruct (path_step fs current_inode component); [apply IH|reflexivity].
    + destruct (Z.of_nat (length component) <? 255); apply IH.
Qed.

Lemma path_loop_trailing_slash fs a : forall component current_inode,
  path_loop fs (a ++ [slash]) component current_inode
  = path_loop fs a component current_inode.
Proof.
  induction a as [|c a IH]; intros component current_inode.
  - cbn [app]. rewrite path_loop_slash, !path_loop_nil.
    destruct (0 <? Z.of_nat (length component)); [|reflexivity].
    destruct (path_step fs current_inode component); reflexivity.
  - cbn [app path_loop].
    destruct (c =? 0); [reflexivity|].
    destruct (c =? slash).
    + destruct (0 <? Z.of_nat (length component)); [|apply IH].
      destruct (path_step fs current_inode component); [apply IH|reflexivity].
    + destruct (Z.of_nat (length component) <? 255); apply IH.
Qed.

(** X15.  [ext2_path_to_inode] does not tell a doubled slash from a single
    one, nor a path with a slash at its end from the path without it:
    both resolve to the same inode, whatever the file system holds. *)
Theorem path_slashes_collapse fs a b :
  bytes_ok b = true ->
  ext2_path_to_inode fs (a ++ slash :: slash :: b)
  = ext2_path_to_inode fs (a ++ slash :: b)
  /\ ext2_path_to_inode fs (a ++ [slash]) = ext2_path_to_inode fs a.
Proof.
  intros Hb. split.
  - unfold ext2_path_to_inode. destruct a as [|c a].
    + cbn [app].
      change (strcmp_local (slash :: slash :: b) [slash] =? 0) with false.
      change (byte_at (slash :: slash :: b) 0 =? slash) with true.
      change (byte_at (slash :: b) 0 =? slash) with true. cbv iota.
      change (drop 1 (slash :: slash :: b)) with (slash :: b).
      change (drop 1 (slash :: b)) with b.
      rewrite path_loop_slash. change (0 <? Z.of_nat (length (@nil Z))) with false.
      cbv iota.
      destruct b as [|y b]; [reflexivity|].
      cbn [strcmp_local path_loop].
      change (negb (slash =? 0) && negb (slash =? 0) && (slash =? slash)) with true.
      cbv iota.
      destruct (Z.eqb_spec y 0) as [->|Hy]; [reflexivity|].
      simpl in Hb. apply andb_prop in Hb. destruct Hb as [Hy' _].
      apply andb_prop in Hy'. destruct Hy' as [Hy0 Hy1].
      apply Z.leb_le in Hy0. apply Z.ltb_lt in Hy1.
      unfold schar. rewrite (u8_small y) by lia.
      destruct (Z.ltb_spec y 128).
      * destruct (Z.eqb_spec (y - 0) 0); [lia|reflexivity].
      * destruct (Z.eqb_spec (y - 256 - 0) 0); [lia|reflexivity].
    + cbn [app].
      change (byte_at (c :: a ++ slash :: slash :: b) 0) with c.
      change (byte_at (c :: a ++ slash :: b) 0) with c.
      assert (E : strcmp_local (c :: a ++ slash :: slash :: b) [slash]
                  = strcmp_local (c :: a ++ slash :: b) [slash]).
      { cbn [strcmp_local].
        destruct (negb (c =? 0) && negb (slash =? 0) && (c =? slash));
          [|reflexivity].
        destruct a; reflexivity. }
      rewrite E.
      destruct (strcmp_local (c :: a ++ slash :: b) [slash] =? 0); [reflexivity|].
      destruct (c =? slash).
      * change (drop 1 (c :: a ++ slash :: slash :: b)) with (a ++ slash :: slash :: b).
        change (drop 1 (c :: a ++ slash :: b)) with (a ++ slash :: b).
        apply path_loop_double_slash.
      * apply (path_loop_double_slash fs (c :: a) b).
  - unfold ext2_path_to_inode. destruct a as [|c a].
    + reflexivity.
    + cbn [app].
      change (byte_at (c :: a ++ [slash]) 0) with c.
      change (byte_at (c :: a) 0) with c.
      destruct (Z.eqb_spec c slash) as [->|Hc].
      * change (drop 1 (slash :: a ++ [slash])) with (a ++ [slash]).
        change (drop 1 (slash :: a)) with a.
        rewrite path_loop_trailing_slash.
        cbn [strcmp_local]. change (slash =? 0) with false.
        rewrite Z.eqb_refl. cbn [negb andb]. cbv iota.
        destruct a as [|y a].
        { reflexivity. }
        cbn [app strcmp_local]. reflexivity.
      * rewrite (path_loop_trailing_slash fs (c :: a)).
        cbn [strcmp_local].
        apply Z.eqb_neq in Hc. rewrite Hc, !andb_false_r. reflexivity.
Qed.

Lemma path_slashes_collapse_witness :
  ext2_path_to_inode img_fs ([slash] ++ slash :: slash :: [102])
  = ext2_path_to_inode img_fs ([slash] ++ slash :: [102])
  /\ ext2_path_to_inode img_fs ([slash] ++ [slash]) = ext2_path_to_inode img_fs [slash].
Proof.
  apply (path_slashes_collapse img_fs [slash] [102]).
  vm_compute. reflexivity.
Defined.

(** ** Directory lookup *)

Lemma first_match_entries name B es :
  (forall e, In e es -> 0 <= de_name_len B e) ->
  first_match B name es
  = option_map fst (List.find (name_is name) (block_entries B es)).
Proof.
  unfold block_entries.
  induction es as [|e es IH]; intros Hnl; [reflexivity|].
  cbn [first_match List.filter].
  specialize (IH ltac:(intros x Hx; apply Hnl; right; exact Hx)).
  unfold live_match.
  destruct (negb (de_inode B e =? 0)); [|exact IH].
  cbn [map List.find andb]. unfold name_is at 1. cbn [snd].
  assert (Hlen : Z.of_nat (length (entry_name B e)) = de_name_len B e).
  { unfold entry_name. rewrite length_memcpy_local, length_replicate.
    specialize (Hnl e ltac:(left; reflexivity)). lia. }
  rewrite Hlen.
  destruct ((de_name_len B e =? strlen_local name)
            && (strcmp_local (entry_name B e) name =? 0)); [reflexivity|exact IH].
Qed.

Lemma find_app {A} (f : A -> bool) l1 l2 :
  List.find f (l1 ++ l2)
  = match List.find f l1 with Some x => Some x | None => List.find f l2 end.
Proof.
  induction l1 as [|x l1 IH]; [reflexivity|].
  simpl. destruct (f x); [reflexivity|exact IH].
Qed.

Lemma first_match_list_entries name bl :
  (forall B es e, In (B, es) bl -> In e es -> 0 <= de_name_len B e) ->
  first_match_list name bl
  = option_map fst
      (List.find (name_is name)
         (flat_map (fun p => block_entries (fst p) (snd p)) bl)).
Proof.
  induction bl as [|[B es] bl IH]; intros Hnl; [reflexivity|].
  cbn [first_match_list flat_map fst snd]. rewrite find_app.
  rewrite (first_match_entries name B es)
    by (intros e He; apply (Hnl B es e); [left; reflexivity|exact He]).
  destruct (List.find (name_is name) (block_entries B es)); [reflexivity|].
  apply IH. intros B' es' e Hin He. apply (Hnl B' es' e); [right; exact Hin|exact He].
Qed.

Lemma dir_layout_name_len fs ino bl B es e :
  dir_layout fs ino bl -> In (B, es) bl -> In e es ->
  0 <= e /\ 0 <= de_name_len B e
  /\ e + 8 + de_name_len B e <= block_size fs.
Proof.
  intros (_ & _ & _ & Hall) Hin He.
  apply list_elem_of_In, list_elem_of_lookup in Hin. destruct Hin as [j Hj].
  destruct (Hall j B es Hj) as (_ & _ & _ & Hrec).
  pose proof (records_In _ _ _ _ _ Hrec He). lia.
Qed.

(** X16.  In a well-formed directory [ext2_find_dir_entry] returns the
    inode number of the first live entry, in the order of the records,
    whose name has the length of the name sought and compares equal to
    it; it fails when there is none. *)
Theorem find_dir_entry_first_entry fs ino name :
  fs_geom fs = true -> bytes_ok (disk fs) = true -> dir_wf fs ino = true ->
  Z.land (i_mode ino) EXT2_S_IFDIR <> 0 ->
  ext2_find_dir_entry fs ino name
  = option_map fst (List.find (name_is name) (dir_entries fs ino)).
Proof.
  intros Hgeom Hdisk Hwf Hdir.
  destruct (dir_wf_layout fs ino Hgeom Hdisk Hwf) as (Hlay & _).
  rewrite (find_dir_entry_layout fs ino _ Hgeom Hlay name Hdir).
  apply first_match_list_entries.
  intros B es e Hin He.
  apply (dir_layout_name_len fs ino _ B es e Hlay Hin He).
Qed.

Lemma find_dir_entry_first_entry_witness :
  ext2_find_dir_entry img_fs img_root_inode (l_ 51)
  = option_map fst (List.find (name_is (l_ 51)) (dir_entries img_fs img_root_inode)).
Proof.
  apply (find_dir_entry_first_entry img_fs img_root_inode (l_ 51)).
  - vm_compute. reflexivity.
  - vm_compute. reflexivity.
  - vm_compute. reflexivity.
  - vm_compute. discriminate.
Defined.

(** ** Removal compares the name in place *)

Lemma byte_at_drop (l : list Z) k i :
  0 <= k -> 0 <= i -> byte_at (drop (Z.to_nat k) l) i = byte_at l (k + i).
Proof.
  intros Hk Hi. unfold byte_at. rewrite lookup_drop. f_equal. f_equal. lia.
Qed.

(** When [strcmp_local] returns 0, the first string ends where the
    second does. *)
Lemma strcmp_local_zero_end a : forall b,
  bytes_ok a = true -> bytes_ok b = true ->
  strcmp_local a b = 0 -> byte_at a (strlen_local b) = 0.
Proof.
  induction a as [|x a IH]; intros b Ha Hb Hcmp.
  - unfold byte_at. rewrite lookup_nil. reflexivity.
  - apply bytes_ok_cons in Ha. destruct Ha as [Hx Ha].
    destruct b as [|y b].
    + simpl in Hcmp. change (schar x - 0 = 0) with (schar x - schar 0 = 0) in Hcmp.
      apply schar_inj in Hcmp; [|lia|lia]. subst x. reflexivity.
    + apply bytes_ok_cons in Hb. destruct Hb as [Hy Hb].
      simpl in Hcmp. cbn [strlen_local].
      destruct (Z.eqb_spec x 0) as [->|Hx0]; simpl in Hcmp.
      * apply schar_inj in Hcmp; [|lia|lia]. subst y. reflexivity.
      * destruct (Z.eqb_spec y 0) as [->|Hy0]; simpl in Hcmp.
        { apply schar_inj in Hcmp; [|lia|lia]. contradiction. }
        destruct (Z.eqb_spec x y) as [->|Hxy].
        { pose proof (strlen_local_nonneg b).
          specialize (IH b Ha Hb Hcmp). unfold byte_at in *.
          replace (Z.to_nat (1 + strlen_local b)) with (S (Z.to_nat (strlen_local b)))
            by lia.
          exact IH. }
        apply schar_inj in Hcmp; [|lia|lia]. contradiction.
Qed.

Lemma remove_search_none B name nl es : forall prev,
  (forall e, In e es -> remove_match B name nl e = false) ->
  remove_search B name nl es prev = None.
Proof.
  induction es as [|e es IH]; intros prev H; [reflexivity|].
  simpl. rewrite (H e) by (left; reflexivity).
  apply IH. intros x Hx. apply H. right. exact Hx.
Qed.

Lemma remove_list_none fs ino name bl : forall j,
  (forall B es, In (B, es) bl ->
     remove_search B name (strlen_local name) es None = None) ->
  remove_list fs ino name j bl = (-1, fs).
Proof.
  induction bl as [|[B es] bl IH]; intros j H; [reflexivity|].
  simpl. rewrite (H B es) by (left; reflexivity).
  apply IH. intros B' es' Hin. apply H. right. exact Hin.
Qed.

(** [ext2_remove_dir_entry] compares the name with the bytes of the
    record where they lie, so it matches only a record in which a 0
    follows the name. *)
Lemma remove_dir_entry_unpadded fs ino n name :
  fs_geom fs = true -> bytes_ok (disk fs) = true -> dir_wf fs ino = true ->
  bytes_ok name = true -> 0 < strlen_local name <= 255 ->
  name_unpadded fs ino name = true ->
  ext2_remove_dir_entry fs ino n name = (-1, fs).
Proof.
  intros Hgeom Hdisk Hwf Hname Hlen Hun.
  destruct (dir_wf_layout fs ino Hgeom Hdisk Hwf) as (Hlay & _).
  rewrite (remove_dir_entry_layout fs ino _ Hgeom Hlay n name Hlen).
  apply remove_list_none. intros B es Hin.
  apply remove_search_none. intros e He.
  destruct (remove_match B name (strlen_local name) e) eqn:Hm; [|reflexivity].
  exfalso.
  destruct (dir_layout_name_len fs ino _ B es e Hlay Hin He) as (He0 & Hnl & Hend).
  assert (HB : bytes_ok B = true /\ Z.of_nat (length B) = block_size fs).
  { pose proof Hlay as (_ & _ & _ & Hall).
    pose proof Hin as Hin'.
    apply list_elem_of_In, list_elem_of_lookup in Hin'. destruct Hin' as [j Hj].
    destruct (Hall j B es Hj) as (_ & Hok & <- & _).
    split; [apply bytes_ok_blk_data, Hdisk|apply length_blk_data; assumption]. }
  destruct HB as [HB HBlen].
  pose proof (remove_match_live_match B name e He0 Hnl ltac:(lia) Hm) as Hlive.
  unfold name_unpadded in Hun. rewrite forallb_forall in Hun.
  specialize (Hun (B, es) Hin). cbn [fst snd] in Hun.
  rewrite forallb_forall in Hun. specialize (Hun e He).
  rewrite Hlive in Hun. simpl in Hun. apply negb_true_iff in Hun.
  apply Z.eqb_neq in Hun. apply Hun.
  unfold remove_match in Hm. apply andb_prop in Hm. destruct Hm as [_ Hcmp].
  apply Z.eqb_eq in Hcmp.
  apply strcmp_local_zero_end in Hcmp; [|apply bytes_ok_drop, HB|exact Hname].
  rewrite byte_at_drop in Hcmp by (unfold DE_NAME_OFF; lia).
  exact Hcmp.
Qed.

Lemma dir_blocks_set_links fs ino v :
  file_nblocks fs (set_i_links_count ino v) = file_nblocks fs ino
  /\ dir_blocks fs (set_i_links_count ino v) = dir_blocks fs ino
  /\ i_size (set_i_links_count ino v) = i_size ino.
Proof.
  assert (Hsz : i_size (set_i_links_count ino v) = i_size ino).
  { unfold i_size, set_i_links_count. apply get_u32_set_u16_ne; lia. }
  assert (Hnb : file_nblocks fs (set_i_links_count ino v) = file_nblocks fs ino).
  { unfold file_nblocks. rewrite Hsz. reflexivity. }
  split; [exact Hnb|]. split; [|exact Hsz].
  unfold dir_blocks. rewrite Hnb. apply map_ext. intros j.
  unfold i_block, I_BLOCK_OFF, set_i_links_count.
  apply get_u32_set_u16_ne; lia.
Qed.

Lemma dir_view_set_links fs ino v :
  dir_view fs (set_i_links_count ino v) = dir_view fs ino
  /\ dir_wf fs (set_i_links_count ino v) = dir_wf fs ino.
Proof.
  destruct (dir_blocks_set_links fs ino v) as (Hnb & Hdb & Hsz).
  split.
  - unfold dir_view. rewrite Hdb. reflexivity.
  - unfold dir_wf. rewrite Hnb, Hdb, Hsz. reflexivity.
Qed.

(** X17.  [vfs_unlink] removes a name only from a record in which a 0
    byte follows the name.  For a file whose records all have another
    byte there (a name of 4, 8, ... bytes in a record without padding
    that another record follows), the file is found by [vfs_exists], but
    [vfs_unlink] returns -1 and changes nothing. *)
Theorem vfs_unlink_unpadded_name fs path parent name pn pino n :
  fs_geom fs = true -> bytes_ok (disk fs) = true ->
  bytes_ok path = true -> strlen_local path < 4294967296 ->
  split_path path = Some (parent, name) ->
  vfs_resolve_path (Some fs) parent = Some pn ->
  ext2_read_inode fs pn = Some pino ->
  dir_wf fs pino = true ->
  ext2_find_dir_entry fs pino name = Some n ->
  name_unpadded fs pino name = true ->
  vfs_exists (Some fs) path = 1 /\ vfs_unlink (Some fs) path = (-1, Some fs).
Proof.
  intros Hgeom Hdisk Hpath Hlen Hsplit Hparent Hread Hwf Hfind Hun.
  destruct (split_path_name path parent name Hpath Hlen Hsplit) as (Hname & Hnlen & _).
  split.
  - unfold vfs_exists.
    rewrite (resolve_path_split fs path parent name Hpath Hlen Hsplit), Hparent.
    unfold path_step. rewrite Hread, Hfind. reflexivity.
  - unfold vfs_unlink. rewrite Hsplit, Hparent, Hread, Hfind.
    destruct (ext2_read_inode fs n) as [ino|]; [|reflexivity].
    cbv zeta.
    destruct (Z.land (i_mode ino) EXT2_S_IFDIR =? EXT2_S_IFDIR).
    + destruct ((ext2_is_dir_empty fs ino <? 0) || (ext2_is_dir_empty fs ino =? 0));
        [reflexivity|].
      cbn [andb].
      destruct (dir_view_set_links fs pino (i_links_count pino - 1)) as [Hv Hw].
      rewrite remove_dir_entry_unpadded; try assumption.
      * reflexivity.
      * rewrite Hw. exact Hwf.
      * unfold name_unpadded. rewrite Hv. exact Hun.
    + cbn [andb].
      rewrite remove_dir_entry_unpadded by assumption. reflexivity.
Qed.

Lemma vfs_unlink_unpadded_name_witness :
  vfs_exists (Some img_tight_fs) path_abcd = 1
  /\ vfs_unlink (Some img_tight_fs) path_abcd = (-1, Some img_tight_fs).
Proof.
  apply (vfs_unlink_unpadded_name img_tight_fs path_abcd [slash] [97; 98; 99; 100]
           2 img_root_inode 11).
  - vm_compute. reflexivity.
  - vm_compute. reflexivity.
  - vm_compute. reflexivity.
  - vm_compute. reflexivity.
  - vm_compute. reflexivity.
  - vm_compute. reflexivity.
  - vm_compute. reflexivity.
  - vm_compute. reflexivity.
  - vm_compute. reflexivity.
  - vm_compute. reflexivity.
Defined.

(** ** The block allocator *)

Lemma same_layout_alloc_wf fs fs' :
  same_layout fs fs' -> alloc_wf fs' = alloc_wf fs.
Proof.
  intros L. pose proof L as (E1 & E2 & E3 & E4 & E5 & E6 & E7).
  unfold alloc_wf. rewrite (same_layout_bitmap_addrs fs fs' L), E1, E2, E4, E6.
  reflexivity.
Qed.

Lemma block_of_bit_inj fs gi gi' :
  alloc_wf fs = true -> In gi (all_bits fs) -> In gi' (all_bits fs) ->
  block_of_bit fs gi = block_of_bit fs gi' -> gi = gi'.
Proof.
  intros Hwf Hin Hin' E. destruct gi as [g i], gi' as [g' i'].
  apply in_all_bits in Hin, Hin'.
  unfold alloc_wf in Hwf.
  apply andb_prop in Hwf. destruct Hwf as [Hwf Hfit].
  apply andb_prop in Hwf. destruct Hwf as [_ Hfirst].
  apply Z.leb_le in Hfit, Hfirst.
  unfold block_of_bit in E. cbn [fst snd] in E.
  rewrite !u32_small in E by nia.
  assert (g = g') by nia. subst g'. f_equal. lia.
Qed.

(** X18.  [ext2_alloc_block] hands out the free blocks in the order of
    the bitmaps, each once: it returns the first free block and leaves
    the free blocks that follow it, and it returns 0 without a change
    when no block is free. *)
Theorem ext2_alloc_block_in_order fs :
  fs_geom fs = true -> alloc_wf fs = true ->
  match free_blocks fs with
  | [] => ext2_alloc_block fs = (0, fs)
  | b :: rest =>
    exists fs',
      ext2_alloc_block fs = (b, fs')
      /\ fs_geom fs' = true /\ alloc_wf fs' = true
      /\ free_blocks fs' = rest
      /\ ~ In b rest
  end.
Proof.
  intros G Hwf. unfold free_blocks.
  rewrite (ext2_alloc_block_first fs G).
  destruct (free_bits fs) as [|gi rest] eqn:Hfree; [reflexivity|].
  cbn [map].
  pose proof Hwf as Hwf'. unfold alloc_wf in Hwf'.
  apply andb_prop in Hwf'. destruct Hwf' as [Hwf' _].
  apply andb_prop in Hwf'. destruct Hwf' as [Hwf' _].
  apply andb_prop in Hwf'. destruct Hwf' as [Hdist Hbpg].
  apply Z.leb_le in Hbpg.
  assert (Hin : In gi (free_bits fs)) by (rewrite Hfree; left; reflexivity).
  unfold free_bits in Hin. apply filter_In in Hin. destruct Hin as [Hall Hbit].
  destruct gi as [g i]. pose proof Hall as Hgi. apply in_all_bits in Hgi.
  destruct Hgi as [Hg Hi].
  unfold bit_free in Hbit. cbn [fst snd] in Hbit.
  apply andb_prop in Hbit. destruct Hbit as [Hok _].
  destruct (alloc_update_frame fs fs g i G (same_layout_refl fs) Hg Hok)
    as (G' & L & _).
  exists (alloc_update fs (g, i)).
  split; [reflexivity|]. split; [exact G'|].
  split; [rewrite (same_layout_alloc_wf fs _ L); exact Hwf|].
  split.
  - rewrite (free_bits_alloc fs (g, i) rest G Hbpg
               (bitmap_addrs_distinct fs Hdist) Hfree).
    apply map_ext. intros gi. apply same_layout_block_of_bit, L.
  - intros Hin. apply in_map_iff in Hin. destruct Hin as (gi' & E & Hin').
    assert (Hnd : List.NoDup (free_bits fs)).
    { unfold free_bits. apply List.NoDup_filter, NoDup_all_bits. }
    rewrite Hfree in Hnd. inversion Hnd as [|? ? Hnotin _]; subst.
    apply Hnotin.
    assert (Hall' : In gi' (all_bits fs)).
    { assert (H : In gi' (free_bits fs)) by (rewrite Hfree; right; exact Hin').
      unfold free_bits in H. apply filter_In in H. apply H. }
    rewrite (block_of_bit_inj fs (g, i) gi' Hwf Hall Hall' (eq_sym E)).
    exact Hin'.
Qed.

Lemma ext2_alloc_block_in_order_witness :
  match free_blocks img_fs with
  | [] => ext2_alloc_block img_fs = (0, img_fs)
  | b :: rest =>
    exists fs',
      ext2_alloc_block img_fs = (b, fs')
      /\ fs_geom fs' = true /\ alloc_wf fs' = true
      /\ free_blocks fs' = rest
      /\ ~ In b rest
  end.
Proof.
  apply (ext2_alloc_block_in_order img_fs).
  - vm_compute. reflexivity.
  - vm_compute. reflexivity.
Defined.

Lemma free_block_spec fs b :
  fs_geom fs = true ->
  s_first_data_block (superblock fs) <= b ->
  blk_ok fs (block_bitmap_of fs b) = true ->
  ext2_free_block fs b
  = (0, inc_free_blocks
          (disk_put fs (block_bitmap_of fs b)
             (bitmap_clear (blk_data fs (block_bitmap_of fs b))
                ((b - s_first_data_block (superblock fs)) mod blocks_per_group fs)))
          (block_group fs b)).
Proof.
  intros G Hb Hok. unfold ext2_free_block.
  destruct (Z.ltb_spec b (s_first_data_block (superblock fs))); [lia|].
  rewrite (kmalloc_block fs G).
  change (bg_block_bitmap (block_groups fs)
            ((b - s_first_data_block (superblock fs)) / blocks_per_group fs))
    with (block_bitmap_of fs b).
  rewrite (read_blocks_spec fs G)
    by (rewrite length_replicate; destruct (geom_facts fs G); lia).
  rewrite Hok. simpl negb. cbv iota.
  rewrite (write_blocks_spec fs G)
    by (rewrite length_bitmap_clear; apply length_blk_data; assumption).
  rewrite Hok. reflexivity.
Qed.

Lemma free_count_inc fs g :
  16 <= Z.of_nat (length (superblock fs)) ->
  s_free_blocks_count (superblock (inc_free_blocks fs g))
  = u32 (s_free_blocks_count (superblock fs) + 1)
  /\ length (superblock (inc_free_blocks fs g)) = length (superblock fs).
Proof.
  intros Hlen. unfold inc_free_blocks, s_free_blocks_count.
  cbn [superblock set_superblock set_block_groups].
  rewrite length_set_u32. split; [|reflexivity].
  apply get_u32_set_u32; lia.
Qed.

Lemma free_block_once fs b :
  fs_geom fs = true -> 0 < blocks_per_group fs ->
  s_first_data_block (superblock fs) <= b ->
  blk_ok fs (block_bitmap_of fs b) = true ->
  16 <= Z.of_nat (length (superblock fs)) ->
  exists fs1,
    ext2_free_block fs b = (0, fs1)
    /\ fs_geom fs1 = true /\ same_layout fs fs1
    /\ blk_ok fs1 (block_bitmap_of fs1 b) = true
    /\ block_bit fs1 b = 0
    /\ s_free_blocks_count (superblock fs1)
       = u32 (s_free_blocks_count (superblock fs) + 1)
    /\ length (superblock fs1) = length (superblock fs).
Proof.
  intros G Hbpg Hb Hok Hlen.
  pose proof (free_block_spec fs b G Hb Hok) as E1.
  destruct (free_block_clears [blk_addr fs (block_bitmap_of fs b)] fs b G Hbpg Hb Hok
              ltac:(left; reflexivity)) as [[(G1 & L1 & _) _] Hbit1].
  rewrite E1 in G1, L1, Hbit1. cbn [snd] in G1, L1, Hbit1.
  destruct (free_count_inc
              (disk_put fs (block_bitmap_of fs b)
                 (bitmap_clear (blk_data fs (block_bitmap_of fs b))
                    ((b - s_first_data_block (superblock fs))
                     mod blocks_per_group fs)))
              (block_group fs b) Hlen) as [Hc1 Hl1].
  set (fs1 := inc_free_blocks
          (disk_put fs (block_bitmap_of fs b)
             (bitmap_clear (blk_data fs (block_bitmap_of fs b))
                ((b - s_first_data_block (superblock fs)) mod blocks_per_group fs)))
          (block_group fs b)) in *.
  pose proof L1 as (B1 & B2 & B3 & B4 & B5 & B6 & B7).
  assert (Hgrp : 0 <= block_group fs b) by (apply Z.div_pos; lia).
  assert (Hbm : block_bitmap_of fs1 b = block_bitmap_of fs b).
  { unfold block_bitmap_of, block_group. rewrite B2, B6.
    apply (B7 (block_group fs b) Hgrp). }
  exists fs1. split; [exact E1|]. split; [exact G1|]. split; [exact L1|].
  split; [rewrite Hbm, (same_layout_blk_ok fs fs1 _ L1); exact Hok|].
  split; [unfold block_bit; rewrite Hbm, B2, B6; exact Hbit1|].
  split; [exact Hc1|exact Hl1].
Qed.

(** X19.  [ext2_free_block] does not look at the bit it clears: freeing a
    block succeeds whether or not the block was in use, and each call
    adds 1 to the count of free blocks, so a block freed twice is
    counted twice. *)
Theorem ext2_free_block_twice fs b :
  fs_geom fs = true -> 0 < blocks_per_group fs ->
  s_first_data_block (superblock fs) <= b ->
  blk_ok fs (block_bitmap_of fs b) = true ->
  16 <= Z.of_nat (length (superblock fs)) ->
  exists fs1 fs2,
    ext2_free_block fs b = (0, fs1) /\ ext2_free_block fs1 b = (0, fs2)
    /\ block_bit fs1 b = 0 /\ block_bit fs2 b = 0
    /\ s_free_blocks_count (superblock fs1)
       = u32 (s_free_blocks_count (superblock fs) + 1)
    /\ s_free_blocks_count (superblock fs2)
       = u32 (s_free_blocks_count (superblock fs) + 2).
Proof.
  intros G Hbpg Hb Hok Hlen.
  destruct (free_block_once fs b G Hbpg Hb Hok Hlen)
    as (fs1 & E1 & G1 & L1 & Hok1 & Hbit1 & Hc1 & Hl1).
  pose proof L1 as (B1 & B2 & B3 & B4 & B5 & B6 & B7).
  destruct (free_block_once fs1 b G1 ltac:(lia) ltac:(lia) Hok1 ltac:(lia))
    as (fs2 & E2 & G2 & L2 & Hok2 & Hbit2 & Hc2 & Hl2).
  exists fs1, fs2. split; [exact E1|]. split; [exact E2|].
  split; [exact Hbit1|]. split; [exact Hbit2|]. split; [exact Hc1|].
  rewrite Hc2, Hc1. unfold u32. rewrite Z.add_mod_idemp_l by lia.
  f_equal. lia.
Qed.

Lemma ext2_free_block_twice_witness :
  exists fs1 fs2,
    ext2_free_block img_fs 12 = (0, fs1) /\ ext2_free_block fs1 12 = (0, fs2)
    /\ block_bit fs1 12 = 0 /\ block_bit fs2 12 = 0
    /\ s_free_blocks_count (superblock fs1)
       = u32 (s_free_blocks_count (superblock img_fs) + 1)
    /\ s_free_blocks_count (superblock fs2)
       = u32 (s_free_blocks_count (superblock img_fs) + 2).
Proof.
  apply (ext2_free_block_twice img_fs 12).
  - vm_compute. reflexivity.
  - vm_compute. reflexivity.
  - vm_compute. discriminate.
  - vm_compute. reflexivity.
  - vm_compute. discriminate.
Defined.

(** ** Truncation *)

Lemma truncate_wf_facts fs n ino :
  truncate_wf fs n ino = true ->
  0 < blocks_per_group fs /\ 0 < inodes_per_group fs
  /\ block_size fs < 65536
  /\ ~ In (blk_addr fs (inode_block fs n)) (truncate_bitmaps fs ino)
  /\ forall k, 0 <= k < 12 -> i_block ino k <> 0 ->
       s_first_data_block (superblock fs) <= i_block ino k
       /\ blk_ok fs (block_bitmap_of fs (i_block ino k)) = true
       /\ In (blk_addr fs (block_bitmap_of fs (i_block ino k))) (truncate_bitmaps fs ino)
       /\ ~ In (blk_addr fs (i_block ino k)) (truncate_bitmaps fs ino)
       /\ blk_addr fs (i_block ino k) <> blk_addr fs (inode_block fs n).
Proof.
  intros H. unfold truncate_wf in H.
  apply andb_prop in H. destruct H as [H Hino].
  apply andb_prop in H. destruct H as [H Hdisj].
  apply andb_prop in H. destruct H as [H Hall].
  apply andb_prop in H. destruct H as [H Hsmall].
  apply andb_prop in H. destruct H as [Hbpg Hipg].
  apply Z.ltb_lt in Hbpg, Hipg, Hsmall.
  apply negb_true_iff in Hino. apply existsb_eqb_false in Hino.
  split; [exact Hbpg|]. split; [exact Hipg|]. split; [exact Hsmall|].
  split; [exact Hino|].
  intros k Hk Hnz.
  pose proof (in_direct_blocks ino k Hk) as Hin.
  rewrite forallb_forall in Hall. specialize (Hall _ Hin).
  destruct (Z.eqb_spec (i_block ino k) 0) as [|_]; [contradiction|].
  simpl in Hall. apply andb_prop in Hall. destruct Hall as [Hfirst Hok].
  apply Z.leb_le in Hfirst.
  assert (Hnzin : In (i_block ino k)
                    (List.filter (fun b => negb (b =? 0)) (direct_blocks ino))).
  { apply filter_In. split; [exact Hin|].
    apply negb_true_iff. apply Z.eqb_neq. exact Hnz. }
  split; [exact Hfirst|]. split; [exact Hok|].
  split.
  { unfold truncate_bitmaps.
    apply (in_map (fun b => blk_addr fs (block_bitmap_of fs b))). exact Hnzin. }
  pose proof (disjoint_spec _ _ (blk_addr fs (i_block ino k)) Hdisj
                (in_map (blk_addr fs) _ _ Hnzin)) as Hout.
  split.
  - intros Hx. apply Hout. right. exact Hx.
  - intros Hx. apply Hout. left. symmetry. exact Hx.
Qed.

Lemma truncate_loop_spec W fs0 ino0 old :
  0 < blocks_per_group fs0 ->
  (forall k, 0 <= k < 12 -> i_block ino0 k <> 0 ->
     s_first_data_block (superblock fs0) <= i_block ino0 k
     /\ blk_ok fs0 (block_bitmap_of fs0 (i_block ino0 k)) = true
     /\ In (blk_addr fs0 (block_bitmap_of fs0 (i_block ino0 k))) W) ->
  forall fuel i fs ino,
    (Z.to_nat (12 - i) <= fuel)%nat -> 0 <= i ->
    fs_geom fs = true -> same_layout fs0 fs -> length ino = 128%nat ->
    (forall k, i <= k < 12 -> i_block ino k = i_block ino0 k) ->
    clears W fs (snd (truncate_loop fuel fs ino i old))
    /\ length (fst (truncate_loop fuel fs ino i old)) = 128%nat
    /\ i_size (fst (truncate_loop fuel fs ino i old)) = i_size ino
    /\ (forall k, 0 <= k < i ->
          i_block (fst (truncate_loop fuel fs ino i old)) k = i_block ino k)
    /\ (forall k, i <= k < 12 -> k < old ->
          i_block (fst (truncate_loop fuel fs ino i old)) k = 0
          /\ (i_block ino0 k <> 0 ->
              block_bit (snd (truncate_loop fuel fs ino i old)) (i_block ino0 k) = 0)).
Proof.
  intros Hbpg Hblocks.
  induction fuel as [|fuel IH]; intros i fs ino Hfuel Hi G L Hlen Hsame.
  - simpl. split; [apply clears_refl, G|]. split; [exact Hlen|].
    split; [reflexivity|]. split; [reflexivity|]. intros k Hk. lia.
  - cbn [truncate_loop].
    destruct (Z.ltb_spec i old) as [Hold|Hold]; cbn [andb].
    2:{ cbn [fst snd]. split; [apply clears_refl, G|]. split; [exact Hlen|].
        split; [reflexivity|]. split; [reflexivity|]. intros k Hk. lia. }
    destruct (Z.ltb_spec i 12) as [H12|H12].
    2:{ cbn [fst snd]. split; [apply clears_refl, G|]. split; [exact Hlen|].
        split; [reflexivity|]. split; [reflexivity|]. intros k Hk. lia. }
    destruct (Z.eqb_spec (i_block ino i) 0) as [Hz|Hnz]; cbn [negb].
    + destruct (IH (i + 1) fs ino ltac:(lia) ltac:(lia) G L Hlen
                  ltac:(intros k Hk; apply Hsame; lia))
        as (Hc & Hl & Hs & Hlow & Hhigh).
      split; [exact Hc|]. split; [exact Hl|]. split; [exact Hs|].
      split; [intros k Hk; apply Hlow; lia|].
      intros k Hk Hko.
      destruct (Z.eq_dec k i) as [->|Hne].
      * split; [rewrite Hlow by lia; exact Hz|].
        intros Hnz0. rewrite <- (Hsame i ltac:(lia)) in Hnz0. contradiction.
      * apply Hhigh; lia.
    + pose proof (Hsame i ltac:(lia)) as Ei.
      destruct (Hblocks i ltac:(lia) ltac:(rewrite <- Ei; exact Hnz))
        as (Hfirst & Hok & Hin).
      pose proof L as (E1 & E2 & E3 & E4 & E5 & E6 & E7).
      rewrite Ei.
      destruct (same_layout_block_bitmap fs0 fs (i_block ino0 i) L Hbpg Hfirst) as [Bm _].
      destruct (free_block_clears W fs (i_block ino0 i) G ltac:(lia) ltac:(lia))
        as [Hc1 Hbit1].
      { rewrite Bm, (same_layout_blk_ok fs0 fs _ L). exact Hok. }
      { rewrite Bm, (same_layout_blk_addr fs0 fs _ L). exact Hin. }
      destruct (ext2_free_block fs (i_block ino0 i)) as [r fs1] eqn:Efree.
      cbn [snd] in Hc1, Hbit1.
      pose proof Hc1 as ((G1 & L1 & _) & _).
      assert (L01 : same_layout fs0 fs1) by (eapply same_layout_trans; eassumption).
      destruct (IH (i + 1) fs1 (set_i_block ino i 0) ltac:(lia) ltac:(lia) G1 L01
                  ltac:(rewrite length_set_i_block; exact Hlen)
                  ltac:(intros k Hk; rewrite i_block_set_i_block_other by lia;
                        apply Hsame; lia))
        as (Hc & Hl & Hs & Hlow & Hhigh).
      split; [eapply clears_trans; eassumption|]. split; [exact Hl|].
      split; [rewrite Hs; apply i_size_set_i_block; lia|].
      split.
      { intros k Hk. rewrite Hlow by lia.
        apply i_block_set_i_block_other; lia. }
      intros k Hk Hko.
      destruct (Z.eq_dec k i) as [->|Hne]; [|apply Hhigh; lia].
      split.
      { rewrite Hlow by lia. rewrite i_block_set_i_block_same by (try assumption; lia).
        reflexivity. }
      intros _.
      pose proof Hc as ((_ & L1' & _) & Hmono).
      assert (L0' : same_layout fs0
                      (snd (truncate_loop fuel fs1 (set_i_block ino i 0) (i + 1) old)))
        by (eapply same_layout_trans; eassumption).
      destruct (same_layout_block_bitmap fs0 _ (i_block ino0 i) L0' Hbpg Hfirst)
        as [_ ->].
      apply Hmono; [apply Z.mod_pos_bound; lia|].
      rewrite Bm, E6, E2 in Hbit1. exact Hbit1.
Qed.

(** X20.  [vfs_truncate] to a smaller size stores the new size in the
    inode and in the handle and moves the position back to it if it was
    behind; the bytes of the file below the new size are unchanged, the
    block pointers behind them are set to 0 and the bits of their blocks
    are cleared in the block bitmaps. *)
Theorem vfs_truncate_shrinks fs file new_size ino :
  fs_geom fs = true -> f_is_open file <> 0 ->
  ext2_read_inode fs (f_inode file) = Some ino ->
  file_wf fs ino = true -> truncate_wf fs (f_inode file) ino = true ->
  0 <= new_size < i_size ino ->
  exists fs' ino',
    vfs_truncate (Some fs) file new_size
    = (0, Some fs',
       mk_file (f_inode file) new_size (f_type file)
               (Z.min (f_position file) new_size) (f_is_open file))
    /\ fs_geom fs' = true
    /\ ext2_read_inode fs' (f_inode file) = Some ino'
    /\ i_size ino' = new_size
    /\ file_wf fs' ino' = true
    /\ (forall i, 0 <= i < new_size -> file_at fs' ino' i = file_at fs ino i)
    /\ (forall k, write_nblocks fs new_size <= k < write_nblocks fs (i_size ino) ->
          i_block ino' k = 0
          /\ block_bit fs' (i_block ino k) = 0).
Proof.
  intros G Hopen Hread Hwf Htw Hnew.
  destruct (geom_facts fs G) as (Hbs & _).
  destruct (file_wf_facts fs ino G Hwf) as (Hisz & Hdirect & Hblocks).
  destruct (truncate_wf_facts fs _ ino Htw)
    as (Hbpg & Hipg & Hsmall & Hino & Hdata).
  destruct (read_inode_ok fs _ ino G Hread) as [Hok Hlen].
  set (n := f_inode file) in *.
  set (W := truncate_bitmaps fs ino).
  pose proof (write_nblocks_spec fs new_size G ltac:(lia)) as (Hnb0 & Hnb1 & Hnb2).
  pose proof (write_nblocks_spec fs (i_size ino) G ltac:(lia)) as (Hob0 & Hob1 & Hob2).
  assert (Hob12 : write_nblocks fs (i_size ino) <= 12) by nia.
  assert (Hnbob : write_nblocks fs new_size <= write_nblocks fs (i_size ino)) by nia.
  destruct (truncate_loop_spec W fs ino (write_nblocks fs (i_size ino)) Hbpg
              ltac:(intros k Hk Hnz; destruct (Hdata k Hk Hnz) as (H1 & H2 & H3 & _);
                    auto)
              12 (write_nblocks fs new_size) fs ino ltac:(lia) Hnb0 G
              (same_layout_refl fs) Hlen ltac:(intros; reflexivity))
    as (Hc & Hl & Hs & Hlow & Hhigh).
  unfold vfs_truncate. destruct (Z.eqb_spec (f_is_open file) 0); [contradiction|].
  fold n. rewrite Hread.
  destruct (Z.leb_spec (i_size ino) new_size); [lia|].
  rewrite (u32_small (i_size ino + block_size fs - 1)) by lia.
  rewrite (u32_small (new_size + block_size fs - 1)) by lia.
  change ((i_size ino + block_size fs - 1) / block_size fs)
    with (write_nblocks fs (i_size ino)).
  change ((new_size + block_size fs - 1) / block_size fs)
    with (write_nblocks fs new_size).
  destruct (truncate_loop 12 fs ino (write_nblocks fs new_size)
              (write_nblocks fs (i_size ino))) as [ino1 fs1].
  cbn [fst snd] in Hc, Hl, Hs, Hlow, Hhigh.
  pose proof Hc as ((G1 & L1 & D1) & Hmono).
  set (ino2 := set_i_size ino1 new_size).
  assert (Hlen2 : length ino2 = 128%nat).
  { unfold ino2, set_i_size. rewrite length_set_u32. exact Hl. }
  destruct (same_layout_inode fs fs1 n L1 Hipg) as (_ & Eb & Es & Eok & _).
  pose proof (write_inode_spec fs1 n ino2 G1 Hlen2) as Hw.
  rewrite Eok, Hok in Hw. rewrite Hw.
  set (fs2 := disk_put fs1 (inode_block fs1 n)
                (list_inserts (Z.to_nat (inode_slot fs1 n)) ino2
                   (blk_data fs1 (inode_block fs1 n)))) in *.
  destruct (read_inode_after_write fs1 n ino2 fs2 G1 Hlen2
              ltac:(rewrite Eok; exact Hok) Hw) as [G2 Hread2].
  assert (Hsz2 : i_size ino2 = new_size).
  { unfold ino2, i_size, set_i_size. rewrite get_u32_set_u32 by lia.
    apply u32_small. lia. }
  assert (Hptr : forall k, 0 <= k < write_nblocks fs new_size ->
                   i_block ino2 k = i_block ino k).
  { intros k Hk. unfold ino2. rewrite i_block_set_i_size by lia.
    apply Hlow. exact Hk. }
  assert (Hinlen : Z.of_nat (length (list_inserts (Z.to_nat (inode_slot fs1 n)) ino2
                      (blk_data fs1 (inode_block fs1 n)))) = block_size fs1).
  { rewrite length_inserts. apply length_blk_data; [exact G1|].
    unfold inode_ok in Hok. apply andb_prop in Hok. destruct Hok as [_ Hblk].
    rewrite Eb, (same_layout_blk_ok fs fs1 _ L1). exact Hblk. }
  assert (Hkeep : forall b, ~ In (blk_addr fs b) W ->
                    blk_addr fs b <> blk_addr fs (inode_block fs n) ->
                    blk_data fs2 b = blk_data fs b).
  { intros b HW Hib. unfold fs2.
    rewrite blk_data_disk_put_other; [apply D1; exact HW|exact G1|exact Hinlen|].
    rewrite !(same_layout_blk_addr fs fs1 _ L1), Eb. exact Hib. }
  pose proof L1 as (E1 & E2 & E3 & E4 & E5 & E6 & E7).
  exists fs2, ino2.
  split.
  { f_equal. f_equal. destruct (Z.ltb_spec new_size (f_position file));
      [rewrite Z.min_r by lia|rewrite Z.min_l by lia]; reflexivity. }
  split; [exact G2|]. split; [exact Hread2|]. split; [exact Hsz2|].
  assert (Hbs2 : block_size fs2 = block_size fs) by exact E1.
  split.
  { unfold file_wf. rewrite Hsz2, Hbs2.
    apply andb_true_intro. split.
    - apply andb_true_intro. split; [apply andb_true_intro; split|].
      + apply Z.leb_le. lia.
      + apply Z.ltb_lt. lia.
      + apply Z.leb_le. lia.
    - apply forallb_forall. intros b Hb.
      unfold write_ptrs in Hb. apply in_map_iff in Hb.
      destruct Hb as (j & <- & Hj). apply in_seq in Hj.
      change (write_nblocks fs2 new_size) with
        ((new_size + block_size fs2 - 1) / block_size fs2) in Hj.
      rewrite Hbs2 in Hj.
      change ((new_size + block_size fs - 1) / block_size fs)
        with (write_nblocks fs new_size) in Hj.
      rewrite Hptr by lia.
      destruct (Hblocks (Z.of_nat j) ltac:(lia) ltac:(nia)) as [Hnz Hbok].
      apply andb_true_intro. split.
      + apply negb_true_iff. apply Z.eqb_neq. exact Hnz.
      + change (blk_ok fs2 (i_block ino (Z.of_nat j)))
          with (blk_ok fs1 (i_block ino (Z.of_nat j))).
        rewrite (same_layout_blk_ok fs fs1 _ L1). exact Hbok. }
  split.
  { intros i Hi. unfold file_at. rewrite Hbs2.
    assert (Hq : 0 <= i / block_size fs < write_nblocks fs new_size).
    { split; [apply Z.div_pos; lia|].
      apply Z.div_lt_upper_bound; [lia|]. nia. }
    rewrite Hptr by exact Hq.
    destruct (Hblocks (i / block_size fs) ltac:(lia)
                ltac:(pose proof (Z.mul_div_le i (block_size fs) ltac:(lia)); lia))
      as [Hnz _].
    destruct (Hdata (i / block_size fs) ltac:(lia) Hnz) as (_ & _ & _ & HW & Hib).
    rewrite (Hkeep _ HW Hib). reflexivity. }
  intros k Hk.
  destruct (Hhigh k ltac:(lia) ltac:(lia)) as [Hzero Hbit].
  split.
  { unfold ino2. rewrite i_block_set_i_size by lia. exact Hzero. }
  destruct (Hblocks k ltac:(lia) ltac:(nia)) as [Hnz _].
  specialize (Hbit Hnz).
  destruct (Hdata k ltac:(lia) Hnz) as (Hfirst & Hbok & HinW & _).
  assert (L2 : same_layout fs fs2).
  { eapply same_layout_trans; [exact L1|apply same_layout_disk_put]. }
  destruct (same_layout_block_bitmap fs fs2 (i_block ino k) L2 Hbpg Hfirst) as [_ ->].
  destruct (same_layout_block_bitmap fs fs1 (i_block ino k) L1 Hbpg Hfirst)
    as [_ Hb1].
  rewrite Hb1 in Hbit.
  unfold fs2. rewrite blk_data_disk_put_other; [exact Hbit|exact G1|exact Hinlen|].
  rewrite !(same_layout_blk_addr fs fs1 _ L1), Eb.
  intros E. apply Hino. unfold W in *. rewrite <- E. exact HinW.
Qed.

Lemma vfs_truncate_shrinks_witness :
  exists fs' ino',
    vfs_truncate (Some img_fs) (mk_file 11 2000 VFS_TYPE_FILE 1500 1) 500
    = (0, Some fs', mk_file 11 500 VFS_TYPE_FILE (Z.min 1500 500) 1)
    /\ fs_geom fs' = true
    /\ ext2_read_inode fs' 11 = Some ino'
    /\ i_size ino' = 500
    /\ file_wf fs' ino' = true
    /\ (forall i, 0 <= i < 500 -> file_at fs' ino' i = file_at img_fs img_f_inode i)
    /\ (forall k, write_nblocks img_fs 500 <= k
                  < write_nblocks img_fs (i_size img_f_inode) ->
          i_block ino' k = 0
          /\ block_bit fs' (i_block img_f_inode k) = 0).
Proof.
  apply (vfs_truncate_shrinks img_fs (mk_file 11 2000 VFS_TYPE_FILE 1500 1) 500
           img_f_inode).
  - vm_compute. reflexivity.
  - simpl. lia.
  - vm_compute. reflexivity.
  - vm_compute. reflexivity.
  - vm_compute. reflexivity.
  - vm_compute. split; [discriminate|reflexivity].
Defined.

(** ** Empty directories *)

Lemma is_dir_empty_loop_block buf block pos dir_size bs es :
  0 <= pos -> embedded buf pos block ->
  Z.of_nat (length block) = bs -> pos + bs <= dir_size -> dir_size < 4294967296 ->
  forall off fuel count,
  records block bs off es ->
  is_dir_empty_loop (length es + fuel) buf dir_size (pos + off) count
  = is_dir_empty_loop fuel buf dir_size (pos + bs)
      (count + Z.of_nat (length (List.filter (fun en => negb (is_dot (snd en)))
                                             (block_entries block es)))).
Proof.
  intros Hpos Hemb Hlen Hsize Hsmall.
  induction es as [|e es IH]; intros off fuel count Hrec; simpl in Hrec.
  - subst off. simpl. f_equal. lia.
  - destruct Hrec as (-> & H0 & H8 & Hnl & Hend & Hrest).
    destruct (embedded_header buf block pos Hpos Hemb off H0 ltac:(lia))
      as (Hi & Hr & Hn).
    pose proof (embedded_entry_name buf block pos Hpos Hemb off H0 ltac:(lia)
                  ltac:(lia)) as Hname.
    cbn [length Nat.add is_dir_empty_loop].
    destruct (Z.ltb_spec (pos + off) dir_size); [|lia].
    rewrite Hr.
    destruct (Z.eqb_spec (de_rec_len block off) 0); [lia|].
    rewrite (u32_small (pos + off + de_rec_len block off)) by lia.
    replace (pos + off + de_rec_len block off)
      with (pos + (off + de_rec_len block off)) by lia.
    fold (entry_name buf (pos + off)). rewrite Hi, Hname.
    unfold block_entries. cbn [List.filter].
    destruct (negb (de_inode block off =? 0)); cbn [map List.filter snd].
    + unfold is_dot at 1. rewrite negb_orb.
      destruct (negb (strcmp_local (entry_name block off) [46] =? 0)
                && negb (strcmp_local (entry_name block off) [46; 46] =? 0)).
      * rewrite (IH _ fuel (count + 1) Hrest). f_equal.
        unfold block_entries. cbn [length]. lia.
      * apply (IH _ fuel count Hrest).
    + apply (IH _ fuel count Hrest).
Qed.

Section DirEmpty.

Variable fs : ext2_fs_t.
Variable ino : list Z.
Variable bl : list (list Z * list Z).
Hypothesis Hgeom : fs_geom fs = true.
Hypothesis Hlay : dir_layout fs ino bl.

Lemma is_dir_empty_loop_layout buf :
  (forall i, (i < Z.to_nat (i_size ino))%nat ->
     buf !! i = blk_data fs (i_block ino (Z.of_nat i / block_size fs))
                  !! Z.to_nat (Z.of_nat i mod block_size fs)) ->
  forall suf pre fuel count,
    bl = pre ++ suf -> (length suf * Z.to_nat (block_size fs) <= fuel)%nat ->
    is_dir_empty_loop fuel buf (i_size ino) (Z.of_nat (length pre) * block_size fs)
                      count
    = count
      + Z.of_nat (length (List.filter (fun en => negb (is_dot (snd en)))
                            (flat_map (fun p => block_entries (fst p) (snd p)) suf))).
Proof.
  intros Hbuf. destruct Hlay as (Hsz & Hn & Hsmall & _).
  destruct (geom_facts fs Hgeom) as (Hbs & _).
  induction suf as [|[B es] suf IH]; intros pre fuel count Hbl Hfuel.
  - rewrite app_nil_r in Hbl. subst pre. rewrite <- Hsz. simpl.
    destruct fuel; simpl; [lia|].
    destruct (Z.ltb_spec (i_size ino) (i_size ino)); lia.
  - assert (HB : bl !! length pre = Some (B, es)).
    { rewrite Hbl. rewrite lookup_app_r by lia.
      replace (length pre - length pre)%nat with 0%nat by lia. reflexivity. }
    destruct (layout_block fs ino bl Hgeom Hlay _ _ _ HB)
      as (Hnz & Hok & Hdata & Hrec & HlenB).
    assert (Hlen_bl : length bl = (length pre + S (length suf))%nat).
    { rewrite Hbl, length_app. reflexivity. }
    pose proof (records_length _ _ _ _ Hrec) as [_ Hes].
    assert (Hfuel' : exists fuel', fuel = (length es + fuel')%nat
                       /\ (length suf * Z.to_nat (block_size fs) <= fuel')%nat).
    { exists (fuel - length es)%nat. simpl in Hfuel. split; lia. }
    destruct Hfuel' as (fuel' & -> & Hfuel').
    assert (Hemb : embedded buf (Z.of_nat (length pre) * block_size fs) B).
    { intros i Hi.
      replace (Z.to_nat (Z.of_nat (length pre) * block_size fs) + i)%nat
        with (Z.to_nat (Z.of_nat (length pre) * block_size fs + Z.of_nat i)) by lia.
      rewrite Hbuf by nia.
      rewrite Z2Nat.id by lia.
      assert (Hq : (Z.of_nat (length pre) * block_size fs + Z.of_nat i) / block_size fs
                   = Z.of_nat (length pre)).
      { symmetry. apply Z.div_unique with (r := Z.of_nat i); lia. }
      assert (Hr : (Z.of_nat (length pre) * block_size fs + Z.of_nat i)
                   mod block_size fs = Z.of_nat i).
      { symmetry. apply Z.mod_unique with (q := Z.of_nat (length pre)); lia. }
      rewrite Hq, Hr, Hdata, Nat2Z.id. reflexivity. }
    replace (Z.of_nat (length pre) * block_size fs)
      with (Z.of_nat (length pre) * block_size fs + 0) at 1 by lia.
    rewrite (is_dir_empty_loop_block buf B (Z.of_nat (length pre) * block_size fs)
               (i_size ino) (block_size fs) es ltac:(lia) Hemb HlenB ltac:(nia)
               ltac:(lia) 0 fuel' count Hrec).
    specialize (IH (pre ++ [(B, es)]) fuel').
    rewrite length_app in IH. simpl in IH.
    replace (Z.of_nat (length pre) * block_size fs + block_size fs)
      with (Z.of_nat (length pre + 1) * block_size fs) by lia.
    rewrite IH; [|rewrite <- app_assoc; exact Hbl|exact Hfuel'].
    cbn [flat_map fst snd]. rewrite List.filter_app, length_app. lia.
Qed.

Lemma is_dir_empty_layout :
  Z.land (i_mode ino) EXT2_S_IFDIR <> 0 ->
  ext2_is_dir_empty fs ino
  = if forallb (fun en => is_dot (snd en))
               (flat_map (fun p => block_entries (fst p) (snd p)) bl)
    then 1 else 0.
Proof.
  intros Hdir. pose proof Hlay as (Hsz & Hn & Hsmall & _).
  destruct (geom_facts fs Hgeom) as (Hbs & _).
  unfold ext2_is_dir_empty.
  destruct (Z.eqb_spec (Z.land (i_mode ino) EXT2_S_IFDIR) 0); [contradiction|].
  assert (Hpos : 0 < i_size ino) by nia.
  unfold kmalloc. destruct (Z.eqb_spec (i_size ino) 0); [lia|].
  destruct (read_file_spec fs ino (i_size ino) Hgeom ltac:(lia) ltac:(nia)
              (layout_blocks_ok fs ino bl Hgeom Hlay)
              (replicate (Z.to_nat (i_size ino)) 0)
              ltac:(lia) ltac:(rewrite length_replicate; lia) Hpos)
    as (out' & Hread & Hlen & Hin & _).
  rewrite Hread. rewrite to_int_small by lia. rewrite Z.eqb_refl. simpl negb. cbv iota.
  pose proof (is_dir_empty_loop_layout out' Hin bl [] (Z.to_nat (i_size ino)) 0 eq_refl
                ltac:(rewrite Hsz; nia)) as Hloop.
  change (Z.of_nat (length (@nil (list Z * list Z))) * block_size fs) with 0 in Hloop.
  rewrite Hloop.
  set (l := flat_map (fun p => block_entries (fst p) (snd p)) bl).
  assert (E : forall l : list (Z * list Z),
            (0 + Z.of_nat (length (List.filter (fun en => negb (is_dot (snd en))) l))
             =? 0) = forallb (fun en => is_dot (snd en)) l).
  { induction l0 as [|x l0 IH]; [reflexivity|].
    simpl. destruct (is_dot (snd x)); simpl; [exact IH|reflexivity]. }
  rewrite E. reflexivity.
Qed.

End DirEmpty.

(** X21.  [ext2_is_dir_empty] returns 1 for a well-formed directory all of
    whose live entries are named "." or "..", and 0 when it holds any
    other live entry; for an inode that is no directory it returns -1. *)
Theorem is_dir_empty_only_dots fs ino :
  fs_geom fs = true -> bytes_ok (disk fs) = true ->
  (Z.land (i_mode ino) EXT2_S_IFDIR = 0 -> ext2_is_dir_empty fs ino = -1)
  /\ (Z.land (i_mode ino) EXT2_S_IFDIR <> 0 -> dir_wf fs ino = true ->
      ext2_is_dir_empty fs ino
      = if forallb (fun en => is_dot (snd en)) (dir_entries fs ino) then 1 else 0).
Proof.
  intros Hgeom Hdisk. split.
  - intros Hz. unfold ext2_is_dir_empty. rewrite Hz. reflexivity.
  - intros Hdir Hwf.
    destruct (dir_wf_layout fs ino Hgeom Hdisk Hwf) as (Hlay & _).
    apply (is_dir_empty_layout fs ino _ Hgeom Hlay Hdir).
Qed.

Lemma is_dir_empty_only_dots_witness :
  (Z.land (i_mode img_root_inode) EXT2_S_IFDIR = 0 ->
   ext2_is_dir_empty img_fs img_root_inode = -1)
  /\ (Z.land (i_mode img_root_inode) EXT2_S_IFDIR <> 0 ->
      dir_wf img_fs img_root_inode = true ->
      ext2_is_dir_empty img_fs img_root_inode
      = if forallb (fun en => is_dot (snd en)) (dir_entries img_fs img_root_inode)
        then 1 else 0).
Proof.
  apply (is_dir_empty_only_dots img_fs img_root_inode).
  - vm_compute. reflexivity.
  - vm_compute. reflexivity.
Defined.

(** ** What [vfs_stat] reports *)

Lemma stat_name_loop_tail l : forall trail rest cur,
  no_nul l -> ~ In slash l -> trail = [] \/ trail = [slash] -> terminated rest ->
  stat_name_loop (l ++ trail ++ rest) cur = cur.
Proof.
  induction l as [|c l IH]; intros trail rest cur Hnul Hns Htrail Hrest.
  - cbn [app]. destruct Htrail as [->| ->]; cbn [app].
    + destruct Hrest as [->|[r ->]]; reflexivity.
    + destruct Hrest as [->|[r ->]]; reflexivity.
  - cbn [app stat_name_loop].
    destruct (Z.eqb_spec c 0) as [Hc|Hc].
    { exfalso. apply (Hnul c); [left; reflexivity|exact Hc]. }
    destruct (Z.eqb_spec c slash) as [Hs|Hs].
    { exfalso. apply Hns. left. exact Hs. }
    cbn [andb]. apply IH; try assumption.
    + intros b Hb. apply Hnul. right. exact Hb.
    + intros Hin. apply Hns. right. exact Hin.
Qed.

Lemma stat_name_loop_last pre : forall name tail cur,
  no_nul pre -> no_nul name -> name <> [] ->
  stat_name_loop (pre ++ slash :: name ++ tail) cur
  = stat_name_loop (name ++ tail) (name ++ tail).
Proof.
  induction pre as [|c pre IH]; intros name tail cur Hpre Hname Hne.
  - cbn [app stat_name_loop]. change (slash =? 0) with false.
    rewrite Z.eqb_refl. cbv iota.
    destruct name as [|x name]; [contradiction|].
    assert (Hx : x <> 0) by (apply Hname; left; reflexivity).
    change (byte_at ((x :: name) ++ tail) 0) with x.
    destruct (Z.eqb_spec x 0); [contradiction|]. reflexivity.
  - cbn [app stat_name_loop].
    destruct (Z.eqb_spec c 0) as [Hc|Hc].
    { exfalso. apply (Hpre c); [left; reflexivity|exact Hc]. }
    assert (Hpre' : no_nul pre) by (intros b Hb; apply Hpre; right; exact Hb).
    destruct ((c =? slash) && negb (byte_at (pre ++ slash :: name ++ tail) 0 =? 0));
      apply IH; assumption.
Qed.

Lemma land_type_bits mode t :
  Z.land mode 61440 = t ->
  Z.land mode EXT2_S_IFDIR = Z.land t EXT2_S_IFDIR
  /\ Z.land mode EXT2_S_IFLNK = Z.land t EXT2_S_IFLNK.
Proof.
  intros <-. rewrite <- !Z.land_assoc. split; reflexivity.
Qed.







(** A reported name of exactly 256 bytes: the terminator that
    [strcpy_local] stores behind the name field, on the first byte of
    [type], is overwritten by the type, so that no byte from the start of
    the name field to the first byte of [type] is a terminator, and the
    string that the caller reads from the field is not the name. *)
Lemma vfs_stat_store_overflow fs pre name trail rest n ino stat :
  no_nul pre -> no_nul name -> ~ In slash name -> name <> [] ->
  trail = [] \/ trail = [slash] -> terminated rest ->
  length (name ++ trail) = 256%nat -> (268 <= length stat)%nat ->
  ext2_path_to_inode fs (pre ++ slash :: name ++ trail ++ rest) = n -> n <> 0 ->
  ext2_read_inode fs n = Some ino ->
  exists stat',
    vfs_stat_store (Some fs) (pre ++ slash :: name ++ trail ++ rest) stat
    = (0, stat')
    /\ forall i, 4 <= i <= 260 -> byte_at stat' i <> 0.
Proof.
  intros Hpre Hname Hns Hne Htrail Hrest Hfield Hstat Hpath Hnz Hread.
  assert (Hnul : no_nul (name ++ trail)).
  { apply no_nul_app. split; [exact Hname|].
    destruct Htrail as [->| ->]; intros b Hb; [destruct Hb|].
    destruct Hb as [<-|[]]. discriminate. }
  unfold vfs_stat_store. rewrite Hpath.
  destruct (Z.eqb_spec n 0); [contradiction|]. rewrite Hread.
  rewrite (stat_name_loop_last pre name (trail ++ rest)) by assumption.
  rewrite (stat_name_loop_tail name trail rest) by assumption.
  rewrite app_assoc. rewrite strcpy_local_app by assumption.
  set (s := name ++ trail) in *.
  eexists. split; [reflexivity|]. intros i Hi.
  assert (L1 : length (set_u32 stat 0 n) = length stat) by apply length_set_u32.
  assert (L2 : length (list_inserts 4 (s ++ [0]) (set_u32 stat 0 n)) = length stat)
    by (rewrite length_inserts; exact L1).
  set (m2 := list_inserts 4 (s ++ [0]) (set_u32 stat 0 n)) in *.
  rewrite byte_at_set_u32_ne by lia.
  destruct (Z.eq_dec i 260) as [->|Hi'].
  - unfold set_u32. rewrite !byte_at_set_u8_ne by lia.
    rewrite byte_at_set_u8_eq by (rewrite L2; lia).
    unfold vfs_get_type_from_mode.
    destruct (_ =? _); [discriminate|]. destruct (_ =? _); discriminate.
  - rewrite byte_at_set_u32_ne by lia. unfold byte_at, m2.
    rewrite list_lookup_inserts
      by (rewrite ?length_app, ?length_set_u32; simpl; lia).
    rewrite lookup_app_l by lia.
    destruct (s !! (Z.to_nat i - 4)%nat) as [b|] eqn:E.
    + cbn [default]. apply Hnul. apply list_elem_of_In.
      apply (list_elem_of_lookup_2 _ _ _ E).
    + apply lookup_ge_None_1 in E. lia.
Qed.

(** ** The two path walks agree *)

Lemma find_dir_loop_nonzero fuel : forall buf size name off n,
  find_dir_loop fuel buf size name off = Some n -> n <> 0.
Proof.
  induction fuel as [|fuel IH]; intros buf size name off n H; [discriminate|].
  simpl in H.
  destruct (off <? size); [|discriminate].
  destruct (de_rec_len buf off =? 0); [discriminate|].
  destruct (Z.eqb_spec (de_inode buf off) 0) as [Hz|Hnz]; simpl in H.
  - eapply IH. exact H.
  - destruct (de_name_len buf off =? strlen_local name); simpl in H.
    + destruct (strcmp_local _ name =? 0).
      * injection H as <-. exact Hnz.
      * eapply IH. exact H.
    + eapply IH. exact H.
Qed.

Lemma path_step_nonzero fs cur comp n :
  path_step fs cur comp = Some n -> n <> 0.
Proof.
  unfold path_step, ext2_find_dir_entry. intros H.
  destruct (ext2_read_inode fs cur) as [ino|]; [|discriminate].
  destruct (Z.land (i_mode ino) EXT2_S_IFDIR =? 0); [discriminate|].
  destruct (kmalloc (i_size ino)); [|discriminate].
  destruct (ext2_read_file fs ino 0 (i_size ino) l) as [r buf].
  destruct (negb (r =? to_int (i_size ino))); [discriminate|].
  eapply find_dir_loop_nonzero. exact H.
Qed.

Lemma resolve_loop_nonzero fs path : forall comp cur n,
  cur <> 0 -> resolve_loop fs path comp cur = Some n -> n <> 0.
Proof.
  induction path as [|c path IH]; intros comp cur n Hcur H; simpl in H.
  - destruct (0 <? Z.of_nat (length comp)).
    + eapply path_step_nonzero. exact H.
    + injection H as <-. exact Hcur.
  - destruct (c =? 0).
    { destruct (0 <? Z.of_nat (length comp)).
      + eapply path_step_nonzero. exact H.
      + injection H as <-. exact Hcur. }
    destruct (c =? slash).
    + destruct (0 <? Z.of_nat (length comp)); [|eapply IH; eassumption].
      destruct (path_step fs cur comp) as [ino|] eqn:Hstep; [|discriminate].
      eapply IH; [|exact H]. eapply path_step_nonzero. exact Hstep.
    + destruct (Z.of_nat (length comp) <? 255); eapply IH; eassumption.
Qed.

(** X23.  The path walk of vfs.c and the one of ext2.c agree: a path
    resolves with [vfs_resolve_path] exactly when [ext2_path_to_inode]
    returns an inode number other than 0, and then to that inode.  So
    for a path that [vfs_exists] denies, [vfs_stat], [vfs_open],
    [vfs_chmod] and [vfs_chown] fail and change nothing. *)
Theorem vfs_exists_agrees fs path :
  vfs_exists (Some fs) path = (if ext2_path_to_inode fs path =? 0 then 0 else 1)
  /\ (forall n, vfs_resolve_path (Some fs) path = Some n ->
        n <> 0 /\ ext2_path_to_inode fs path = n)
  /\ (vfs_exists (Some fs) path = 0 ->
      vfs_stat (Some fs) path = None /\ vfs_open (Some fs) path = None
      /\ (forall mode ticks, vfs_chmod (Some fs) path mode ticks = (-1, Some fs))
      /\ (forall uid gid ticks,
            vfs_chown (Some fs) path uid gid ticks = (-1, Some fs))).
Proof.
  assert (Hres : forall n, vfs_resolve_path (Some fs) path = Some n ->
                   n <> 0 /\ ext2_path_to_inode fs path = n).
  { intros n H. split; [|rewrite path_to_inode_resolve, H; reflexivity].
    unfold vfs_resolve_path in H.
    destruct (strcmp_local path [slash] =? 0).
    - injection H as <-. discriminate.
    - eapply resolve_loop_nonzero; [|exact H]. discriminate. }
  assert (Hex : vfs_exists (Some fs) path
                = (if ext2_path_to_inode fs path =? 0 then 0 else 1)).
  { unfold vfs_exists.
    destruct (vfs_resolve_path (Some fs) path) as [n|] eqn:E.
    - destruct (Hres n eq_refl) as [Hnz ->].
      destruct (Z.eqb_spec n 0); [contradiction|reflexivity].
    - rewrite path_to_inode_resolve, E. reflexivity. }
  split; [exact Hex|]. split; [exact Hres|].
  intros H0. rewrite Hex in H0.
  destruct (Z.eqb_spec (ext2_path_to_inode fs path) 0) as [Hz|]; [|discriminate].
  unfold vfs_stat, vfs_open, vfs_chmod, vfs_chown. rewrite Hz.
  repeat split; reflexivity.
Qed.

(** ** Opening, seeking and reading *)

Lemma regular_not_symlink mode :
  Z.land mode 61440 = EXT2_S_IFREG ->
  (Z.land mode EXT2_S_IFLNK =? EXT2_S_IFLNK) = false.
Proof.
  intros H. destruct (land_type_bits mode _ H) as [_ ->]. reflexivity.
Qed.

(** X24.  A path that resolves to a regular file with direct blocks can be
    opened; the handle starts at position 0 with the size of the file.
    [vfs_seek] then sets the position to the offset, or to the size if
    the offset lies behind it, and [vfs_read] returns the bytes of the
    file from there on, as many as were asked for and are left. *)
Theorem vfs_open_seek_read fs path n ino offset buf cnt ticks :
  fs_geom fs = true ->
  ext2_path_to_inode fs path = n -> n <> 0 ->
  ext2_read_inode fs n = Some ino ->
  Z.land (i_mode ino) 61440 = EXT2_S_IFREG -> file_wf fs ino = true ->
  0 <= offset -> 0 <= cnt < 2147483648 -> cnt <= Z.of_nat (length buf) ->
  exists file1 out fs' file2,
    vfs_open (Some fs) path = Some (mk_file n (i_size ino) VFS_TYPE_FILE 0 1)
    /\ vfs_seek (mk_file n (i_size ino) VFS_TYPE_FILE 0 1) offset = (0, file1)
    /\ f_position file1 = Z.min offset (i_size ino)
    /\ vfs_read (Some fs) file1 buf cnt ticks
       = (Z.min cnt (i_size ino - f_position file1), out, Some fs', file2)
    /\ f_position file2 = f_position file1 + Z.min cnt (i_size ino - f_position file1)
    /\ (forall i, 0 <= i < Z.min cnt (i_size ino - f_position file1) ->
          out !! Z.to_nat i = file_at fs ino (f_position file1 + i)).
Proof.
  intros G Hpath Hnz Hread Hreg Hwf Hoff Hcnt Hbuf.
  destruct (file_wf_facts fs ino G Hwf) as (Hisz & _ & _).
  destruct (read_inode_ok fs n ino G Hread) as [Hok Hlen].
  set (pos := Z.min offset (i_size ino)).
  set (file1 := mk_file n (i_size ino) VFS_TYPE_FILE pos 1).
  destruct (read_file_at fs ino pos cnt buf G Hwf ltac:(unfold pos; lia) Hcnt Hbuf)
    as (out & Hrf & _ & Hdata & _).
  cbv zeta in Hrf, Hdata.
  assert (Hmax : Z.max 0 (Z.min cnt (i_size ino - pos)) = Z.min cnt (i_size ino - pos))
    by (unfold pos; lia).
  rewrite Hmax in Hrf, Hdata.
  assert (Hrd : exists fs' file2,
            vfs_read (Some fs) file1 buf cnt ticks
            = (Z.min cnt (i_size ino - pos), out, Some fs', file2)
            /\ f_position file2 = pos + Z.min cnt (i_size ino - pos)).
  { unfold vfs_read, file1. cbn [f_is_open f_inode f_position f_size f_type].
    change (1 =? 0) with false. cbv iota. rewrite Hread, Hrf.
    destruct (Z.ltb_spec 0 (Z.min cnt (i_size ino - pos))) as [Hgt|Hle].
    - assert (Hlen2 : length (set_i_atime ino (ticks / 100)) = 128%nat).
      { unfold set_i_atime. rewrite length_set_u32. exact Hlen. }
      pose proof (write_inode_spec fs n _ G Hlen2) as Hw.
      rewrite Hok in Hw. rewrite Hw.
      eexists. eexists. split; [reflexivity|].
      cbn [f_position]. apply u32_small. unfold pos in *. lia.
    - eexists. eexists. split; [reflexivity|].
      cbn [f_position]. unfold pos in *. lia. }
  destruct Hrd as (fs' & file2 & Hrd & Hpos2).
  exists file1, out, fs', file2.
  split.
  { unfold vfs_open. rewrite Hpath.
    destruct (Z.eqb_spec n 0); [contradiction|]. rewrite Hread.
    cbn [open_follow]. rewrite (regular_not_symlink _ Hreg). cbn [andb].
    change (MAX_SYMLINK_DEPTH <=? 0) with false. cbv iota.
    rewrite (regular_not_dir _ Hreg). reflexivity. }
  split.
  { unfold vfs_seek, file1. cbn [f_is_open f_size f_inode f_type].
    change (1 =? 0) with false. cbv iota.
    unfold pos.
    destruct (Z.ltb_spec (i_size ino) offset);
      [rewrite Z.min_r by lia|rewrite Z.min_l by lia]; reflexivity. }
  split; [reflexivity|].
  cbn [f_position file1].
  split; [exact Hrd|]. split; [exact Hpos2|exact Hdata].
Qed.

Lemma vfs_open_seek_read_witness :
  exists file1 out fs' file2,
    vfs_open (Some img_fs) path_f
    = Some (mk_file 11 (i_size img_f_inode) VFS_TYPE_FILE 0 1)
    /\ vfs_seek (mk_file 11 (i_size img_f_inode) VFS_TYPE_FILE 0 1) 1990 = (0, file1)
    /\ f_position file1 = Z.min 1990 (i_size img_f_inode)
    /\ vfs_read (Some img_fs) file1 (replicate 64 0) 64 700
       = (Z.min 64 (i_size img_f_inode - f_position file1), out, Some fs', file2)
    /\ f_position file2
       = f_position file1 + Z.min 64 (i_size img_f_inode - f_position file1)
    /\ (forall i, 0 <= i < Z.min 64 (i_size img_f_inode - f_position file1) ->
          out !! Z.to_nat i = file_at img_fs img_f_inode (f_position file1 + i)).
Proof.
  apply (vfs_open_seek_read img_fs path_f 11 img_f_inode 1990 (replicate 64 0) 64 700).
  - vm_compute. reflexivity.
  - vm_compute. reflexivity.
  - discriminate.
  - vm_compute. reflexivity.
  - vm_compute. reflexivity.
  - vm_compute. reflexivity.
  - lia.
  - lia.
  - vm_compute. discriminate.
Defined.

(** ** Formatting a time *)

Lemma decimal_value_snoc l x :
  decimal_value (l ++ [x]) = 10 * decimal_value l + (x - 48).
Proof. unfold decimal_value. rewrite fold_left_app. reflexivity. Qed.

Lemma count_digits_spec fuel : forall temp len,
  0 <= temp < 10 ^ Z.of_nat fuel ->
  len <= count_digits fuel temp len <= len + Z.of_nat fuel
  /\ temp < 10 ^ (count_digits fuel temp len - len)
  /\ (0 < temp -> len < count_digits fuel temp len).
Proof.
  induction fuel as [|fuel IH]; intros temp len Ht.
  - simpl in *. rewrite Z.sub_diag. simpl. lia.
  - cbn [count_digits].
    destruct (Z.ltb_spec 0 temp) as [Hpos|Hz].
    + rewrite Nat2Z.inj_succ, Z.pow_succ_r in Ht by lia.
      assert (Hq : 0 <= temp / 10 < 10 ^ Z.of_nat fuel).
      { split; [apply Z.div_pos; lia|apply Z.div_lt_upper_bound; lia]. }
      destruct (IH (temp / 10) (len + 1) Hq) as (Hb & Hlt & _).
      set (L := count_digits fuel (temp / 10) (len + 1)) in *.
      split; [lia|]. split; [|lia].
      replace (L - len) with (Z.succ (L - (len + 1))) by lia.
      rewrite Z.pow_succ_r by lia.
      pose proof (Z.div_mod temp 10 ltac:(lia)).
      pose proof (Z.mod_pos_bound temp 10 ltac:(lia)). lia.
    + rewrite Z.sub_diag. simpl. lia.
Qed.

Lemma write_digits_spec k : forall (buffer : list Z) d,
  (k <= length buffer)%nat -> 0 <= d ->
  length (write_digits k buffer (Z.of_nat k - 1) d) = length buffer
  /\ (forall j, (k <= j)%nat ->
        write_digits k buffer (Z.of_nat k - 1) d !! j = buffer !! j)
  /\ decimal_value (take k (write_digits k buffer (Z.of_nat k - 1) d))
     = d mod 10 ^ Z.of_nat k
  /\ Forall (fun c => 48 <= c <= 57)
            (take k (write_digits k buffer (Z.of_nat k - 1) d)).
Proof.
  induction k as [|k IH]; intros buffer d Hlen Hd.
  - simpl. repeat split; try reflexivity; [|constructor].
    rewrite Z.mod_1_r. reflexivity.
  - cbn [write_digits].
    destruct (Z.leb_spec 0 (Z.of_nat (S k) - 1)); [|lia].
    replace (Z.of_nat (S k) - 1) with (Z.of_nat k) by lia.
    set (buffer' := set_u8 buffer (Z.of_nat k) (48 + d mod 10)).
    assert (Hlen' : length buffer' = length buffer) by apply length_set_u8.
    assert (Hq : 0 <= d / 10) by (apply Z.div_pos; lia).
    destruct (IH buffer' (d / 10) ltac:(lia) Hq) as (Hl & Hframe & Hval & Hdig).
    set (out := write_digits k buffer' (Z.of_nat k - 1) (d / 10)) in *.
    pose proof (Z.mod_pos_bound d 10 ltac:(lia)) as Hm.
    assert (Hk : out !! k = Some (48 + d mod 10)).
    { rewrite Hframe by lia. unfold buffer', set_u8. rewrite Nat2Z.id.
      rewrite list_lookup_insert_eq by lia. f_equal. apply u8_small. lia. }
    split; [lia|]. split.
    { intros j Hj. rewrite Hframe by lia. unfold buffer', set_u8.
      rewrite Nat2Z.id. apply list_lookup_insert_ne. lia. }
    rewrite (take_S_r _ _ _ Hk). split.
    + rewrite decimal_value_snoc, Hval.
      rewrite Nat2Z.inj_succ, Z.pow_succ_r by lia.
      rewrite (Z.rem_mul_r d 10 (10 ^ Z.of_nat k)) by lia. lia.
    + apply Forall_app. split; [exact Hdig|]. constructor; [lia|constructor].
Qed.

Lemma to_nat_offset base c :
  0 <= c -> Z.to_nat (Z.of_nat base + c) = (base + Z.to_nat c)%nat.
Proof. intros Hc. lia. Qed.

Ltac lookup_set_u8 :=
  unfold set_u8;
  rewrite ?to_nat_offset by lia;
  repeat (rewrite list_lookup_insert_ne by lia);
  try (rewrite list_lookup_insert_eq by (rewrite ?length_insert; lia));
  repeat (rewrite list_lookup_insert_ne by lia).

(** The nine bytes "HH:MM:SS" and the terminator that
    [ext2_format_time] stores from [base] on. *)
Lemma format_time_tail (buffer : list Z) base h m s :
  (base + 9 <= length buffer)%nat ->
  0 <= h < 100 -> 0 <= m < 100 -> 0 <= s < 100 ->
  let b := Z.of_nat base in
  let out :=
    set_u8 (set_u8 (set_u8 (set_u8 (set_u8 (set_u8 (set_u8 (set_u8 (set_u8 buffer
      (b + 0) (48 + h / 10)) (b + 1) (48 + h mod 10)) (b + 2) 58)
      (b + 3) (48 + m / 10)) (b + 4) (48 + m mod 10)) (b + 5) 58)
      (b + 6) (48 + s / 10)) (b + 7) (48 + s mod 10)) (b + 8) 0 in
  length out = length buffer
  /\ take base out = take base buffer
  /\ take 9 (drop base out)
     = two_digits h ++ [58] ++ two_digits m ++ [58] ++ two_digits s ++ [0]
  /\ drop (base + 9) out = drop (base + 9) buffer.
Proof.
  intros Hlen Hh Hm Hs b out.
  assert (Hl : length out = length buffer).
  { unfold out. rewrite !length_set_u8. reflexivity. }
  pose proof (Z.mod_pos_bound h 10 ltac:(lia)).
  pose proof (Z.mod_pos_bound m 10 ltac:(lia)).
  pose proof (Z.mod_pos_bound s 10 ltac:(lia)).
  assert (0 <= h / 10 < 10)
    by (split; [apply Z.div_pos; lia|apply Z.div_lt_upper_bound; lia]).
  assert (0 <= m / 10 < 10)
    by (split; [apply Z.div_pos; lia|apply Z.div_lt_upper_bound; lia]).
  assert (0 <= s / 10 < 10)
    by (split; [apply Z.div_pos; lia|apply Z.div_lt_upper_bound; lia]).
  split; [exact Hl|]. split.
  { apply list_eq. intros i. destruct (decide (i < base)%nat) as [Hi|Hi].
    - rewrite !lookup_take_lt by lia. unfold out, b. lookup_set_u8. reflexivity.
    - rewrite !lookup_take_ge by lia. reflexivity. }
  split.
  { apply list_eq. intros i. unfold two_digits.
    destruct (decide (i < 9)%nat) as [Hi|Hi].
    - rewrite lookup_take_lt by lia. rewrite lookup_drop. unfold out, b.
      do 9 (destruct i as [|i];
            [lookup_set_u8; simpl; f_equal; apply u8_small; lia|]).
      lia.
    - rewrite lookup_take_ge by lia. symmetry. apply lookup_ge_None_2. simpl. lia. }
  apply list_eq. intros i. rewrite !lookup_drop. unfold out, b.
  lookup_set_u8. reflexivity.
Qed.

(** X25.  [ext2_format_time] writes the time of day as "HH:MM:SS" with
    two decimal digits each and a terminator, preceded, from one day on,
    by the number of days in decimal digits, "d" and a blank; the rest
    of the buffer is unchanged.  Read back, days, hours, minutes and
    seconds add up to the timestamp. *)
Theorem ext2_format_time_reads_back t (buffer : list Z) :
  0 <= t < 4294967296 -> 21 <= Z.of_nat (length buffer) ->
  let out := ext2_format_time t buffer in
  let hh := t / 60 / 60 mod 24 in
  let mm := t / 60 mod 60 in
  let ss := t mod 60 in
  exists k,
    (t < 86400 -> k = 0%nat)
    /\ (86400 <= t ->
        exists n, k = (n + 2)%nat /\ (1 <= n <= 10)%nat
          /\ Forall (fun c => 48 <= c <= 57) (take n out)
          /\ out !! n = Some 100 /\ out !! (n + 1)%nat = Some 32
          /\ ((decimal_value (take n out) * 24 + hh) * 60 + mm) * 60 + ss = t)
    /\ take 9 (drop k out)
       = two_digits hh ++ [58] ++ two_digits mm ++ [58] ++ two_digits ss ++ [0]
    /\ hh < 24 /\ mm < 60 /\ ss < 60
    /\ (hh * 60 + mm) * 60 + ss = t mod 86400
    /\ length out = length buffer
    /\ drop (k + 9) out = drop (k + 9) buffer.
Proof.
  intros Ht Hlen out hh mm ss.
  assert (Hhh : 0 <= hh < 24) by (apply Z.mod_pos_bound; lia).
  assert (Hmm : 0 <= mm < 60) by (apply Z.mod_pos_bound; lia).
  assert (Hss : 0 <= ss < 60) by (apply Z.mod_pos_bound; lia).
  assert (Hdays : t / 60 / 60 / 24 = t / 86400).
  { rewrite !Z.div_div by lia. reflexivity. }
  assert (Hsum : ((t / 86400 * 24 + hh) * 60 + mm) * 60 + ss = t).
  { unfold hh, mm, ss.
    pose proof (Z.div_mod t 60 ltac:(lia)).
    pose proof (Z.div_mod (t / 60) 60 ltac:(lia)).
    pose proof (Z.div_mod (t / 60 / 60) 24 ltac:(lia)).
    rewrite <- Hdays. lia. }
  assert (Hrem : (hh * 60 + mm) * 60 + ss = t mod 86400).
  { pose proof (Z.div_mod t 86400 ltac:(lia)). lia. }
  unfold out, ext2_format_time. cbv zeta.
  destruct (Z.ltb_spec 0 (t / 60 / 60 / 24)) as [Hpos|Hzero].
  - assert (Hd : 0 <= t / 60 / 60 / 24 < 10 ^ Z.of_nat 10).
    { rewrite Hdays. split; [lia|].
      apply Z.div_lt_upper_bound; [lia|]. change (10 ^ Z.of_nat 10) with 10000000000.
      lia. }
    destruct (count_digits_spec 10 _ 0 Hd) as (Hb & Hlt & Hgt).
    specialize (Hgt Hpos).
    set (len := count_digits 10 (t / 60 / 60 / 24) 0) in *.
    rewrite Z.sub_0_r in Hlt.
    destruct (write_digits_spec (Z.to_nat len) buffer (t / 60 / 60 / 24)
                ltac:(lia) ltac:(lia)) as (Hl1 & Hf1 & Hv1 & Hdig1).
    rewrite Z2Nat.id in Hl1, Hf1, Hv1, Hdig1 by lia.
    set (b1 := write_digits (Z.to_nat len) buffer (len - 1) (t / 60 / 60 / 24)) in *.
    set (b2 := set_u8 (set_u8 b1 len 100) (len + 1) 32).
    assert (Hl2 : length b2 = length buffer).
    { unfold b2. rewrite !length_set_u8. exact Hl1. }
    destruct (format_time_tail b2 (Z.to_nat len + 2) hh mm ss ltac:(lia)
                ltac:(lia) ltac:(lia) ltac:(lia)) as (Hl3 & Hpre & Htail & Hrest).
    cbv zeta in Hl3, Hpre, Htail, Hrest.
    replace (Z.of_nat (Z.to_nat len + 2)) with (len + 2) in * by lia.
    fold hh mm ss. fold b1. fold b2.
    set (out' := set_u8 _ (len + 2 + 8) 0) in *.
    assert (Hb2 : forall j, (j < Z.to_nat len)%nat -> b2 !! j = b1 !! j).
    { intros j Hj. unfold b2. lookup_set_u8. reflexivity. }
    assert (Hout : forall j, (j < Z.to_nat len + 2)%nat -> out' !! j = b2 !! j).
    { intros j Hj.
      rewrite <- (lookup_take_lt out' (Z.to_nat len + 2) j) by lia.
      rewrite Hpre. apply lookup_take_lt. lia. }
    assert (Htake : take (Z.to_nat len) out' = take (Z.to_nat len) b1).
    { apply list_eq. intros j. destruct (decide (j < Z.to_nat len)%nat).
      - rewrite !lookup_take_lt by lia. rewrite Hout by lia. apply Hb2. lia.
      - rewrite !lookup_take_ge by lia. reflexivity. }
    exists (Z.to_nat len + 2)%nat.
    split; [intros; lia|]. split.
    { intros _. exists (Z.to_nat len). split; [reflexivity|]. split; [lia|].
      rewrite Htake. split; [exact Hdig1|].
      split.
      { rewrite Hout by lia. unfold b2, set_u8.
        rewrite list_lookup_insert_ne by lia.
        apply list_lookup_insert_eq. lia. }
      split.
      { rewrite Hout by lia. unfold b2, set_u8.
        replace (Z.to_nat (len + 1)) with (Z.to_nat len + 1)%nat by lia.
        apply list_lookup_insert_eq. rewrite length_insert. lia. }
      rewrite Hv1, Z.mod_small by lia. rewrite Hdays. exact Hsum. }
    split; [exact Htail|]. split; [lia|]. split; [lia|]. split; [lia|].
    split; [exact Hrem|]. split; [lia|].
    rewrite Hrest. apply list_eq. intros j. rewrite !lookup_drop.
    unfold b2. lookup_set_u8. apply Hf1. lia.
  - destruct (format_time_tail buffer 0 hh mm ss ltac:(lia)
                ltac:(lia) ltac:(lia) ltac:(lia)) as (Hl3 & _ & Htail & Hrest).
    cbv zeta in Hl3, Htail, Hrest. change (Z.of_nat 0) with 0 in *.
    fold hh mm ss.
    exists 0%nat. split; [reflexivity|].
    split.
    { intros Hbig. exfalso. rewrite Hdays in Hzero.
      assert (1 <= t / 86400) by (apply Z.div_le_lower_bound; lia). lia. }
    split; [exact Htail|]. split; [lia|]. split; [lia|]. split; [lia|].
    split; [exact Hrem|]. split; [exact Hl3|exact Hrest].
Qed.

Lemma ext2_format_time_reads_back_witness :
  exists k,
    (100000 < 86400 -> k = 0%nat)
    /\ (86400 <= 100000 ->
        exists n, k = (n + 2)%nat /\ (1 <= n <= 10)%nat
          /\ Forall (fun c => 48 <= c <= 57)
                    (take n (ext2_format_time 100000 (replicate 32 0)))
          /\ ext2_format_time 100000 (replicate 32 0) !! n = Some 100
          /\ ext2_format_time 100000 (replicate 32 0) !! (n + 1)%nat = Some 32
          /\ ((decimal_value (take n (ext2_format_time 100000 (replicate 32 0))) * 24
               + 100000 / 60 / 60 mod 24) * 60 + 100000 / 60 mod 60) * 60
             + 100000 mod 60 = 100000)
    /\ take 9 (drop k (ext2_format_time 100000 (replicate 32 0)))
       = two_digits (100000 / 60 / 60 mod 24) ++ [58]
         ++ two_digits (100000 / 60 mod 60) ++ [58]
         ++ two_digits (100000 mod 60) ++ [0]
    /\ 100000 / 60 / 60 mod 24 < 24 /\ 100000 / 60 mod 60 < 60
    /\ 100000 mod 60 < 60
    /\ (100000 / 60 / 60 mod 24 * 60 + 100000 / 60 mod 60) * 60 + 100000 mod 60
       = 100000 mod 86400
    /\ length (ext2_format_time 100000 (replicate 32 0)) = length (replicate 32 0)
    /\ drop (k + 9) (ext2_format_time 100000 (replicate 32 0))
       = drop (k + 9) (replicate 32 0).
Proof.
  apply (ext2_format_time_reads_back 100000 (replicate 32 0)).
  - lia.
  - vm_compute. discriminate.
Defined.

(** ** The inode allocator *)

Lemma alloc_inode_bits_scan fs g (bitmap : list Z) :
  fs_geom fs = true ->
  blk_ok fs (bg_inode_bitmap (block_groups fs) g) = true ->
  Z.of_nat (length bitmap) = block_size fs ->
  forall c a fuel,
    (a + c = Z.to_nat (inodes_per_group fs))%nat -> (c <= fuel)%nat ->
    (exists i, Z.of_nat a <= i < inodes_per_group fs
        /\ bitmap_test bitmap i = 0
        /\ (forall j, Z.of_nat a <= j < i -> bitmap_test bitmap j <> 0)
        /\ alloc_inode_bits fuel fs g bitmap (Z.of_nat a)
           = (Some (u32 (g * inodes_per_group fs + i + 1)),
              dec_free_inodes
                (disk_put fs (bg_inode_bitmap (block_groups fs) g)
                          (bitmap_set bitmap i)) g))
    \/ ((forall j, Z.of_nat a <= j < inodes_per_group fs -> bitmap_test bitmap j <> 0)
        /\ alloc_inode_bits fuel fs g bitmap (Z.of_nat a) = (None, fs)).
Proof.
  intros G Hok Hlen. induction c as [|c IH]; intros a fuel Hac Hfuel.
  - right. split; [intros j Hj; lia|].
    destruct fuel; simpl; [reflexivity|].
    destruct (Z.ltb_spec (Z.of_nat a) (inodes_per_group fs)); [lia|reflexivity].
  - destruct fuel as [|fuel]; [lia|]. cbn [alloc_inode_bits].
    destruct (Z.ltb_spec (Z.of_nat a) (inodes_per_group fs)); [|lia].
    destruct (Z.eqb_spec (bitmap_test bitmap (Z.of_nat a)) 0) as [E|E].
    + left. exists (Z.of_nat a). split; [lia|]. split; [exact E|].
      split; [intros j Hj; lia|].
      rewrite (write_blocks_spec fs G) by (rewrite length_bitmap_set; exact Hlen).
      rewrite Hok. reflexivity.
    + replace (Z.of_nat a + 1) with (Z.of_nat (S a)) by lia.
      destruct (IH (S a) fuel ltac:(lia) ltac:(lia))
        as [(i & Hi & Hz & Hbelow & Hrun)|[Hall Hrun]].
      * left. exists i. split; [lia|]. split; [exact Hz|]. split; [|exact Hrun].
        intros j Hj. destruct (Z.eq_dec j (Z.of_nat a)) as [->|]; [exact E|].
        apply Hbelow. lia.
      * right. split; [|exact Hrun].
        intros j Hj. destruct (Z.eq_dec j (Z.of_nat a)) as [->|]; [exact E|].
        apply Hall. lia.
Qed.

Lemma inode_alloc_wf_facts fs :
  inode_alloc_wf fs = true ->
  0 < inodes_per_group fs /\ inodes_per_group fs <= 8 * block_size fs
  /\ num_block_groups fs * inodes_per_group fs < 4294967296
  /\ (forall g, 0 <= g < num_block_groups fs ->
        blk_ok fs (bg_inode_bitmap (block_groups fs) g) = true)
  /\ (forall g g', 0 <= g < num_block_groups fs -> 0 <= g' < num_block_groups fs ->
        g <> g' ->
        blk_addr fs (bg_inode_bitmap (block_groups fs) g)
        <> blk_addr fs (bg_inode_bitmap (block_groups fs) g')).
Proof.
  unfold inode_alloc_wf. intros H.
  apply andb_prop in H. destruct H as [H Hd].
  apply andb_prop in H. destruct H as [H Hall].
  apply andb_prop in H. destruct H as [H Hn].
  apply andb_prop in H. destruct H as [Hpos Hfit].
  apply Z.ltb_lt in Hpos, Hn. apply Z.leb_le in Hfit.
  repeat split; try assumption.
  - intros g Hg. rewrite forallb_forall in Hall. apply Hall.
    apply in_bit_range. exact Hg.
  - intros g g' Hg Hg' Hne.
    apply (distinct_spec _ Hd (Z.to_nat g) (Z.to_nat g')); [| |lia].
    + unfold inode_bitmap_addrs, bit_range. rewrite !list_lookup_fmap.
      rewrite lookup_seq_lt by lia. simpl. rewrite Z2Nat.id by lia. reflexivity.
    + unfold inode_bitmap_addrs, bit_range. rewrite !list_lookup_fmap.
      rewrite lookup_seq_lt by lia. simpl. rewrite Z2Nat.id by lia. reflexivity.
Qed.

Lemma alloc_inode_groups_scan fs :
  fs_geom fs = true -> inode_alloc_wf fs = true ->
  forall c a fuel,
    (a + c = Z.to_nat (num_block_groups fs))%nat -> (c <= fuel)%nat ->
    (exists g i, Z.of_nat a <= g < num_block_groups fs
        /\ 0 <= i < inodes_per_group fs
        /\ group_inode_bit fs g i = 0
        /\ (forall g' j, Z.of_nat a <= g' -> 0 <= j < inodes_per_group fs ->
              g' < g \/ (g' = g /\ j < i) -> group_inode_bit fs g' j <> 0)
        /\ alloc_inode_groups fuel fs (Z.of_nat a)
           = (u32 (g * inodes_per_group fs + i + 1), inode_alloc_update fs g i))
    \/ ((forall g' j, Z.of_nat a <= g' < num_block_groups fs ->
           0 <= j < inodes_per_group fs -> group_inode_bit fs g' j <> 0)
        /\ alloc_inode_groups fuel fs (Z.of_nat a) = (0, fs)).
Proof.
  intros G Hwf. destruct (inode_alloc_wf_facts fs Hwf) as (Hipg & Hfit & HN & Hok & _).
  induction c as [|c IH]; intros a fuel Hac Hfuel.
  - right. split; [intros g' j Hg'; lia|].
    destruct fuel; simpl; [reflexivity|].
    destruct (Z.ltb_spec (Z.of_nat a) (num_block_groups fs)); [lia|reflexivity].
  - destruct fuel as [|fuel]; [lia|]. cbn [alloc_inode_groups].
    destruct (Z.ltb_spec (Z.of_nat a) (num_block_groups fs)); [|lia].
    rewrite (kmalloc_block fs G).
    rewrite (read_blocks_spec fs G)
      by (rewrite length_replicate; destruct (geom_facts fs G); lia).
    rewrite (Hok (Z.of_nat a)) by lia. simpl negb. cbv iota.
    pose proof (alloc_inode_bits_scan fs (Z.of_nat a) _ G (Hok (Z.of_nat a) ltac:(lia))
                 (length_blk_data fs G _ (Hok (Z.of_nat a) ltac:(lia)))
                 (Z.to_nat (inodes_per_group fs)) 0 _ eq_refl (le_n _)) as Hbits.
    change (Z.of_nat 0) with 0 in Hbits.
    destruct Hbits as [(i & Hi & Hz & Hbelow & Hrun)|[Hall Hrun]]; rewrite Hrun.
    + left. exists (Z.of_nat a), i. split; [lia|]. split; [exact Hi|].
      split; [exact Hz|]. split; [|reflexivity].
      intros g' j Hg' Hj [Hlt|[-> Hlt]]; [lia|]. apply Hbelow. lia.
    + replace (Z.of_nat a + 1) with (Z.of_nat (S a)) by lia.
      destruct (IH (S a) fuel ltac:(lia) ltac:(lia))
        as [(g & i & Hg & Hi & Hz & Hbelow & Hrun')|[Hall' Hrun']].
      * left. exists g, i. split; [lia|]. split; [exact Hi|]. split; [exact Hz|].
        split; [|exact Hrun'].
        intros g' j Hg' Hj Hlt. destruct (Z.eq_dec g' (Z.of_nat a)) as [->|].
        -- apply Hall. exact Hj.
        -- apply Hbelow; [lia|exact Hj|exact Hlt].
      * right. split; [|exact Hrun'].
        intros g' j Hg' Hj. destruct (Z.eq_dec g' (Z.of_nat a)) as [->|].
        -- apply Hall. exact Hj.
        -- apply Hall'; [lia|exact Hj].
Qed.

(** The bit of inode [g * inodes_per_group + i + 1]. *)
Lemma inode_bit_of_group fs g i :
  0 < inodes_per_group fs ->
  num_block_groups fs * inodes_per_group fs < 4294967296 ->
  0 <= g < num_block_groups fs -> 0 <= i < inodes_per_group fs ->
  u32 (g * inodes_per_group fs + i + 1) = g * inodes_per_group fs + i + 1
  /\ inode_group fs (g * inodes_per_group fs + i + 1) = g
  /\ u32 (g * inodes_per_group fs + i + 1 - 1) mod inodes_per_group fs = i
  /\ inode_bit fs (g * inodes_per_group fs + i + 1) = group_inode_bit fs g i.
Proof.
  intros Hipg HN Hg Hi.
  assert (Hn : 0 <= g * inodes_per_group fs + i < 4294967295) by nia.
  assert (E0 : u32 (g * inodes_per_group fs + i + 1 - 1) = i + g * inodes_per_group fs).
  { rewrite u32_small by lia. lia. }
  assert (E1 : inode_group fs (g * inodes_per_group fs + i + 1) = g).
  { unfold inode_group. rewrite E0, Z.div_add by lia.
    rewrite Z.div_small by lia. lia. }
  assert (E2 : u32 (g * inodes_per_group fs + i + 1 - 1) mod inodes_per_group fs = i).
  { rewrite E0, Z.mod_add by lia. apply Z.mod_small. lia. }
  split; [apply u32_small; lia|]. split; [exact E1|]. split; [exact E2|].
  unfold inode_bit, inode_bitmap_of, group_inode_bit. rewrite E1, E2. reflexivity.
Qed.

Lemma inode_number_split fs m :
  0 < inodes_per_group fs ->
  1 <= m <= num_block_groups fs * inodes_per_group fs ->
  exists g i, 0 <= g < num_block_groups fs /\ 0 <= i < inodes_per_group fs
    /\ m = g * inodes_per_group fs + i + 1.
Proof.
  intros Hipg Hm.
  exists ((m - 1) / inodes_per_group fs), ((m - 1) mod inodes_per_group fs).
  pose proof (Z.div_mod (m - 1) (inodes_per_group fs) ltac:(lia)) as Hdm.
  pose proof (Z.mod_pos_bound (m - 1) (inodes_per_group fs) Hipg) as Hmod.
  split.
  - split; [apply Z.div_pos; lia|]. apply Z.div_lt_upper_bound; [lia|]. nia.
  - split; [exact Hmod|]. lia.
Qed.

Lemma in_inode_numbers fs m :
  In m (inode_numbers fs)
  <-> 1 <= m <= num_block_groups fs * inodes_per_group fs.
Proof.
  unfold inode_numbers. rewrite in_map_iff. split.
  - intros (k & <- & Hk). apply in_seq in Hk. lia.
  - intros Hm. exists (Z.to_nat (m - 1)). split; [lia|]. apply in_seq. lia.
Qed.

Lemma NoDup_inode_numbers fs : List.NoDup (inode_numbers fs).
Proof.
  unfold inode_numbers. apply NoDup_map_inj.
  - intros x y H. lia.
  - apply List.seq_NoDup.
Qed.

(** The head of a filtered run of numbers is the least number that
    passes. *)
Lemma filter_numbers_first (P : Z -> bool) : forall c a n,
  (a <= n < a + c)%nat -> P (Z.of_nat n + 1) = true ->
  (forall m, (a <= m < n)%nat -> P (Z.of_nat m + 1) = false) ->
  exists rest,
    List.filter P (map (fun k => Z.of_nat k + 1) (seq a c))
    = (Z.of_nat n + 1) :: rest.
Proof.
  induction c as [|c IH]; intros a n Hn HP Hbelow; [lia|].
  cbn [seq map List.filter].
  destruct (Nat.eq_dec a n) as [->|Hne].
  - rewrite HP. eexists. reflexivity.
  - rewrite (Hbelow a) by lia. apply IH; [lia|exact HP|].
    intros m Hm. apply Hbelow. lia.
Qed.

Lemma filter_numbers_none (P : Z -> bool) (l : list Z) :
  (forall m, In m l -> P m = false) -> List.filter P l = [].
Proof.
  induction l as [|x l IH]; intros H; [reflexivity|].
  simpl. rewrite (H x) by (left; reflexivity).
  apply IH. intros m Hm. apply H. right. exact Hm.
Qed.

Lemma frame_dec_free_inodes W fs g :
  fs_geom fs = true -> 0 <= g -> frame W fs (dec_free_inodes fs g).
Proof.
  intros G Hg. split; [exact G|]. split; [|reflexivity].
  unfold same_layout. repeat split; try reflexivity.
  - unfold dec_free_inodes, s_first_data_block. cbn [superblock set_superblock].
    apply get_u32_set_u32_ne; lia.
  - unfold dec_free_inodes, bg_block_bitmap. cbn [block_groups set_superblock set_block_groups].
    apply get_u32_set_u16_ne; unfold BGD_SIZE; lia.
  - unfold dec_free_inodes, bg_inode_bitmap. cbn [block_groups set_superblock set_block_groups].
    apply get_u32_set_u16_ne; unfold BGD_SIZE; lia.
  - unfold dec_free_inodes, bg_inode_table. cbn [block_groups set_superblock set_block_groups].
    apply get_u32_set_u16_ne; unfold BGD_SIZE; lia.
Qed.

Lemma inode_alloc_update_frame fs g i :
  fs_geom fs = true -> 0 <= g ->
  blk_ok fs (bg_inode_bitmap (block_groups fs) g) = true ->
  frame [blk_addr fs (bg_inode_bitmap (block_groups fs) g)] fs
        (inode_alloc_update fs g i).
Proof.
  intros G Hg Hok. unfold inode_alloc_update.
  set (bm := bg_inode_bitmap (block_groups fs) g).
  eapply frame_trans.
  - apply (frame_disk_put _ fs bm (bitmap_set (blk_data fs bm) i) G).
    + left. reflexivity.
    + rewrite length_bitmap_set. apply length_blk_data; assumption.
  - apply frame_dec_free_inodes; [apply disk_put_geom, G|exact Hg].
Qed.

Lemma forallb_agree {A} (P Q : A -> bool) (l : list A) :
  (forall x, In x l -> P x = Q x) -> forallb P l = forallb Q l.
Proof.
  induction l as [|x l IH]; intros H; [reflexivity|].
  simpl. rewrite (H x) by (left; reflexivity).
  f_equal. apply IH. intros y Hy. apply H. right. exact Hy.
Qed.

Lemma same_layout_inode_alloc_wf fs fs' :
  same_layout fs fs' -> inode_alloc_wf fs' = inode_alloc_wf fs.
Proof.
  intros L. pose proof L as (E1 & E2 & E3 & E4 & E5 & E6 & E7).
  unfold inode_alloc_wf, inode_bitmap_addrs. rewrite E1, E3, E4.
  f_equal; [f_equal|].
  - apply forallb_agree. intros g Hg. apply in_bit_range in Hg.
    destruct (E7 g ltac:(lia)) as (_ & -> & _).
    apply (same_layout_blk_ok fs fs' _ L).
  - f_equal. apply map_ext_in. intros g Hg. apply in_bit_range in Hg.
    destruct (E7 g ltac:(lia)) as (_ & -> & _).
    apply (same_layout_blk_addr fs fs' _ L).
Qed.

(** After an allocation, the free inodes are those that were free
    without the one taken. *)
Lemma inode_free_after_alloc fs g i m :
  fs_geom fs = true -> inode_alloc_wf fs = true ->
  0 <= g < num_block_groups fs -> 0 <= i < inodes_per_group fs ->
  1 <= m <= num_block_groups fs * inodes_per_group fs ->
  inode_free (inode_alloc_update fs g i) m
  = inode_free fs m && negb (m =? g * inodes_per_group fs + i + 1).
Proof.
  intros G Hwf Hg Hi Hm.
  destruct (inode_alloc_wf_facts fs Hwf) as (Hipg & Hfit & HN & Hok & Hdist).
  destruct (inode_number_split fs m Hipg Hm) as (g2 & i2 & Hg2 & Hi2 & ->).
  destruct (inode_alloc_update_frame fs g i G ltac:(lia) (Hok g Hg)) as (G' & L & _).
  pose proof L as (E1 & E2 & E3 & E4 & E5 & E6 & E7).
  unfold inode_free.
  destruct (inode_bit_of_group fs g2 i2 Hipg HN Hg2 Hi2) as (_ & _ & _ & ->).
  destruct (inode_bit_of_group (inode_alloc_update fs g i) g2 i2) as (_ & _ & _ & Hb);
    try (rewrite ?E3, ?E4; assumption).
  rewrite E3 in Hb. rewrite Hb. clear Hb.
  unfold group_inode_bit.
  destruct (E7 g2 ltac:(lia)) as (_ & -> & _).
  set (bm := bg_inode_bitmap (block_groups fs) g).
  change (blk_data (inode_alloc_update fs g i) (bg_inode_bitmap (block_groups fs) g2))
    with (blk_data (disk_put fs bm (bitmap_set (blk_data fs bm) i))
                   (bg_inode_bitmap (block_groups fs) g2)).
  assert (Hlen : Z.of_nat (length (bitmap_set (blk_data fs bm) i)) = block_size fs).
  { rewrite length_bitmap_set. apply length_blk_data; [exact G|apply Hok, Hg]. }
  destruct (Z.eq_dec g2 g) as [->|Hgg].
  - fold bm. rewrite blk_data_disk_put_same; [|exact G|apply Hok, Hg|exact Hlen].
    rewrite bitmap_set_test; [| lia | lia |].
    + f_equal. f_equal.
      destruct (Z.eqb_spec i2 i) as [->|Hne].
      * symmetry. apply Z.eqb_refl.
      * symmetry. apply Z.eqb_neq. lia.
    + pose proof (length_blk_data fs G bm (Hok g Hg)).
      apply Z.div_lt_upper_bound; lia.
  - rewrite blk_data_disk_put_other; [|exact G|exact Hlen|apply Hdist; assumption].
    destruct (Z.eqb_spec (g2 * inodes_per_group fs + i2 + 1)
                         (g * inodes_per_group fs + i + 1)) as [E|_].
    + exfalso. apply Hgg. nia.
    + symmetry. apply andb_true_r.
Qed.

(** What [ext2_alloc_inode] returns: the head of [free_inodes]. *)
Lemma alloc_inode_first fs :
  fs_geom fs = true -> inode_alloc_wf fs = true ->
  (free_inodes fs = [] /\ ext2_alloc_inode fs = (0, fs))
  \/ (exists g i rest,
        0 <= g < num_block_groups fs /\ 0 <= i < inodes_per_group fs
        /\ free_inodes fs = (g * inodes_per_group fs + i + 1) :: rest
        /\ ext2_alloc_inode fs
           = (g * inodes_per_group fs + i + 1, inode_alloc_update fs g i)).
Proof.
  intros G Hwf.
  destruct (inode_alloc_wf_facts fs Hwf) as (Hipg & Hfit & HN & Hok & Hdist).
  unfold ext2_alloc_inode.
  destruct (alloc_inode_groups_scan fs G Hwf (Z.to_nat (num_block_groups fs)) 0 _
              eq_refl (le_n _)) as [(g & i & Hg & Hi & Hz & Hbelow & Hrun)|[Hall Hrun]];
    change (Z.of_nat 0) with 0 in *; rewrite Hrun.
  - right.
    destruct (inode_bit_of_group fs g i Hipg HN Hg Hi) as (Hu & Hgrp & Hidx & Hbit).
    set (n := g * inodes_per_group fs + i + 1) in *.
    assert (Hfirst : exists rest, free_inodes fs = n :: rest).
    { unfold free_inodes, inode_numbers.
      replace n with (Z.of_nat (Z.to_nat (n - 1)) + 1) by (unfold n; nia).
      apply filter_numbers_first.
      - unfold n. nia.
      - unfold inode_free. replace (Z.of_nat (Z.to_nat (n - 1)) + 1) with n
          by (unfold n; nia).
        rewrite Hbit, Hz. reflexivity.
      - intros m Hm.
        destruct (inode_number_split fs (Z.of_nat m + 1) Hipg) as (g2 & i2 & Hg2 & Hi2 & E).
        { unfold n in Hm. nia. }
        unfold inode_free. rewrite E.
        destruct (inode_bit_of_group fs g2 i2 Hipg HN Hg2 Hi2) as (_ & _ & _ & ->).
        apply Z.eqb_neq. apply Hbelow; [lia|exact Hi2|].
        unfold n in Hm. nia. }
    destruct Hfirst as [rest Hfree].
    exists g, i, rest. split; [exact Hg|]. split; [exact Hi|].
    split; [exact Hfree|]. rewrite Hu. reflexivity.
  - left. split; [|reflexivity]. unfold free_inodes.
    apply filter_numbers_none.
    intros m Hm. apply in_inode_numbers in Hm.
    destruct (inode_number_split fs m Hipg Hm) as (g2 & i2 & Hg2 & Hi2 & ->).
    unfold inode_free.
    destruct (inode_bit_of_group fs g2 i2 Hipg HN Hg2 Hi2) as (_ & _ & _ & ->).
    apply Z.eqb_neq. apply Hall; assumption.
Qed.

(** X26.  [ext2_alloc_inode] hands out the free inodes in rising order,
    each once: it returns the lowest inode whose bit is clear in the
    inode bitmaps and leaves the other free inodes free, changing on the
    device only the bitmap block of that inode; with no free inode it
    returns 0 and changes nothing. *)
Theorem ext2_alloc_inode_lowest fs :
  fs_geom fs = true -> inode_alloc_wf fs = true ->
  match free_inodes fs with
  | [] => ext2_alloc_inode fs = (0, fs)
  | n :: rest =>
    exists fs',
      ext2_alloc_inode fs = (n, fs')
      /\ n <> 0
      /\ fs_geom fs' = true /\ inode_alloc_wf fs' = true
      /\ free_inodes fs' = rest
      /\ ~ In n rest
      /\ frame [blk_addr fs (inode_bitmap_of fs n)] fs fs'
  end.
Proof.
  intros G Hwf.
  destruct (inode_alloc_wf_facts fs Hwf) as (Hipg & Hfit & HN & Hok & Hdist).
  destruct (alloc_inode_first fs G Hwf)
    as [[-> Hrun]|(g & i & rest & Hg & Hi & Hfree & Hrun)]; [exact Hrun|].
  rewrite Hfree.
  destruct (inode_bit_of_group fs g i Hipg HN Hg Hi) as (_ & Hgrp & _ & _).
  set (n := g * inodes_per_group fs + i + 1) in *.
  pose proof (inode_alloc_update_frame fs g i G ltac:(lia) (Hok g Hg)) as F.
  pose proof F as (G' & L & _).
  exists (inode_alloc_update fs g i).
  split; [exact Hrun|]. split; [unfold n; nia|].
  split; [exact G'|].
  split; [rewrite (same_layout_inode_alloc_wf fs _ L); exact Hwf|].
  split; [|split].
  - unfold free_inodes.
    replace (inode_numbers (inode_alloc_update fs g i)) with (inode_numbers fs).
    2:{ unfold inode_numbers. destruct L as (_ & _ & -> & -> & _). reflexivity. }
    apply (filter_without_head (inode_free fs) _ (inode_numbers fs) n rest).
    + apply NoDup_inode_numbers.
    + exact Hfree.
    + rewrite (inode_free_after_alloc fs g i n G Hwf Hg Hi) by (unfold n; nia).
      fold n. rewrite Z.eqb_refl. apply andb_false_r.
    + intros m Hm Hne. apply in_inode_numbers in Hm.
      rewrite (inode_free_after_alloc fs g i m G Hwf Hg Hi Hm). fold n.
      destruct (Z.eqb_spec m n); [contradiction|]. apply andb_true_r.
  - assert (Hnd : List.NoDup (free_inodes fs)).
    { unfold free_inodes. apply List.NoDup_filter, NoDup_inode_numbers. }
    rewrite Hfree in Hnd. inversion Hnd. assumption.
  - unfold inode_bitmap_of. rewrite Hgrp. exact F.
Qed.

Lemma ext2_alloc_inode_lowest_witness :
  match free_inodes img_fs with
  | [] => ext2_alloc_inode img_fs = (0, img_fs)
  | n :: rest =>
    exists fs',
      ext2_alloc_inode img_fs = (n, fs')
      /\ n <> 0
      /\ fs_geom fs' = true /\ inode_alloc_wf fs' = true
      /\ free_inodes fs' = rest
      /\ ~ In n rest
      /\ frame [blk_addr img_fs (inode_bitmap_of img_fs n)] img_fs fs'
  end.
Proof.
  apply (ext2_alloc_inode_lowest img_fs).
  - vm_compute. reflexivity.
  - vm_compute. reflexivity.
Defined.

(** ** Freeing the inode just allocated *)

Lemma set_u8_twice m off v w : set_u8 (set_u8 m off v) off w = set_u8 m off w.
Proof. unfold set_u8. apply list_insert_insert_eq. Qed.

Lemma set_u8_same (m : list Z) off v :
  0 <= off < Z.of_nat (length m) -> u8 v = byte_at m off -> set_u8 m off v = m.
Proof.
  intros Hoff E. unfold set_u8. apply list_insert_id. rewrite E.
  unfold byte_at. destruct (lookup_lt_is_Some_2 m (Z.to_nat off) ltac:(lia)) as [x ->].
  reflexivity.
Qed.

Lemma set_u8_swap m off off' v w :
  0 <= off -> 0 <= off' -> off <> off' ->
  set_u8 (set_u8 m off v) off' w = set_u8 (set_u8 m off' w) off v.
Proof.
  intros. unfold set_u8. apply list_insert_insert_ne. lia.
Qed.

Lemma bitmap_clear_set (bm : list Z) i :
  0 <= i -> i / 8 < Z.of_nat (length bm) -> bytes_ok bm = true ->
  bitmap_test bm i = 0 ->
  bitmap_clear (bitmap_set bm i) i = bm.
Proof.
  intros Hi Hlen Hb Hz.
  assert (Hq : 0 <= i / 8) by (apply Z.div_pos; lia).
  assert (Hk : 0 <= i mod 8 < 8) by (apply Z.mod_pos_bound; lia).
  pose proof (byte_at_nonneg bm (i / 8) Hb) as Hbyte.
  unfold bitmap_clear, bitmap_set.
  rewrite byte_at_set_u8_eq by lia. rewrite set_u8_twice.
  apply set_u8_same; [lia|].
  apply (bitmap_test_zero bm i Hi) in Hz.
  set (b := byte_at bm (i / 8)) in *. set (k := i mod 8) in *.
  assert (E : Z.land (u8 (Z.lor b (Z.shiftl 1 k))) (Z.lnot (Z.shiftl 1 k)) = b).
  { apply Z.bits_inj'. intros j Hj.
    rewrite Z.land_spec, Z.lnot_spec by lia.
    rewrite Z.shiftl_1_l, Z.pow2_bits_eqb by lia.
    destruct (Z.ltb_spec j 8) as [Hj8|Hj8].
    - rewrite u8_testbit by lia.
      rewrite Z.lor_spec, Z.pow2_bits_eqb by lia.
      destruct (Z.eqb_spec k j) as [<-|]; simpl.
      + rewrite Hz. reflexivity.
      + rewrite orb_false_r, andb_true_r. reflexivity.
    - assert (Hhigh : forall x, 0 <= x < 256 -> Z.testbit x j = false).
      { intros x Hx. destruct (Z.eq_dec x 0) as [->|]; [apply Z.bits_0|].
        apply Z.bits_above_log2; [lia|].
        assert (Z.log2 x < 8) by (apply Z.log2_lt_pow2; lia). lia. }
      rewrite (Hhigh (u8 _)) by apply u8_range.
      rewrite (Hhigh b) by lia. reflexivity. }
  rewrite E. apply u8_small. lia.
Qed.

Lemma inserts_twice (l k k' : list Z) off :
  length k = length k' ->
  list_inserts off k' (list_inserts off k l) = list_inserts off k' l.
Proof.
  intros Hlen. apply list_eq. intros i.
  destruct (decide (i < off)%nat) as [Hlt|Hge].
  { rewrite !list_lookup_inserts_lt by lia. reflexivity. }
  destruct (decide (off + length k' <= i)%nat) as [Hhi|Hin].
  { rewrite !list_lookup_inserts_ge by lia. reflexivity. }
  destruct (decide (i < length l)%nat) as [Hil|Hil].
  - rewrite !list_lookup_inserts by (rewrite ?length_inserts; lia). reflexivity.
  - rewrite !(lookup_ge_None_2 _ i) by (rewrite ?length_inserts; lia). reflexivity.
Qed.

Lemma disk_put_twice fs b (buf buf' : list Z) :
  length buf = length buf' ->
  disk_put (disk_put fs b buf) b buf' = disk_put fs b buf'.
Proof.
  intros Hlen. unfold disk_put at 1 3. rewrite blk_addr_disk_put.
  unfold disk_put, disk. simpl. rewrite (inserts_twice _ _ _ _ Hlen).
  reflexivity.
Qed.

Lemma set_u16_undo (m : list Z) off d :
  0 <= off -> off + 2 <= Z.of_nat (length m) -> bytes_ok m = true ->
  set_u16 (set_u16 m off (get_u16 m off + d)) off
          (get_u16 (set_u16 m off (get_u16 m off + d)) off - d) = m.
Proof.
  intros Hoff Hlen Hb.
  rewrite get_u16_set_u16 by lia.
  pose proof (byte_at_nonneg m off Hb) as H0.
  pose proof (byte_at_nonneg m (off + 1) Hb) as H1.
  set (c := get_u16 m off). set (w := u16 (c + d) - d).
  assert (Hw : u16 w = c).
  { unfold w, u16. rewrite Zminus_mod_idemp_l.
    replace (c + d - d) with c by lia. apply Z.mod_small.
    unfold c, get_u16. lia. }
  unfold set_u16.
  rewrite (set_u8_swap (set_u8 m off _) (off + 1) off) by lia.
  rewrite !set_u8_twice.
  assert (E0 : u8 w = byte_at m off).
  { unfold c, get_u16, u16, u8 in *. Z.to_euclidean_division_equations. lia. }
  assert (E1 : u8 (w / 256) = byte_at m (off + 1)).
  { unfold c, get_u16, u16, u8 in *. Z.to_euclidean_division_equations. lia. }
  rewrite (set_u8_same (set_u8 m off w) (off + 1)).
  - apply set_u8_same; [lia|exact E0].
  - rewrite length_set_u8. lia.
  - rewrite byte_at_set_u8_ne by lia. exact E1.
Qed.

Lemma list_eq_byte_at (l l' : list Z) :
  length l = length l' ->
  (forall i, 0 <= i < Z.of_nat (length l) -> byte_at l i = byte_at l' i) ->
  l = l'.
Proof.
  intros Hlen H. apply list_eq. intros n.
  destruct (decide (n < length l)%nat) as [Hn|Hn].
  - destruct (lookup_lt_is_Some_2 l n Hn) as [x Hx].
    destruct (lookup_lt_is_Some_2 l' n ltac:(lia)) as [y Hy].
    specialize (H (Z.of_nat n) ltac:(lia)). unfold byte_at in H.
    rewrite Nat2Z.id, Hx, Hy in H. simpl in H. rewrite Hx, Hy, H. reflexivity.
  - rewrite !lookup_ge_None_2 by lia. reflexivity.
Qed.

Lemma set_u32_undo (m : list Z) off d :
  0 <= off -> off + 4 <= Z.of_nat (length m) -> bytes_ok m = true ->
  set_u32 (set_u32 m off (get_u32 m off + d)) off
          (get_u32 (set_u32 m off (get_u32 m off + d)) off - d) = m.
Proof.
  intros Hoff Hlen Hb.
  rewrite get_u32_set_u32 by lia.
  pose proof (byte_at_nonneg m off Hb) as H0.
  pose proof (byte_at_nonneg m (off + 1) Hb) as H1.
  pose proof (byte_at_nonneg m (off + 2) Hb) as H2.
  pose proof (byte_at_nonneg m (off + 3) Hb) as H3.
  set (c := get_u32 m off). set (w := u32 (c + d) - d).
  assert (Hw : u32 w = c).
  { unfold w, u32. rewrite Zminus_mod_idemp_l.
    replace (c + d - d) with c by lia. apply Z.mod_small.
    unfold c, get_u32. lia. }
  apply list_eq_byte_at; [rewrite !length_set_u32; reflexivity|].
  rewrite !length_set_u32. intros i Hi.
  destruct (Z_lt_dec i off) as [Hlo|Hlo].
  { rewrite !byte_at_set_u32_ne by lia. reflexivity. }
  destruct (Z_le_dec (off + 4) i) as [Hhi|Hhi].
  { rewrite !byte_at_set_u32_ne by lia. reflexivity. }
  assert (Hc : c = byte_at m off + 256 * byte_at m (off + 1)
                   + 65536 * byte_at m (off + 2) + 16777216 * byte_at m (off + 3))
    by reflexivity.
  assert (Hi4 : i = off \/ i = off + 1 \/ i = off + 2 \/ i = off + 3) by lia.
  unfold set_u32 at 1.
  destruct Hi4 as [Hi4|[Hi4|[Hi4|Hi4]]]; subst i;
    repeat first
      [ rewrite byte_at_set_u8_eq by (rewrite ?length_set_u8, ?length_set_u32; lia)
      | rewrite byte_at_set_u8_ne by lia ];
    unfold u32, u8 in *; Z.to_euclidean_division_equations; lia.
Qed.

Lemma inc_dec_free_inodes fs g :
  tables_ok fs = true -> 0 <= g < num_block_groups fs ->
  inc_free_inodes (dec_free_inodes fs g) g = fs.
Proof.
  unfold tables_ok. intros H Hg.
  apply andb_prop in H. destruct H as [H Hsb].
  apply andb_prop in H. destruct H as [H Hbg].
  apply andb_prop in H. destruct H as [H Bsb].
  apply andb_prop in H. destruct H as [_ Bbg].
  apply Z.leb_le in Hsb, Hbg. unfold BGD_SIZE in Hbg.
  unfold inc_free_inodes, dec_free_inodes.
  cbn [block_groups superblock set_block_groups set_superblock device block_size
       blocks_per_group inodes_per_group num_block_groups].
  unfold bg_free_inodes_count, s_free_inodes_count, BGD_SIZE.
  pose proof (set_u16_undo (block_groups fs) (g * 32 + 14) (-1)
                ltac:(lia) ltac:(lia) Bbg) as E1.
  pose proof (set_u32_undo (superblock fs) 16 (-1) ltac:(lia) ltac:(lia) Bsb) as E2.
  change (get_u16 (block_groups fs) (g * 32 + 14) + -1)
    with (get_u16 (block_groups fs) (g * 32 + 14) - 1) in E1.
  change (get_u32 (superblock fs) 16 + -1)
    with (get_u32 (superblock fs) 16 - 1) in E2.
  replace (get_u16 (set_u16 (block_groups fs) (g * 32 + 14)
                      (get_u16 (block_groups fs) (g * 32 + 14) - 1)) (g * 32 + 14) + 1)
    with (get_u16 (set_u16 (block_groups fs) (g * 32 + 14)
                      (get_u16 (block_groups fs) (g * 32 + 14) - 1)) (g * 32 + 14) - -1)
    by lia.
  replace (get_u32 (set_u32 (superblock fs) 16 (get_u32 (superblock fs) 16 - 1)) 16 + 1)
    with (get_u32 (set_u32 (superblock fs) 16 (get_u32 (superblock fs) 16 - 1)) 16 - -1)
    by lia.
  rewrite E1, E2. destruct fs. reflexivity.
Qed.

(** X27.  [ext2_free_inode] undoes [ext2_alloc_inode]: freeing the inode
    that was just handed out returns 0 and restores the bitmap and both
    counters, so that the file system is the one before the
    allocation. *)
Theorem ext2_free_inode_undoes_alloc fs n fs' :
  fs_geom fs = true -> inode_alloc_wf fs = true -> tables_ok fs = true ->
  ext2_alloc_inode fs = (n, fs') -> n <> 0 ->
  ext2_free_inode fs' n = (0, fs).
Proof.
  intros G Hwf Ht Hrun Hn.
  destruct (inode_alloc_wf_facts fs Hwf) as (Hipg & Hfit & HN & Hok & Hdist).
  unfold ext2_alloc_inode in Hrun.
  destruct (alloc_inode_groups_scan fs G Hwf (Z.to_nat (num_block_groups fs)) 0 _
              eq_refl (le_n _)) as [(g & i & Hg & Hi & Hz & _ & Hrun')|[_ Hrun']];
    change (Z.of_nat 0) with 0 in *; rewrite Hrun' in Hrun;
    injection Hrun as <- <-; [|contradiction].
  destruct (inode_bit_of_group fs g i Hipg HN Hg Hi) as (Hu & Hgrp & Hidx & _).
  rewrite Hu in *.
  pose proof (inode_alloc_update_frame fs g i G ltac:(lia) (Hok g Hg)) as (G' & L & _).
  pose proof L as (E1 & E2 & E3 & E4 & E5 & E6 & E7).
  set (bm := bg_inode_bitmap (block_groups fs) g) in *.
  set (fs1 := inode_alloc_update fs g i) in *.
  assert (Hbm : bg_inode_bitmap (block_groups fs1) g = bm)
    by (destruct (E7 g ltac:(lia)) as (_ & H & _); exact H).
  assert (Hok1 : blk_ok fs1 bm = true).
  { rewrite (same_layout_blk_ok fs fs1 _ L). apply Hok, Hg. }
  assert (Hlen : Z.of_nat (length (blk_data fs bm)) = block_size fs)
    by (apply length_blk_data; [exact G|apply Hok, Hg]).
  assert (Hdata : blk_data fs1 bm = bitmap_set (blk_data fs bm) i).
  { change (blk_data fs1 bm)
      with (blk_data (disk_put fs bm (bitmap_set (blk_data fs bm) i)) bm).
    apply blk_data_disk_put_same; [exact G|apply Hok, Hg|].
    rewrite length_bitmap_set. exact Hlen. }
  unfold ext2_free_inode.
  destruct (Z.eqb_spec (g * inodes_per_group fs + i + 1) 0) as [E|_]; [nia|].
  rewrite (kmalloc_block fs1 G').
  rewrite E3. unfold inode_group in Hgrp. rewrite Hgrp, Hidx, Hbm.
  rewrite (read_blocks_spec fs1 G')
    by (rewrite length_replicate; destruct (geom_facts fs1 G'); lia).
  rewrite Hok1. simpl negb. cbv iota.
  rewrite (write_blocks_spec fs1 G')
    by (rewrite length_bitmap_clear; apply length_blk_data; assumption).
  rewrite Hok1, Z.eqb_refl. f_equal.
  rewrite Hdata, bitmap_clear_set.
  - change (disk_put fs1 bm (blk_data fs bm))
      with (dec_free_inodes
              (disk_put (disk_put fs bm (bitmap_set (blk_data fs bm) i)) bm
                        (blk_data fs bm)) g).
    rewrite disk_put_twice by (rewrite length_bitmap_set; reflexivity).
    rewrite (disk_put_same_data fs G). apply inc_dec_free_inodes; [exact Ht|exact Hg].
  - lia.
  - apply Z.div_lt_upper_bound; lia.
  - apply bytes_ok_blk_data.
    unfold tables_ok in Ht. repeat (apply andb_prop in Ht; destruct Ht as [Ht _]).
    exact Ht.
  - exact Hz.
Qed.

Lemma ext2_free_inode_undoes_alloc_witness :
  ext2_free_inode (snd (ext2_alloc_inode img_fs)) 20 = (0, img_fs).
Proof.
  apply (ext2_free_inode_undoes_alloc img_fs 20 (snd (ext2_alloc_inode img_fs))).
  - vm_compute. reflexivity.
  - vm_compute. reflexivity.
  - vm_compute. reflexivity.
  - vm_compute. reflexivity.
  - lia.
Defined.

(** ** A failed [vfs_create] keeps the inode *)

(** X28.  [vfs_create] allocates the inode before it looks at the type:
    with a type that is neither file nor directory it returns -1, but
    the lowest free inode has been taken from the free inodes and
    nothing refers to it; apart from its bitmap block the device is
    unchanged. *)
Theorem vfs_create_other_type_leaks fs path type ticks parent_path name pn pino :
  fs_geom fs = true -> inode_alloc_wf fs = true ->
  type <> VFS_TYPE_FILE -> type <> VFS_TYPE_DIR ->
  split_path path = Some (parent_path, name) ->
  vfs_resolve_path (Some fs) parent_path = Some pn ->
  ext2_read_inode fs pn = Some pino ->
  match free_inodes fs with
  | [] => vfs_create (Some fs) path type ticks = (-1, Some fs)
  | n :: rest =>
    exists fs',
      vfs_create (Some fs) path type ticks = (-1, Some fs')
      /\ free_inodes fs' = rest /\ ~ In n rest
      /\ frame [blk_addr fs (inode_bitmap_of fs n)] fs fs'
  end.
Proof.
  intros G Hwf Hf Hd Hsplit Hres Hread.
  destruct (inode_alloc_wf_facts fs Hwf) as (Hipg & Hfit & HN & Hok & Hdist).
  unfold vfs_create. rewrite Hsplit, Hres, Hread.
  destruct (alloc_inode_first fs G Hwf)
    as [[-> Hrun]|(g & i & rest & Hg & Hi & Hfree & Hrun)]; rewrite Hrun.
  { reflexivity. }
  rewrite Hfree.
  destruct (inode_bit_of_group fs g i Hipg HN Hg Hi) as (_ & Hgrp & _ & _).
  set (n := g * inodes_per_group fs + i + 1) in *.
  destruct (Z.eqb_spec n 0) as [E|_]; [unfold n in E; nia|].
  destruct (Z.eqb_spec type VFS_TYPE_FILE) as [|_]; [contradiction|].
  destruct (Z.eqb_spec type VFS_TYPE_DIR) as [|_]; [contradiction|].
  simpl negb. cbv iota.
  exists (inode_alloc_update fs g i).
  split; [reflexivity|].
  pose proof (inode_alloc_update_frame fs g i G ltac:(lia) (Hok g Hg)) as F.
  split; [|split].
  - unfold free_inodes.
    replace (inode_numbers (inode_alloc_update fs g i)) with (inode_numbers fs).
    2:{ unfold inode_numbers. destruct F as (_ & (_ & _ & -> & -> & _) & _).
        reflexivity. }
    apply (filter_without_head (inode_free fs) _ (inode_numbers fs) n rest).
    + apply NoDup_inode_numbers.
    + exact Hfree.
    + rewrite (inode_free_after_alloc fs g i n G Hwf Hg Hi) by (unfold n; nia).
      fold n. rewrite Z.eqb_refl. apply andb_false_r.
    + intros m Hm Hne. apply in_inode_numbers in Hm.
      rewrite (inode_free_after_alloc fs g i m G Hwf Hg Hi Hm). fold n.
      destruct (Z.eqb_spec m n); [contradiction|]. apply andb_true_r.
  - assert (Hnd : List.NoDup (free_inodes fs)).
    { unfold free_inodes. apply List.NoDup_filter, NoDup_inode_numbers. }
    rewrite Hfree in Hnd. inversion Hnd. assumption.
  - unfold inode_bitmap_of. rewrite Hgrp. exact F.
Qed.

Lemma vfs_create_other_type_leaks_witness :
  match free_inodes img_fs with
  | [] => vfs_create (Some img_fs) [slash; 120] VFS_TYPE_SYMLINK 0
          = (-1, Some img_fs)
  | n :: rest =>
    exists fs',
      vfs_create (Some img_fs) [slash; 120] VFS_TYPE_SYMLINK 0 = (-1, Some fs')
      /\ free_inodes fs' = rest /\ ~ In n rest
      /\ frame [blk_addr img_fs (inode_bitmap_of img_fs n)] img_fs fs'
  end.
Proof.
  apply (vfs_create_other_type_leaks img_fs [slash; 120] VFS_TYPE_SYMLINK 0
           [slash] [120] 2 img_root_inode).
  - vm_compute. reflexivity.
  - vm_compute. reflexivity.
  - vm_compute. discriminate.
  - vm_compute. discriminate.
  - vm_compute. reflexivity.
  - vm_compute. reflexivity.
  - vm_compute. reflexivity.
Defined.

(** ** Adding an entry to a well-formed directory *)

Lemma add_dir_scan_records fs block n name nl type es off fuel :
  records block (block_size fs) off es ->
  block_size fs < 4294967296 ->
  add_dir_scan (length es + fuel) fs block off n name nl type
  = option_map (fun e => split_record block e n name nl type)
               (List.find (has_slack block) es).
Proof.
  intros Hrec Hsmall. revert off Hrec.
  induction es as [|e es IH]; intros off Hrec; simpl in Hrec.
  - subst off. simpl. destruct fuel; simpl; [reflexivity|].
    destruct (Z.ltb_spec (block_size fs) (block_size fs)); [lia|reflexivity].
  - destruct Hrec as (-> & H0 & Hnl & Hrl & Hend & Hrest).
    cbn [length Nat.add add_dir_scan List.find].
    destruct (Z.ltb_spec off (block_size fs)); [|lia].
    destruct (Z.eqb_spec (de_rec_len block off) 0); [lia|].
    unfold has_slack at 1.
    destruct (dir_actual_len (de_name_len block off) <? de_rec_len block off);
      [reflexivity|].
    rewrite u32_small by lia. apply IH. exact Hrest.
Qed.

Section DirAdd.

Variable fs : ext2_fs_t.
Variable ino : list Z.
Variable bl : list (list Z * list Z).
Hypothesis Hgeom : fs_geom fs = true.
Hypothesis Hlay : dir_layout fs ino bl.

Let bs := block_size fs.

Lemma length_split_record B e n name nl type :
  length (split_record B e n name nl type) = length B.
Proof.
  unfold split_record, memcpy_local.
  rewrite length_inserts, !length_set_u8, length_set_u16, length_set_u32, length_set_u16.
  reflexivity.
Qed.

Lemma add_dir_blocks_layout n name type :
  forall suf pre fuel buf,
    bl = pre ++ suf -> (length suf <= fuel)%nat ->
    Z.of_nat (length buf) = bs ->
    add_dir_blocks fuel fs ino (Z.of_nat (length pre)) (Z.of_nat (length bl))
                   buf n name (strlen_local name) type
    = add_list fs ino n name type (length pre) suf.
Proof.
  destruct (geom_facts fs Hgeom) as (Hbs & _). fold bs in Hbs.
  pose proof Hlay as (Hsz & Hn & Hsmall & _).
  induction suf as [|[B es] suf IH]; intros pre fuel buf Hbl Hfuel Hbuf.
  - rewrite app_nil_r in Hbl. subst pre. simpl.
    destruct fuel; simpl; [reflexivity|].
    destruct (Z.ltb_spec (Z.of_nat (length bl)) (Z.of_nat (length bl))); [lia|reflexivity].
  - assert (HB : bl !! length pre = Some (B, es)).
    { rewrite Hbl. rewrite lookup_app_r by lia.
      replace (length pre - length pre)%nat with 0%nat by lia. reflexivity. }
    destruct (layout_block fs ino bl Hgeom Hlay _ _ _ HB)
      as (Hnz & Hok & Hdata & Hrec & HlenB).
    assert (Hlen_bl : length bl = (length pre + S (length suf))%nat).
    { rewrite Hbl, length_app. reflexivity. }
    destruct fuel as [|fuel]; [simpl in Hfuel; lia|].
    cbn [add_dir_blocks add_list].
    destruct (Z.ltb_spec (Z.of_nat (length pre)) (Z.of_nat (length bl))); [|lia].
    rewrite (read_data_block_direct fs ino (Z.of_nat (length pre)) buf Hgeom ltac:(lia) Hbuf).
    destruct (Z.eqb_spec (i_block ino (Z.of_nat (length pre))) 0); [contradiction|].
    rewrite Hok. simpl orb. cbv iota. simpl negb. cbv iota.
    rewrite Hdata.
    pose proof (records_length _ _ _ _ Hrec) as [_ Hes].
    replace (Z.to_nat (block_size fs))
      with (length es + (Z.to_nat bs - length es))%nat by (fold bs; lia).
    rewrite (add_dir_scan_records fs B n name (strlen_local name) type es 0 _ Hrec
               ltac:(fold bs; lia)).
    destruct (List.find (has_slack B) es) as [e|] eqn:Hfind; cbn [option_map].
    + rewrite (write_blocks_spec fs Hgeom _ (split_record B e n name (strlen_local name) type))
        by (rewrite length_split_record; fold bs; lia).
      rewrite Hok. reflexivity.
    + specialize (IH (pre ++ [(B, es)]) fuel B).
      rewrite length_app in IH. simpl in IH.
      replace (Z.of_nat (length pre) + 1) with (Z.of_nat (length pre + 1)) by lia.
      replace (S (length pre)) with (length pre + 1)%nat by lia.
      apply IH; [|simpl in Hfuel; lia|exact HlenB].
      rewrite <- app_assoc. exact Hbl.
Qed.

Lemma add_dir_entry_layout dnum n name type r fs' :
  n <> 0 -> 0 < strlen_local name <= 255 ->
  add_list fs ino n name type 0 bl = Some (r, fs') ->
  ext2_add_dir_entry fs ino dnum n name type = (r, fs', ino).
Proof.
  intros Hn Hname Hadd. destruct (geom_facts fs Hgeom) as (Hbs & _). fold bs in Hbs.
  unfold ext2_add_dir_entry.
  destruct (Z.eqb_spec n 0); [contradiction|].
  destruct (Z.eqb_spec (strlen_local name) 0); [lia|].
  destruct (Z.ltb_spec 255 (strlen_local name)); [lia|]. simpl orb. cbv iota.
  change (u32 (i_size ino + block_size fs - 1) / block_size fs)
    with (file_nblocks fs ino).
  rewrite (layout_nblocks fs ino bl Hgeom Hlay).
  rewrite (kmalloc_block fs Hgeom).
  rewrite Nat2Z.id.
  rewrite (add_dir_blocks_layout n name type bl [] (length bl) _ eq_refl (le_n _))
    by (rewrite length_replicate; fold bs; lia).
  simpl length. rewrite Hadd. reflexivity.
Qed.

End DirAdd.

(** ** What splitting a record does to the block *)

Lemma byte_at_inserts_outside (l k : list Z) off i :
  0 <= i -> (Z.to_nat i < off \/ off + length k <= Z.to_nat i)%nat ->
  byte_at (list_inserts off k l) i = byte_at l i.
Proof.
  intros Hi H. unfold byte_at.
  destruct H; [rewrite list_lookup_inserts_lt|rewrite list_lookup_inserts_ge];
    try lia; reflexivity.
Qed.

Lemma byte_at_slice (l : list Z) off n i :
  0 <= i -> (Z.to_nat i < n)%nat ->
  byte_at (take n (drop off l)) i = byte_at l (Z.of_nat off + i).
Proof.
  intros Hi Hn. unfold byte_at. rewrite lookup_slice by lia.
  replace (Z.to_nat (Z.of_nat off + i)) with (off + Z.to_nat i)%nat by lia.
  reflexivity.
Qed.

Lemma slice_eq_byte_at (l l' : list Z) off n :
  length l' = length l -> (off + n <= length l)%nat ->
  (forall i, Z.of_nat off <= i < Z.of_nat (off + n) -> byte_at l' i = byte_at l i) ->
  take n (drop off l') = take n (drop off l).
Proof.
  intros Hlen Hn H. apply list_eq_byte_at.
  - rewrite !length_slice by lia. reflexivity.
  - rewrite length_slice by lia. intros i Hi.
    rewrite !byte_at_slice by lia. apply H. lia.
Qed.

(** A record reads the same when its header, apart from [rec_len], and
    its name hold the same bytes. *)
Lemma same_record_bytes (B B' : list Z) x :
  length B' = length B -> 0 <= x -> 0 <= de_name_len B x ->
  x + 8 + de_name_len B x <= Z.of_nat (length B) ->
  (forall i, x <= i < x + 4 \/ x + 6 <= i < x + 8 + de_name_len B x ->
     byte_at B' i = byte_at B i) ->
  same_record B B' x.
Proof.
  intros Hlen Hx Hnl Hfit H.
  assert (En : de_name_len B' x = de_name_len B x).
  { unfold de_name_len, get_u8. apply H. lia. }
  split; [|split; [exact En|]].
  - unfold de_inode, get_u32. rewrite !H by lia. reflexivity.
  - apply entry_name_change; [exact En|].
    replace (Z.to_nat (x + 8)) with (Z.to_nat (x + 8) + 0)%nat by lia.
    rewrite Nat.add_0_r.
    apply slice_eq_byte_at; [exact Hlen|lia|].
    intros i Hi. apply H. lia.
Qed.

Section SplitRecord.

Variables (B : list Z) (bs : Z) (pre post : list Z) (e n : Z) (name : list Z) (type : Z).
Hypothesis Hrec : records B bs 0 (pre ++ e :: post).
Hypothesis HlenB : Z.of_nat (length B) = bs.
Hypothesis Hbs : bs < 65536.
Hypothesis Hslack : has_slack B e = true.
Hypothesis Hroom :
  dir_actual_len (strlen_local name)
  <= de_rec_len B e - dir_actual_len (de_name_len B e).
Hypothesis Hname : 0 < strlen_local name <= 255.
Hypothesis Hn : 0 < n < 4294967296.

Let nl := strlen_local name.
Let A := dir_actual_len (de_name_len B e).
Let R := de_rec_len B e.
Let B' := split_record B e n name nl type.

Lemma split_facts :
  0 <= e /\ 0 <= de_name_len B e /\ 8 + de_name_len B e <= A /\ A < R
  /\ e + R <= bs /\ 8 + nl <= dir_actual_len nl /\ dir_actual_len nl <= R - A
  /\ nl <= Z.of_nat (length name)
  /\ records B e 0 pre /\ records B bs (e + R) post.
Proof.
  destruct (records_app _ _ _ _ _ Hrec) as (mid & Hpre & Hpost & Hmid).
  simpl in Hpost. destruct Hpost as (<- & He & Hnl & Hrl & Hend & Hrest).
  unfold has_slack in Hslack. apply Z.ltb_lt in Hslack.
  pose proof (dir_actual_len_ge (de_name_len B e)).
  pose proof (dir_actual_len_ge nl).
  pose proof (strlen_local_le_length name).
  unfold A, R, nl. repeat split; try assumption; lia.
Qed.

Lemma split_outside i :
  0 <= i -> ~ (e + 4 <= i < e + 6) -> ~ (e + A <= i < e + A + 8 + nl) ->
  byte_at B' i = byte_at B i.
Proof.
  intros Hi H1 H2.
  destruct split_facts as (He & Hnle & HA & HAR & Hend & Hnew & Hfit & Hnm & _).
  unfold B', split_record, memcpy_local. cbv zeta. fold A.
  rewrite byte_at_inserts_outside.
  2: lia.
  2:{ rewrite length_take, length_drop. unfold DE_NAME_OFF. fold nl. lia. }
  rewrite !byte_at_set_u8_ne by lia.
  rewrite byte_at_set_u16_ne by lia.
  rewrite byte_at_set_u32_ne by lia.
  apply byte_at_set_u16_ne; lia.
Qed.

Lemma split_old x :
  In x (pre ++ post) ->
  same_record B B' x /\ de_rec_len B' x = de_rec_len B x.
Proof.
  intros Hin.
  destruct split_facts as (He & Hnle & HA & HAR & Hend & Hnew & Hfit & Hnm & Hpre & Hpost).
  assert (Hx : 0 <= x /\ 0 <= de_name_len B x
               /\ 8 + de_name_len B x <= de_rec_len B x
               /\ (x + de_rec_len B x <= e \/ e + R <= x) /\ x + de_rec_len B x <= bs).
  { apply in_app_iff in Hin. destruct Hin as [Hin|Hin].
    - pose proof (records_In _ _ _ _ _ Hpre Hin). lia.
    - pose proof (records_In _ _ _ _ _ Hpost Hin). lia. }
  destruct Hx as (Hx0 & Hxn & Hxr & Hxe & Hxb).
  split.
  - apply same_record_bytes; try lia.
    + apply length_split_record.
    + intros i Hi. apply split_outside; lia.
  - unfold de_rec_len, get_u16. rewrite !split_outside by lia. reflexivity.
Qed.

Lemma split_self :
  same_record B B' e /\ de_rec_len B' e = A.
Proof.
  destruct split_facts as (He & Hnle & HA & HAR & Hend & Hnew & Hfit & Hnm & _).
  split.
  - apply same_record_bytes; try lia.
    + apply length_split_record.
    + intros i Hi. apply split_outside; lia.
  - unfold de_rec_len, B', split_record, memcpy_local. cbv zeta. fold A.
    unfold get_u16.
    rewrite !byte_at_inserts_outside;
      try lia;
      try (rewrite length_take, length_drop; unfold DE_NAME_OFF; fold nl; lia).
    rewrite !byte_at_set_u8_ne by lia.
    rewrite !byte_at_set_u16_ne by lia.
    rewrite !byte_at_set_u32_ne by lia.
    change (get_u16 (set_u16 B (e + 4) A) (e + 4) = A).
    rewrite get_u16_set_u16 by lia. apply u16_small. fold R in HAR. lia.
Qed.

Lemma split_new :
  de_inode B' (e + A) = n /\ de_rec_len B' (e + A) = R - A
  /\ de_name_len B' (e + A) = nl
  /\ entry_name B' (e + A) = strcpy_local name.
Proof.
  destruct split_facts as (He & Hnle & HA & HAR & Hend & Hnew & Hfit & Hnm & _).
  assert (Hlen' : length B' = length B) by apply length_split_record.
  assert (Hnlen : de_name_len B' (e + A) = nl).
  { unfold de_name_len, get_u8, B', split_record, memcpy_local. cbv zeta. fold A.
    rewrite byte_at_inserts_outside by (unfold DE_NAME_OFF; lia).
    rewrite byte_at_set_u8_ne by lia.
    rewrite byte_at_set_u8_eq
      by (rewrite length_set_u16, length_set_u32, length_set_u16; lia).
    apply u8_small. fold nl. lia. }
  split; [|split; [|split; [exact Hnlen|]]].
  - unfold de_inode, B', split_record, memcpy_local. cbv zeta. fold A.
    unfold get_u32.
    rewrite !byte_at_inserts_outside by (unfold DE_NAME_OFF; lia).
    rewrite !byte_at_set_u8_ne by lia.
    rewrite !byte_at_set_u16_ne by lia.
    change (get_u32 (set_u32 (set_u16 B (e + 4) A) (e + A) n) (e + A) = n).
    rewrite get_u32_set_u32 by (rewrite ?length_set_u16; lia).
    apply u32_small. lia.
  - unfold de_rec_len, B', split_record, memcpy_local. cbv zeta. fold A.
    unfold get_u16.
    rewrite !byte_at_inserts_outside by (unfold DE_NAME_OFF; lia).
    rewrite !byte_at_set_u8_ne by lia.
    match goal with
    | |- byte_at (set_u16 ?m ?o ?v) _ + _ = _ =>
        change (get_u16 (set_u16 m o v) o = R - A)
    end.
    rewrite get_u16_set_u16 by (rewrite ?length_set_u32, ?length_set_u16; lia).
    fold R. rewrite (u16_small (R - A)) by lia. apply u16_small. lia.
  - rewrite entry_name_slice by (rewrite ?Hnlen, ?Hlen'; lia).
    rewrite Hnlen.
    unfold B', split_record, memcpy_local. cbv zeta. fold A.
    rewrite drop_0. unfold nl.
    rewrite <- strcpy_local_prefix.
    replace (Z.to_nat (strlen_local name)) with (length (strcpy_local name))
      by (rewrite (strlen_local_strcpy name); lia).
    unfold DE_NAME_OFF. apply slice_inserts_same.
    rewrite !length_set_u8, length_set_u16, length_set_u32, length_set_u16.
    pose proof (strlen_local_strcpy name). fold nl in H. lia.
Qed.

Lemma split_records :
  records B' bs 0 (pre ++ e :: (e + A) :: post).
Proof.
  destruct split_facts as (He & Hnle & HA & HAR & Hend & Hnew & Hfit & Hnm & Hpre & Hpost).
  destruct split_self as [(_ & Hsn & _) Hsr].
  destruct split_new as (_ & Hnr & Hnn & _).
  apply (records_app_intro B' bs 0 e pre); [| |lia].
  - apply (records_ext B); [exact Hpre|].
    intros x Hx.
    destruct (split_old x ltac:(apply in_app_iff; left; exact Hx)) as [(_ & Hxn & _) Hxr].
    split; assumption.
  - simpl. rewrite Hsn, Hsr, Hnr, Hnn.
    split; [reflexivity|]. split; [lia|]. split; [lia|]. split; [lia|].
    split; [lia|]. split; [reflexivity|]. split; [lia|].
    split; [unfold nl; lia|]. split; [lia|]. split; [lia|].
    replace (e + A + (R - A)) with (e + R) by lia.
    apply (records_ext B); [exact Hpost|].
    intros x Hx.
    destruct (split_old x ltac:(apply in_app_iff; right; exact Hx)) as [(_ & Hxn & _) Hxr].
    split; assumption.
Qed.

Lemma split_aligned :
  (forall x, In x (pre ++ e :: post) ->
     dir_actual_len (de_name_len B x) <= de_rec_len B x) ->
  forall x, In x (pre ++ e :: (e + A) :: post) ->
    dir_actual_len (de_name_len B' x) <= de_rec_len B' x.
Proof.
  intros Hal x Hx.
  destruct split_facts as (He & Hnle & HA & HAR & Hend & Hnew & Hfit & Hnm & _).
  destruct split_self as [(_ & Hsn & _) Hsr].
  destruct split_new as (_ & Hnr & Hnn & _).
  apply in_app_iff in Hx. destruct Hx as [Hx|[<-|[<-|Hx]]].
  - destruct (split_old x ltac:(apply in_app_iff; left; exact Hx)) as [(_ & -> & _) ->].
    apply Hal. apply in_app_iff. left. exact Hx.
  - rewrite Hsn, Hsr. fold A. lia.
  - rewrite Hnn, Hnr. exact Hfit.
  - destruct (split_old x ltac:(apply in_app_iff; right; exact Hx)) as [(_ & -> & _) ->].
    apply Hal. apply in_app_iff. right. right. exact Hx.
Qed.

Lemma split_first_match c :
  first_match B' c (pre ++ e :: (e + A) :: post)
  = match first_match B c (pre ++ [e]) with
    | Some i => Some i
    | None => if live_match B' c (e + A) then Some n else first_match B c post
    end
  /\ first_match B c (pre ++ e :: post)
     = match first_match B c (pre ++ [e]) with
       | Some i => Some i
       | None => first_match B c post
       end.
Proof.
  destruct split_new as (Hni & _).
  split.
  - replace (pre ++ e :: (e + A) :: post) with ((pre ++ [e]) ++ (e + A) :: post)
      by (rewrite <- app_assoc; reflexivity).
    rewrite first_match_app.
    rewrite (first_match_ext B B' c (pre ++ [e])).
    2:{ intros x Hx. apply in_app_iff in Hx. destruct Hx as [Hx|[<-|[]]].
        - apply split_old. apply in_app_iff. left. exact Hx.
        - apply split_self. }
    destruct (first_match B c (pre ++ [e])); [reflexivity|].
    cbn [first_match]. rewrite Hni.
    destruct (live_match B' c (e + A)); [reflexivity|].
    apply first_match_ext. intros x Hx. apply split_old.
    apply in_app_iff. right. exact Hx.
  - replace (pre ++ e :: post) with ((pre ++ [e]) ++ post)
      by (rewrite <- app_assoc; reflexivity).
    apply first_match_app.
Qed.

Lemma split_live_match c :
  bytes_ok name = true -> bytes_ok c = true ->
  live_match B' c (e + A) = true <-> strcpy_local c = strcpy_local name.
Proof.
  intros Hbn Hbc.
  destruct split_new as (Hni & _ & Hnn & Hne).
  unfold live_match. rewrite Hni, Hnn, Hne.
  destruct (Z.eqb_spec n 0) as [|_]; [lia|]. simpl negb. simpl andb.
  assert (Hcmp : strcmp_local (strcpy_local name) c = 0
                 <-> strcpy_local c = strcpy_local name).
  { rewrite strcmp_local_eq by (try apply bytes_ok_strcpy; assumption).
    rewrite (strcpy_local_id (strcpy_local name)) by apply strcpy_local_no_nul.
    split; intros H; symmetry; exact H. }
  split.
  - intros H. apply andb_prop in H. destruct H as [_ H].
    apply Z.eqb_eq in H. apply Hcmp. exact H.
  - intros H. apply andb_true_intro. split.
    + apply Z.eqb_eq. unfold nl.
      rewrite (strlen_local_strcpy name), (strlen_local_strcpy c), H. reflexivity.
    + apply Z.eqb_eq. apply Hcmp. exact H.
Qed.

End SplitRecord.

(** ** The directory after [ext2_add_dir_entry] *)

Lemma dir_block_ok_intro block bs es : forall fuel off,
  records block bs off es ->
  (forall x, In x es -> dir_actual_len (de_name_len block x) <= de_rec_len block x) ->
  (length es < fuel)%nat ->
  dir_block_ok fuel block bs off = true.
Proof.
  induction es as [|e es IH]; intros fuel off Hrec Hal Hfuel; simpl in Hrec.
  - subst off. destruct fuel; [lia|]. simpl. rewrite Z.eqb_refl. reflexivity.
  - destruct Hrec as (-> & H0 & Hnl & Hrl & Hend & Hrest).
    destruct fuel as [|fuel]; [simpl in Hfuel; lia|]. cbn [dir_block_ok].
    destruct (Z.eqb_spec off bs); [lia|].
    pose proof (Hal off (or_introl eq_refl)).
    rewrite (IH fuel _ Hrest) by (try (intros x Hx; apply Hal; right; exact Hx);
                                  simpl in Hfuel; lia).
    rewrite andb_true_r.
    apply andb_true_intro. split; [apply andb_true_intro; split|]; apply Z.leb_le; lia.
Qed.

Lemma dir_block_ok_aligned block bs : forall fuel off x,
  dir_block_ok fuel block bs off = true ->
  In x (dir_chain fuel block bs off) ->
  dir_actual_len (de_name_len block x) <= de_rec_len block x.
Proof.
  induction fuel as [|fuel IH]; intros off x Hok Hin; [discriminate|].
  cbn [dir_block_ok dir_chain] in *.
  destruct (Z.eqb_spec off bs) as [->|Hne].
  - destruct (Z.ltb_spec bs bs); [lia|]. destruct Hin.
  - apply andb_prop in Hok. destruct Hok as [Hok Hrest].
    apply andb_prop in Hok. destruct Hok as [Hok Hend].
    apply andb_prop in Hok. destruct Hok as [H8 Hal].
    apply Z.leb_le in H8, Hal, Hend.
    destruct (Z.ltb_spec off bs); [|lia].
    destruct Hin as [<-|Hin]; [exact Hal|].
    apply (IH _ _ Hrest Hin).
Qed.

(** A chain of records is the chain the block determines. *)
Lemma records_chain block bs es : forall fuel off,
  records block bs off es -> (length es < fuel)%nat ->
  dir_chain fuel block bs off = es.
Proof.
  induction es as [|e es IH]; intros fuel off Hrec Hfuel; simpl in Hrec.
  - subst off. destruct fuel; [lia|]. simpl.
    destruct (Z.ltb_spec bs bs); [lia|reflexivity].
  - destruct Hrec as (-> & H0 & Hnl & Hrl & Hend & Hrest).
    destruct fuel as [|fuel]; [simpl in Hfuel; lia|]. cbn [dir_chain].
    destruct (Z.ltb_spec off bs); [|lia].
    f_equal. apply IH; [exact Hrest|simpl in Hfuel; lia].
Qed.

Lemma bytes_ok_lookup (l : list Z) :
  bytes_ok l = true <-> forall i x, l !! i = Some x -> 0 <= x < 256.
Proof.
  split.
  - intros H i x Hi. apply (bytes_ok_elem l x H).
    apply list_elem_of_In. apply list_elem_of_lookup. exists i. exact Hi.
  - intros H. apply bytes_ok_intro. intros b Hb.
    apply list_elem_of_In in Hb. apply list_elem_of_lookup in Hb.
    destruct Hb as [i Hi]. apply (H i b Hi).
Qed.

Lemma bytes_ok_set_u8 m off v : bytes_ok m = true -> bytes_ok (set_u8 m off v) = true.
Proof.
  intros H. apply bytes_ok_lookup. intros i x Hi. unfold set_u8 in Hi.
  destruct (decide (i = Z.to_nat off)) as [->|Hne].
  - destruct (decide (Z.to_nat off < length m)%nat).
    + rewrite list_lookup_insert_eq in Hi by lia. injection Hi as <-. apply u8_range.
    + rewrite list_insert_ge in Hi by lia.
      apply (proj1 (bytes_ok_lookup m) H _ _ Hi).
  - rewrite list_lookup_insert_ne in Hi by lia.
    apply (proj1 (bytes_ok_lookup m) H _ _ Hi).
Qed.

Lemma bytes_ok_inserts (l k : list Z) off :
  bytes_ok l = true -> bytes_ok k = true -> bytes_ok (list_inserts off k l) = true.
Proof.
  intros Hl Hk. apply bytes_ok_lookup. intros i x Hi.
  destruct (decide (i < off)%nat).
  { rewrite list_lookup_inserts_lt in Hi by lia.
    apply (proj1 (bytes_ok_lookup l) Hl _ _ Hi). }
  destruct (decide (off + length k <= i)%nat).
  { rewrite list_lookup_inserts_ge in Hi by lia.
    apply (proj1 (bytes_ok_lookup l) Hl _ _ Hi). }
  destruct (decide (i < length l)%nat).
  - rewrite list_lookup_inserts in Hi by lia.
    apply (proj1 (bytes_ok_lookup k) Hk _ _ Hi).
  - rewrite lookup_ge_None_2 in Hi by (rewrite length_inserts; lia). discriminate.
Qed.

Lemma bytes_ok_split_record B e n name nl type :
  bytes_ok B = true -> bytes_ok name = true ->
  bytes_ok (split_record B e n name nl type) = true.
Proof.
  intros HB Hname. unfold split_record, memcpy_local, set_u32, set_u16.
  apply bytes_ok_inserts; [|apply bytes_ok_take, bytes_ok_drop, Hname].
  repeat apply bytes_ok_set_u8. exact HB.
Qed.

Lemma first_slack_inv bl B e :
  first_slack bl = Some (B, e) ->
  exists pre es post,
    bl = pre ++ (B, es) :: post
    /\ List.find (has_slack B) es = Some e
    /\ forall B0 es0, In (B0, es0) pre -> List.find (has_slack B0) es0 = None.
Proof.
  induction bl as [|[B1 es1] bl IH]; intros H; simpl in H; [discriminate|].
  destruct (List.find (has_slack B1) es1) as [e1|] eqn:Hf.
  - injection H as -> ->. exists [], es1, bl.
    split; [reflexivity|]. split; [exact Hf|]. intros ? ? [].
  - destruct (IH H) as (pre & es & post & -> & Hfind & Hpre).
    exists ((B1, es1) :: pre), es, post.
    split; [reflexivity|]. split; [exact Hfind|].
    intros B0 es0 [E|Hin]; [injection E as <- <-; exact Hf|].
    apply (Hpre _ _ Hin).
Qed.

Lemma add_list_first fs ino n name type pre B es post e : forall j,
  List.find (has_slack B) es = Some e ->
  (forall B0 es0, In (B0, es0) pre -> List.find (has_slack B0) es0 = None) ->
  add_list fs ino n name type j (pre ++ (B, es) :: post)
  = Some (0, disk_put fs (i_block ino (Z.of_nat (j + length pre)))
               (split_record B e n name (strlen_local name) type)).
Proof.
  induction pre as [|[B0 es0] pre IH]; intros j Hf Hpre.
  - cbn [app add_list length]. rewrite Hf, Nat.add_0_r. reflexivity.
  - cbn [app add_list length]. rewrite (Hpre B0 es0 (or_introl eq_refl)).
    rewrite IH; [|exact Hf|intros; apply Hpre; right; assumption].
    replace (S j + length pre)%nat with (j + S (length pre))%nat by lia.
    reflexivity.
Qed.

Lemma find_split {A} (f : A -> bool) l x :
  List.find f l = Some x -> exists pre post, l = pre ++ x :: post /\ f x = true.
Proof.
  intros H. apply find_some in H. destruct H as [Hin Hf].
  apply in_split in Hin. destruct Hin as (pre & post & ->).
  exists pre, post. split; [reflexivity|exact Hf].
Qed.

(** The call in a directory with room: which record is split, the file
    system it leaves, and what lookups give there. *)
Lemma add_dir_entry_effect fs ino dnum n name type :
  fs_geom fs = true -> bytes_ok (disk fs) = true -> dir_wf fs ino = true ->
  Z.land (i_mode ino) EXT2_S_IFDIR <> 0 ->
  bytes_ok name = true -> 0 < strlen_local name <= 255 ->
  0 < n < 4294967296 ->
  add_room fs ino name = true ->
  exists prel B es postl pre e post fs',
    dir_view fs ino = prel ++ (B, es) :: postl
    /\ es = pre ++ e :: post
    /\ has_slack B e = true
    /\ dir_actual_len (strlen_local name)
       <= de_rec_len B e - dir_actual_len (de_name_len B e)
    /\ fs' = disk_put fs (i_block ino (Z.of_nat (length prel)))
                (split_record B e n name (strlen_local name) type)
    /\ ext2_add_dir_entry fs ino dnum n name type = (0, fs', ino)
    /\ fs_geom fs' = true /\ bytes_ok (disk fs') = true
    /\ frame [blk_addr fs (i_block ino (Z.of_nat (length prel)))] fs fs'
    /\ (ext2_find_dir_entry fs ino name = None ->
        ext2_find_dir_entry fs' ino name = Some n)
    /\ (forall c, bytes_ok c = true -> strcpy_local c <> strcpy_local name ->
          ext2_find_dir_entry fs' ino c = ext2_find_dir_entry fs ino c).
Proof.
  intros G Hdisk Hwf Hdir Hbn Hname Hn Hroom.
  destruct (dir_wf_layout fs ino G Hdisk Hwf) as (Hlay & Hbs & Hdist).
  destruct (geom_facts fs G) as (Hbs0 & _).
  unfold add_room in Hroom.
  destruct (first_slack (dir_view fs ino)) as [[B e]|] eqn:Hslack; [|discriminate].
  apply Z.leb_le in Hroom.
  destruct (first_slack_inv _ _ _ Hslack) as (prel & es & postl & Hview & Hfind & Hprel).
  destruct (find_split _ _ _ Hfind) as (pre & post & Hes & Hsl).
  assert (HB : dir_view fs ino !! length prel = Some (B, es)).
  { rewrite Hview, lookup_app_r by lia.
    replace (length prel - length prel)%nat with 0%nat by lia. reflexivity. }
  destruct (layout_block fs ino _ G Hlay _ _ _ HB) as (Hnz & Hok & Hdata & Hrec & HlenB).
  rewrite Hes in Hrec.
  set (j := Z.of_nat (length prel)) in *.
  set (A := dir_actual_len (de_name_len B e)) in *.
  set (B' := split_record B e n name (strlen_local name) type).
  set (es' := pre ++ e :: (e + A) :: post).
  set (fs' := disk_put fs (i_block ino j) B').
  assert (HlenB' : length B' = length B) by apply length_split_record.
  assert (Hrec' : records B' (block_size fs) 0 es').
  { apply (split_records B (block_size fs) pre post e n name type); assumption || lia. }
  assert (G' : fs_geom fs' = true) by apply disk_put_geom, G.
  assert (Hlay' : dir_layout fs' ino (prel ++ (B', es') :: postl)).
  { apply (dir_layout_update fs ino prel B es postl B' es' G).
    - rewrite <- Hview. exact Hlay.
    - intros k Hk Hne. apply Hdist; [rewrite Hview; exact Hk| |exact Hne].
      rewrite Hview, length_app. simpl. lia.
    - exact Hrec'.
    - exact HlenB'. }
  assert (HbB : bytes_ok B = true) by (rewrite <- Hdata; apply bytes_ok_blk_data, Hdisk).
  assert (Hdisk' : bytes_ok (disk fs') = true).
  { unfold fs', disk_put, disk. simpl. fold (disk fs).
    apply bytes_ok_inserts; [exact Hdisk|].
    apply bytes_ok_split_record; assumption. }
  assert (Hfind' : forall c, ext2_find_dir_entry fs' ino c
                             = first_match_list c (prel ++ (B', es') :: postl)).
  { intros c. apply (find_dir_entry_layout fs' ino _ G' Hlay' c Hdir). }
  assert (Hfind0 : forall c, ext2_find_dir_entry fs ino c
                             = first_match_list c (prel ++ (B, es) :: postl)).
  { intros c. rewrite <- Hview. apply (find_dir_entry_layout fs ino _ G Hlay c Hdir). }
  exists prel, B, es, postl, pre, e, post, fs'.
  split; [exact Hview|]. split; [exact Hes|]. split; [exact Hsl|].
  split; [exact Hroom|]. split; [reflexivity|]. split.
  { apply (add_dir_entry_layout fs ino (dir_view fs ino) G Hlay dnum n name type 0 fs');
      [lia|exact Hname|].
    rewrite Hview.
    rewrite (add_list_first fs ino n name type prel B es postl e 0 Hfind Hprel).
    reflexivity. }
  split; [exact G'|]. split; [exact Hdisk'|]. split.
  { apply (frame_disk_put _ fs (i_block ino j) B' G); [left; reflexivity|lia]. }
  split.
  - intros Hnone. rewrite Hfind'. rewrite Hfind0 in Hnone.
    rewrite first_match_list_app in Hnone |- *.
    destruct (first_match_list name prel); [discriminate|].
    cbn [first_match_list] in Hnone |- *.
    destruct (split_first_match B (block_size fs) pre post e n name type
                ltac:(assumption) ltac:(lia) ltac:(lia) Hsl Hroom Hname Hn name)
      as [E1 E2].
    fold A B' es' in E1. rewrite E1. rewrite Hes, E2 in Hnone.
    destruct (first_match B name (pre ++ [e])); [discriminate|].
    destruct (first_match B name post); [discriminate|].
    pose proof (proj2 (split_live_match B (block_size fs) pre post e n name type
                         ltac:(assumption) ltac:(lia) ltac:(lia) Hsl Hroom Hname Hn
                         name Hbn Hbn) eq_refl) as Hlm.
    fold A B' in Hlm. rewrite Hlm. reflexivity.
  - intros c Hbc Hne. rewrite Hfind', Hfind0.
    rewrite !first_match_list_app. cbn [first_match_list].
    destruct (split_first_match B (block_size fs) pre post e n name type
                ltac:(assumption) ltac:(lia) ltac:(lia) Hsl Hroom Hname Hn c)
      as [E1 E2].
    fold A B' es' in E1. rewrite E1, Hes, E2.
    destruct (live_match B' c (e + A)) eqn:Hlm; [|reflexivity].
    exfalso. apply Hne.
    apply (split_live_match B (block_size fs) pre post e n name type
             ltac:(assumption) ltac:(lia) ltac:(lia) Hsl Hroom Hname Hn c Hbn Hbc).
    exact Hlm.
Qed.

(** X29.  When the first record with slack of a well-formed directory has
    room for the new name, [ext2_add_dir_entry] returns 0, the directory
    stays well formed, a name that was not in the directory is
    afterwards found with the new inode number, and the lookup of every
    other name gives what it gave before. *)
Theorem add_dir_entry_then_find fs ino dnum n name type :
  fs_geom fs = true -> bytes_ok (disk fs) = true -> dir_wf fs ino = true ->
  Z.land (i_mode ino) EXT2_S_IFDIR <> 0 ->
  bytes_ok name = true -> 0 < strlen_local name <= 255 ->
  0 < n < 4294967296 ->
  add_room fs ino name = true ->
  exists fs',
    ext2_add_dir_entry fs ino dnum n name type = (0, fs', ino)
    /\ fs_geom fs' = true /\ bytes_ok (disk fs') = true /\ dir_wf fs' ino = true
    /\ (ext2_find_dir_entry fs ino name = None ->
        ext2_find_dir_entry fs' ino name = Some n)
    /\ (forall c, bytes_ok c = true -> strcpy_local c <> strcpy_local name ->
          ext2_find_dir_entry fs' ino c = ext2_find_dir_entry fs ino c).
Proof.
  intros G Hdisk Hwf Hdir Hbn Hname Hn Hroom.
  destruct (add_dir_entry_effect fs ino dnum n name type G Hdisk Hwf Hdir Hbn Hname Hn Hroom)
    as (prel & B & es & postl & pre & e & post & fs' & Hview & Hes & Hsl & Hfit & Hfs'
        & Hrun & G' & Hdisk' & _ & Hnew & Hother).
  destruct (dir_wf_layout fs ino G Hdisk Hwf) as (Hlay & Hbs & Hdist).
  destruct (geom_facts fs G) as (Hbs0 & _).
  assert (HB : dir_view fs ino !! length prel = Some (B, es)).
  { rewrite Hview, lookup_app_r by lia.
    replace (length prel - length prel)%nat with 0%nat by lia. reflexivity. }
  destruct (layout_block fs ino _ G Hlay _ _ _ HB) as (Hnz & Hok & Hdata & Hrec & HlenB).
  set (j := Z.of_nat (length prel)) in *.
  set (B' := split_record B e n name (strlen_local name) type) in *.
  assert (Hrec' : records B' (block_size fs) 0
                    (pre ++ e :: (e + dir_actual_len (de_name_len B e)) :: post)).
  { apply (split_records B (block_size fs) pre post e n name type);
      try assumption; try lia. rewrite <- Hes. exact Hrec. }
  exists fs'. split; [exact Hrun|]. split; [exact G'|]. split; [exact Hdisk'|].
  split; [|split; [exact Hnew|exact Hother]].
  pose proof Hwf as Hwf0. unfold dir_wf in Hwf0 |- *. subst fs'.
  change (file_nblocks (disk_put fs (i_block ino j) B') ino) with (file_nblocks fs ino).
  change (block_size (disk_put fs (i_block ino j) B')) with (block_size fs).
  change (dir_blocks (disk_put fs (i_block ino j) B') ino) with (dir_blocks fs ino).
  cbv zeta in Hwf0 |- *.
  apply andb_prop in Hwf0. destruct Hwf0 as [Hwf0 Hd].
  apply andb_prop in Hwf0. destruct Hwf0 as [Hhead Hall].
  apply andb_true_intro. split; [|exact Hd].
  apply andb_true_intro. split; [exact Hhead|].
  rewrite forallb_forall in Hall |- *. intros b Hb.
  specialize (Hall b Hb).
  apply andb_prop in Hall. destruct Hall as [Hall Hbok].
  change (blk_ok (disk_put fs (i_block ino j) B') b) with (blk_ok fs b).
  rewrite Hall. simpl andb.
  destruct (Z.eq_dec (blk_addr fs b) (blk_addr fs (i_block ino j))) as [E|E].
  - rewrite <- (disk_put_same_addr fs _ b B' E).
    apply andb_prop in Hall. destruct Hall as [_ Hbk].
    rewrite blk_data_disk_put_same;
      [|exact G|exact Hbk|unfold B'; rewrite length_split_record; lia].
    apply (dir_block_ok_intro B' (block_size fs) _ _ _ Hrec').
    + apply (split_aligned B (block_size fs) pre post e n name type);
        try assumption; try lia.
      * rewrite <- Hes. exact Hrec.
      * intros x Hx. rewrite <- Hes in Hx.
        rewrite (blk_data_same_addr fs _ _ E), Hdata in Hbok.
        apply (dir_block_ok_aligned B (block_size fs) _ 0 x Hbok).
        rewrite (records_chain B (block_size fs) es); [exact Hx|exact Hrec|].
        pose proof (records_length _ _ _ _ Hrec). lia.
    + pose proof (records_length _ _ _ _ Hrec'). lia.
  - rewrite blk_data_disk_put_other;
      [exact Hbok|exact G|unfold B'; rewrite length_split_record; lia|exact E].
Qed.

Lemma add_dir_entry_then_find_witness :
  exists fs',
    ext2_add_dir_entry img_fs img_root_inode 2 20 [120] EXT2_FT_REG_FILE
    = (0, fs', img_root_inode)
    /\ fs_geom fs' = true /\ bytes_ok (disk fs') = true
    /\ dir_wf fs' img_root_inode = true
    /\ (ext2_find_dir_entry img_fs img_root_inode [120] = None ->
        ext2_find_dir_entry fs' img_root_inode [120] = Some 20)
    /\ (forall c, bytes_ok c = true -> strcpy_local c <> strcpy_local [120] ->
          ext2_find_dir_entry fs' img_root_inode c
          = ext2_find_dir_entry img_fs img_root_inode c).
Proof.
  apply (add_dir_entry_then_find img_fs img_root_inode 2 20 [120] EXT2_FT_REG_FILE).
  - vm_compute. reflexivity.
  - vm_compute. reflexivity.
  - vm_compute. reflexivity.
  - vm_compute. discriminate.
  - vm_compute. reflexivity.
  - simpl. lia.
  - lia.
  - vm_compute. reflexivity.
Defined.

(** ** Creating a regular file *)

Lemma resolve_loop_keeps fs fs' : forall path comp cur r,
  bytes_ok path = true -> bytes_ok comp = true ->
  (forall c cmp i, In c (walk_inodes fs path comp cur) -> bytes_ok cmp = true ->
     path_step fs c cmp = Some i -> path_step fs' c cmp = Some i) ->
  resolve_loop fs path comp cur = Some r ->
  resolve_loop fs' path comp cur = Some r.
Proof.
  induction path as [|c path IH]; intros comp cur r Hpath Hcomp Hstep Hres.
  - simpl in *. destruct (0 <? Z.of_nat (length comp)); [|exact Hres].
    apply (Hstep cur comp r); [left; reflexivity|exact Hcomp|exact Hres].
  - apply bytes_ok_cons in Hpath. destruct Hpath as [Hc Hpath].
    cbn [resolve_loop walk_inodes] in *.
    destruct (c =? 0).
    { destruct (0 <? Z.of_nat (length comp)); [|exact Hres].
      apply (Hstep cur comp r); [left; reflexivity|exact Hcomp|exact Hres]. }
    destruct (c =? slash).
    + destruct (0 <? Z.of_nat (length comp)).
      * destruct (path_step fs cur comp) as [ino|] eqn:E; [|discriminate].
        rewrite (Hstep cur comp ino (or_introl eq_refl) Hcomp E).
        apply IH; [exact Hpath|reflexivity| |exact Hres].
        intros c' cmp i Hin. apply Hstep. right. exact Hin.
      * apply IH; assumption.
    + destruct (Z.of_nat (length comp) <? 255).
      * apply IH; [exact Hpath|apply bytes_ok_snoc; assumption|exact Hstep|exact Hres].
      * apply IH; assumption.
Qed.

Lemma resolve_path_keeps fs fs' path r :
  bytes_ok path = true ->
  (forall c cmp i, In c (path_inodes fs path) -> bytes_ok cmp = true ->
     path_step fs c cmp = Some i -> path_step fs' c cmp = Some i) ->
  vfs_resolve_path (Some fs) path = Some r ->
  vfs_resolve_path (Some fs') path = Some r.
Proof.
  intros Hpath Hstep. unfold vfs_resolve_path, path_inodes in *.
  destruct (strcmp_local path [slash] =? 0); [auto|].
  apply resolve_loop_keeps; [|reflexivity|exact Hstep].
  destruct (byte_at path 0 =? slash); [apply bytes_ok_drop|]; exact Hpath.
Qed.

(** Writing inode [n] leaves the inodes in other slots as they were. *)
Lemma write_inode_other_slot fs n (ino : list Z) m :
  fs_geom fs = true -> length ino = 128%nat -> inode_ok fs n = true ->
  blk_addr fs (inode_block fs m) <> blk_addr fs (inode_block fs n)
  \/ inode_slot fs m <> inode_slot fs n ->
  ext2_read_inode
    (disk_put fs (inode_block fs n)
       (list_inserts (Z.to_nat (inode_slot fs n)) ino (blk_data fs (inode_block fs n))))
    m
  = ext2_read_inode fs m.
Proof.
  intros Hgeom Hlen Hok Hm.
  set (fs' := disk_put fs (inode_block fs n)
                (list_inserts (Z.to_nat (inode_slot fs n)) ino
                   (blk_data fs (inode_block fs n)))).
  assert (G' : fs_geom fs' = true) by apply disk_put_geom, Hgeom.
  rewrite !read_inode_spec by assumption.
  change (inode_ok fs' m) with (inode_ok fs m).
  destruct (inode_ok fs m) eqn:Hokm; [|reflexivity].
  f_equal. unfold inode_at.
  change (inode_block fs' m) with (inode_block fs m).
  change (inode_slot fs' m) with (inode_slot fs m).
  unfold inode_ok in Hok, Hokm.
  apply andb_prop in Hok. destruct Hok as [_ Hblk].
  apply andb_prop in Hokm. destruct Hokm as [_ Hblkm].
  pose proof (length_blk_data fs Hgeom _ Hblk) as Hlb.
  pose proof (inode_slot_bound fs n Hgeom) as Hsn.
  pose proof (inode_slot_bound fs m Hgeom) as Hsm.
  unfold INODE_SIZE in *.
  destruct (Z.eq_dec (blk_addr fs (inode_block fs m)) (blk_addr fs (inode_block fs n)))
    as [Heq|Hne].
  - assert (Hslot : inode_slot fs m <> inode_slot fs n) by (destruct Hm; congruence).
    assert (E1 : blk_data fs' (inode_block fs m) = blk_data fs' (inode_block fs n)).
    { unfold blk_data.
      change (blk_addr fs' (inode_block fs m)) with (blk_addr fs (inode_block fs m)).
      change (blk_addr fs' (inode_block fs n)) with (blk_addr fs (inode_block fs n)).
      rewrite Heq. reflexivity. }
    assert (E2 : blk_data fs (inode_block fs m) = blk_data fs (inode_block fs n)).
    { unfold blk_data. rewrite Heq. reflexivity. }
    rewrite E1, E2. unfold fs'.
    rewrite blk_data_disk_put_same;
      [|assumption|assumption|rewrite length_inserts; assumption].
    apply slice_inserts_disjoint.
    unfold inode_slot, INODE_SIZE in *.
    set (a := (u32 (m - 1) mod inodes_per_group fs) mod (block_size fs / 128)) in *.
    set (b := (u32 (n - 1) mod inodes_per_group fs) mod (block_size fs / 128)) in *.
    assert (a <> b) by (intros E; apply Hslot; rewrite E; reflexivity).
    lia.
  - unfold fs'. rewrite blk_data_disk_put_other;
      [reflexivity|assumption|rewrite length_inserts; assumption|assumption].
Qed.

(** A directory whose blocks a frame leaves alone. *)
Lemma dir_frame W fs fs' ino :
  frame W fs fs' ->
  (forall b, In b (dir_blocks fs ino) -> ~ In (blk_addr fs b) W) ->
  dir_view fs' ino = dir_view fs ino /\ dir_wf fs' ino = dir_wf fs ino.
Proof.
  intros (G' & L & D) Hout. pose proof L as (E1 & _).
  assert (Eb : dir_blocks fs' ino = dir_blocks fs ino).
  { unfold dir_blocks, file_nblocks. rewrite E1. reflexivity. }
  assert (Ev : dir_view fs' ino = dir_view fs ino).
  { unfold dir_view. rewrite Eb, E1. apply map_ext_in. intros b Hb.
    rewrite (D b (Hout b Hb)). reflexivity. }
  split; [exact Ev|].
  unfold dir_wf. rewrite Eb. unfold file_nblocks. rewrite E1.
  f_equal; [f_equal|].
  - apply forallb_agree. intros b Hb.
    rewrite (same_layout_blk_ok fs fs' _ L), (D b (Hout b Hb)). reflexivity.
  - f_equal. apply map_ext. intros b. apply (same_layout_blk_addr fs fs' _ L).
Qed.

Lemma bytes_ok_set_u16 m off v : bytes_ok m = true -> bytes_ok (set_u16 m off v) = true.
Proof. intros H. unfold set_u16. repeat apply bytes_ok_set_u8. exact H. Qed.

Lemma bytes_ok_set_u32 m off v : bytes_ok m = true -> bytes_ok (set_u32 m off v) = true.
Proof. intros H. unfold set_u32. repeat apply bytes_ok_set_u8. exact H. Qed.

Lemma bytes_ok_disk_put fs b (buf : list Z) :
  bytes_ok (disk fs) = true -> bytes_ok buf = true ->
  bytes_ok (disk (disk_put fs b buf)) = true.
Proof.
  intros Hd Hb. unfold disk_put, disk. simpl. fold (disk fs).
  apply bytes_ok_inserts; assumption.
Qed.

Lemma new_file_inode_fields t :
  length (new_file_inode t) = 128%nat
  /\ bytes_ok (new_file_inode t) = true
  /\ i_mode (new_file_inode t) = 33188
  /\ i_size (new_file_inode t) = 0
  /\ i_links_count (new_file_inode t) = 1.
Proof.
  unfold new_file_inode. cbv zeta.
  assert (E : memset_local (replicate (Z.to_nat INODE_SIZE) 0) 0 0 INODE_SIZE
              = replicate 128%nat 0) by (vm_compute; reflexivity).
  rewrite E. clear E.
  assert (Hlen : length (replicate 128%nat 0) = 128%nat) by apply length_replicate.
  assert (Hb : bytes_ok (replicate 128%nat 0) = true) by (vm_compute; reflexivity).
  revert Hlen Hb. generalize (replicate 128%nat 0). intros z Hlen Hb.
  unfold set_i_mtime, set_i_ctime, set_i_atime, set_i_blocks, set_i_size,
    set_i_links_count, set_i_mode.
  split; [|split; [|split; [|split]]].
  - rewrite !length_set_u32, !length_set_u16. exact Hlen.
  - repeat first [apply bytes_ok_set_u32 | apply bytes_ok_set_u16]. exact Hb.
  - unfold i_mode. rewrite !get_u16_set_u32_ne by lia.
    rewrite get_u16_set_u16_ne by lia.
    rewrite get_u16_set_u16 by lia. reflexivity.
  - unfold i_size. rewrite !get_u32_set_u32_ne by lia.
    rewrite get_u32_set_u32 by (rewrite ?length_set_u16; lia).
    reflexivity.
  - unfold i_links_count. rewrite !get_u16_set_u32_ne by lia.
    rewrite get_u16_set_u16 by (rewrite ?length_set_u16; lia).
    reflexivity.
Qed.

Lemma find_dir_entry_same_name fs ino c name :
  fs_geom fs = true -> bytes_ok (disk fs) = true -> dir_wf fs ino = true ->
  strcpy_local c = strcpy_local name ->
  ext2_find_dir_entry fs ino c = ext2_find_dir_entry fs ino name.
Proof.
  intros G Hdisk Hwf E.
  destruct (dir_wf_layout fs ino G Hdisk Hwf) as (Hlay & _).
  destruct (Z.eq_dec (Z.land (i_mode ino) EXT2_S_IFDIR) 0) as [Hz|Hnz].
  - unfold ext2_find_dir_entry. rewrite Hz. reflexivity.
  - rewrite !(find_dir_entry_layout fs ino _ G Hlay _ Hnz).
    apply first_match_list_same_name. exact E.
Qed.

(** X30.  [vfs_create] of a regular file at a path that does not exist
    yet, in a well-formed parent directory with room for the name:
    the call returns 0, takes the lowest free inode for the file and
    writes the empty inode; afterwards the path exists and resolves to
    that inode, and [vfs_open] gives a handle on an empty file. *)
Theorem vfs_create_then_open fs path ticks n rest :
  fs_geom fs = true -> bytes_ok (disk fs) = true ->
  bytes_ok path = true -> strlen_local path < 4294967296 ->
  create_wf fs path = true ->
  free_inodes fs = n :: rest ->
  vfs_exists (Some fs) path = 0 ->
  exists fs',
    vfs_create (Some fs) path VFS_TYPE_FILE ticks = (0, Some fs')
    /\ vfs_exists (Some fs') path = 1
    /\ ext2_path_to_inode fs' path = n
    /\ ext2_read_inode fs' n = Some (new_file_inode ticks)
    /\ vfs_open (Some fs') path = Some (mk_file n 0 VFS_TYPE_FILE 0 1).
Proof.
  intros G Hdisk Hpath Hlen Hwf Hfree Hnew.
  unfold create_wf in Hwf.
  destruct (split_path path) as [[parent name]|] eqn:Hsplit; [|discriminate].
  destruct (vfs_resolve_path (Some fs) parent) as [pn|] eqn:Hres; [|discriminate].
  destruct (ext2_read_inode fs pn) as [pino|] eqn:Hpino; [|discriminate].
  rewrite Hfree in Hwf. cbv zeta in Hwf.
  set (PD := map (blk_addr fs) (dir_blocks fs pino)) in *.
  set (ibm := blk_addr fs (inode_bitmap_of fs n)) in *.
  set (itb := blk_addr fs (inode_block fs n)) in *.
  apply andb_prop in Hwf. destruct Hwf as [Hwf Hsep].
  apply andb_prop in Hwf. destruct Hwf as [Hwf Hitb_PD].
  apply andb_prop in Hwf. destruct Hwf as [Hwf Hibm_PD].
  apply andb_prop in Hwf. destruct Hwf as [Hwf Hbt].
  apply andb_prop in Hwf. destruct Hwf as [Hwf Hnok].
  apply andb_prop in Hwf. destruct Hwf as [Hwf Hawf].
  apply andb_prop in Hwf. destruct Hwf as [Hwf Hroom].
  apply andb_prop in Hwf. destruct Hwf as [Hdwf Hisdir].
  apply negb_true_iff, Z.eqb_neq in Hisdir, Hbt.
  apply negb_true_iff, existsb_eqb_false in Hitb_PD, Hibm_PD.
  rewrite forallb_forall in Hsep.
  destruct (split_path_name path parent name Hpath Hlen Hsplit)
    as (Hname & Hnlen & Hparent).
  destruct (inode_alloc_wf_facts fs Hawf) as (Hipg & Hfit & HN & Hokbm & Hdist).
  (* the allocation *)
  destruct (alloc_inode_first fs G Hawf)
    as [[E _]|(g & i & rest' & Hg & Hi & Hfree' & Hrun)];
    [rewrite E in Hfree; discriminate|].
  rewrite Hfree in Hfree'. injection Hfree' as Hn _.
  rewrite <- Hn in Hrun.
  destruct (inode_bit_of_group fs g i Hipg HN Hg Hi) as (_ & Hgrp & _ & _).
  rewrite <- Hn in Hgrp.
  assert (Hnrange : 0 < n < 4294967296) by nia.
  set (fs1 := inode_alloc_update fs g i) in *.
  assert (F1 : frame [ibm] fs fs1).
  { unfold ibm, inode_bitmap_of. rewrite Hgrp.
    apply inode_alloc_update_frame; [exact G|lia|apply Hokbm, Hg]. }
  pose proof F1 as (G1 & L1 & D1).
  assert (Hdisk1 : bytes_ok (disk fs1) = true).
  { change (disk fs1)
      with (disk (disk_put fs (bg_inode_bitmap (block_groups fs) g)
                    (bitmap_set (blk_data fs (bg_inode_bitmap (block_groups fs) g)) i))).
    apply bytes_ok_disk_put; [exact Hdisk|].
    unfold bitmap_set. apply bytes_ok_set_u8, bytes_ok_blk_data, Hdisk. }
  (* the new inode *)
  destruct (new_file_inode_fields ticks) as (Hnlen128 & Hnbytes & Hmode & Hsize & _).
  set (new := new_file_inode ticks) in *.
  destruct (same_layout_inode fs fs1 n L1 Hipg) as (_ & Eb1 & Es1 & Eok1 & _).
  assert (Hok1 : inode_ok fs1 n = true) by (rewrite Eok1; exact Hnok).
  pose proof (write_inode_spec fs1 n new G1 Hnlen128) as Hw. rewrite Hok1 in Hw.
  set (fs2 := disk_put fs1 (inode_block fs1 n)
                (list_inserts (Z.to_nat (inode_slot fs1 n)) new
                   (blk_data fs1 (inode_block fs1 n)))) in *.
  assert (Hblk1 : blk_ok fs1 (inode_block fs1 n) = true).
  { unfold inode_ok in Hok1. apply andb_prop in Hok1. apply Hok1. }
  assert (Hlenb : Z.of_nat (length (list_inserts (Z.to_nat (inode_slot fs1 n)) new
                                      (blk_data fs1 (inode_block fs1 n))))
                  = block_size fs1).
  { rewrite length_inserts. apply length_blk_data; assumption. }
  assert (Eitb : blk_addr fs1 (inode_block fs1 n) = itb).
  { rewrite Eb1. apply (same_layout_blk_addr fs fs1 _ L1). }
  assert (F2 : frame [itb] fs1 fs2).
  { apply frame_disk_put; [exact G1|left; symmetry; exact Eitb|exact Hlenb]. }
  pose proof F2 as (G2 & L2 & D2).
  assert (Hdisk2 : bytes_ok (disk fs2) = true).
  { apply bytes_ok_disk_put; [exact Hdisk1|].
    apply bytes_ok_inserts; [apply bytes_ok_blk_data, Hdisk1|exact Hnbytes]. }
  destruct (read_inode_after_write fs1 n new fs2 G1 Hnlen128 Hok1 Hw) as [_ Hread2n].
  assert (F02 : frame [ibm; itb] fs fs2).
  { eapply frame_trans.
    - eapply frame_weaken; [|exact F1]. intros x [<-|[]]. left. reflexivity.
    - eapply frame_weaken; [|exact F2]. intros x [<-|[]]. right. left. reflexivity. }
  pose proof F02 as (_ & L02 & _).
  (* the directory entry *)
  assert (Hout02 : forall b, In b (dir_blocks fs pino) -> ~ In (blk_addr fs b) [ibm; itb]).
  { intros b Hb [E|[E|[]]].
    - apply Hibm_PD. rewrite E. apply in_map, Hb.
    - apply Hitb_PD. rewrite E. apply in_map, Hb. }
  destruct (dir_frame [ibm; itb] fs fs2 pino F02 Hout02) as [Ev Ew].
  assert (Hdwf2 : dir_wf fs2 pino = true) by (rewrite Ew; exact Hdwf).
  assert (Hroom2 : add_room fs2 pino name = true).
  { unfold add_room in *. rewrite Ev. exact Hroom. }
  destruct (add_dir_entry_effect fs2 pino pn n name EXT2_FT_REG_FILE
              G2 Hdisk2 Hdwf2 Hisdir Hname Hnlen Hnrange Hroom2)
    as (prel & B & es & postl & pre & e & post & fs3 & Hview & _ & _ & _ & _
        & Hrun3 & G3 & Hdisk3 & F3 & Hfind_new & Hfind_other).
  set (bj := i_block pino (Z.of_nat (length prel))) in *.
  assert (Hbj : In (blk_addr fs bj) PD).
  { apply in_map. apply list_elem_of_In. apply list_elem_of_lookup. exists (length prel).
    apply dir_blocks_lookup. rewrite <- length_dir_view, <- Ev, Hview, length_app.
    simpl. lia. }
  assert (Ebj : blk_addr fs2 bj = blk_addr fs bj)
    by apply (same_layout_blk_addr fs fs2 _ L02).
  rewrite Ebj in F3.
  pose proof F3 as (_ & L3 & _).
  assert (F : frame (ibm :: itb :: PD) fs fs3).
  { eapply frame_trans.
    - eapply frame_weaken; [|exact F02].
      intros x [<-|[<-|[]]]; [left|right; left]; reflexivity.
    - eapply frame_weaken; [|exact F3].
      intros x [<-|[]]. right. right. exact Hbj. }
  (* the inodes of the walk read as before *)
  assert (Hread_c : forall c, In c (pn :: path_inodes fs parent) ->
            ext2_read_inode fs3 c = ext2_read_inode fs c).
  { intros c Hc. specialize (Hsep c Hc). unfold create_apart in Hsep.
    apply andb_prop in Hsep. destruct Hsep as [Hsep _].
    apply andb_prop in Hsep. destruct Hsep as [Hout Hslot].
    apply negb_true_iff, existsb_eqb_false in Hout.
    destruct (same_layout_inode fs fs1 c L1 Hipg) as (_ & Ebc1 & Esc1 & _).
    destruct (same_layout_inode fs fs2 c L02 Hipg) as (_ & Ebc2 & _).
    pose proof L02 as (_ & _ & Eipg2 & _).
    rewrite (frame_read_inode [blk_addr fs bj] fs2 fs3 G2 F3 c ltac:(lia)).
    2:{ rewrite Ebc2, (same_layout_blk_addr fs fs2 _ L02).
        intros [E|[]]. apply Hout. right. rewrite <- E. exact Hbj. }
    unfold fs2. rewrite (write_inode_other_slot fs1 n new c G1 Hnlen128 Hok1).
    2:{ rewrite Ebc1, Esc1, Es1, Eitb, (same_layout_blk_addr fs fs1 _ L1).
        apply orb_prop in Hslot. destruct Hslot as [H|H];
          apply negb_true_iff, Z.eqb_neq in H; [left|right]; exact H. }
    apply (frame_read_inode [ibm] fs fs1 G F1 c Hipg).
    intros [E|[]]. apply Hout. left. exact E. }
  assert (Hpino3 : ext2_read_inode fs3 pn = Some pino).
  { rewrite Hread_c by (left; reflexivity). exact Hpino. }
  (* the call *)
  assert (Hcreate : vfs_create (Some fs) path VFS_TYPE_FILE ticks = (0, Some fs3)).
  { unfold vfs_create. rewrite Hsplit, Hres, Hpino, Hrun.
    destruct (Z.eqb_spec n 0) as [|_]; [lia|].
    change (VFS_TYPE_FILE =? VFS_TYPE_FILE) with true.
    change (VFS_TYPE_FILE =? VFS_TYPE_DIR) with false.
    cbn [negb andb]. cbv iota. cbv zeta.
    unfold new, new_file_inode in Hw. cbv zeta in Hw. rewrite Hw.
    change (0 =? 0) with true. cbn [negb]. cbv iota.
    rewrite Hrun3. change (0 =? 0) with true. cbn [negb]. cbv iota.
    rewrite (write_inode_unchanged fs3 pn pino G3 Hpino3).
    reflexivity. }
  (* lookups afterwards *)
  assert (Hfind0 : ext2_find_dir_entry fs pino name = None).
  { unfold vfs_exists in Hnew.
    rewrite (resolve_path_split fs path parent name Hpath Hlen Hsplit), Hres in Hnew.
    unfold path_step in Hnew. rewrite Hpino in Hnew.
    destruct (ext2_find_dir_entry fs pino name); [discriminate|reflexivity]. }
  destruct (dir_wf_layout fs pino G Hdisk Hdwf) as (Hlay & _).
  assert (Hlay2 : dir_layout fs2 pino (dir_view fs pino)).
  { apply (dir_layout_frame [ibm; itb] fs fs2 pino _ Hlay F02).
    intros j Hj. apply Hout02.
    apply list_elem_of_In. apply list_elem_of_lookup. exists j.
    apply dir_blocks_lookup. rewrite <- length_dir_view. exact Hj. }
  assert (Hfind2 : forall c, ext2_find_dir_entry fs2 pino c = ext2_find_dir_entry fs pino c).
  { intros c. rewrite (find_dir_entry_layout fs2 pino _ G2 Hlay2 c Hisdir).
    rewrite (find_dir_entry_layout fs pino _ G Hlay c Hisdir). reflexivity. }
  assert (Hstep_name : path_step fs3 pn name = Some n).
  { unfold path_step. rewrite Hpino3. apply Hfind_new. rewrite Hfind2. exact Hfind0. }
  assert (Hres3 : vfs_resolve_path (Some fs3) parent = Some pn).
  { apply (resolve_path_keeps fs fs3 parent pn Hparent); [|exact Hres].
    intros c cmp r Hin Hcmp Hstep.
    destruct (Z.eq_dec c pn) as [->|Hne].
    - unfold path_step in *. rewrite Hpino3. rewrite Hpino in Hstep.
      rewrite Hfind_other, Hfind2; [exact Hstep|exact Hcmp|].
      intros E. rewrite (find_dir_entry_same_name fs pino cmp name G Hdisk Hdwf E) in Hstep.
      congruence.
    - unfold path_step in *. rewrite (Hread_c c (or_intror Hin)).
      destruct (ext2_read_inode fs c) as [cino|] eqn:Hcino; [|discriminate].
      specialize (Hsep c (or_intror Hin)). unfold create_apart in Hsep.
      apply andb_prop in Hsep. destruct Hsep as [_ Hblocks].
      destruct (Z.eqb_spec c pn); [contradiction|]. cbn [orb] in Hblocks.
      rewrite Hcino in Hblocks.
      apply andb_prop in Hblocks. destruct Hblocks as [Hsz Hdis].
      apply Z.leb_le in Hsz.
      rewrite (frame_find_dir_entry _ fs fs3 G F cino cmp Hsz); [exact Hstep|].
      intros j Hj. apply (disjoint_spec _ _ _ Hdis).
      apply in_map. apply in_direct_blocks, Hj. }
  assert (Hpath3 : vfs_resolve_path (Some fs3) path = Some n).
  { rewrite (resolve_path_split fs3 path parent name Hpath Hlen Hsplit), Hres3.
    exact Hstep_name. }
  assert (Hread3n : ext2_read_inode fs3 n = Some new).
  { destruct (same_layout_inode fs fs2 n L02 Hipg) as (_ & Eb2 & _).
    pose proof L02 as (_ & _ & Eipg2 & _).
    rewrite (frame_read_inode [blk_addr fs bj] fs2 fs3 G2 F3 n ltac:(lia)); [exact Hread2n|].
    rewrite Eb2, (same_layout_blk_addr fs fs2 _ L02).
    intros [E|[]]. apply Hitb_PD. unfold itb. rewrite <- E. exact Hbj. }
  assert (Hreg : Z.land (i_mode new) 61440 = EXT2_S_IFREG)
    by (rewrite Hmode; reflexivity).
  exists fs3. split; [exact Hcreate|].
  split; [unfold vfs_exists; rewrite Hpath3; reflexivity|].
  assert (Hpi : ext2_path_to_inode fs3 path = n)
    by (rewrite path_to_inode_resolve, Hpath3; reflexivity).
  split; [exact Hpi|]. split; [exact Hread3n|].
  unfold vfs_open. rewrite Hpi.
  destruct (Z.eqb_spec n 0) as [|_]; [lia|]. rewrite Hread3n.
  cbn [open_follow]. rewrite (regular_not_symlink _ Hreg). cbn [andb].
  change (MAX_SYMLINK_DEPTH <=? 0) with false. cbv iota.
  rewrite (regular_not_dir _ Hreg), Hsize. reflexivity.
Qed.

Lemma vfs_create_then_open_witness :
  exists fs',
    vfs_create (Some img_fs) [slash; 120] VFS_TYPE_FILE 700 = (0, Some fs')
    /\ vfs_exists (Some fs') [slash; 120] = 1
    /\ ext2_path_to_inode fs' [slash; 120] = 20
    /\ ext2_read_inode fs' 20 = Some (new_file_inode 700)
    /\ vfs_open (Some fs') [slash; 120] = Some (mk_file 20 0 VFS_TYPE_FILE 0 1).
Proof.
  apply (vfs_create_then_open img_fs [slash; 120] 700 20 [21; 22; 23; 24]).
  - vm_compute. reflexivity.
  - vm_compute. reflexivity.
  - vm_compute. reflexivity.
  - vm_compute. reflexivity.
  - vm_compute. reflexivity.
  - vm_compute. reflexivity.
  - vm_compute. reflexivity.
Defined.

(** ** [ramdisk_create] and its allocations *)













(** On the heap as [heap_init] leaves it, a ramdisk of 1000 bytes gets
    1024 bytes of storage between its two structs, and one of 600000
    bytes is refused by the heap of 512 KiB, which is left as it was. *)
Lemma ramdisk_create_examples :
  match ramdisk_device (Heap.heap_init 1048577) 1000 with
  | Some (Some dev, heap') =>
    rd_size (device_data dev) = 1024
    /\ Heap.allocated heap' = [(1048596, 16); (1048624, 1024); (1049660, 24)]
  | _ => False
  end
  /\ ramdisk_device (Heap.heap_init 1048577) 600000
     = Some (None, Heap.heap_init 1048577).
Proof. vm_compute. repeat split; reflexivity. Qed.
